(* ===== verification/_CoqProject ===== *)
-Q . S2P
Prelude.v
KList.v
KListProps.v
ListIter.v
HList.v
HListProps.v
Release.v
ReleaseProps.v
CLib.v
CString.v
StrBuf.v
StrSafe.v
StrFmt.v
Hexdump.v
Log.v
StrNatCmp.v
StringProps.v
AddrMask.v
NumericHost.v
AddrMaskProps.v
Ar.v
ArProps.v
PeerParser.v
PeerSpec.v
PeerInv.v
PeerPrint.v
PeerProps.v
Config.v
World.v
Fs.v
FsProps.v
FsCopy.v
Tinc.v
TincSpec.v
TincProps.v
ConfigInit.v
Flex.v
ConfigLex.v
ConfigGram.v
ConfigGramProps.v
ConfigPrint.v
ConfigFile.v
ConfigProps.v
Daemon.v
Http.v
HttpProps.v
HttpRecv.v
Crypto.v
Sample.v
Request.v
Worker.v
WorkerLog.v
Main.v
RequestProps.v
Quiet.v
FsCopyProps.v
MainProps.v
WorkerProps.v
StartProps.v
Tests.v
