(* ===== verification/Prelude.v ===== *)
(** * ChaosVPN client: verification development

    The program fetches the configuration of a VPN from a server, checks that it
    was signed, writes the files the daemon tincd reads, and starts and restarts
    tincd.  It is two processes: the main process (main.c) waits, fetches and
    applies; a worker forked at the start keeps the rights of root, owns tincd, and
    obeys commands of one byte.  Everything else is a library to these two.

    ** The files and the code

    - Prelude.v: this header; texts, lists indexed by Z, machine integers, the
      [outcome] of a function (a value, a call of exit together with what the program
      did until then, undefined behaviour), the
      [Allocator], tactics and lemmas shared by all.
    - KList.v, KListProps.v: the circular lists of list.h on a heap of nodes;
      ListIter.v: splicing and the loops over entries; HList.v, HListProps.v: the
      lists with a single pointer head.
    - Release.v: memory as blocks that own list nodes, and everything that is given
      back: the freeing functions of parser.c, config.c, addrmask.c and daemon.c.
      ReleaseProps.v: their theorems.
    - CLib.v, CString.v: what the C library does to characters, strings and
      numbers; the inline functions of string/string.h on plain strings.
    - StrBuf.v, StrSafe.v, StrFmt.v: struct string of string/ and its formatter.
      StrNatCmp.v: strnatcmp.c.  StringProps.v: the theorems about them.
      Hexdump.v: string_hexdump.c.  Log.v: log.c and the log macros.
    - AddrMask.v, NumericHost.v, AddrMaskProps.v: addrmask.c; getaddrinfo and
      inet_ntop are the class [Resolver], of which NumericHost.v is an instance.
    - Ar.v, ArProps.v: ar.c.
    - PeerParser.v: parser.c.  PeerSpec.v is its specification, a function from
      text to peers; PeerInv.v, PeerPrint.v and PeerProps.v have the invariants,
      the printer and the theorems.
    - Config.v: struct config of chaosvpn.h and config_alloc.  ConfigInit.v,
      ConfigProps.v: config_init of config.c; what it needs of the parser of the
      configuration file is the class [ConfigParser].
    - Flex.v: regular expressions and the longest match of flex.  ConfigLex.v: the
      rules and the scanner of cvconf.l.  ConfigGram.v: the grammar of cvconf.y with
      its actions, as a parser that pulls tokens, and the blocks of memory its strings
      are put together in; its [cvconf] is the instance of [ConfigParser].  ConfigGramProps.v, ConfigPrint.v, ConfigFile.v: the relation
      the grammar stands for, a printer, the theorems.
    - World.v: the operating system.  A function that makes requests is an [io]:
      it extends the list of the requests made so far, and the answer to each one
      is a function of that list (class [Environment]), so a theorem about all
      environments is about all behaviours of the system.  A call of exit keeps the
      list.
    - Fs.v, FsProps.v, FsCopy.v, FsCopyProps.v: fs.c.
    - Tinc.v, TincSpec.v, TincProps.v: tinc.c; TincSpec.v has the generated files
      as lists of lines.
    - Daemon.v: daemon.c, pidfile.c and tun.c.
    - Http.v, HttpProps.v, HttpRecv.v: httplib; the sockets are the class [Network].
    - Crypto.v: crypto.c and uncompress.c around the classes [OpenSSL] and [Zlib].
    - Request.v: main_request_config, main_parse_config and
      main_fetch_and_apply_config of main.c with their helpers.
    - Worker.v: the child's part of fire_up_tincd_handler, its signal handlers and
      commands, and what it does with the stderr of tincd: select on the descriptor,
      the buffer of the FILE behind it, fgets that blocks in the middle of a line.
      WorkerLog.v: which lines it logs, and when.  Main.v: options, start-up, signals
      and the loop of main, one pass of which is [main_turn].
    - Sample.v: a network, ciphers and a configuration simple enough to run.
    - RequestProps.v, Quiet.v, MainProps.v, WorkerProps.v, StartProps.v: the theorems
      about them.
    - Tests.v: the three test programs as compositions of the definitions, run.

    A definition has the name of the C function it models; the parts of a long
    function have names of their own.  A [char *] that may be NULL is an option of
    a text; a struct string is a record with its allocated bytes; the peers are
    records in a heap, because the program keeps several pointers to one record; the
    linked lists are Rocq lists, which KListProps.v justifies.

    ** What the theorems show

    - What is trusted: with a signature key configured, what main_request_config
      reports as a success is what the server sent, decrypted with the keys in the
      archive, with a signature over exactly these bytes.  An update puts that in
      force, or, only when the download failed or reported no change, the file an
      earlier run stored, which is not verified again, or nothing.  The loop of main
      has an invariant over all passes, those that end the program included: every
      restart of tincd directly follows an update that changed something, and no
      other update is followed by one.  An update that reports no change touches no
      file.
    - What is computed: parser.c refines its specification and inverts the printer,
      its peers satisfy the invariant the rest relies on; the files of tincd are
      exactly the specified lines; addresses, masks, subnet matching, ar members,
      URLs, versions, hex dumps and formatted text agree with reference definitions;
      the parser of the configuration file accepts exactly what its grammar derives
      from longest-match tokens and inverts a printer; an answer of the server is
      received whole in any pieces that follow the first; of what tincd writes to
      its stderr nothing is lost or reordered, and by the end of the file all lines
      are logged; both kinds of list of list.h implement lists.
    - What is touched: emptying, writing and copying directories stay inside the
      directory they are given; the worker signals only the process it forked last,
      also on its way out; the network is used only after the privileges of root were
      given up; the strings of the configuration file are put together inside their
      blocks; a configuration that owns what the declarations in chaosvpn.h let it own
      is given back without a double free or a use after free, and exactly what is
      leaked is said.
    - What ends: an update comes when it is due; a signal to stop that comes in at
      any time during a pass makes it the last one; the loops over files, archives, strings and lists end.
    - What goes wrong: refused allocations, numbers that wrap around, member names
      and pid files the code misreads.

    ** Assumptions, fuel and bounds

    Memory is granted or refused by size ([Allocator]).  Theorems on functional
    behaviour assume [alloc_enough]; the safety theorems only [alloc_ptrdiff], that
    no object is larger than PTRDIFF_MAX, and hold for every pattern of refusals.
    [byte_before] is what the program finds in front of a buffer, which
    string_ensurez reads for a buffer of length 0.  [EnvironmentOk] and
    [ResolverOk] state what POSIX promises of directory entries, paths, [write] and
    the resolver; [Clock] that sleeping lasts as long as asked and the clock does
    not go back.  Each class has an instance, used by the evaluations.

    Fuel stands for loops the code does not bound.  Where the bound is a length the
    model computes it itself (the archive, the text to parse, the format, the list
    of digits), and the theorems include that it is enough.  The turns of the
    socket loops, of the copy of one file, the depth of a directory tree and the
    turns of the two loops of main are arguments: the theorems hold for every
    value.  [wait_loop_due] says how many turns of the waiting loop are enough.
    Whole runs of the main loop need no fuel: [reached] is inductive over passes.  Integers have their C
    width wherever the code stores them ([u8] to [u64], [s8], [s32]).

    ** Not modelled

    The line numbers in messages of the configuration parser and bison's bound on
    the depth of its stack.  The messages to the log: Log.v has what one call
    prints, but the other files leave messages out of their results, except the one
    parser.c takes care not to repeat and the lines of tincd.  Only Release.v has the
    memory the program gives back and only ConfigGram.v that into which strings are
    copied by hand; the other files treat what is in it as values.  The close of
    a descriptor, except in daemon_free and fix_fds; config_get, crypto_init and
    crypto_finish and the message about the version of OpenSSL, which keep no state
    of this program; a signal handler that interrupts another step (the main process
    looks for signals where it sleeps and where it reads the flags, the worker between
    its steps); the branches for Windows and BSD; the Perl scripts and the
    packaging. *)

From Stdlib Require Export ZArith Lia Ascii.
From stdpp Require Export base numbers list strings gmap option tactics.

#[export] Set Default Goal Selector "!".
#[global] Open Scope Z_scope.

(** ** C characters and strings

    A C [char] or [unsigned char] is its unsigned value, a [Z] in [0,256).
    The text of a NUL-terminated string is the list of its characters without
    the terminator; a nullable [char *] is an [option] of such a list. *)

Abbreviation char := Z (only parsing).
Abbreviation text := (list Z) (only parsing).
Abbreviation cptr := (option (list Z)) (only parsing).

(** The text behind a pointer, empty for NULL. *)
Definition txt (o : cptr) : text := default [] o.

Definition is_byte (c : Z) : Prop := 0 <= c < 256.

(** A text holds no NUL: it is what a C string function sees. *)
Definition nonul (s : text) : Prop := Forall (fun c => c <> 0) s.

(** C string literals: [\n], [\t], [\\] as in C, and [\q] for a double quote. *)
Fixpoint unescape (s : string) : text :=
  match s with
  | EmptyString => []
  | String c s' =>
      if Ascii.eqb c "\"%char then
        match s' with
        | EmptyString => [92]
        | String e s'' =>
            (if Ascii.eqb e "n"%char then 10
             else if Ascii.eqb e "t"%char then 9
             else if Ascii.eqb e "q"%char then 34
             else Z.of_N (Ascii.N_of_ascii e)) :: unescape s''
        end
      else Z.of_N (Ascii.N_of_ascii c) :: unescape s'
  end.

Declare Scope c_scope.
Delimit Scope c_scope with c.
Notation "'c_lit' s" := (unescape s%string) (at level 9, s at level 0) : c_scope.
#[global] Open Scope c_scope.

(** ** Lists indexed by [Z] *)

Definition zlen {A} (l : list A) : Z := Z.of_nat (length l).
Definition ztake {A} (n : Z) (l : list A) : list A := take (Z.to_nat n) l.
Definition zdrop {A} (n : Z) (l : list A) : list A := drop (Z.to_nat n) l.
Definition zrep {A} (n : Z) (x : A) : list A := replicate (Z.to_nat n) x.

(** ** Outcome of a C function

    [Ret a]: it returns; [Exits n x]: it calls [exit (n)], and [x] is what can be
    seen of it from outside then; [Undef]: it reaches undefined behaviour (an access
    outside an object, a NULL dereference).  A function that asks nothing of the
    system leaves nothing to be seen: [outcome]. *)

Inductive outcome_with (X A : Type) : Type :=
| Ret (a : A)
| Exits (code : Z) (x : X)
| Undef.
Arguments Ret {X A} a.
Arguments Exits {X A} code x.
Arguments Undef {X A}.

Notation outcome := (outcome_with unit).
Notation Exit n := (Exits n tt).

#[export] Instance outcome_ret {X} : MRet (outcome_with X) := fun _ a => Ret a.
#[export] Instance outcome_bind {X} : MBind (outcome_with X) := fun _ _ f m =>
  match m with
  | Ret a => f a
  | Exits n x => Exits n x
  | Undef => Undef
  end.

(** ** Machine integers *)

Definition size_max : Z := 2 ^ 64 - 1.
(** Conversion to [size_t] (and [unsigned long]) on an LP64 machine. *)
Definition u64 (z : Z) : Z := z mod 2 ^ 64.
Definition u32 (z : Z) : Z := z mod 2 ^ 32.
Definition u16 (z : Z) : Z := z mod 2 ^ 16.
Definition u8 (z : Z) : Z := z mod 2 ^ 8.
(** Conversion to [int], [long] and [signed char]: two's complement. *)
Definition s32 (z : Z) : Z := (z + 2 ^ 31) mod 2 ^ 32 - 2 ^ 31.
Definition s64 (z : Z) : Z := (z + 2 ^ 63) mod 2 ^ 64 - 2 ^ 63.
Definition s8 (z : Z) : Z := (z + 2 ^ 7) mod 2 ^ 8 - 2 ^ 7.

(** ** Memory allocation

    [alloc_ok n] is the answer of [malloc], [calloc] or [realloc] to a request
    of [n] bytes.  A struct string only ever asks for growing sizes, so any
    history of successes and failures along one buffer is such a predicate. *)

Class Allocator := {
  alloc_ok : Z -> bool;
  (** what a read of the byte in front of an allocated object gives: [None] when
      it is undefined, as C says, [Some c] where that byte can be read *)
  byte_before : option Z
}.

(** Every request of at most [limit] bytes is granted. *)
Definition alloc_upto `{Allocator} (limit : Z) : Prop :=
  forall n, 0 <= n <= limit -> alloc_ok n = true.

(** ** Automation *)

Create HintDb chaos discriminated.
Create Rewrite HintDb chaos.
#[export] Hint Constants Opaque : chaos.
#[export] Hint Variables Opaque : chaos.

(** Case analysis on the boolean tests of the translated code. *)
Ltac case_bool :=
  match goal with
  | |- context [Z.eqb ?a ?b] => destruct (Z.eqb_spec a b)
  | |- context [Z.ltb ?a ?b] => destruct (Z.ltb_spec a b)
  | |- context [Z.leb ?a ?b] => destruct (Z.leb_spec a b)
  | H : context [Z.eqb ?a ?b] |- _ => destruct (Z.eqb_spec a b)
  | H : context [Z.ltb ?a ?b] |- _ => destruct (Z.ltb_spec a b)
  | H : context [Z.leb ?a ?b] |- _ => destruct (Z.leb_spec a b)
  end.

(** Facts known by [lia] once the list operations over [Z] are unfolded. *)
Ltac zlists :=
  unfold zlen, ztake, zdrop, zrep in *;
  repeat first
    [ rewrite length_app in * | rewrite length_take in * | rewrite length_drop in *
    | rewrite length_replicate in * | rewrite length_cons in * | rewrite length_nil in *
    | rewrite length_insert in * | rewrite length_map in *].
Ltac zlia := zlists; lia.

(** Decides a comparison the context settles, in the goal's [if]s. *)
Ltac decide_if :=
  match goal with
  | |- context [Z.eqb ?a ?b] =>
      first [ replace (Z.eqb a b) with true by (symmetry; apply Z.eqb_eq; zlia)
            | replace (Z.eqb a b) with false by (symmetry; apply Z.eqb_neq; zlia) ]
  | |- context [Z.ltb ?a ?b] =>
      first [ replace (Z.ltb a b) with true by (symmetry; apply Z.ltb_lt; zlia)
            | replace (Z.ltb a b) with false by (symmetry; apply Z.ltb_ge; zlia) ]
  | |- context [Z.leb ?a ?b] =>
      first [ replace (Z.leb a b) with true by (symmetry; apply Z.leb_le; zlia)
            | replace (Z.leb a b) with false by (symmetry; apply Z.leb_gt; zlia) ]
  end.

(** Inverts a successful monadic chain. *)
Ltac inv_outcome :=
  repeat match goal with
  | H : Ret _ = Ret _ |- _ => injection H as H
  | H : Exits _ _ = Ret _ |- _ => discriminate H
  | H : Undef = Ret _ |- _ => discriminate H
  | H : Undef = Exits _ _ |- _ => discriminate H
  | H : Exits _ _ = Undef |- _ => discriminate H
  | H : Ret _ = Undef |- _ => discriminate H
  | H : ?m ≫= _ = Ret _ |- _ =>
      let E := fresh "E" in destruct m eqn:E; cbn [mbind outcome_bind] in H
  end; subst.

(** Follows one successful execution: binds, pairs and tests in the order of the
    code, each recorded as an equation. *)
Ltac unwind H :=
  repeat lazymatch type of H with
  | Undef = Ret _ => discriminate H
  | Exits _ _ = Ret _ => discriminate H
  | mbind _ ?m = Ret _ =>
      let E := fresh "E" in destruct m eqn:E; cbn [mbind outcome_bind] in H; [|discriminate H..]
  | (let '(_, _) := ?p in _) = Ret _ => destruct p
  | (match ?b with _ => _ end) = Ret _ => let E := fresh "E" in destruct b eqn:E; try discriminate H
  end.

(** ** List lemmas *)

Section Lists.
Context {A : Type}.
Implicit Types l k : list A.

Lemma zlen_app l k : zlen (l ++ k) = zlen l + zlen k.
Proof. zlia. Qed.

Lemma zlen_cons x l : zlen (x :: l) = 1 + zlen l.
Proof. zlia. Qed.

Lemma zlen_nil : zlen (@nil A) = 0.
Proof. done. Qed.

Lemma zlen_nonneg l : 0 <= zlen l.
Proof. zlia. Qed.

Lemma zlen_zero l : zlen l = 0 -> l = [].
Proof. destruct l; [done | zlia]. Qed.

Lemma zlen_ztake n l : 0 <= n <= zlen l -> zlen (ztake n l) = n.
Proof. zlia. Qed.

Lemma zlen_zdrop n l : 0 <= n <= zlen l -> zlen (zdrop n l) = zlen l - n.
Proof. zlia. Qed.

Lemma zlen_zrep n (x : A) : 0 <= n -> zlen (zrep n x) = n.
Proof. zlia. Qed.

Lemma ztake_all n l : zlen l <= n -> ztake n l = l.
Proof. intros H. apply take_ge. zlia. Qed.

Lemma ztake_0 l : ztake 0 l = [].
Proof. done. Qed.

Lemma zdrop_0 l : zdrop 0 l = l.
Proof. done. Qed.

Lemma zdrop_all n l : zlen l <= n -> zdrop n l = [].
Proof. intros H. apply drop_ge. zlia. Qed.

Lemma ztake_app_le n l k : n <= zlen l -> ztake n (l ++ k) = ztake n l.
Proof. intros H. apply take_app_le. zlia. Qed.

Lemma ztake_app_ge n l k :
  zlen l <= n -> ztake n (l ++ k) = l ++ ztake (n - zlen l) k.
Proof.
  intros H. unfold ztake. rewrite take_app_ge by zlia.
  do 2 f_equal. zlia.
Qed.

Lemma zdrop_app_ge n l k :
  zlen l <= n -> zdrop n (l ++ k) = zdrop (n - zlen l) k.
Proof.
  intros H. unfold zdrop. rewrite drop_app_ge by zlia. f_equal. zlia.
Qed.

Lemma zdrop_app_le n l k :
  n <= zlen l -> zdrop n (l ++ k) = zdrop n l ++ k.
Proof. intros H. apply drop_app_le. zlia. Qed.

Lemma ztake_zdrop n l : ztake n l ++ zdrop n l = l.
Proof. apply take_drop. Qed.

Lemma zdrop_zdrop n m l :
  0 <= n -> 0 <= m -> zdrop n (zdrop m l) = zdrop (m + n) l.
Proof. intros. unfold zdrop. rewrite drop_drop. f_equal. lia. Qed.

Lemma ztake_app_eq n l k : zlen l = n -> ztake n (l ++ k) = l.
Proof. intros <-. rewrite ztake_app_le by done. by apply ztake_all. Qed.

Lemma zdrop_app_eq n l k : zlen l = n -> zdrop n (l ++ k) = k.
Proof. intros <-. rewrite zdrop_app_ge by done. by rewrite Z.sub_diag. Qed.

Lemma ztake_ztake n m l : ztake n (ztake m l) = ztake (Z.min n m) l.
Proof. unfold ztake. rewrite take_take. f_equal. lia. Qed.

End Lists.

#[export] Hint Rewrite @zlen_app @zlen_cons @zlen_nil : chaos.
#[export] Hint Resolve zlen_nonneg : chaos.

Lemma u64_small z : 0 <= z < 2 ^ 64 -> u64 z = z.
Proof. apply Z.mod_small. Qed.

Lemma u64_range z : 0 <= u64 z < 2 ^ 64.
Proof. apply Z.mod_pos_bound. lia. Qed.

Lemma nonul_app s t : nonul (s ++ t) <-> nonul s /\ nonul t.
Proof. apply Forall_app. Qed.

#[export] Hint Resolve u64_range : chaos.

(** The text of a list of lines. *)
Definition unlines (ls : list text) : text := concat (map (fun l => l ++ [10]) ls).

Lemma unlines_app a b : unlines (a ++ b) = unlines a ++ unlines b.
Proof. unfold unlines. by rewrite map_app, concat_app. Qed.

Lemma unlines_cons l ls : unlines (l :: ls) = l ++ 10 :: unlines ls.
Proof. unfold unlines. cbn [map concat]. by rewrite <- app_assoc. Qed.

Lemma unlines_if (b : bool) ls : unlines (if b then ls else []) = if b then unlines ls else [].
Proof. by destruct b. Qed.

Lemma unlines_map {A} (f : A -> text) l : unlines (map f l) = concat (map (fun x => f x ++ [10]) l).
Proof. unfold unlines. by rewrite map_map. Qed.

Lemma unlines_filter {A} (p : A -> bool) (f : A -> text) l :
  unlines (map f (List.filter p l)) = concat (map (fun x => if p x then f x ++ [10] else []) l).
Proof.
  rewrite unlines_map. induction l as [|x l IH]; [done|]. cbn [List.filter map concat].
  rewrite <- IH. by destruct (p x).
Qed.

(** ** Texts joined by a separator *)

Fixpoint join (c : char) (parts : list text) : text :=
  match parts with
  | [] => []
  | [p] => p
  | p :: parts => p ++ c :: join c parts
  end.

Fixpoint split_on (c : char) (t : text) : list text :=
  match t with
  | [] => [[]]
  | x :: t' =>
      if x =? c then [] :: split_on c t'
      else match split_on c t' with
           | p :: ps => (x :: p) :: ps
           | [] => [[x]]
           end
  end.

Lemma split_on_none c p : c ∉ p -> split_on c p = [p].
Proof.
  induction p as [|x p IH]; intros Hc; cbn [split_on]; [done|].
  case_bool; [set_solver|]. by rewrite IH by set_solver.
Qed.

Lemma split_on_app c p t : c ∉ p -> split_on c (p ++ c :: t) = p :: split_on c t.
Proof.
  induction p as [|x p IH]; intros Hc; cbn [split_on app]; [by rewrite Z.eqb_refl|].
  case_bool; [set_solver|]. by rewrite IH by set_solver.
Qed.

Lemma split_join c parts :
  parts <> [] -> Forall (fun p => c ∉ p) parts -> split_on c (join c parts) = parts.
Proof.
  induction parts as [|p parts IH]; intros Hne HF; [done|].
  inversion HF as [|? ? Hp HF']; subst. destruct parts as [|q parts]; [by apply split_on_none|].
  change (join c (p :: q :: parts)) with (p ++ c :: join c (q :: parts)).
  by rewrite split_on_app, IH.
Qed.
