(* ===== verification/KList.v ===== *)
(** * Circular doubly linked lists: list.h

    The list head and the list nodes are cells of one heap, addressed by numbers;
    0 is NULL and a cell that is not in the heap is not allocated.  [ring] relates a
    heap to the list of the nodes behind a head, which is what the other files work
    with; KListProps.v shows that the operations keep to it.  The loops over entries
    are in ListIter.v and the hlist half of the header in HList.v. *)

From S2P Require Import Prelude.

Notation loc := Z.
Definition NULL : loc := 0.

(** struct list_head *)
Record list_head := mknode { next : loc; prev : loc }.

Notation lheap := (gmap loc list_head).

(** Reading and writing through a pointer. *)
Definition get (h : lheap) (p : loc) : outcome list_head :=
  match h !! p with Some n => Ret n | None => Undef end.

Definition set_next (p v : loc) (h : lheap) : outcome lheap :=
  n ← get h p; Ret (<[p := mknode v (prev n)]> h).

Definition set_prev (p v : loc) (h : lheap) : outcome lheap :=
  n ← get h p; Ret (<[p := mknode (next n) v]> h).

Definition INIT_LIST_HEAD (list : loc) (h : lheap) : outcome lheap :=
  h ← set_next list list h;
  set_prev list list h.

(** [__list_add]: the parameters are [new], [prev] and [next]. *)
Definition list_insert (new before after : loc) (h : lheap) : outcome lheap :=
  h ← set_prev after new h;
  h ← set_next new after h;
  h ← set_prev new before h;
  set_next before new h.

Definition list_add (new head : loc) (h : lheap) : outcome lheap :=
  n ← get h head; list_insert new head (next n) h.

Definition list_add_tail (new head : loc) (h : lheap) : outcome lheap :=
  n ← get h head; list_insert new (prev n) head h.

(** [__list_del] *)
Definition list_unlink (before after : loc) (h : lheap) : outcome lheap :=
  h ← set_prev after before h;
  set_next before after h.

Definition list_del (entry : loc) (h : lheap) : outcome lheap :=
  n ← get h entry;
  h ← list_unlink (prev n) (next n) h;
  h ← set_next entry NULL h;
  set_prev entry NULL h.

Definition list_replace (old new : loc) (h : lheap) : outcome lheap :=
  o ← get h old;
  h ← set_next new (next o) h;
  n ← get h new;
  h ← set_prev (next n) new h;
  o ← get h old;
  h ← set_prev new (prev o) h;
  n ← get h new;
  set_next (prev n) new h.

Definition list_replace_init (old new : loc) (h : lheap) : outcome lheap :=
  h ← list_replace old new h; INIT_LIST_HEAD old h.

Definition list_del_init (entry : loc) (h : lheap) : outcome lheap :=
  n ← get h entry;
  h ← list_unlink (prev n) (next n) h;
  INIT_LIST_HEAD entry h.

Definition list_move (list head : loc) (h : lheap) : outcome lheap :=
  n ← get h list;
  h ← list_unlink (prev n) (next n) h;
  list_add list head h.

Definition list_move_tail (list head : loc) (h : lheap) : outcome lheap :=
  n ← get h list;
  h ← list_unlink (prev n) (next n) h;
  list_add_tail list head h.

Definition list_is_last (list head : loc) (h : lheap) : outcome bool :=
  n ← get h list; Ret (next n =? head).

Definition list_empty (head : loc) (h : lheap) : outcome bool :=
  n ← get h head; Ret (next n =? head).

Definition list_empty_careful (head : loc) (h : lheap) : outcome bool :=
  n ← get h head; Ret ((next n =? head) && (next n =? prev n)).

(** The loop of [list_for_each]: the nodes from [pos] up to the head. *)
Fixpoint each_from (fuel : nat) (pos head : loc) (h : lheap) : outcome (list loc) :=
  match fuel with
  | O => Undef
  | S fuel =>
      if pos =? head then Ret []
      else n ← get h pos; l ← each_from fuel (next n) head h; Ret (pos :: l)
  end.

Definition list_for_each (fuel : nat) (head : loc) (h : lheap) : outcome (list loc) :=
  n ← get h head; each_from fuel (next n) head h.

Fixpoint each_prev_from (fuel : nat) (pos head : loc) (h : lheap) : outcome (list loc) :=
  match fuel with
  | O => Undef
  | S fuel =>
      if pos =? head then Ret []
      else n ← get h pos; l ← each_prev_from fuel (prev n) head h; Ret (pos :: l)
  end.

Definition list_for_each_prev (fuel : nat) (head : loc) (h : lheap) : outcome (list loc) :=
  n ← get h head; each_prev_from fuel (prev n) head h.

(** [list_count]: the turns of its loop. *)
Fixpoint count_from (fuel : nat) (p head : loc) (i : Z) (h : lheap) : outcome Z :=
  match fuel with
  | O => Undef
  | S fuel =>
      if p =? head then Ret i
      else n ← get h p; count_from fuel (next n) head (s32 (i + 1)) h
  end.

Definition list_count (fuel : nat) (head : loc) (h : lheap) : outcome Z :=
  n ← get h head; count_from fuel (next n) head 0 h.

(** [__list_splice] *)
Definition list_splice_nonempty (list head : loc) (h : lheap) : outcome lheap :=
  l ← get h list;
  n ← get h head;
  let first := next l in
  let last := prev l in
  let at_ := next n in
  h ← set_prev first head h;
  h ← set_next head first h;
  h ← set_next last at_ h;
  set_prev at_ last h.

Definition list_splice (list head : loc) (h : lheap) : outcome lheap :=
  empty ← list_empty list h;
  if empty : bool then Ret h else list_splice_nonempty list head h.

Definition list_splice_init (list head : loc) (h : lheap) : outcome lheap :=
  empty ← list_empty list h;
  if empty : bool then Ret h else h ← list_splice_nonempty list head h; INIT_LIST_HEAD list h.

(** ** The list a head stands for *)

Definition nxt (h : lheap) (p : loc) : option loc := next <$> h !! p.
Definition prv (h : lheap) (p : loc) : option loc := prev <$> h !! p.

(** Every node points to its neighbours. *)
Fixpoint links (h : lheap) (l : list loc) : Prop :=
  match l with
  | [] => True
  | a :: l' =>
      match l' with
      | [] => True
      | b :: _ => nxt h a = Some b /\ prv h b = Some a /\ links h l'
      end
  end.

(** The nodes behind [head], in order. *)
Definition ring (h : lheap) (head : loc) (l : list loc) : Prop :=
  NoDup (head :: l) /\ links h (head :: l ++ [head]).

(** ** The specification: operations on the list itself *)

Inductive list_op :=
| OAdd (new : loc)
| OAddTail (new : loc)
| ODel (entry : loc)
| OMove (node : loc)
| OMoveTail (node : loc)
| OReplace (old new : loc).

Definition do_op (head : loc) (o : list_op) (h : lheap) : outcome lheap :=
  match o with
  | OAdd x => list_add x head h
  | OAddTail x => list_add_tail x head h
  | ODel x => list_del x h
  | OMove x => list_move x head h
  | OMoveTail x => list_move_tail x head h
  | OReplace x y => list_replace x y h
  end.

Fixpoint do_ops (head : loc) (os : list list_op) (h : lheap) : outcome lheap :=
  match os with [] => Ret h | o :: os => h ← do_op head o h; do_ops head os h end.

(** Without the first [x]. *)
Fixpoint without (x : loc) (l : list loc) : list loc :=
  match l with [] => [] | y :: l => if y =? x then l else y :: without x l end.

Definition swapped (x y : loc) (l : list loc) : list loc := map (fun z => if z =? x then y else z) l.

(** [None]: the operation is not allowed on this list; a new node must not be in
    it yet, another one must be. *)
Definition spec_op (head : loc) (o : list_op) (l : list loc) : option (list loc) :=
  let fresh x := bool_decide (x ∉ head :: l) in
  let old x := bool_decide (x ∈ l) in
  match o with
  | OAdd x => if fresh x then Some (x :: l) else None
  | OAddTail x => if fresh x then Some (l ++ [x]) else None
  | ODel x => if old x then Some (without x l) else None
  | OMove x => if old x then Some (x :: without x l) else None
  | OMoveTail x => if old x then Some (without x l ++ [x]) else None
  | OReplace x y => if old x && fresh y then Some (swapped x y l) else None
  end.

Fixpoint spec_ops (head : loc) (os : list list_op) (l : list loc) : option (list loc) :=
  match os with [] => Some l | o :: os => l ← spec_op head o l; spec_ops head os l end.
