(* ===== verification/KListProps.v ===== *)
(** * The linked lists of list.h implement lists

    Each operation is described by what it does to the two pointers of every cell;
    the rings then follow by splitting the circle where the pointers change. *)

From S2P Require Import Prelude KList.

(** ** Pointers *)

Definition allocated (h : lheap) (p : loc) : Prop := is_Some (h !! p).

(** [h'] has the cells of [h], with these pointers. *)
Record pointers (h h' : lheap) (n p : loc -> option loc) : Prop := {
  pt_next : forall q, nxt h' q = n q;
  pt_prev : forall q, prv h' q = p q;
  pt_alloc : forall q, allocated h' q <-> allocated h q
}.

Definition upd (f : loc -> option loc) (a v : loc) (q : loc) : option loc :=
  if q =? a then Some v else f q.

Lemma upd_same f a v : upd f a v a = Some v.
Proof. unfold upd. by rewrite Z.eqb_refl. Qed.

Lemma upd_other f a v q : q <> a -> upd f a v q = f q.
Proof. unfold upd. intros. by replace (q =? a) with false by lia. Qed.

Lemma allocated_insert h a n q : allocated h a -> allocated (<[a := n]> h) q <-> allocated h q.
Proof.
  unfold allocated. intros Ha. destruct (decide (q = a)) as [->|]; [by rewrite lookup_insert_eq|].
  by rewrite lookup_insert_ne.
Qed.

Lemma set_next_ok h a v :
  allocated h a -> exists h', set_next a v h = Ret h' /\ pointers h h' (upd (nxt h) a v) (prv h).
Proof.
  intros Ha. pose proof Ha as [n En]. unfold set_next, get. rewrite En. eexists. split; [done|].
  split; intros q; [..|by apply allocated_insert]; unfold nxt, prv, upd;
    destruct (Z.eqb_spec q a) as [->|]; rewrite ?lookup_insert_eq, ?lookup_insert_ne, ?En by done; done.
Qed.

Lemma set_prev_ok h a v :
  allocated h a -> exists h', set_prev a v h = Ret h' /\ pointers h h' (nxt h) (upd (prv h) a v).
Proof.
  intros Ha. pose proof Ha as [n En]. unfold set_prev, get. rewrite En. eexists. split; [done|].
  split; intros q; [..|by apply allocated_insert]; unfold nxt, prv, upd;
    destruct (Z.eqb_spec q a) as [->|]; rewrite ?lookup_insert_eq, ?lookup_insert_ne, ?En by done; done.
Qed.

(** Chains of assignments. *)
Lemma upd_ext f g a v q : (forall q, f q = g q) -> upd f a v q = upd g a v q.
Proof. unfold upd. intros Hfg. by destruct (q =? a). Qed.

Lemma then_next h h1 n p a v :
  pointers h h1 n p -> allocated h a ->
  exists h', set_next a v h1 = Ret h' /\ pointers h h' (upd n a v) p.
Proof.
  intros [Hn Hp Ha] Hal. destruct (set_next_ok h1 a v) as (h' & E & [Hn' Hp' Ha']); [by apply Ha|].
  exists h'. split; [done|]. split; intros q; [rewrite Hn'; by apply upd_ext | by rewrite Hp' | by rewrite Ha'].
Qed.

Lemma then_prev h h1 n p a v :
  pointers h h1 n p -> allocated h a ->
  exists h', set_prev a v h1 = Ret h' /\ pointers h h' n (upd p a v).
Proof.
  intros [Hn Hp Ha] Hal. destruct (set_prev_ok h1 a v) as (h' & E & [Hn' Hp' Ha']); [by apply Ha|].
  exists h'. split; [done|]. split; intros q; [by rewrite Hn' | rewrite Hp'; by apply upd_ext | by rewrite Ha'].
Qed.

Lemma list_insert_ok h new a b :
  allocated h new -> allocated h a -> allocated h b ->
  exists h', list_insert new a b h = Ret h' /\
    pointers h h' (upd (upd (nxt h) new b) a new) (upd (upd (prv h) b new) new a).
Proof.
  intros Hn Ha Hb. unfold list_insert.
  destruct (set_prev_ok h b new Hb) as (h1 & -> & P1). cbn.
  destruct (then_next _ _ _ _ new b P1 Hn) as (h2 & -> & P2). cbn.
  destruct (then_prev _ _ _ _ new a P2 Hn) as (h3 & -> & P3). cbn.
  by apply (then_next _ _ _ _ a new P3).
Qed.

Lemma list_unlink_ok h a b :
  allocated h a -> allocated h b ->
  exists h', list_unlink a b h = Ret h' /\ pointers h h' (upd (nxt h) a b) (upd (prv h) b a).
Proof.
  intros Ha Hb. unfold list_unlink. destruct (set_prev_ok h b a Hb) as (h1 & -> & P1). cbn.
  by apply (then_next _ _ _ _ a b P1).
Qed.

(** ** Links *)

Lemma links_cons h a b l : links h (a :: b :: l) <-> nxt h a = Some b /\ prv h b = Some a /\ links h (b :: l).
Proof. done. Qed.

Lemma links_split h k a l : links h (k ++ a :: l) <-> links h (k ++ [a]) /\ links h (a :: l).
Proof.
  induction k as [|x k IH]; cbn [app]; [by cbn; tauto|].
  destruct k as [|y k]; cbn [app] in *; rewrite !links_cons; [cbn; tauto|]. rewrite IH. tauto.
Qed.

(** Only the next pointers of all but the last node and the previous pointers of
    all but the first matter. *)
Lemma links_ext h h' l :
  (forall q, q ∈ removelast l -> nxt h' q = nxt h q) -> (forall q, q ∈ tail l -> prv h' q = prv h q) ->
  links h l -> links h' l.
Proof.
  induction l as [|a l IH]; [done|]. destruct l as [|b l]; [done|].
  intros Hn Hp (H1 & H2 & H3). rewrite links_cons.
  rewrite Hn, Hp by (cbn; set_solver). split_and!; try done.
  apply IH; [intros q Hq; apply Hn; cbn [removelast] in *; set_solver | intros q Hq; apply Hp; set_solver | done].
Qed.

Lemma links_allocated h l a b k : links h (k ++ a :: b :: l) -> allocated h a /\ allocated h b.
Proof.
  rewrite links_split, links_cons. intros (_ & Hn & Hp & _).
  unfold nxt, prv in *. split; [destruct (h !! a) eqn:E | destruct (h !! b) eqn:E]; try done; unfold allocated; by rewrite E.
Qed.

(** ** The circle *)

(** Where the pointers change: the nodes in front of [b :: k2] and those behind. *)
Lemma snoc_view (x : loc) (p : list loc) : exists k a, x :: p = k ++ [a].
Proof. destruct (exists_last (l := x :: p)) as (k & a & E); [done | by exists k, a]. Qed.

Lemma cons_view (s : list loc) (y : loc) : exists b k, s ++ [y] = b :: k.
Proof. destruct s as [|b s]; [by exists y, [] | by exists b, (s ++ [y])]. Qed.

Lemma removelast_cons_view (s : list loc) y b k : s ++ [y] = b :: k -> removelast (b :: k) = s.
Proof. intros <-. apply removelast_last. Qed.

(** Putting a node, or nothing, between the two halves of a circle. *)
Lemma links_join h h' head p s mid :
  NoDup (head :: p ++ s) -> (forall q, q ∈ mid -> q ∉ head :: p ++ s) ->
  links h (head :: p) -> links h (s ++ [head]) ->
  (forall q, q ∈ p ++ s \/ q = head -> nxt h' q = nxt h q \/ exists k, head :: p = k ++ [q]) ->
  (forall q, q ∈ p ++ s \/ q = head -> prv h' q = prv h q \/ exists k, s ++ [head] = q :: k) ->
  (forall k a b k2, head :: p = k ++ [a] -> s ++ [head] = b :: k2 -> links h' (a :: mid ++ [b])) ->
  links h' (head :: p ++ mid ++ s ++ [head]).
Proof.
  intros Hnd Hmid H1 H2 Hn Hp Hj.
  destruct (snoc_view head p) as (k & a & Ea). destruct (cons_view s head) as (b & k2 & Eb).
  specialize (Hj _ _ _ _ Ea Eb).
  change (head :: p ++ mid ++ s ++ [head]) with ((head :: p) ++ mid ++ s ++ [head]).
  rewrite Ea, Eb, <- app_assoc. cbn [app].
  replace (k ++ a :: mid ++ b :: k2) with ((k ++ a :: mid) ++ b :: k2) by (by rewrite <- app_assoc).
  rewrite links_split. split.
  - rewrite <- app_assoc. cbn [app]. rewrite links_split. split; [|done].
    rewrite <- Ea. eapply links_ext; [| | exact H1].
    + intros q Hq. rewrite Ea, removelast_last in Hq.
      destruct (Hn q) as [|(k' & E)]; [|done|].
      { assert (q ∈ head :: p) as Hq' by (rewrite Ea; set_solver). set_solver. }
      rewrite Ea in E. apply app_inj_tail in E as [-> <-].
      exfalso. assert (NoDup (head :: p)) as Hd by (change (head :: p ++ s) with ((head :: p) ++ s) in Hnd; by apply list.NoDup_app in Hnd as (? & _)).
      rewrite Ea in Hd. apply list.NoDup_app in Hd as (_ & Hd & _). apply (Hd a); set_solver.
    + cbn [tail]. intros q Hq. destruct (Hp q) as [|(k' & E)]; [set_solver|done|].
      exfalso. destruct s as [|y s]; injection E as <- <-.
      * apply list.NoDup_cons in Hnd as [Hnd _]. set_solver.
      * apply list.NoDup_cons in Hnd as [_ Hnd]. apply list.NoDup_app in Hnd as (_ & Hnd & _). apply (Hnd y); set_solver.
  - rewrite <- Eb. eapply links_ext; [| | exact H2].
    + rewrite removelast_last. intros q Hq. destruct (Hn q) as [|(k' & E)]; [set_solver|done|].
      exfalso. assert (q ∈ head :: p) as Hq' by (rewrite E; set_solver).
      change (head :: p ++ s) with ((head :: p) ++ s) in Hnd. apply list.NoDup_app in Hnd as (_ & Hnd & _).
      by apply (Hnd q).
    + rewrite Eb. cbn [tail]. intros q Hq. destruct (Hp q) as [|(k' & E)]; [|done|].
      { assert (q ∈ s ++ [head]) as Hq' by (rewrite Eb; set_solver). set_solver. }
      rewrite Eb in E. injection E as <- <-.
      assert (NoDup (s ++ [head])) as Hd.
      { rewrite list.NoDup_app. apply list.NoDup_cons in Hnd as [Hh Hnd]. apply list.NoDup_app in Hnd as (_ & _ & Hnd).
        split_and!; [done | set_solver | apply NoDup_singleton]. }
      rewrite Eb in Hd. by apply list.NoDup_cons in Hd as [Hd _].
Qed.

Lemma ring_halves h head p s :
  ring h head (p ++ s) -> links h (head :: p) /\ links h (s ++ [head]) /\
    forall k a b k2, head :: p = k ++ [a] -> s ++ [head] = b :: k2 -> nxt h a = Some b /\ prv h b = Some a.
Proof.
  intros [_ Hl]. destruct (snoc_view head p) as (k & a & Ea). destruct (cons_view s head) as (b & k2 & Eb).
  rewrite <- app_assoc in Hl. change (head :: p ++ s ++ [head]) with ((head :: p) ++ s ++ [head]) in Hl.
  rewrite Ea, Eb, <- app_assoc in *. cbn [app] in Hl. rewrite links_split, links_cons in Hl.
  destruct Hl as (H1 & H2 & H3 & H4). split_and!; [done..|].
  intros k' a' b' k2' E1 E2. apply app_inj_tail in E1 as [_ <-]. by injection E2 as <- <-.
Qed.

Lemma nxt_allocated h a b : nxt h a = Some b -> allocated h a.
Proof. unfold nxt, allocated. by destruct (h !! a). Qed.

Lemma prv_allocated h a b : prv h b = Some a -> allocated h b.
Proof. unfold prv, allocated. by destruct (h !! b). Qed.

Lemma get_next h a b : nxt h a = Some b -> exists n, get h a = Ret n /\ next n = b.
Proof. unfold nxt, get. destruct (h !! a) as [n|]; [|done]. intros [= <-]. by exists n. Qed.

Lemma get_prev h a b : prv h b = Some a -> exists n, get h b = Ret n /\ prev n = a.
Proof. unfold prv, get. destruct (h !! b) as [n|]; [|done]. intros [= <-]. by exists n. Qed.

Lemma get_both h x a b :
  nxt h x = Some b -> prv h x = Some a -> exists n, get h x = Ret n /\ next n = b /\ prev n = a.
Proof. unfold nxt, prv, get. destruct (h !! x) as [n|]; [|done]. intros [= <-] [= <-]. by exists n. Qed.

(** A node put between [a] and [b]: the pointers the insertions and the replacement write. *)
Lemma inserted h h' head p s new k a b k2 :
  NoDup (head :: p ++ s) -> new ∉ head :: p ++ s -> links h (head :: p) -> links h (s ++ [head]) ->
  head :: p = k ++ [a] -> s ++ [head] = b :: k2 ->
  pointers h h' (upd (upd (nxt h) new b) a new) (upd (upd (prv h) b new) new a) ->
  ring h' head (p ++ new :: s).
Proof.
  intros Hnd Hnew H1 H2 Ea Eb [Hn Hp _]. split.
  - rewrite list.NoDup_cons in *. rewrite list.NoDup_app in *. rewrite list.NoDup_cons. set_solver.
  - rewrite <- app_assoc. cbn [app]. apply (links_join h h' head p s [new]); try done.
    + set_solver.
    + intros q Hq. rewrite Hn. destruct (decide (q = a)) as [->|]; [right; by exists k|].
      left. rewrite upd_other, upd_other by set_solver. done.
    + intros q Hq. rewrite Hp. destruct (decide (q = b)) as [->|]; [right; by exists k2|].
      left. rewrite upd_other, upd_other by set_solver. done.
    + intros k' a' b' k2' E1 E2. rewrite Ea in E1. rewrite Eb in E2.
      apply app_inj_tail in E1 as [_ <-]. injection E2 as <- _.
      assert (a ∈ head :: p /\ b ∈ s ++ [head]) as [Hain Hbin] by (rewrite Ea, Eb; set_solver).
      cbn. rewrite !Hn, !Hp, !upd_same. rewrite (upd_other _ _ _ new) by set_solver. rewrite upd_same.
      rewrite (upd_other _ _ _ b) by set_solver. by rewrite upd_same.
Qed.

(** Insertion at any place of the circle. *)
Lemma insert_between h head p s new k a b k2 :
  ring h head (p ++ s) -> new ∉ head :: p ++ s -> allocated h new ->
  head :: p = k ++ [a] -> s ++ [head] = b :: k2 ->
  exists h', list_insert new a b h = Ret h' /\ ring h' head (p ++ new :: s) /\
    forall q, allocated h' q <-> allocated h q.
Proof.
  intros Hr Hnew Hal Ea Eb. destruct (ring_halves _ _ _ _ Hr) as (H1 & H2 & Hab).
  destruct (Hab _ _ _ _ Ea Eb) as [Hna Hpb].
  destruct (list_insert_ok h new a b) as (h' & E & P);
    [done | by eapply nxt_allocated | by eapply prv_allocated |].
  exists h'. split_and!; [done | | apply P]. destruct Hr as [Hnd _]. by apply (inserted h h' head p s new k a b k2).
Qed.

(** Taking a node out of the circle. *)
Lemma unlink_ring h head p x s :
  ring h head (p ++ x :: s) ->
  exists n h', get h x = Ret n /\ list_unlink (prev n) (next n) h = Ret h' /\ ring h' head (p ++ s) /\
    forall q, allocated h' q <-> allocated h q.
Proof.
  intros Hr. destruct (snoc_view head p) as (k & a & Ea). destruct (cons_view s head) as (b & k2 & Eb).
  destruct (ring_halves _ _ p (x :: s) Hr) as (H1 & H2 & Hax).
  destruct (Hax k a x (s ++ [head]) Ea eq_refl) as [Hna Hpx].
  assert (links h (s ++ [head]) /\ nxt h x = Some b /\ prv h b = Some x) as (H3 & Hnx & Hpb).
  { cbn [app] in H2. rewrite Eb in *. rewrite links_cons in H2. tauto. }
  destruct (get_both h x a b Hnx Hpx) as (n & Eg & <- & <-).
  destruct (list_unlink_ok h (prev n) (next n)) as (h' & E & [Hn Hp Ha]);
    [by eapply nxt_allocated | by eapply prv_allocated |].
  exists n, h'. split_and!; [done | done | | done]. destruct Hr as [Hnd _]. split.
  - rewrite list.NoDup_cons in *. rewrite list.NoDup_app in *. rewrite list.NoDup_cons in Hnd. set_solver.
  - rewrite <- app_assoc. apply (links_join h h' head p s []); try done.
    + rewrite list.NoDup_cons in *. rewrite list.NoDup_app in *. rewrite list.NoDup_cons in Hnd. set_solver.
    + set_solver.
    + intros q Hq. rewrite Hn. destruct (decide (q = prev n)) as [->|]; [right; by exists k|].
      left. by rewrite upd_other.
    + intros q Hq. rewrite Hp. destruct (decide (q = next n)) as [->|]; [right; by exists k2|].
      left. by rewrite upd_other.
    + intros k' a' b' k2' E1 E2. rewrite Ea in E1. rewrite Eb in E2.
      apply app_inj_tail in E1 as [_ <-]. injection E2 as <- _.
      cbn. by rewrite Hn, Hp, !upd_same.
Qed.

(** Cells outside the circle do not matter. *)
Lemma ring_frame h h' head l :
  (forall q, q ∈ head :: l -> nxt h' q = nxt h q /\ prv h' q = prv h q) -> ring h head l -> ring h' head l.
Proof.
  intros Hf [Hnd Hl]. split; [done|]. eapply links_ext; [| | exact Hl].
  - intros q Hq. apply Hf. change (head :: l ++ [head]) with ((head :: l) ++ [head]) in Hq.
    by rewrite removelast_last in Hq.
  - intros q Hq. apply Hf. cbn [tail] in Hq. set_solver.
Qed.

(** ** The operations *)

(** What an operation gives: a list behind the same head, in the same cells. *)
Definition gives (h : lheap) (r : outcome lheap) (head : loc) (l : list loc) : Prop :=
  exists h', r = Ret h' /\ ring h' head l /\ forall q, allocated h' q <-> allocated h q.

Lemma list_add_ring h head l x :
  ring h head l -> x ∉ head :: l -> allocated h x -> gives h (list_add x head h) head (x :: l).
Proof.
  intros Hr Hx Hal. destruct (cons_view l head) as (b & k2 & Eb).
  destruct (ring_halves h head [] l Hr) as (_ & _ & Hab). destruct (Hab [] head b k2 eq_refl Eb) as [Hn _].
  unfold list_add, gives. destruct (get_next _ _ _ Hn) as (n & -> & <-).
  by apply (insert_between h head [] l x [] head (next n) k2).
Qed.

Lemma list_add_tail_ring h head l x :
  ring h head l -> x ∉ head :: l -> allocated h x -> gives h (list_add_tail x head h) head (l ++ [x]).
Proof.
  intros Hr Hx Hal. destruct (snoc_view head l) as (k & a & Ea).
  assert (ring h head (l ++ [])) as Hr' by (by rewrite app_nil_r).
  destruct (ring_halves h head l [] Hr') as (_ & _ & Hab). destruct (Hab k a head [] Ea eq_refl) as [_ Hp].
  unfold list_add_tail, gives. destruct (get_prev _ _ _ Hp) as (n & -> & <-).
  apply (insert_between h head l [] x k (prev n) head []); try done. by rewrite app_nil_r.
Qed.

Lemma list_del_ring h head p x s : ring h head (p ++ x :: s) -> gives h (list_del x h) head (p ++ s).
Proof.
  intros Hr. destruct (unlink_ring _ _ _ _ _ Hr) as (n & h1 & Eg & Eu & Hr1 & Ha).
  unfold list_del, gives. rewrite Eg. cbn. rewrite Eu. cbn.
  assert (allocated h1 x) as Hal by (apply Ha; unfold get, allocated in *; by destruct (h !! x)).
  destruct (set_next_ok h1 x NULL Hal) as (h2 & -> & P2). cbn.
  destruct (then_prev _ _ _ _ x NULL P2 Hal) as (h3 & -> & [Hn Hp Ha3]).
  exists h3. split_and!; [done | | intros q; by rewrite Ha3, Ha].
  eapply ring_frame; [|exact Hr1]. intros q Hq.
  assert (q <> x) as Hqx.
  { destruct Hr as [Hnd _]. rewrite list.NoDup_cons, list.NoDup_app, list.NoDup_cons in Hnd. set_solver. }
  by rewrite Hn, Hp, !upd_other.
Qed.

Lemma list_replace_ring h head p x s y :
  ring h head (p ++ x :: s) -> y ∉ head :: p ++ x :: s -> allocated h y ->
  gives h (list_replace x y h) head (p ++ y :: s).
Proof.
  intros Hr Hy Hal. destruct (snoc_view head p) as (k & a & Ea). destruct (cons_view s head) as (b & k2 & Eb).
  destruct (ring_halves _ _ p (x :: s) Hr) as (H1 & H2 & Hax).
  destruct (Hax k a x (s ++ [head]) Ea eq_refl) as [Hna Hpx].
  assert (links h (s ++ [head]) /\ nxt h x = Some b /\ prv h b = Some x) as (H3 & Hnx & Hpb).
  { cbn [app] in H2. rewrite Eb in *. rewrite links_cons in H2. tauto. }
  destruct Hr as [Hnd _].
  assert (NoDup (head :: p ++ s) /\ y ∉ head :: p ++ s /\ x <> y /\ x <> b) as (Hnd' & Hy' & Hxy & Hxb).
  { assert (b ∈ s ++ [head]) as Hb by (rewrite Eb; set_solver).
    rewrite list.NoDup_cons in *. rewrite list.NoDup_app in *. rewrite list.NoDup_cons in Hnd. set_solver. }
  unfold list_replace, gives. destruct (get_both h x a b Hnx Hpx) as (o & -> & <- & <-). cbn.
  destruct (set_next_ok h y (next o) Hal) as (h1 & -> & P1). cbn.
  destruct (get_next h1 y (next o)) as (n1 & -> & En1); [rewrite (pt_next _ _ _ _ P1); apply upd_same|]. cbn. rewrite En1.
  destruct (then_prev _ _ _ _ (next o) y P1 (prv_allocated _ _ _ Hpb)) as (h2 & -> & P2). cbn.
  destruct (get_prev h2 (prev o) x) as (o2 & -> & Eo2); [by rewrite (pt_prev _ _ _ _ P2), upd_other|]. cbn. rewrite Eo2.
  destruct (then_prev _ _ _ _ y (prev o) P2 Hal) as (h3 & -> & P3). cbn.
  destruct (get_prev h3 (prev o) y) as (n3 & -> & En3); [rewrite (pt_prev _ _ _ _ P3); apply upd_same|]. cbn. rewrite En3.
  destruct (then_next _ _ _ _ (prev o) y P3 (nxt_allocated _ _ _ Hna)) as (h4 & -> & P4).
  exists h4. split_and!; [done | | apply P4]. by apply (inserted h h4 head p s y k (prev o) (next o) k2).
Qed.

Lemma list_move_ring h head p x s : ring h head (p ++ x :: s) -> gives h (list_move x head h) head (x :: p ++ s).
Proof.
  intros Hr. pose proof (unlink_ring _ _ _ _ _ Hr) as (n & h1 & Eg & Eu & Hr1 & Ha).
  unfold list_move, gives. rewrite Eg. cbn. rewrite Eu. cbn.
  destruct (list_add_ring h1 head (p ++ s) x Hr1) as (h2 & E2 & Hr2 & Ha2).
  - destruct Hr as [Hnd _]. rewrite list.NoDup_cons, list.NoDup_app, list.NoDup_cons in Hnd. set_solver.
  - apply Ha. unfold get, allocated in *. by destruct (h !! x).
  - exists h2. split_and!; [done..|]. intros q. by rewrite Ha2, Ha.
Qed.

Lemma list_move_tail_ring h head p x s :
  ring h head (p ++ x :: s) -> gives h (list_move_tail x head h) head ((p ++ s) ++ [x]).
Proof.
  intros Hr. pose proof (unlink_ring _ _ _ _ _ Hr) as (n & h1 & Eg & Eu & Hr1 & Ha).
  unfold list_move_tail, gives. rewrite Eg. cbn. rewrite Eu. cbn.
  destruct (list_add_tail_ring h1 head (p ++ s) x Hr1) as (h2 & E2 & Hr2 & Ha2).
  - destruct Hr as [Hnd _]. rewrite list.NoDup_cons, list.NoDup_app, list.NoDup_cons in Hnd. set_solver.
  - apply Ha. unfold get, allocated in *. by destruct (h !! x).
  - exists h2. split_and!; [done..|]. intros q. by rewrite Ha2, Ha.
Qed.

(** ** The lists of the specification *)

Lemma without_middle x p s : x ∉ p -> without x (p ++ x :: s) = p ++ s.
Proof.
  induction p as [|y p IH]; cbn; [by rewrite Z.eqb_refl|]. intros Hx.
  replace (y =? x) with false by (symmetry; apply Z.eqb_neq; set_solver). rewrite IH by set_solver. done.
Qed.

Lemma swapped_absent x y l : x ∉ l -> swapped x y l = l.
Proof.
  induction l as [|z l IH]; cbn; [done|]. intros Hx.
  replace (z =? x) with false by (symmetry; apply Z.eqb_neq; set_solver). f_equal. apply IH. set_solver.
Qed.

Lemma swapped_middle x y p s : x ∉ p -> x ∉ s -> swapped x y (p ++ x :: s) = p ++ y :: s.
Proof.
  intros Hp Hs. unfold swapped. rewrite map_app. cbn. rewrite Z.eqb_refl.
  f_equal; [|f_equal]; by apply swapped_absent.
Qed.

(** A member of a circle splits it. *)
Lemma ring_split h head l x :
  ring h head l -> x ∈ l -> exists p s, l = p ++ x :: s /\ x ∉ p /\ x ∉ s.
Proof.
  intros [Hnd _] Hx. apply list_elem_of_split in Hx as (p & s & ->). exists p, s. split; [done|].
  rewrite list.NoDup_cons, list.NoDup_app, list.NoDup_cons in Hnd. set_solver.
Qed.

(** The node an operation brings in. *)
Definition new_nodes (o : list_op) : list loc :=
  match o with OAdd x | OAddTail x => [x] | OReplace _ y => [y] | ODel _ | OMove _ | OMoveTail _ => [] end.

Lemma do_op_spec h head l o l' :
  ring h head l -> (forall x, x ∈ new_nodes o -> allocated h x) -> spec_op head o l = Some l' ->
  gives h (do_op head o h) head l'.
Proof.
  intros Hr Hal. destruct o as [x|x|x|x|x|x y]; cbn in *; repeat case_bool_decide; try done; intros [= <-].
  - apply list_add_ring; [done.. | apply Hal; set_solver].
  - apply list_add_tail_ring; [done.. | apply Hal; set_solver].
  - destruct (ring_split _ _ _ x Hr) as (p & s & -> & Hp & Hs); [done|]. rewrite without_middle by done. by apply list_del_ring.
  - destruct (ring_split _ _ _ x Hr) as (p & s & -> & Hp & Hs); [done|]. rewrite without_middle by done. by apply list_move_ring.
  - destruct (ring_split _ _ _ x Hr) as (p & s & -> & Hp & Hs); [done|]. rewrite without_middle by done. by apply list_move_tail_ring.
  - destruct (ring_split _ _ _ x Hr) as (p & s & -> & Hp & Hs); [done|]. rewrite swapped_middle by done.
    apply list_replace_ring; [done.. | apply Hal; set_solver].
Qed.

Lemma do_ops_spec head os : forall h l l',
  ring h head l -> (forall o x, o ∈ os -> x ∈ new_nodes o -> allocated h x) -> spec_ops head os l = Some l' ->
  gives h (do_ops head os h) head l'.
Proof.
  induction os as [|o os IH]; intros h l l' Hr Hal E.
  { injection E as <-. by exists h. }
  cbn in E. destruct (spec_op head o l) as [l1|] eqn:E1; [|done]. cbn in E.
  destruct (do_op_spec h head l o l1) as (h1 & Eo & Hr1 & Ha1); [done | intros x; apply Hal; set_solver | done |].
  destruct (IH h1 l1 l') as (h2 & E2 & Hr2 & Ha2); [done | | done |].
  { intros o' x Ho Hx. apply Ha1. apply (Hal o'); set_solver. }
  exists h2. cbn. rewrite Eo. cbn. rewrite E2. split_and!; [done..|]. intros q. by rewrite Ha2, Ha1.
Qed.

(** ** Iteration *)

Lemma each_from_links h head l : forall fuel a pos,
  links h (a :: l ++ [head]) -> head ∉ l -> nxt h a = Some pos -> (length l < fuel)%nat ->
  each_from fuel pos head h = Ret l.
Proof.
  induction l as [|x l IH]; intros [|fuel] a pos Hl Hh Hn Hf; cbn [length] in Hf; try lia.
  - destruct Hl as (Hl & _). rewrite Hl in Hn. injection Hn as <-. cbn. by rewrite Z.eqb_refl.
  - cbn [app] in Hl. rewrite links_cons in Hl. destruct Hl as (Hx & _ & Hl). rewrite Hx in Hn. injection Hn as <-.
    cbn [each_from]. replace (x =? head) with false by (symmetry; apply Z.eqb_neq; set_solver).
    destruct (cons_view l head) as (b & k & Eb). pose proof Hl as Hl'. rewrite Eb, links_cons in Hl'.
    destruct Hl' as (Hb & _). destruct (get_next _ _ _ Hb) as (n & -> & <-). cbn.
    by rewrite (IH fuel x) by (done || set_solver || lia).
Qed.

Lemma list_for_each_ring h head l fuel :
  ring h head l -> (length l < fuel)%nat -> list_for_each fuel head h = Ret l.
Proof.
  intros [Hnd Hl] Hf. apply list.NoDup_cons in Hnd as [Hh _]. destruct (cons_view l head) as (b & k & Eb).
  pose proof Hl as Hl'. rewrite Eb, links_cons in Hl'. destruct Hl' as (Hb & _).
  destruct (get_next _ _ _ Hb) as (n & Eg & <-). unfold list_for_each. rewrite Eg.
  by apply (each_from_links h head l fuel head).
Qed.

Lemma each_prev_from_links h head l : forall fuel a pos,
  links h (head :: l ++ [a]) -> head ∉ l -> prv h a = Some pos -> (length l < fuel)%nat ->
  each_prev_from fuel pos head h = Ret (rev l).
Proof.
  induction l as [|x l IH] using rev_ind; intros [|fuel] a pos Hl Hh Hp Hf; rewrite ?length_app in Hf; cbn [length] in Hf; try lia.
  - destruct Hl as (_ & Hl & _). rewrite Hl in Hp. injection Hp as <-. cbn. by rewrite Z.eqb_refl.
  - rewrite <- app_assoc in Hl. cbn [app] in Hl.
    change (head :: l ++ [x; a]) with ((head :: l) ++ x :: [a]) in Hl. rewrite links_split in Hl. destruct Hl as (Hl & Hx).
    destruct Hx as (_ & Hx & _). rewrite Hx in Hp. injection Hp as <-.
    cbn [each_prev_from]. replace (x =? head) with false by (symmetry; apply Z.eqb_neq; set_solver).
    assert (exists b, prv h x = Some b) as [b Hb].
    { destruct (snoc_view head l) as (k & b & E). rewrite E, <- app_assoc in Hl. cbn [app] in Hl.
      rewrite links_split in Hl. exists b. by destruct Hl as (_ & _ & ? & _). }
    destruct (get_prev _ _ _ Hb) as (n & -> & En). cbn. rewrite En.
    rewrite (IH fuel x b) by (done || set_solver || lia). cbn. by rewrite rev_app_distr.
Qed.

Lemma list_for_each_prev_ring h head l fuel :
  ring h head l -> (length l < fuel)%nat -> list_for_each_prev fuel head h = Ret (rev l).
Proof.
  intros [Hnd Hl] Hf. apply list.NoDup_cons in Hnd as [Hh _]. destruct (snoc_view head l) as (k & b & E).
  assert (prv h head = Some b) as Hb.
  { change (head :: l ++ [head]) with ((head :: l) ++ [head]) in Hl. rewrite E, <- app_assoc in Hl. cbn [app] in Hl.
    rewrite links_split in Hl. by destruct Hl as (_ & _ & ? & _). }
  destruct (get_prev _ _ _ Hb) as (n & Eg & <-). unfold list_for_each_prev. rewrite Eg.
  by apply (each_prev_from_links h head l fuel head).
Qed.

Lemma s32_small z : 0 <= z < 2 ^ 31 -> s32 z = z.
Proof. intros Hz. unfold s32. rewrite Z.mod_small; lia. Qed.

(** Counting is iterating, until the int overflows. *)
Lemma count_from_each head h : forall fuel p l i,
  each_from fuel p head h = Ret l -> 0 <= i -> i + Z.of_nat (length l) < 2 ^ 31 ->
  count_from fuel p head i h = Ret (i + Z.of_nat (length l)).
Proof.
  induction fuel as [|fuel IH]; intros p l i E Hi Hb; [done|]. cbn in *. destruct (p =? head).
  - injection E as <-. cbn. f_equal. lia.
  - destruct (get h p) as [n| |]; [|done..]. cbn in *.
    destruct (each_from fuel (next n) head h) as [l'| |] eqn:E'; [|done..]. injection E as <-. cbn [length] in *.
    rewrite s32_small by lia. rewrite (IH _ l') by (done || lia). f_equal. lia.
Qed.

Lemma list_count_ring h head l fuel :
  ring h head l -> (length l < fuel)%nat -> Z.of_nat (length l) < 2 ^ 31 ->
  list_count fuel head h = Ret (Z.of_nat (length l)).
Proof.
  intros Hr Hf Hb. pose proof (list_for_each_ring _ _ _ _ Hr Hf) as E. unfold list_for_each, list_count in *.
  destruct (get h head) as [n| |]; [|done..]. cbn in *. by rewrite (count_from_each head h fuel _ l 0) by (done || lia).
Qed.

Lemma list_empty_ring h head l : ring h head l -> list_empty head h = Ret (bool_decide (l = [])).
Proof.
  intros [Hnd Hl]. apply list.NoDup_cons in Hnd as [Hh _]. unfold list_empty.
  destruct l as [|x l]; cbn [app] in Hl; rewrite links_cons in Hl; destruct Hl as (Hn & _);
    destruct (get_next _ _ _ Hn) as (n & -> & En); cbn; rewrite En.
  - by rewrite Z.eqb_refl.
  - f_equal. apply Z.eqb_neq. set_solver.
Qed.

(** ** The list a program sees *)

(** What the macros and functions that look at a list answer. *)
Definition observes (h : lheap) (head : loc) (l : list loc) : Prop :=
  (forall fuel, (length l < fuel)%nat ->
     list_for_each fuel head h = Ret l /\ list_for_each_prev fuel head h = Ret (rev l) /\
     (Z.of_nat (length l) < 2 ^ 31 -> list_count fuel head h = Ret (Z.of_nat (length l)))) /\
  list_empty head h = Ret (bool_decide (l = [])).

Lemma INIT_LIST_HEAD_ring h head :
  allocated h head -> gives h (INIT_LIST_HEAD head h) head [].
Proof.
  intros Ha. unfold INIT_LIST_HEAD, gives. destruct (set_next_ok h head head Ha) as (h1 & -> & P1). cbn.
  destruct (then_prev _ _ _ _ head head P1 Ha) as (h2 & -> & [Hn Hp Ha2]).
  exists h2. split_and!; [done | | done]. split; [apply NoDup_singleton|]. cbn.
  by rewrite Hn, Hp, !upd_same.
Qed.

(** C12. The circular lists of list.h implement lists: from an initialised head, any
    sequence of additions at either end, deletions, moves and replacements that the
    abstract list allows runs without touching a cell that is not there, and
    iterating forwards, iterating backwards, counting and testing for emptiness then
    answer as the abstract list does. *)
Theorem list_ops_refine h head os l :
  allocated h head -> (forall o x, o ∈ os -> x ∈ new_nodes o -> allocated h x) ->
  spec_ops head os [] = Some l ->
  exists h', (h ← INIT_LIST_HEAD head h; do_ops head os h) = Ret h' /\ ring h' head l /\ observes h' head l.
Proof.
  intros Hh Hal E. destruct (INIT_LIST_HEAD_ring h head Hh) as (h1 & E1 & Hr1 & Ha1).
  destruct (do_ops_spec head os h1 [] l Hr1) as (h2 & E2 & Hr2 & _); [|done|].
  { intros o x Ho Hx. apply Ha1. by apply (Hal o). }
  exists h2. rewrite E1. cbn. split_and!; [done..|]. split; [|by apply list_empty_ring].
  intros fuel Hf. split_and!; [by apply list_for_each_ring | by apply list_for_each_prev_ring |].
  intros Hb. by apply list_count_ring.
Qed.

(** Five cells, and a queue that is filled, reordered and emptied in part. *)
Definition cells : lheap := list_to_map (map (fun p => (p, mknode 0 0)) [1; 2; 3; 4; 5]).
Definition some_ops : list list_op :=
  [OAddTail 2; OAddTail 3; OAdd 4; OMove 3; OReplace 2 5; ODel 4; OMoveTail 3; OAdd 2].

Lemma list_ops_refine_witness :
  spec_ops 1 some_ops [] = Some [2; 5; 3] /\
  exists h', (h ← INIT_LIST_HEAD 1 cells; do_ops 1 some_ops h) = Ret h' /\ ring h' 1 [2; 5; 3] /\ observes h' 1 [2; 5; 3].
Proof.
  split; [vm_compute; reflexivity|]. apply list_ops_refine.
  - vm_compute. by eexists.
  - intros o x Ho Hx. unfold some_ops in Ho.
    repeat (apply elem_of_cons in Ho as [->|Ho]); try (by apply not_elem_of_nil in Ho);
      cbn in Hx; repeat (apply elem_of_cons in Hx as [->|Hx]); try (by apply not_elem_of_nil in Hx);
      vm_compute; by eexists.
  - vm_compute. reflexivity.
Defined.
