(* ===== verification/ListIter.v ===== *)
(** * Splicing and the iterating macros of list.h

    The macros that iterate over entries work on the structures the nodes are a
    member of, [off] bytes behind their start; [go] is the pointer they follow. *)

From S2P Require Import Prelude KList KListProps.

Definition container_of (off ptr : Z) : Z := ptr - off.
Definition list_entry : Z -> Z -> Z := container_of.

Definition list_first_entry (off ptr : loc) (h : lheap) : outcome Z :=
  n ← get h ptr; Ret (list_entry off (next n)).

(** [&pos->member] *)
Definition member (off pos : Z) : loc := pos + off.

(** The loop all of them share: the entries it visits from [pos] on. *)
Fixpoint entry_loop (fuel : nat) (go : list_head -> loc) (off pos : Z) (head : loc) (h : lheap) : outcome (list Z) :=
  match fuel with
  | O => Undef
  | S fuel =>
      if member off pos =? head then Ret []
      else n ← get h (member off pos);
           l ← entry_loop fuel go off (list_entry off (go n)) head h; Ret (pos :: l)
  end.

Definition list_for_each_entry (fuel : nat) (off : Z) (head : loc) (h : lheap) : outcome (list Z) :=
  n ← get h head; entry_loop fuel next off (list_entry off (next n)) head h.

Definition list_for_each_entry_reverse (fuel : nat) (off : Z) (head : loc) (h : lheap) : outcome (list Z) :=
  n ← get h head; entry_loop fuel prev off (list_entry off (prev n)) head h.

(** The entry to start behind; NULL stands for the head. *)
Definition list_prepare_entry (pos : Z) (off : Z) (head : loc) : Z := if pos =? NULL then list_entry off head else pos.

Definition list_for_each_entry_continue (fuel : nat) (off pos : Z) (head : loc) (h : lheap) : outcome (list Z) :=
  n ← get h (member off pos); entry_loop fuel next off (list_entry off (next n)) head h.

Definition list_for_each_entry_continue_reverse (fuel : nat) (off pos : Z) (head : loc) (h : lheap) : outcome (list Z) :=
  n ← get h (member off pos); entry_loop fuel prev off (list_entry off (prev n)) head h.

Definition list_for_each_entry_from (fuel : nat) (off pos : Z) (head : loc) (h : lheap) : outcome (list Z) :=
  entry_loop fuel next off pos head h.

(** The loops whose body may delete the entry it is given; [n] is one ahead. *)
Fixpoint entry_safe_loop (fuel : nat) (go : list_head -> loc) (off : Z) (body : Z -> lheap -> outcome lheap)
    (pos n : Z) (head : loc) (h : lheap) : outcome lheap :=
  match fuel with
  | O => Undef
  | S fuel =>
      if member off pos =? head then Ret h
      else h ← body pos h;
           nn ← get h (member off n);
           entry_safe_loop fuel go off body n (list_entry off (go nn)) head h
  end.

Definition safe_from (fuel : nat) (go : list_head -> loc) (off : Z) (body : Z -> lheap -> outcome lheap) (pos : Z)
    (head : loc) (h : lheap) : outcome lheap :=
  p ← get h (member off pos); entry_safe_loop fuel go off body pos (list_entry off (go p)) head h.

Definition list_for_each_entry_safe_from (fuel : nat) (off : Z) body (pos : Z) (head : loc) (h : lheap) : outcome lheap :=
  safe_from fuel next off body pos head h.

Definition list_for_each_entry_safe (fuel : nat) (off : Z) body (head : loc) (h : lheap) : outcome lheap :=
  n ← get h head; safe_from fuel next off body (list_entry off (next n)) head h.

Definition list_for_each_entry_safe_continue (fuel : nat) (off : Z) body (pos : Z) (head : loc) (h : lheap) : outcome lheap :=
  n ← get h (member off pos); safe_from fuel next off body (list_entry off (next n)) head h.

Definition list_for_each_entry_safe_reverse (fuel : nat) (off : Z) body (head : loc) (h : lheap) : outcome lheap :=
  n ← get h head; safe_from fuel prev off body (list_entry off (prev n)) head h.

(** The backwards loop over nodes is the one over entries that start with them. *)
Definition list_for_each_prev_safe (fuel : nat) body (head : loc) (h : lheap) : outcome lheap :=
  list_for_each_entry_safe_reverse fuel 0 body head h.

(** ** Iterating over entries is iterating over nodes *)

Lemma member_entry off p : member off (list_entry off p) = p.
Proof. unfold member, list_entry, container_of. lia. Qed.

Lemma entry_member off e : list_entry off (member off e) = e.
Proof. unfold member, list_entry, container_of. lia. Qed.

Lemma entry_loop_next off head h : forall fuel pos l,
  each_from fuel pos head h = Ret l -> entry_loop fuel next off (list_entry off pos) head h = Ret (map (list_entry off) l).
Proof.
  induction fuel as [|fuel IH]; intros pos l E; [done|]. cbn [each_from entry_loop] in *. rewrite member_entry.
  destruct (pos =? head); [by injection E as <-|]. unwind E. injection E as <-. cbn [mbind outcome_bind].
  by rewrite (IH _ _ E1).
Qed.

Lemma entry_loop_prev off head h : forall fuel pos l,
  each_prev_from fuel pos head h = Ret l -> entry_loop fuel prev off (list_entry off pos) head h = Ret (map (list_entry off) l).
Proof.
  induction fuel as [|fuel IH]; intros pos l E; [done|]. cbn [each_prev_from entry_loop] in *. rewrite member_entry.
  destruct (pos =? head); [by injection E as <-|]. unwind E. injection E as <-. cbn [mbind outcome_bind].
  by rewrite (IH _ _ E1).
Qed.

Lemma list_for_each_entry_ring h head l fuel off :
  ring h head l -> (length l < fuel)%nat -> list_for_each_entry fuel off head h = Ret (map (list_entry off) l).
Proof.
  intros Hr Hf. pose proof (list_for_each_ring h head l fuel Hr Hf) as E. unfold list_for_each, list_for_each_entry in *.
  unwind E. cbn [mbind outcome_bind]. by apply entry_loop_next.
Qed.

Lemma list_for_each_entry_reverse_ring h head l fuel off :
  ring h head l -> (length l < fuel)%nat -> list_for_each_entry_reverse fuel off head h = Ret (map (list_entry off) (rev l)).
Proof.
  intros Hr Hf. pose proof (list_for_each_prev_ring h head l fuel Hr Hf) as E. unfold list_for_each_prev, list_for_each_entry_reverse in *.
  unwind E. cbn [mbind outcome_bind]. by apply entry_loop_prev.
Qed.

(** Continuing behind an entry, or from it. *)
Lemma ring_suffix h head p x s :
  ring h head (p ++ x :: s) -> links h (x :: s ++ [head]) /\ head ∉ x :: s /\ exists b, nxt h x = Some b.
Proof.
  intros [Hnd Hl]. rewrite <- app_assoc in Hl. cbn [app] in Hl.
  change (head :: p ++ x :: s ++ [head]) with ((head :: p) ++ x :: s ++ [head]) in Hl. rewrite links_split in Hl.
  destruct Hl as [_ Hl]. split_and!; [done | apply list.NoDup_cons in Hnd as [Hnd _]; set_solver |].
  destruct (cons_view s head) as (b & k & Eb). rewrite Eb, links_cons in Hl. exists b. apply Hl.
Qed.

Lemma list_for_each_entry_continue_ring h head p x s fuel off :
  ring h head (p ++ x :: s) -> (length s < fuel)%nat ->
  list_for_each_entry_continue fuel off (list_entry off x) head h = Ret (map (list_entry off) s).
Proof.
  intros Hr Hf. destruct (ring_suffix _ _ _ _ _ Hr) as (Hl & Hh & b & Hb). unfold list_for_each_entry_continue.
  rewrite member_entry. destruct (get_next _ _ _ Hb) as (n & -> & <-). cbn [mbind outcome_bind].
  apply entry_loop_next, (each_from_links h head s fuel x); [done | set_solver | done | done].
Qed.

Lemma list_for_each_entry_from_ring h head p x s fuel off :
  ring h head (p ++ x :: s) -> (S (length s) < fuel)%nat ->
  list_for_each_entry_from fuel off (list_entry off x) head h = Ret (map (list_entry off) (x :: s)).
Proof.
  intros Hr Hf. destruct fuel as [|fuel]; [lia|]. pose proof (list_for_each_entry_continue_ring h head p x s fuel off Hr ltac:(lia)) as E.
  destruct (ring_suffix _ _ _ _ _ Hr) as (Hl & Hh & _). unfold list_for_each_entry_from. cbn [entry_loop]. rewrite member_entry.
  replace (x =? head) with false by (symmetry; apply Z.eqb_neq; set_solver).
  unfold list_for_each_entry_continue in E. rewrite member_entry in E. unwind E. cbn [mbind outcome_bind]. by rewrite E.
Qed.

(** Starting behind the entry that stands for the head visits the whole list. *)
Lemma list_prepare_entry_ring h head l fuel off :
  ring h head l -> (length l < fuel)%nat ->
  list_for_each_entry_continue fuel off (list_prepare_entry NULL off head) head h = Ret (map (list_entry off) l).
Proof.
  intros Hr Hf. unfold list_prepare_entry, list_for_each_entry_continue. cbn [Z.eqb NULL]. rewrite member_entry.
  by apply list_for_each_entry_ring.
Qed.

(** ** Splicing *)

Lemma list_splice_nonempty_ring h head list k l :
  ring h head l -> ring h list k -> k <> [] -> (forall q, q ∈ list :: k -> q ∉ head :: l) ->
  exists h', list_splice_nonempty list head h = Ret h' /\ ring h' head (k ++ l) /\
    forall q, allocated h' q <-> allocated h q.
Proof.
  intros Hr Hk Hne Hd. destruct k as [|f k]; [done|]. clear Hne. destruct (snoc_view f k) as (k0 & z & Ez).
  destruct (cons_view l head) as (b & k2 & Eb).
  destruct (ring_halves h head [] l Hr) as (_ & H2 & Hab). destruct (Hab [] head b k2 eq_refl Eb) as [Hnb Hpb].
  assert (nxt h list = Some f /\ prv h f = Some list /\ prv h list = Some z /\ nxt h z = Some list /\ links h (f :: k)) as (L1 & L2 & L3 & L4 & L5).
  { destruct Hk as [_ Hl]. cbn [app] in Hl. rewrite links_cons in Hl. destruct Hl as (? & ? & Hl).
    change (f :: k ++ [list]) with ((f :: k) ++ [list]) in Hl. rewrite Ez, <- app_assoc in Hl. cbn [app] in Hl.
    rewrite links_split, links_cons, <- Ez in Hl. tauto. }
  destruct Hr as [Hnd Hl]. destruct Hk as [Hndk _].
  assert (f ∈ f :: k /\ z ∈ f :: k) as [Hf Hz] by (split; [by left | rewrite Ez; set_solver]).
  assert (b ∈ head :: l) as Hb by (assert (b ∈ l ++ [head]) by (rewrite Eb; by left); set_solver).
  unfold list_splice_nonempty. destruct (get_both _ _ _ _ L1 L3) as (nl & -> & <- & <-). cbn [mbind outcome_bind].
  destruct (get_next _ _ _ Hnb) as (nh & -> & <-). cbn [mbind outcome_bind].
  destruct (set_prev_ok h (next nl) head (prv_allocated _ _ _ L2)) as (h1 & -> & P1). cbn [mbind outcome_bind].
  destruct (then_next _ _ _ _ head (next nl) P1 (nxt_allocated _ _ _ Hnb)) as (h2 & -> & P2). cbn [mbind outcome_bind].
  destruct (then_next _ _ _ _ (prev nl) (next nh) P2 (nxt_allocated _ _ _ L4)) as (h3 & -> & P3). cbn [mbind outcome_bind].
  destruct (then_prev _ _ _ _ (next nh) (prev nl) P3 (prv_allocated _ _ _ Hpb)) as (h4 & -> & [Pn Pp Pa]).
  exists h4. split_and!; [done | | exact Pa].
  apply list.NoDup_cons in Hnd as [Hh Hndl]. apply list.NoDup_cons in Hndk as [Hlk Hndk].
  assert (forall q, q ∈ next nl :: k -> q <> head /\ q ∉ l /\ q <> next nh) as Hk.
  { intros q Hq. assert (q ∉ head :: l) as Hn by (apply Hd; by right). apply not_elem_of_cons in Hn as [? ?].
    split_and!; [done..|]. intros ->. set_solver. }
  assert (next nh <> next nl) as Hne1 by (intros E; destruct (Hk (next nl) Hf) as (_ & _ & ?); congruence).
  split.
  - apply list.NoDup_cons. split.
    + rewrite elem_of_app. intros [Hq | Hq]; [by destruct (Hk _ Hq) | done].
    + apply list.NoDup_app. split_and!; [done | | done]. intros q Hq. by apply Hk.
  - rewrite <- app_assoc. change (head :: (next nl :: k) ++ l ++ [head]) with (head :: [] ++ (next nl :: k) ++ l ++ [head]).
    apply (links_join h h4 head [] l (next nl :: k)); [by apply list.NoDup_cons | | done | done | | |].
    + intros q Hq. apply not_elem_of_cons. destruct (Hk q Hq) as (? & ? & _). done.
    + intros q [Hq | ->]; [|right; by exists []]. left. cbn [app] in Hq. rewrite Pn, !upd_other; [done | by intros -> |].
      intros ->. by destruct (Hk _ Hz) as (_ & ? & _).
    + intros q Hq. rewrite Pp. destruct (decide (q = next nh)) as [-> | Hqb]; [right; by exists k2|]. left.
      rewrite !upd_other; [done | | done]. intros ->. destruct (Hk (next nl) Hf) as (? & ? & _). by destruct Hq.
    + intros k' a b' k2' E1 E2. assert (a = head) as -> by (destruct k' as [|? [|]]; by injection E1).
      rewrite Eb in E2. injection E2 as <- _. cbn [app]. rewrite links_cons. split_and!.
      * rewrite Pn, upd_other, upd_same; [done|]. intros E. by destruct (Hk (prev nl) Hz) as (? & _).
      * rewrite Pp, upd_other, upd_same by congruence. done.
      * change (next nl :: k ++ [next nh]) with ((next nl :: k) ++ [next nh]). rewrite Ez, <- app_assoc. cbn [app].
        rewrite links_split, links_cons, <- Ez. split; [|split_and!; [by rewrite Pn, upd_same | by rewrite Pp, upd_same | done]].
        eapply links_ext; [| | exact L5].
        -- intros q Hq. assert (q ∈ next nl :: k /\ q <> prev nl) as [Hin Hqz].
           { rewrite Ez in Hq, Hndk |- *. rewrite removelast_last in Hq. apply list.NoDup_app in Hndk as (_ & Hdk & _).
             split; [set_solver | intros ->; apply (Hdk _ Hq); by left]. }
           rewrite Pn, !upd_other; [done | by apply Hk | done].
        -- cbn [tail]. intros q Hq. assert (q ∈ next nl :: k) as Hin by set_solver.
           rewrite Pp, !upd_other; [done | | by apply Hk]. intros ->. by apply list.NoDup_cons in Hndk as [? _].
Qed.

Lemma INIT_LIST_HEAD_frame h head : allocated h head ->
  exists h', INIT_LIST_HEAD head h = Ret h' /\ ring h' head [] /\ (forall q, allocated h' q <-> allocated h q) /\
    forall q, q <> head -> nxt h' q = nxt h q /\ prv h' q = prv h q.
Proof.
  intros Ha. destruct (INIT_LIST_HEAD_ring h head Ha) as (h' & E & Hr & Ha'). exists h'. split_and!; [done..|].
  unfold INIT_LIST_HEAD in E. destruct (set_next_ok h head head Ha) as (h1 & E1 & P1). rewrite E1 in E. cbn in E.
  destruct (then_prev _ _ _ _ head head P1 Ha) as (h2 & E2 & [Hn Hp _]). rewrite E2 in E. injection E as ->.
  intros q Hq. by rewrite Hn, Hp, !upd_other.
Qed.

(** The nodes of the other list come to stand in front, and it is left empty. *)
Lemma list_splice_init_ring h head list k l :
  ring h head l -> ring h list k -> (forall q, q ∈ list :: k -> q ∉ head :: l) ->
  exists h', list_splice_init list head h = Ret h' /\ ring h' head (k ++ l) /\ ring h' list [] /\
    forall q, allocated h' q <-> allocated h q.
Proof.
  intros Hr Hk Hd. unfold list_splice_init. rewrite (list_empty_ring _ _ _ Hk). cbn [mbind outcome_bind].
  destruct k as [|f k]; [by exists h|].
  destruct (list_splice_nonempty_ring h head list (f :: k) l) as (h1 & E1 & Hr1 & Ha1); [done..|].
  cbn. rewrite E1. cbn [mbind outcome_bind].
  assert (allocated h list) as Hal by (destruct Hk as [_ Hl]; cbn [app] in Hl; rewrite links_cons in Hl; destruct Hl as [Hl _]; exact (nxt_allocated _ _ _ Hl)).
  destruct (INIT_LIST_HEAD_frame h1 list) as (h2 & E2 & Hr2 & Ha2 & Hf2); [by apply Ha1|].
  exists h2. split_and!; [exact E2 | | exact Hr2 | intros q; by rewrite Ha2].
  eapply ring_frame; [|exact Hr1]. intros q Hq. apply Hf2. intros ->.
  assert (list ∉ head :: l) as Hn by (apply Hd; by left). destruct Hk as [[Hnk _]%list.NoDup_cons _]. set_solver.
Qed.

(** ** Loops that delete *)

Definition hd_or (head : loc) (l : list loc) : loc := match l with [] => head | x :: _ => x end.

Lemma ring_first h head l : ring h head l -> nxt h head = Some (hd_or head l).
Proof. intros [_ Hl]. destruct l as [|x l]; cbn [app] in Hl; rewrite links_cons in Hl; by destruct Hl. Qed.

Lemma ring_second h head x l : ring h head (x :: l) -> nxt h x = Some (hd_or head l).
Proof. intros [_ Hl]. cbn [app] in Hl. rewrite links_cons in Hl. destruct Hl as (_ & _ & Hl). destruct l as [|y l]; cbn [app] in Hl; rewrite links_cons in Hl; by destruct Hl. Qed.

Definition last_or (head : loc) (l : list loc) : loc := match list.last l with Some x => x | None => head end.

Lemma ring_last h head l : ring h head l -> prv h head = Some (last_or head l).
Proof.
  intros [_ Hl]. destruct l as [|x l] using rev_ind; [by destruct Hl as (_ & ? & _)|].
  unfold last_or. rewrite last_snoc. rewrite <- app_assoc in Hl. cbn [app] in Hl.
  change (head :: l ++ [x; head]) with ((head :: l) ++ x :: [head]) in Hl. rewrite links_split in Hl. apply Hl.
Qed.

Lemma ring_before_last h head l x : ring h head (l ++ [x]) -> prv h x = Some (last_or head l).
Proof.
  intros [_ Hl]. rewrite <- app_assoc in Hl. cbn [app] in Hl.
  change (head :: l ++ [x; head]) with ((head :: l) ++ x :: [head]) in Hl. rewrite links_split in Hl. destruct Hl as [Hl _].
  destruct l as [|y l] using rev_ind; [by destruct Hl as (_ & ? & _)|]. unfold last_or. rewrite last_snoc. cbn [app] in Hl.
  rewrite <- app_assoc in Hl. cbn [app] in Hl. change (head :: l ++ [y; x]) with ((head :: l) ++ y :: [x]) in Hl.
  rewrite links_split in Hl. apply Hl.
Qed.

(** A body that takes out its entry. *)
Definition del_entry (off e : Z) : lheap -> outcome lheap := list_del (member off e).

Lemma del_entry_list off p h : del_entry off (list_entry off p) h = list_del p h.
Proof. unfold del_entry. by rewrite member_entry. Qed.

Lemma safe_loop_deletes head off l : forall fuel h,
  ring h head l -> (length l < fuel)%nat ->
  exists h', entry_safe_loop fuel next off (del_entry off) (list_entry off (hd_or head l))
      (list_entry off (hd_or (hd_or head l) (match l with [] => [] | _ :: l => l ++ [head] end))) head h = Ret h' /\
    ring h' head [] /\ forall q, allocated h' q <-> allocated h q.
Proof.
  induction l as [|x l IH]; intros [|fuel] h Hr Hf; cbn [length] in Hf; try lia.
  { exists h. cbn [entry_safe_loop hd_or]. by rewrite member_entry, Z.eqb_refl. }
  cbn [entry_safe_loop hd_or]. rewrite !member_entry, del_entry_list.
  assert (x <> head) as Hne by (destruct Hr as [[Hn _]%list.NoDup_cons _]; set_solver).
  rewrite (proj2 (Z.eqb_neq _ _) Hne). destruct (list_del_ring h head [] x l Hr) as (h1 & -> & Hr1 & Ha1).
  cbn [app mbind outcome_bind] in *.
  assert (hd_or x (l ++ [head]) = hd_or head l) as -> by (by destruct l).
  destruct (IH fuel h1 Hr1) as (h2 & E2 & Hr2 & Ha2); [lia|]. destruct l as [|y l]; cbn [hd_or] in *.
  - pose proof (ring_first _ _ _ Hr1) as Hn. destruct (get_next _ _ _ Hn) as (n & -> & _). cbn [mbind outcome_bind].
    destruct fuel; [lia|]. cbn [entry_safe_loop] in *. rewrite member_entry, Z.eqb_refl in *. exists h1. by injection E2 as <-.
  - pose proof (ring_second _ _ _ _ Hr1) as Hn. destruct (get_next _ _ _ Hn) as (n & Eg & En). rewrite Eg. cbn [mbind outcome_bind]. rewrite En. clear Eg En.
    assert (hd_or y (l ++ [head]) = hd_or head l) as E by (by destruct l). rewrite E in E2. exists h2. split_and!; [done..|].
    intros q. by rewrite Ha2.
Qed.

(** Emptying a list from the front. *)
Lemma list_for_each_entry_safe_empties h head l fuel off :
  ring h head l -> (length l < fuel)%nat ->
  exists h', list_for_each_entry_safe fuel off (del_entry off) head h = Ret h' /\ ring h' head [] /\
    forall q, allocated h' q <-> allocated h q.
Proof.
  intros Hr Hf. destruct (safe_loop_deletes head off l fuel h Hr Hf) as (h' & E & Hr' & Ha). exists h'. split_and!; [|done..].
  unfold list_for_each_entry_safe, safe_from. pose proof (ring_first _ _ _ Hr) as Hn. destruct (get_next _ _ _ Hn) as (n & Eg & En).
  rewrite Eg. cbn [mbind outcome_bind]. rewrite En. clear Eg En. rewrite member_entry. destruct l as [|x l]; cbn [hd_or] in *.
  - destruct (get_next _ _ _ Hn) as (n' & Eg & En). rewrite Eg. cbn [mbind outcome_bind]. rewrite En. clear Eg En. exact E.
  - pose proof (ring_second _ _ _ _ Hr) as Hn2. destruct (get_next _ _ _ Hn2) as (n' & Eg & En). rewrite Eg. cbn [mbind outcome_bind]. rewrite En. clear Eg En.
    assert (hd_or x (l ++ [head]) = hd_or head l) as <- by (by destruct l). exact E.
Qed.

(** And from the back. *)
Lemma safe_loop_deletes_back head off l : forall fuel h x,
  ring h head (l ++ [x]) -> (S (length l) < fuel)%nat ->
  exists h', entry_safe_loop fuel prev off (del_entry off) (list_entry off x) (list_entry off (last_or head l)) head h = Ret h' /\
    ring h' head [] /\ forall q, allocated h' q <-> allocated h q.
Proof.
  induction l as [|y l IH] using rev_ind; intros [|fuel] h x Hr Hf; rewrite ?length_app in Hf; cbn [length] in Hf; try lia;
    cbn [entry_safe_loop]; rewrite !member_entry, del_entry_list.
  all: assert (x <> head) as Hne by (destruct Hr as [[Hn _]%list.NoDup_cons _]; set_solver).
  all: rewrite (proj2 (Z.eqb_neq _ _) Hne); destruct (list_del_ring h head _ x [] Hr) as (h1 & -> & Hr1 & Ha1).
  all: rewrite app_nil_r in Hr1; cbn [mbind outcome_bind].
  - pose proof (ring_last _ _ _ Hr1) as Hp. cbn [last_or list.last] in *. destruct (get_prev _ _ _ Hp) as (n & -> & _). cbn [mbind outcome_bind].
    destruct fuel; [lia|]. cbn [entry_safe_loop]. rewrite member_entry, Z.eqb_refl. by exists h1.
  - assert (last_or head (l ++ [y]) = y) as El by (unfold last_or; by rewrite last_snoc). rewrite El in *. pose proof (ring_before_last _ _ _ _ Hr1) as Hp. destruct (get_prev _ _ _ Hp) as (n & Eg & En). rewrite Eg. cbn [mbind outcome_bind]. rewrite En. clear Eg En.
    destruct (IH fuel h1 y Hr1) as (h2 & E2 & Hr2 & Ha2); [lia|]. exists h2. split_and!; [exact E2 | done |]. intros q. by rewrite Ha2.
Qed.

Lemma list_for_each_prev_safe_empties h head l fuel :
  ring h head l -> (length l < fuel)%nat ->
  exists h', list_for_each_prev_safe fuel (del_entry 0) head h = Ret h' /\ ring h' head [] /\
    forall q, allocated h' q <-> allocated h q.
Proof.
  intros Hr Hf. unfold list_for_each_prev_safe, list_for_each_entry_safe_reverse, safe_from.
  pose proof (ring_last _ _ _ Hr) as Hp. destruct (get_prev _ _ _ Hp) as (n & E & En). rewrite E. cbn [mbind outcome_bind]. rewrite En, member_entry.
  destruct l as [|x l] using rev_ind.
  - cbn [last_or list.last] in *. rewrite E. cbn [mbind outcome_bind]. destruct fuel; [cbn in Hf; lia|]. cbn [entry_safe_loop].
    rewrite member_entry, Z.eqb_refl. by exists h.
  - clear IHl. unfold last_or in *. rewrite last_snoc in *. pose proof (ring_before_last _ _ _ _ Hr) as Hq.
    destruct (get_prev _ _ _ Hq) as (n' & Eg & En'). rewrite Eg. cbn [mbind outcome_bind]. rewrite En'. apply safe_loop_deletes_back; [done|].
    rewrite length_app in Hf. cbn in Hf. lia.
Qed.
