(* ===== verification/HList.v ===== *)
(** * Lists with a single pointer head: the hlist half of list.h

    A node points to its successor and back to the pointer that points to it: the
    first of a head or the next of a node.  [hlist] relates a heap to the list of the
    nodes behind a head.  The program does not use these lists. *)

From S2P Require Import Prelude KList.

(** The address of a pointer to a node. *)
Inductive slot := First (head : loc) | Next (node : loc).

#[export] Instance slot_dec : EqDecision slot.
Proof. solve_decision. Defined.

(** struct hlist_node; [None] is a null pprev *)
Record hlist_node := mkhnode { hnext : loc; pprev : option slot }.

(** The heads, struct hlist_head, and the nodes. *)
Record hheap := mkhheap { firsts : gmap loc loc; hnodes : gmap loc hlist_node }.

Definition hnode (h : hheap) (n : loc) : outcome hlist_node :=
  match hnodes h !! n with Some x => Ret x | None => Undef end.

Definition hfirst (h : hheap) (head : loc) : outcome loc :=
  match firsts h !! head with Some n => Ret n | None => Undef end.

Definition set_hnode (n : loc) (x : hlist_node) (h : hheap) : hheap := mkhheap (firsts h) (<[n := x]> (hnodes h)).

Definition set_hnext (n v : loc) (h : hheap) : outcome hheap :=
  x ← hnode h n; Ret (set_hnode n (mkhnode v (pprev x)) h).

Definition set_pprev (n : loc) (s : option slot) (h : hheap) : outcome hheap :=
  x ← hnode h n; Ret (set_hnode n (mkhnode (hnext x) s) h).

(** Writing through a pprev. *)
Definition write_slot (s : slot) (v : loc) (h : hheap) : outcome hheap :=
  match s with
  | First head => _ ← hfirst h head; Ret (mkhheap (<[head := v]> (firsts h)) (hnodes h))
  | Next n => set_hnext n v h
  end.

Definition INIT_HLIST_HEAD (head : loc) (h : hheap) : outcome hheap := write_slot (First head) NULL h.

Definition INIT_HLIST_NODE (n : loc) (h : hheap) : outcome hheap :=
  h ← set_hnext n NULL h; set_pprev n None h.

Definition hlist_unhashed (n : loc) (h : hheap) : outcome bool :=
  x ← hnode h n; Ret (negb (bool_decide (is_Some (pprev x)))).

Definition hlist_empty (head : loc) (h : hheap) : outcome bool :=
  first ← hfirst h head; Ret (first =? NULL).

(** [__hlist_del] *)
Definition hlist_unlink (n : loc) (h : hheap) : outcome hheap :=
  x ← hnode h n;
  match pprev x with
  | None => Undef
  | Some s =>
      h ← write_slot s (hnext x) h;
      if hnext x =? NULL then Ret h else set_pprev (hnext x) (Some s) h
  end.

Definition hlist_del (n : loc) (h : hheap) : outcome hheap :=
  h ← hlist_unlink n h;
  h ← set_hnext n NULL h;
  set_pprev n None h.

Definition hlist_del_init (n : loc) (h : hheap) : outcome hheap :=
  unhashed ← hlist_unhashed n h;
  if unhashed : bool then Ret h else h ← hlist_unlink n h; INIT_HLIST_NODE n h.

Definition hlist_add_head (n head : loc) (h : hheap) : outcome hheap :=
  first ← hfirst h head;
  h ← set_hnext n first h;
  h ← (if first =? NULL then Ret h else set_pprev first (Some (Next n)) h);
  h ← write_slot (First head) n h;
  set_pprev n (Some (First head)) h.

Definition hlist_add_before (n next : loc) (h : hheap) : outcome hheap :=
  x ← hnode h next;
  h ← set_pprev n (pprev x) h;
  h ← set_hnext n next h;
  h ← set_pprev next (Some (Next n)) h;
  y ← hnode h n;
  match pprev y with None => Undef | Some s => write_slot s n h end.

Definition hlist_add_after (n next : loc) (h : hheap) : outcome hheap :=
  x ← hnode h n;
  h ← set_hnext next (hnext x) h;
  h ← set_hnext n next h;
  h ← set_pprev next (Some (Next n)) h;
  y ← hnode h next;
  if hnext y =? NULL then Ret h else set_pprev (hnext y) (Some (Next next)) h.

Fixpoint hlist_each_from (fuel : nat) (pos : loc) (h : hheap) : outcome (list loc) :=
  match fuel with
  | O => Undef
  | S fuel =>
      if pos =? NULL then Ret []
      else x ← hnode h pos; l ← hlist_each_from fuel (hnext x) h; Ret (pos :: l)
  end.

Definition hlist_for_each (fuel : nat) (head : loc) (h : hheap) : outcome (list loc) :=
  first ← hfirst h head; hlist_each_from fuel first h.

(** The macros over entries, [off] bytes in front of their nodes. *)
Definition hlist_entry (off ptr : Z) : Z := ptr - off.

Definition hlist_for_each_entry (fuel : nat) (off : Z) (head : loc) (h : hheap) : outcome (list Z) :=
  l ← hlist_for_each fuel head h; Ret (map (hlist_entry off) l).

Definition hlist_for_each_entry_from (fuel : nat) (off : Z) (pos : loc) (h : hheap) : outcome (list Z) :=
  l ← hlist_each_from fuel pos h; Ret (map (hlist_entry off) l).

Definition hlist_for_each_entry_continue (fuel : nat) (off : Z) (pos : loc) (h : hheap) : outcome (list Z) :=
  x ← hnode h pos; hlist_for_each_entry_from fuel off (hnext x) h.

(** [hlist_for_each_entry_safe]: [n] is read in the condition, before the body. *)
Fixpoint hlist_safe_from (fuel : nat) (body : loc -> hheap -> outcome hheap) (pos : loc) (h : hheap) : outcome hheap :=
  match fuel with
  | O => Undef
  | S fuel =>
      if pos =? NULL then Ret h
      else x ← hnode h pos; h ← body pos h; hlist_safe_from fuel body (hnext x) h
  end.

Definition hlist_for_each_entry_safe (fuel : nat) (off : Z) (body : Z -> hheap -> outcome hheap) (head : loc) (h : hheap)
    : outcome hheap :=
  first ← hfirst h head; hlist_safe_from fuel (fun pos => body (hlist_entry off pos)) first h.

(** [hlist_for_each_safe] goes on with [n], which nothing sets: [None] is a variable
    without a value. *)
Fixpoint hlist_unsafe_from (fuel : nat) (body : loc -> hheap -> outcome hheap) (n : option loc) (pos : loc) (h : hheap)
    : outcome hheap :=
  match fuel with
  | O => Undef
  | S fuel =>
      if pos =? NULL then Ret h
      else h ← body pos h;
           match n with None => Undef | Some p => hlist_unsafe_from fuel body n p h end
  end.

Definition hlist_for_each_safe (fuel : nat) (body : loc -> hheap -> outcome hheap) (n : option loc) (head : loc) (h : hheap)
    : outcome hheap :=
  first ← hfirst h head; hlist_unsafe_from fuel body n first h.

(** ** The list a head stands for *)

Definition rd (h : hheap) (s : slot) : option loc :=
  match s with First head => firsts h !! head | Next n => hnext <$> hnodes h !! n end.

(** [None]: no such node *)
Definition pp (h : hheap) (n : loc) : option (option slot) := pprev <$> hnodes h !! n.

(** The nodes behind the pointer [s], in order. *)
Fixpoint path (h : hheap) (s : slot) (l : list loc) : Prop :=
  match l with
  | [] => True
  | x :: l => rd h s = Some x /\ x <> NULL /\ pp h x = Some (Some s) /\ path h (Next x) l
  end.

(** The last pointer of a path. *)
Definition fin (s : slot) (l : list loc) : slot := match list.last l with Some x => Next x | None => s end.

Definition hlist (h : hheap) (head : loc) (l : list loc) : Prop :=
  NoDup l /\ path h (First head) l /\ rd h (fin (First head) l) = Some NULL.

(** ** The specification *)

Inductive hlist_op :=
| HAddHead (new : loc)
| HAddBefore (new next : loc)
| HAddAfter (node new : loc)
| HDel (node : loc)
| HDelInit (node : loc).

Definition do_hop (head : loc) (o : hlist_op) (h : hheap) : outcome hheap :=
  match o with
  | HAddHead x => hlist_add_head x head h
  | HAddBefore x y => hlist_add_before x y h
  | HAddAfter y x => hlist_add_after y x h
  | HDel x => hlist_del x h
  | HDelInit x => hlist_del_init x h
  end.

Fixpoint do_hops (head : loc) (os : list hlist_op) (h : hheap) : outcome hheap :=
  match os with [] => Ret h | o :: os => h ← do_hop head o h; do_hops head os h end.

Fixpoint before (x y : loc) (l : list loc) : list loc :=
  match l with [] => [] | z :: l => if z =? y then x :: z :: l else z :: before x y l end.

Fixpoint after (y x : loc) (l : list loc) : list loc :=
  match l with [] => [] | z :: l => if z =? y then z :: x :: l else z :: after y x l end.

(** [None]: not allowed; a new node must not be in the list or NULL, another one must
    be in it. *)
Definition spec_hop (o : hlist_op) (l : list loc) : option (list loc) :=
  let fresh x := bool_decide (x ∉ l) && negb (x =? NULL) in
  let old x := bool_decide (x ∈ l) in
  match o with
  | HAddHead x => if fresh x then Some (x :: l) else None
  | HAddBefore x y => if fresh x && old y then Some (before x y l) else None
  | HAddAfter y x => if fresh x && old y then Some (after y x l) else None
  | HDel x | HDelInit x => if old x then Some (without x l) else None
  end.

Fixpoint spec_hops (os : list hlist_op) (l : list loc) : option (list loc) :=
  match os with [] => Some l | o :: os => l ← spec_hop o l; spec_hops os l end.
