(* ===== verification/HListProps.v ===== *)
(** * The lists of the hlist half of list.h implement lists

    As in KListProps.v, an operation is described by what it does to the pointers;
    here an insertion and a deletion change the path at one pointer. *)

From S2P Require Import Prelude KList HList.

(** ** Pointers *)

Definition updr (f : slot -> option loc) (s : slot) (v : loc) (t : slot) : option loc := if decide (t = s) then Some v else f t.
Definition updp (f : loc -> option (option slot)) (n : loc) (v : option slot) (m : loc) : option (option slot) :=
  if decide (m = n) then Some v else f m.

Lemma updr_same f s v : updr f s v s = Some v.
Proof. unfold updr. by rewrite decide_True. Qed.

Lemma updr_other f s v t : t <> s -> updr f s v t = f t.
Proof. intros. unfold updr. by rewrite decide_False. Qed.

Lemma updp_same f n v : updp f n v n = Some v.
Proof. unfold updp. by rewrite decide_True. Qed.

Lemma updp_other f n v m : m <> n -> updp f n v m = f m.
Proof. intros. unfold updp. by rewrite decide_False. Qed.

(** [h'] has the cells of [h], with these pointers. *)
Record effect (h h' : hheap) (r : slot -> option loc) (p : loc -> option (option slot)) : Prop := {
  ef_rd : forall s, rd h' s = r s;
  ef_pp : forall n, pp h' n = p n;
  ef_alloc : forall s, is_Some (rd h' s) <-> is_Some (rd h s)
}.

Lemma effect_refl h : effect h h (rd h) (pp h).
Proof. done. Qed.

Lemma then_write h h1 r p s v : effect h h1 r p -> is_Some (rd h s) ->
  exists h2, write_slot s v h1 = Ret h2 /\ effect h h2 (updr r s v) p.
Proof.
  intros [Hr Hp Ha] Hs. apply Ha in Hs. destruct s as [head | n]; cbn [write_slot rd] in *.
  - unfold hfirst. destruct (firsts h1 !! head) as [x|] eqn:E; [|by destruct Hs]. eexists. split; [done|].
    split; [| exact Hp |]; intros t; [unfold updr | rewrite <- Ha]; destruct t as [head' | m]; cbn [rd firsts hnodes]; try done.
    + destruct (decide (First head' = First head)) as [[= ->] | Hne]; [by rewrite lookup_insert_eq|].
      rewrite lookup_insert_ne by congruence. apply (Hr (First head')).
    + rewrite decide_False by done. apply (Hr (Next m)).
    + destruct (decide (head' = head)) as [-> |]; [by rewrite lookup_insert_eq, E | by rewrite lookup_insert_ne].
  - unfold set_hnext, hnode, set_hnode. destruct (hnodes h1 !! n) as [x|] eqn:E; [|by destruct Hs]. eexists. split; [done|].
    split; intros t.
    + unfold updr. destruct t as [head' | m]; cbn [rd firsts hnodes]; [rewrite decide_False by done; apply (Hr (First head'))|].
      destruct (decide (Next m = Next n)) as [[= ->] | Hne]; [by rewrite lookup_insert_eq|].
      rewrite lookup_insert_ne by congruence. apply (Hr (Next m)).
    + rewrite <- Hp. unfold pp. cbn [hnodes]. destruct (decide (t = n)) as [-> |]; [by rewrite lookup_insert_eq, E | by rewrite lookup_insert_ne].
    + rewrite <- Ha. destruct t as [head' | m]; cbn [rd firsts hnodes]; [done|].
      destruct (decide (m = n)) as [-> |]; [by rewrite lookup_insert_eq, E | by rewrite lookup_insert_ne].
Qed.

Lemma then_pprev h h1 r p n v : effect h h1 r p -> is_Some (rd h (Next n)) ->
  exists h2, set_pprev n v h1 = Ret h2 /\ effect h h2 r (updp p n v).
Proof.
  intros [Hr Hp Ha] Hs. apply Ha in Hs. cbn [rd] in Hs. unfold set_pprev, hnode, set_hnode.
  destruct (hnodes h1 !! n) as [x|] eqn:E; [|by destruct Hs]. eexists. split; [done|]. split; intros t.
  - rewrite <- Hr. destruct t as [head | m]; cbn [rd firsts hnodes]; [done|].
    destruct (decide (m = n)) as [-> |]; [by rewrite lookup_insert_eq, E | by rewrite lookup_insert_ne].
  - unfold updp, pp. cbn [hnodes]. destruct (decide (t = n)) as [-> |]; [by rewrite lookup_insert_eq|].
    rewrite lookup_insert_ne by done. apply Hp.
  - rewrite <- Ha. destruct t as [head | m]; cbn [rd firsts hnodes]; [done|].
    destruct (decide (m = n)) as [-> |]; [by rewrite lookup_insert_eq, E | by rewrite lookup_insert_ne].
Qed.

Lemma hnode_view h n v : rd h (Next n) = Some v -> exists x, hnode h n = Ret x /\ hnext x = v /\ pp h n = Some (pprev x).
Proof. unfold hnode, pp. cbn [rd]. destruct (hnodes h !! n) as [x|]; [|done]. intros [= <-]. by exists x. Qed.

Lemma hnode_back h n s : pp h n = Some s -> exists x, hnode h n = Ret x /\ pprev x = s /\ rd h (Next n) = Some (hnext x).
Proof. unfold hnode, pp. cbn [rd]. destruct (hnodes h !! n) as [x|]; [|done]. intros [= <-]. by exists x. Qed.

(** ** Paths *)

Lemma elem_of_tail (x : loc) l : x ∈ tail l -> x ∈ l.
Proof. destruct l; [done|]. by right. Qed.

Lemma fin_cons s x l : fin s (x :: l) = fin (Next x) l.
Proof. unfold fin. destruct l as [|y l]; [done|]. change (list.last (x :: y :: l)) with (list.last (y :: l)). by destruct (list.last (y :: l)) eqn:E; [|apply last_None in E]. Qed.

Lemma fin_snoc s l x : fin s (l ++ [x]) = Next x.
Proof. unfold fin. by rewrite last_snoc. Qed.

Lemma fin_app s p l : fin s (p ++ l) = fin (fin s p) l.
Proof. revert s; induction p as [|x p IH]; intros s; [done|]. cbn [app]. by rewrite !fin_cons, IH. Qed.

Lemma fin_cases s l : fin s l = s \/ exists x, x ∈ l /\ fin s l = Next x.
Proof.
  unfold fin. destruct (list.last l) as [x|] eqn:E; [|by left]. right. exists x. split; [|done].
  apply last_Some in E as [k ->]. apply elem_of_app. right. by left.
Qed.

Lemma path_app h s p l : path h s (p ++ l) <-> path h s p /\ path h (fin s p) l.
Proof.
  revert s; induction p as [|x p IH]; intros s; cbn [app path]; [tauto|]. rewrite IH, fin_cons. tauto.
Qed.

(** A path with the pointers it consists of unchanged. *)
Lemma path_ext h h' s l : path h s l ->
  (forall t, t = s \/ (exists x, x ∈ l /\ t = Next x) -> t <> fin s l -> rd h' t = rd h t) ->
  (forall x, x ∈ l -> pp h' x = pp h x) -> NoDup l -> s ∉ map Next l -> path h' s l.
Proof.
  revert s; induction l as [|x l IH]; intros s Hp Hr Hb Hnd Hs; [done|]. cbn [path] in *.
  destruct Hp as (H1 & H2 & H3 & H4). apply list.NoDup_cons in Hnd as [Hx Hnd]. rewrite fin_cons in Hr.
  assert (s <> fin (Next x) l) as Hne.
  { intros E. apply Hs. destruct (fin_cases (Next x) l) as [E' | (y & Hy & E')]; rewrite E, E'; [by left|].
    right. by apply list_elem_of_fmap_2. }
  split_and!; [rewrite Hr; [done | by left | done] | done | rewrite Hb; [done | by left] |].
  apply IH; [done | | | done |].
  - intros t Ht Hn. apply Hr; [|done]. right. destruct Ht as [-> | (y & Hy & ->)]; [exists x; split; [by left | done] | exists y; split; [by right | done]].
  - intros y Hy. apply Hb. by right.
  - intros (y & [= ->] & Hy)%list_elem_of_fmap. done.
Qed.

(** The rest of a path behind another pointer. *)
Lemma resume h h' s s' l : path h s l -> rd h (fin s l) = Some NULL -> rd h' s' = rd h s ->
  (forall y k, l = y :: k -> pp h' y = Some (Some s')) ->
  (forall x, x ∈ l -> rd h' (Next x) = rd h (Next x)) -> (forall x, x ∈ tail l -> pp h' x = pp h x) ->
  path h' s' l /\ rd h' (fin s' l) = Some NULL.
Proof.
  destruct l as [|y l]; intros Hp Hf Hs Hy Hr Hb.
  { split; [done|]. cbn in *. by rewrite Hs. }
  cbn [path tail] in *. destruct Hp as (H1 & H2 & _ & H4). rewrite fin_cons in *. split.
  - split_and!; [by rewrite Hs | done | by apply (Hy y l) |]. clear -H4 Hr Hb.
    assert (forall t, t = Next y \/ (exists x, x ∈ l /\ t = Next x) -> rd h' t = rd h t) as Ht.
    { intros t [-> | (x & Hx & ->)]; apply Hr; [by left | by right]. }
    clear Hr. revert y H4 Ht; induction l as [|z l IH]; intros y H4 Ht; [done|]. cbn [path] in *. destruct H4 as (? & ? & ? & ?).
    split_and!; [rewrite Ht; [done | by left] | done | rewrite Hb; [done | by left] |]. apply IH; [intros x Hx; apply Hb; by right | done |].
    intros t [-> | (x & Hx & ->)]; apply Ht; right; [exists z | exists x]; (split; [|done]); [by left | by right].
  - destruct (fin_cases (Next y) l) as [E | (x & Hx & E)]; rewrite E in *; rewrite Hr; [done | by left | done | by right].
Qed.

Definition first_slot (head : loc) (t : slot) (l : list loc) : Prop := t = First head \/ exists x, x ∈ l /\ t = Next x.

Lemma fin_not_next head p x : x ∉ p -> fin (First head) p <> Next x.
Proof. intros Hx. destruct (fin_cases (First head) p) as [-> | (y & Hy & ->)]; [done|]. by intros [= ->]. Qed.

Lemma first_not_next head (l : list loc) : First head ∉ map Next l.
Proof. by intros (y & ? & _)%list_elem_of_fmap. Qed.

Lemma path_not_null h s l : path h s l -> NULL ∉ l.
Proof.
  revert s; induction l as [|x l IH]; intros s; [by intros _ ?%not_elem_of_nil|].
  intros (_ & Hx & _ & Hp) [Hn | Hn]%elem_of_cons; [by symmetry in Hn | by apply (IH _ Hp)].
Qed.

(** [x] comes to stand at the pointer where [p] ends. *)
Lemma hlist_inserted h h' head p l x v (s := fin (First head) p) :
  hlist h head (p ++ l) -> x ∉ p ++ l -> x <> NULL -> rd h s = Some v ->
  rd h' s = Some x -> rd h' (Next x) = Some v -> pp h' x = Some (Some s) ->
  (v <> NULL -> pp h' v = Some (Some (Next x))) ->
  (forall t, t <> s -> t <> Next x -> rd h' t = rd h t) -> (forall n, n <> x -> n <> v -> pp h' n = pp h n) ->
  hlist h' head (p ++ x :: l).
Proof.
  intros (Hnd & Hp & Hf) Hx Hx0 Hv H1 H2 H3 H4 Hr Hb. apply path_app in Hp as [Hp Hl]. rewrite fin_app in Hf. fold s in Hl, Hf.
  apply not_elem_of_app in Hx as [Hxp Hxl]. apply list.NoDup_app in Hnd as (Hndp & Hd & Hndl).
  assert (forall y, y ∈ l -> s <> Next y) as Hsl.
  { intros y Hy. apply fin_not_next. intros Hyp. by apply (Hd y). }
  assert (v = NULL /\ l = [] \/ v <> NULL /\ exists k, l = v :: k) as Hvl.
  { destruct l as [|y k]; [left; cbn in Hf, Hv; split; congruence|]. right. destruct Hl as (E & Hy & _).
    assert (v = y) as -> by (cbn in E, Hv; congruence). split; [done | by exists k]. }
  assert (path h' (Next x) l /\ rd h' (fin (Next x) l) = Some NULL) as [Hl' Hf'].
  { apply (resume h h' s (Next x)); [done | done | by rewrite H2 | | |].
    - intros y k ->. destruct Hvl as [[_ ?] | (Hv0 & k' & [= <- _])]; [done|]. by apply H4.
    - intros y Hy. apply Hr; [by apply not_eq_sym, Hsl |]. by intros [= ->].
    - intros y Hy. apply Hb; [intros ->; apply Hxl; by apply elem_of_tail|]. intros ->.
      destruct Hvl as [[_ ->] | (_ & k & ->)]; cbn [tail] in Hy; [by apply not_elem_of_nil in Hy | by apply list.NoDup_cons in Hndl as [? _]]. }
  split; [|split; [|by rewrite fin_app, fin_cons]].
  - apply list.NoDup_app. split_and!; [done | | by apply list.NoDup_cons].
    intros y Hy. apply not_elem_of_cons. split; [by intros -> | by apply Hd].
  - apply path_app. fold s. split; [|by cbn [path]].
    apply (path_ext h); [done | | | done | apply first_not_next].
    + intros t Ht Hn. apply Hr; [done|]. destruct Ht as [-> | (y & Hy & ->)]; [done|]. by intros [= ->].
    + intros y Hy. apply Hb; [by intros -> |]. intros ->. destruct Hvl as [[-> ->] | (_ & k & ->)].
      * by apply (path_not_null _ _ _ Hp).
      * apply (Hd v Hy). by left.
Qed.

(** [x] is taken out behind [p]. *)
Lemma hlist_removed h h' head p x l v (s := fin (First head) p) :
  hlist h head (p ++ x :: l) -> rd h (Next x) = Some v -> rd h' s = Some v ->
  (v <> NULL -> pp h' v = Some (Some s)) ->
  (forall t, t <> s -> t <> Next x -> rd h' t = rd h t) -> (forall n, n <> x -> n <> v -> pp h' n = pp h n) ->
  hlist h' head (p ++ l).
Proof.
  intros (Hnd & Hp & Hf) Hv H1 H4 Hr Hb. apply path_app in Hp as [Hp Hl]. rewrite fin_app, fin_cons in Hf. fold s in Hl.
  destruct Hl as (Hsx & Hx0 & _ & Hl). apply list.NoDup_app in Hnd as (Hndp & Hd & [Hxl Hndl]%list.NoDup_cons).
  assert (v = NULL /\ l = [] \/ v <> NULL /\ exists k, l = v :: k) as Hvl.
  { destruct l as [|y k]; [left; cbn in Hf, Hv; split; congruence|]. right. destruct Hl as (E & Hy & _).
    assert (v = y) as -> by (cbn in E, Hv; congruence). split; [done | by exists k]. }
  assert (path h' s l /\ rd h' (fin s l) = Some NULL) as [Hl' Hf'].
  { apply (resume h h' (Next x) s); [done | done | by rewrite H1 | | |].
    - intros y k ->. destruct Hvl as [[_ ?] | (Hv0 & k' & [= <- _])]; [done|]. by apply H4.
    - intros y Hy. apply Hr; [|by intros [= ->]]. apply not_eq_sym, fin_not_next. intros Hyp. apply (Hd y Hyp). by right.
    - intros y Hy. apply Hb; [intros ->; apply Hxl; by apply elem_of_tail|]. intros ->.
      destruct Hvl as [[_ ->] | (_ & k & ->)]; cbn [tail] in Hy; [by apply not_elem_of_nil in Hy | by apply list.NoDup_cons in Hndl as [? _]]. }
  split; [|split; [|by rewrite fin_app]].
  - apply list.NoDup_app. split_and!; [done | | done]. intros y Hy Hy'. apply (Hd y Hy). by right.
  - apply path_app. fold s. split; [|done].
    apply (path_ext h); [done | | | done | apply first_not_next].
    + intros t Ht Hn. apply Hr; [done|]. destruct Ht as [-> | (y & Hy & ->)]; [done|]. intros [= ->]. apply (Hd x Hy). by left.
    + intros y Hy. apply Hb; [intros ->; apply (Hd x Hy); by left|]. intros ->. destruct Hvl as [[-> ->] | (_ & k & ->)].
      * by apply (path_not_null _ _ _ Hp).
      * apply (Hd v Hy). right. by left.
Qed.

(** ** The operations *)

(** What an operation gives: a list behind the same head, in the same cells. *)
Definition hgives (h : hheap) (r : outcome hheap) (head : loc) (l : list loc) : Prop :=
  exists h', r = Ret h' /\ hlist h' head l /\ forall s, is_Some (rd h' s) <-> is_Some (rd h s).

Lemma hlist_first h head l : hlist h head l -> exists v, hfirst h head = Ret v /\ rd h (First head) = Some v /\
  v = match l with [] => NULL | x :: _ => x end.
Proof.
  intros (_ & Hp & Hf). assert (rd h (First head) = Some (match l with [] => NULL | x :: _ => x end)) as E
    by (destruct l as [|x l]; [done | apply Hp]).
  exists (match l with [] => NULL | x :: _ => x end). split_and!; [|done..]. unfold hfirst. cbn [rd] in E. by rewrite E.
Qed.

Lemma hlist_member h head p x l : hlist h head (p ++ x :: l) ->
  x <> NULL /\ rd h (fin (First head) p) = Some x /\ pp h x = Some (Some (fin (First head) p)) /\
  exists v, rd h (Next x) = Some v /\ v = match l with [] => NULL | y :: _ => y end.
Proof.
  intros (_ & Hp & Hf). apply path_app in Hp as [_ (H1 & H2 & H3 & H4)]. split_and!; [done..|].
  rewrite fin_app, fin_cons in Hf. destruct l as [|y l]; [exists NULL; by split | exists y; split; [apply H4 | done]].
Qed.

Lemma hlist_live h head l v : hlist h head l -> v <> NULL -> v ∈ l -> is_Some (rd h (Next v)).
Proof.
  intros Hl Hv Hin. apply list_elem_of_split in Hin as (p & s & ->). destruct (hlist_member _ _ _ _ _ Hl) as (_ & _ & _ & w & E & _). by rewrite E.
Qed.

Lemma hlist_add_head_gives h head l x :
  hlist h head l -> x ∉ l -> x <> NULL -> is_Some (rd h (Next x)) -> hgives h (hlist_add_head x head h) head (x :: l).
Proof.
  intros Hl Hx Hx0 Hal. destruct (hlist_first _ _ _ Hl) as (v & E & Ev & Hv). unfold hlist_add_head, hgives. rewrite E. cbn [mbind outcome_bind].
  destruct (then_write h h _ _ (Next x) v (effect_refl h) Hal) as (h1 & E1 & F1). cbn [write_slot] in E1. rewrite E1. cbn [mbind outcome_bind].
  assert (exists h2, (if v =? NULL then Ret h1 else set_pprev v (Some (Next x)) h1) = Ret h2 /\
    effect h h2 (updr (rd h) (Next x) v) (if v =? NULL then pp h else updp (pp h) v (Some (Next x)))) as (h2 & E2 & F2).
  { destruct (Z.eqb_spec v NULL) as [-> | Hne]; [by exists h1|]. apply then_pprev; [done|].
    apply (hlist_live h head l); [done | done |]. destruct l; [done|]. subst v. by left. }
  rewrite E2. cbn [mbind outcome_bind].
  destruct (then_write _ _ _ _ (First head) x F2) as (h3 & E3 & F3); [by rewrite Ev|]. rewrite E3. cbn [mbind outcome_bind].
  destruct (then_pprev _ _ _ _ x (Some (First head)) F3 Hal) as (h4 & E4 & [Fr Fp Fa]). exists h4. split_and!; [done | | done].
  apply (hlist_inserted h h4 head [] l x v); try done; cbn [fin list.last].
  - by rewrite Fr, updr_same.
  - by rewrite Fr, updr_other, updr_same.
  - by rewrite Fp, updp_same.
  - intros Hne. rewrite Fp, updp_other by (intros ->; destruct l; [done|]; subst x; apply Hx; by left).
    rewrite (proj2 (Z.eqb_neq _ _) Hne). apply updp_same.
  - intros t H1 H2. by rewrite Fr, !updr_other.
  - intros n H1 H2. rewrite Fp, updp_other by done. destruct (v =? NULL); [done|]. by apply updp_other.
Qed.

Lemma hlist_add_before_gives h head p y l x :
  hlist h head (p ++ y :: l) -> x ∉ p ++ y :: l -> x <> NULL -> is_Some (rd h (Next x)) ->
  hgives h (hlist_add_before x y h) head (p ++ x :: y :: l).
Proof.
  intros Hl Hx Hx0 Hal. destruct (hlist_member _ _ _ _ _ Hl) as (Hy0 & Hs & Hpp & w & Ew & _).
  assert (x <> y) as Hxy by (intros ->; apply Hx, elem_of_app; right; by left).
  unfold hlist_add_before, hgives. destruct (hnode_back _ _ _ Hpp) as (ny & Eny & Epp & _). rewrite Eny. cbn [mbind outcome_bind]. rewrite Epp.
  set (s := fin (First head) p) in *.
  assert (s <> Next x) as Hsx by (apply fin_not_next; intros Hin; apply Hx, elem_of_app; by left).
  destruct (then_pprev h h _ _ x (Some s) (effect_refl h) Hal) as (h1 & E1 & F1). rewrite E1. cbn [mbind outcome_bind].
  destruct (then_write _ _ _ _ (Next x) y F1 Hal) as (h2 & E2 & F2). cbn [write_slot] in E2. rewrite E2. cbn [mbind outcome_bind].
  destruct (then_pprev _ _ _ _ y (Some (Next x)) F2) as (h3 & E3 & F3); [by rewrite Ew|]. rewrite E3. cbn [mbind outcome_bind].
  destruct (hnode_back h3 x (Some s)) as (nx & Enx & Epx & _); [by rewrite (ef_pp _ _ _ _ F3), updp_other, updp_same by done|].
  rewrite Enx. cbn [mbind outcome_bind]. rewrite Epx.
  destruct (then_write _ _ _ _ s x F3) as (h4 & E4 & [Fr Fp Fa]); [by rewrite Hs|]. exists h4. split_and!; [done | | done].
  apply (hlist_inserted h h4 head p (y :: l) x y); try done; fold s.
  - by rewrite Fr, updr_same.
  - by rewrite Fr, updr_other, updr_same by done.
  - by rewrite Fp, updp_other, updp_same by done.
  - intros _. by rewrite Fp, updp_same.
  - intros t H1 H2. by rewrite Fr, !updr_other.
  - intros n H1 H2. by rewrite Fp, !updp_other.
Qed.

Lemma hlist_add_after_gives h head p y l x :
  hlist h head (p ++ y :: l) -> x ∉ p ++ y :: l -> x <> NULL -> is_Some (rd h (Next x)) ->
  hgives h (hlist_add_after y x h) head (p ++ y :: x :: l).
Proof.
  intros Hl Hx Hx0 Hal. destruct (hlist_member _ _ _ _ _ Hl) as (Hy0 & Hs & Hpp & v & Ev & Hv).
  assert (x <> y) as Hxy by (intros ->; apply Hx, elem_of_app; right; by left).
  unfold hlist_add_after, hgives. destruct (hnode_view _ _ _ Ev) as (ny & Eny & En & _). rewrite Eny. cbn [mbind outcome_bind]. rewrite En.
  destruct (then_write h h _ _ (Next x) v (effect_refl h) Hal) as (h1 & E1 & F1). cbn [write_slot] in E1. rewrite E1. cbn [mbind outcome_bind].
  destruct (then_write _ _ _ _ (Next y) x F1) as (h2 & E2 & F2); [by rewrite Ev|]. cbn [write_slot] in E2. rewrite E2. cbn [mbind outcome_bind].
  destruct (then_pprev _ _ _ _ x (Some (Next y)) F2 Hal) as (h3 & E3 & F3). rewrite E3. cbn [mbind outcome_bind].
  destruct (hnode_view h3 x v) as (nx & Enx & Enx' & _); [by rewrite (ef_rd _ _ _ _ F3), updr_other, updr_same by congruence|].
  rewrite Enx. cbn [mbind outcome_bind]. rewrite Enx'.
  assert (v <> NULL -> v ∈ p ++ y :: l) as Hvin by (intros Hne; destruct l; [done|]; subst v; apply elem_of_app; right; right; by left).
  assert (v <> NULL -> v <> x) as Hvx by (intros Hne ->; by apply Hx, Hvin).
  assert (exists h4, (if v =? NULL then Ret h3 else set_pprev v (Some (Next x)) h3) = Ret h4 /\
    effect h h4 (updr (updr (rd h) (Next x) v) (Next y) x)
      (if v =? NULL then updp (pp h) x (Some (Next y)) else updp (updp (pp h) x (Some (Next y))) v (Some (Next x)))) as (h4 & E4 & [Fr Fp Fa]).
  { destruct (Z.eqb_spec v NULL) as [-> | Hne]; [by exists h3|]. apply then_pprev; [done|]. apply (hlist_live h head _ v Hl Hne). by apply Hvin. }
  exists h4. split_and!; [done | | done]. change (y :: x :: l) with ([y] ++ x :: l). rewrite app_assoc.
  apply (hlist_inserted h h4 head (p ++ [y]) l x v); rewrite <- ?app_assoc; cbn [app]; try done; rewrite ?fin_snoc.
  - done.
  - by rewrite Fr, updr_same.
  - rewrite Fr, updr_other by congruence. by rewrite updr_same.
  - rewrite Fp. destruct (Z.eqb_spec v NULL); [by rewrite updp_same|]. rewrite updp_other by (apply not_eq_sym; by apply Hvx). by rewrite updp_same.
  - intros Hne. rewrite Fp, (proj2 (Z.eqb_neq _ _) Hne). by rewrite updp_same.
  - intros t H1 H2. by rewrite Fr, !updr_other.
  - intros n H1 H2. rewrite Fp. destruct (v =? NULL); by rewrite !updp_other.
Qed.

(** [__hlist_del] *)
Lemma hlist_unlink_ok h head p x l : hlist h head (p ++ x :: l) ->
  exists h', hlist_unlink x h = Ret h' /\ hlist h' head (p ++ l) /\ (forall s, is_Some (rd h' s) <-> is_Some (rd h s)).
Proof.
  intros Hl. destruct (hlist_member _ _ _ _ _ Hl) as (Hx0 & Hs & Hpp & v & Ev & Hv).
  unfold hlist_unlink. destruct (hnode_back _ _ _ Hpp) as (nx & Enx & Epp & En). rewrite Enx. cbn [mbind outcome_bind]. rewrite Epp.
  assert (hnext nx = v) as Env by congruence. rewrite Env. set (s := fin (First head) p) in *.
  destruct (then_write h h _ _ s v (effect_refl h)) as (h1 & E1 & F1); [by rewrite Hs|]. rewrite E1. cbn [mbind outcome_bind].
  assert (v <> NULL -> v ∈ p ++ x :: l) as Hvin by (intros Hne; destruct l; [done|]; subst v; apply elem_of_app; right; right; by left).
  assert (exists h2, (if v =? NULL then Ret h1 else set_pprev v (Some s) h1) = Ret h2 /\
    effect h h2 (updr (rd h) s v) (if v =? NULL then pp h else updp (pp h) v (Some s))) as (h2 & E2 & [Fr Fp Fa]).
  { destruct (Z.eqb_spec v NULL) as [-> | Hne]; [by exists h1|]. apply then_pprev; [done|]. apply (hlist_live h head _ v Hl Hne). by apply Hvin. }
  exists h2. split_and!; [done | | done]. apply (hlist_removed h h2 head p x l v); try done; fold s.
  - by rewrite Fr, updr_same.
  - intros Hne. rewrite Fp, (proj2 (Z.eqb_neq _ _) Hne). by rewrite updp_same.
  - intros t H1 _. by rewrite Fr, updr_other.
  - intros n _ H2. rewrite Fp. destruct (v =? NULL); [done|]. by rewrite updp_other.
Qed.

(** Clearing a node that is in no list any more. *)
Lemma hlist_cleared h head l x : hlist h head l -> x ∉ l -> is_Some (rd h (Next x)) ->
  exists h', INIT_HLIST_NODE x h = Ret h' /\ hlist h' head l /\ (forall s, is_Some (rd h' s) <-> is_Some (rd h s)).
Proof.
  intros (Hnd & Hp & Hf) Hx Hal. unfold INIT_HLIST_NODE.
  destruct (then_write h h _ _ (Next x) NULL (effect_refl h) Hal) as (h1 & E1 & F1). cbn [write_slot] in E1. rewrite E1. cbn [mbind outcome_bind].
  destruct (then_pprev _ _ _ _ x None F1 Hal) as (h2 & E2 & [Fr Fp Fa]). exists h2. split_and!; [done | | done].
  assert (forall t, first_slot head t l -> rd h2 t = rd h t) as Ht.
  { intros t Hs. rewrite Fr, updr_other; [done|]. destruct Hs as [-> | (y & Hy & ->)]; [done|]. by intros [= ->]. }
  split_and!; [done | | ].
  - apply (path_ext h); [done | intros t Hs _; by apply Ht | | done | apply first_not_next].
    intros y Hy. rewrite Fp, updp_other; [done|]. by intros ->.
  - rewrite Ht; [done|]. destruct (fin_cases (First head) l) as [E | (y & Hy & E)]; rewrite E; [by left | right; by exists y].
Qed.

Lemma hlist_del_gives h head p x l : hlist h head (p ++ x :: l) -> hgives h (hlist_del x h) head (p ++ l).
Proof.
  intros Hl. destruct (hlist_unlink_ok _ _ _ _ _ Hl) as (h1 & E1 & Hl1 & Ha1).
  destruct (hlist_cleared h1 head (p ++ l) x Hl1) as (h2 & E2 & Hl2 & Ha2).
  - destruct Hl as [Hnd _]. apply list.NoDup_app in Hnd as (_ & Hd & [Hn _]%list.NoDup_cons). rewrite not_elem_of_app.
    split; [intros Hin; apply (Hd x Hin); by left | done].
  - apply Ha1. destruct (hlist_member _ _ _ _ _ Hl) as (_ & _ & _ & v & Ev & _). by rewrite Ev.
  - exists h2. unfold hlist_del. rewrite E1. split_and!; [exact E2 | done |]. intros s. by rewrite Ha2.
Qed.

Lemma hlist_del_init_gives h head p x l : hlist h head (p ++ x :: l) -> hgives h (hlist_del_init x h) head (p ++ l).
Proof.
  intros Hl. destruct (hlist_member _ _ _ _ _ Hl) as (_ & _ & Hpp & _). destruct (hnode_back _ _ _ Hpp) as (nx & Enx & Epp & _).
  unfold hlist_del_init, hlist_unhashed. rewrite Enx. cbn [mbind outcome_bind]. rewrite Epp, bool_decide_true by done.
  exact (hlist_del_gives h head p x l Hl).
Qed.

(** ** The lists of the specification *)

Lemma before_middle x y p s : y ∉ p -> before x y (p ++ y :: s) = p ++ x :: y :: s.
Proof.
  induction p as [|z p IH]; cbn; [by rewrite Z.eqb_refl|]. intros [Hz Hy]%not_elem_of_cons.
  rewrite (proj2 (Z.eqb_neq z y)) by congruence. by rewrite IH.
Qed.

Lemma after_middle y x p s : y ∉ p -> after y x (p ++ y :: s) = p ++ y :: x :: s.
Proof.
  induction p as [|z p IH]; cbn; [by rewrite Z.eqb_refl|]. intros [Hz Hy]%not_elem_of_cons.
  rewrite (proj2 (Z.eqb_neq z y)) by congruence. by rewrite IH.
Qed.

Lemma hwithout_middle x p s : x ∉ p -> without x (p ++ x :: s) = p ++ s.
Proof.
  induction p as [|z p IH]; cbn; [by rewrite Z.eqb_refl|]. intros [Hz Hy]%not_elem_of_cons.
  rewrite (proj2 (Z.eqb_neq z x)) by congruence. by rewrite IH.
Qed.

Lemma hlist_split h head l x : hlist h head l -> x ∈ l -> exists p s, l = p ++ x :: s /\ x ∉ p.
Proof.
  intros [Hnd _] Hx. apply list_elem_of_split in Hx as (p & s & ->). exists p, s. split; [done|].
  apply list.NoDup_app in Hnd as (_ & Hd & _). intros Hin. apply (Hd x Hin). by left.
Qed.

Definition new_hnodes (o : hlist_op) : list loc :=
  match o with HAddHead x | HAddBefore x _ | HAddAfter _ x => [x] | HDel _ | HDelInit _ => [] end.

Lemma do_hop_spec h head l o l' :
  hlist h head l -> (forall x, x ∈ new_hnodes o -> is_Some (rd h (Next x))) -> spec_hop o l = Some l' ->
  hgives h (do_hop head o h) head l'.
Proof.
  intros Hl Hal. destruct o as [x | x y | y x | x | x]; cbn [spec_hop do_hop new_hnodes] in *; intros E;
    try (destruct (Z.eqb_spec x NULL) as [|Hx0]; cbn [negb] in E; rewrite ?andb_false_r, ?andb_true_r in E; [discriminate E|]);
    repeat (case_bool_decide; cbn [andb] in E; try discriminate E); try specialize (Hal x ltac:(by left)).
  - injection E as <-. by apply hlist_add_head_gives.
  - destruct (hlist_split _ _ _ y Hl) as (p & s & -> & Hp); [done|].
    rewrite before_middle in E by done. injection E as <-. by apply hlist_add_before_gives.
  - destruct (hlist_split _ _ _ y Hl) as (p & s & -> & Hp); [done|].
    rewrite after_middle in E by done. injection E as <-. by apply hlist_add_after_gives.
  - destruct (hlist_split _ _ _ x Hl) as (p & s & -> & Hp); [done|]. rewrite hwithout_middle in E by done. injection E as <-. by apply hlist_del_gives.
  - destruct (hlist_split _ _ _ x Hl) as (p & s & -> & Hp); [done|]. rewrite hwithout_middle in E by done. injection E as <-. by apply hlist_del_init_gives.
Qed.

(** ** Iteration *)

Lemma hlist_each_path h : forall l s fuel, path h s l -> rd h (fin s l) = Some NULL -> (length l < fuel)%nat ->
  exists v, rd h s = Some v /\ hlist_each_from fuel v h = Ret l.
Proof.
  induction l as [|x l IH]; intros s [|fuel] Hp Hf Hlen; cbn [length] in Hlen; try lia; [by exists NULL|].
  destruct Hp as (H1 & H2 & _ & H4). rewrite fin_cons in Hf. exists x. split; [done|]. cbn [hlist_each_from].
  rewrite (proj2 (Z.eqb_neq x NULL) H2). destruct (IH (Next x) fuel H4 Hf) as (v & Ev & E); [lia|].
  destruct (hnode_view _ _ _ Ev) as (n & -> & <- & _). cbn [mbind outcome_bind]. by rewrite E.
Qed.

Lemma hlist_for_each_ok h head l fuel : hlist h head l -> (length l < fuel)%nat -> hlist_for_each fuel head h = Ret l.
Proof.
  intros (_ & Hp & Hf) Hlen. destruct (hlist_each_path h l _ fuel Hp Hf Hlen) as (v & Ev & E).
  unfold hlist_for_each, hfirst. cbn [rd] in Ev. by rewrite Ev.
Qed.

Lemma hlist_for_each_entry_ok h head l fuel off :
  hlist h head l -> (length l < fuel)%nat -> hlist_for_each_entry fuel off head h = Ret (map (hlist_entry off) l).
Proof. intros Hl Hf. unfold hlist_for_each_entry. by rewrite (hlist_for_each_ok h head l). Qed.

Lemma hlist_for_each_entry_continue_ok h head p x l fuel off :
  hlist h head (p ++ x :: l) -> (length l < fuel)%nat -> hlist_for_each_entry_continue fuel off x h = Ret (map (hlist_entry off) l).
Proof.
  intros (_ & Hp & Hf) Hlen. apply path_app in Hp as [_ (_ & _ & _ & Hp)]. rewrite fin_app, fin_cons in Hf.
  destruct (hlist_each_path h l _ fuel Hp Hf Hlen) as (v & Ev & E). unfold hlist_for_each_entry_continue, hlist_for_each_entry_from.
  destruct (hnode_view _ _ _ Ev) as (n & -> & <- & _). cbn [mbind outcome_bind]. by rewrite E.
Qed.

Lemma hlist_empty_ok h head l : hlist h head l -> hlist_empty head h = Ret (bool_decide (l = [])).
Proof.
  intros Hl. destruct (hlist_first _ _ _ Hl) as (v & E & _ & ->). unfold hlist_empty. rewrite E. cbn [mbind outcome_bind].
  f_equal. destruct l as [|x l]; [done|]. apply Z.eqb_neq. apply (hlist_member h head [] x l Hl).
Qed.

(** The loop over entries may delete the node it is given. *)
Lemma hlist_safe_empties head off : forall l fuel h, hlist h head l -> (length l < fuel)%nat ->
  exists h', hlist_for_each_entry_safe fuel off (fun e => hlist_del (e + off)) head h = Ret h' /\ hlist h' head [].
Proof.
  assert (forall l fuel h v, hlist h head l -> v = match l with [] => NULL | x :: _ => x end -> (length l < fuel)%nat ->
    exists h', hlist_safe_from fuel (fun pos => hlist_del (hlist_entry off pos + off)) v h = Ret h' /\ hlist h' head []) as Hgo.
  { induction l as [|x l IH]; intros [|fuel] h v Hl -> Hf; cbn [length] in Hf; try lia; [by exists h|]. cbn [hlist_safe_from].
    destruct (hlist_member h head [] x l Hl) as (Hx0 & _ & _ & v & Ev & Hv). rewrite (proj2 (Z.eqb_neq x NULL) Hx0).
    destruct (hnode_view _ _ _ Ev) as (n & -> & En & _). cbn [mbind outcome_bind].
    replace (hlist_entry off x + off) with x by (unfold hlist_entry; lia).
    destruct (hlist_del_gives h head [] x l Hl) as (h1 & -> & Hl1 & _). cbn [app mbind outcome_bind] in *. rewrite En.
    apply (IH fuel h1 v Hl1 Hv). lia. }
  intros l fuel h Hl Hf. unfold hlist_for_each_entry_safe. destruct (hlist_first _ _ _ Hl) as (v & -> & _ & Hv). cbn [mbind outcome_bind].
  by apply (Hgo l).
Qed.

(** The loop over nodes that should do the same goes on with a variable nothing has
    set: on a list that is not empty it has no defined result, whatever the body. *)
Lemma hlist_for_each_safe_unset fuel body head h x l h' :
  hlist h head (x :: l) -> hlist_for_each_safe fuel body None head h <> Ret h'.
Proof.
  intros Hl. destruct (hlist_first _ _ _ Hl) as (v & E & _ & ->). unfold hlist_for_each_safe. rewrite E. cbn [mbind outcome_bind].
  destruct fuel as [|fuel]; cbn [hlist_unsafe_from]; [done|].
  rewrite (proj2 (Z.eqb_neq x NULL)) by apply (hlist_member h head [] x l Hl). by destruct (body x h).
Qed.

(** ** Sequences of operations *)

Lemma do_hops_spec head os : forall h l l',
  hlist h head l -> (forall o x, o ∈ os -> x ∈ new_hnodes o -> is_Some (rd h (Next x))) -> spec_hops os l = Some l' ->
  hgives h (do_hops head os h) head l'.
Proof.
  induction os as [|o os IH]; intros h l l' Hl Hal E; [injection E as <-; by exists h|].
  cbn [spec_hops] in E. destruct (spec_hop o l) as [l1|] eqn:E1; [|done]. cbn in E.
  destruct (do_hop_spec h head l o l1) as (h1 & Eo & Hl1 & Ha1); [done | intros x; apply Hal; by left | done |].
  destruct (IH h1 l1 l') as (h2 & E2 & Hl2 & Ha2); [done | | done |].
  { intros o' x Ho Hx. apply Ha1. apply (Hal o'); [by right | done]. }
  exists h2. cbn [do_hops]. rewrite Eo. cbn [mbind outcome_bind]. rewrite E2. split_and!; [done..|]. intros s. by rewrite Ha2.
Qed.

Lemma INIT_HLIST_HEAD_gives h head : is_Some (firsts h !! head) -> hgives h (INIT_HLIST_HEAD head h) head [].
Proof.
  intros Hal. destruct (then_write h h _ _ (First head) NULL (effect_refl h) Hal) as (h1 & E1 & [Fr _ Fa]).
  exists h1. split_and!; [exact E1 | | exact Fa]. split_and!; [constructor | done |]. cbn [fin list.last]. by rewrite Fr, updr_same.
Qed.

(** C40. The lists with a single pointer head implement lists: from an initialised
    head, any sequence of additions at the front, before and behind a node, and of
    both deletions, that the abstract list allows runs without touching a cell that
    is not there; iterating over the nodes and over their entries and the test for
    emptiness then answer as the abstract list does. *)
Theorem hlist_ops_refine h head os l :
  is_Some (firsts h !! head) -> (forall o x, o ∈ os -> x ∈ new_hnodes o -> is_Some (hnodes h !! x)) ->
  spec_hops os [] = Some l ->
  exists h', (h ← INIT_HLIST_HEAD head h; do_hops head os h) = Ret h' /\ hlist h' head l /\
    hlist_empty head h' = Ret (bool_decide (l = [])) /\
    forall fuel, (length l < fuel)%nat -> hlist_for_each fuel head h' = Ret l /\
      forall off, hlist_for_each_entry fuel off head h' = Ret (map (hlist_entry off) l).
Proof.
  intros Hh Hal E. destruct (INIT_HLIST_HEAD_gives h head Hh) as (h1 & E1 & Hl1 & Ha1).
  destruct (do_hops_spec head os h1 [] l Hl1) as (h2 & E2 & Hl2 & _); [|done|].
  { intros o x Ho Hx. apply Ha1. cbn [rd]. destruct (Hal o x Ho Hx) as [n ->]. by eexists. }
  exists h2. rewrite E1. cbn [mbind outcome_bind]. split_and!; [done | done | by apply hlist_empty_ok |].
  intros fuel Hf. split; [by apply hlist_for_each_ok | intros off; by apply hlist_for_each_entry_ok].
Qed.

Definition hcells : hheap := mkhheap {[ 1 := 77 ]} (list_to_map (map (fun p => (p, mkhnode 0 None)) [2; 3; 4; 5])).
Definition some_hops : list hlist_op := [HAddHead 2; HAddAfter 2 3; HAddBefore 4 2; HDel 2; HAddAfter 3 5; HDelInit 4; HAddHead 2].

Lemma hlist_ops_refine_witness :
  spec_hops some_hops [] = Some [2; 3; 5] /\
  exists h', (h ← INIT_HLIST_HEAD 1 hcells; do_hops 1 some_hops h) = Ret h' /\ hlist_for_each 4 1 h' = Ret [2; 3; 5].
Proof.
  split; [vm_compute; reflexivity|].
  destruct (hlist_ops_refine hcells 1 some_hops [2; 3; 5]) as (h' & E & _ & _ & Hi).
  - vm_compute. by eexists.
  - intros o x Ho Hx. unfold some_hops in Ho.
    repeat (apply elem_of_cons in Ho as [-> | Ho]); try (by apply not_elem_of_nil in Ho);
      cbn in Hx; repeat (apply elem_of_cons in Hx as [-> | Hx]); try (by apply not_elem_of_nil in Hx);
      vm_compute; by eexists.
  - vm_compute. reflexivity.
  - exists h'. split; [exact E|]. apply Hi. cbn. lia.
Defined.
