(* ===== verification/Release.v ===== *)
(** * Giving memory back: the freeing functions of parser.c, config.c, addrmask.c
      and daemon.c

    Memory is a heap of list nodes (KList.v) and a map from addresses to allocated
    blocks.  The list nodes a block holds live exactly as long as the block does;
    one that is embedded in a larger structure has an address of its own, which the
    block names.  [mfree] refuses a block that is not there, and reading or writing
    one is undefined, so a result of [Ret] means: no double free and no use after
    free.  Only pointers are kept of what a block holds. *)

From S2P Require Import Prelude KList KListProps.

(** ** Memory *)

(** The pointers of a struct config that own something. *)
Inductive config_field :=
| F_pidfile | F_peerid | F_vpn_ip | F_vpn_ip6 | F_networkname | F_my_ip | F_my_addressfamily
| F_tincd_bin | F_tincctl_bin | F_routemetric | F_routeadd | F_routeadd6 | F_routedel | F_routedel6
| F_postup | F_ifconfig | F_ifconfig6 | F_master_url | F_base_path | F_tincd_pidfile
| F_masterdata_signkey | F_tincd_graphdumpfile | F_tmpconffile | F_tincd_device
| F_tincd_interface | F_tincd_user | F_tincd_raw_config | F_vpn_netmask | F_password
| F_privkey_s | F_ed25519publickey_s
| F_exclude | F_configfile | F_tincd_version
| F_mergeroutes_supernet_raw | F_mergeroutes_supernet | F_ignore_subnets_raw | F_ignore_subnets
| F_whitelist_subnets_raw | F_whitelist_subnets.

#[export] Instance config_field_dec : EqDecision config_field.
Proof. solve_decision. Defined.

(** The lists of a peer are given by the addresses of their heads. *)
Record peer_cell := {
  pc_name : loc; pc_gatewayhost : loc; pc_owner : loc; pc_key : loc; pc_ed25519publickey : loc;
  pc_cipher : loc; pc_compression : loc; pc_digest : loc;
  pc_network : loc; pc_network6 : loc; pc_route_network : loc; pc_route_network6 : loc
}.

Inductive cell :=
| CText
| CStringList (text : loc)
| CPeerConfig (p : peer_cell)
| CPeerList (peer_config : loc)
| CSettingsList (e : loc)
| CSettingsEntry (is_string : bool) (s : loc)
| CAddrInfo (next_ : loc)
| CPointers (l : list loc)
| CConfig (field : config_field -> loc) (peer_config : loc).

Record memory := mkmemory { nodes : lheap; blocks : gmap loc cell }.

Definition peer_heads (p : peer_cell) : list loc :=
  [pc_network p; pc_network6 p; pc_route_network p; pc_route_network6 p].

(** The list nodes in a block; a node is the first member of an item. *)
Definition nodes_in (p : loc) (c : cell) : list loc :=
  match c with
  | CStringList _ | CPeerList _ | CSettingsList _ => [p]
  | CPeerConfig c => peer_heads c
  | CConfig _ head => [head]
  | _ => []
  end.

Definition mfree (p : loc) (m : memory) : outcome memory :=
  if p =? NULL then Ret m
  else match blocks m !! p with
       | Some c => Ret (mkmemory (foldr delete (nodes m) (nodes_in p c)) (delete p (blocks m)))
       | None => Undef
       end.

Definition on_nodes (f : lheap -> outcome lheap) (m : memory) : outcome memory :=
  h ← f (nodes m); Ret (mkmemory h (blocks m)).

Definition store (p : loc) (c : cell) (m : memory) : memory := mkmemory (nodes m) (<[p := c]> (blocks m)).

(** Reading through a pointer of the given type. *)
Definition load {A} (as_ : cell -> option A) (p : loc) (m : memory) : outcome A :=
  match blocks m !! p ≫= as_ with Some a => Ret a | None => Undef end.

Definition as_string_list (c : cell) : option loc := match c with CStringList t => Some t | _ => None end.
Definition as_peer_config (c : cell) : option peer_cell := match c with CPeerConfig p => Some p | _ => None end.
Definition as_peer_list (c : cell) : option loc := match c with CPeerList p => Some p | _ => None end.
Definition as_settings_list (c : cell) : option loc := match c with CSettingsList e => Some e | _ => None end.
Definition as_settings_entry (c : cell) : option (bool * loc) :=
  match c with CSettingsEntry b s => Some (b, s) | _ => None end.
Definition as_addr_info (c : cell) : option loc := match c with CAddrInfo n => Some n | _ => None end.
Definition as_pointers (c : cell) : option (list loc) := match c with CPointers l => Some l | _ => None end.
Definition as_config (c : cell) : option ((config_field -> loc) * loc) :=
  match c with CConfig f h => Some (f, h) | _ => None end.

(** ** The loop that may delete its node *)

(** [list_for_each_safe]: [n] is read before the body runs.  The loop visits every
    node once, so the number of nodes bounds its turns. *)
Fixpoint safe_loop (fuel : nat) (body : loc -> memory -> outcome memory) (pos n head : loc) (m : memory)
    : outcome memory :=
  match fuel with
  | O => Undef
  | S fuel =>
      if pos =? head then Ret m
      else m ← body pos m; nn ← get (nodes m) n; safe_loop fuel body n (next nn) head m
  end.

Definition list_for_each_safe (body : loc -> memory -> outcome memory) (head : loc) (m : memory) : outcome memory :=
  h ← get (nodes m) head;
  n ← get (nodes m) (next h);
  safe_loop (S (size (nodes m))) body (next h) (next n) head m.

(** ** parser.c *)

Definition delete_string_item (i : loc) (m : memory) : outcome memory :=
  text ← load as_string_list i m;
  m ← mfree text m;
  m ← on_nodes (list_del i) m;
  mfree i m.

Definition parser_delete_string_list (list : loc) (m : memory) : outcome memory :=
  list_for_each_safe delete_string_item list m.

(** One [free] after the other. *)
Fixpoint free_all (ps : list loc) (m : memory) : outcome memory :=
  match ps with [] => Ret m | p :: ps => m ← mfree p m; free_all ps m end.

Definition peer_texts (c : peer_cell) : list loc :=
  [pc_name c; pc_gatewayhost c; pc_owner c; pc_key c; pc_ed25519publickey c; pc_cipher c; pc_compression c; pc_digest c].

Definition parser_free_peer_config (config : loc) (m : memory) : outcome memory :=
  c ← load as_peer_config config m;
  m ← free_all (peer_texts c) m;
  m ← parser_delete_string_list (pc_network c) m;
  m ← parser_delete_string_list (pc_network6 c) m;
  m ← parser_delete_string_list (pc_route_network c) m;
  parser_delete_string_list (pc_route_network6 c) m.

Definition free_peer_item (i : loc) (m : memory) : outcome memory :=
  peer ← load as_peer_list i m;
  m ← parser_free_peer_config peer m;
  m ← mfree peer m;
  m ← on_nodes (list_del i) m;
  mfree i m.

Definition parser_free_config (configlist : loc) (m : memory) : outcome memory :=
  list_for_each_safe free_peer_item configlist m.

(** ** config.c *)

Definition free_settings_item (pos : loc) (m : memory) : outcome memory :=
  m ← on_nodes (list_del pos) m;
  e ← load as_settings_list pos m;
  '(is_string, s) ← load as_settings_entry e m;
  m ← (if is_string : bool then mfree s m else Ret m);
  mfree pos m.

Definition free_settings_list (s : loc) (m : memory) : outcome memory :=
  if s =? NULL then Ret m
  else m ← list_for_each_safe free_settings_item s m; mfree s m.

(** [addrmask_free] of addrmask.c; every turn frees a block. *)
Fixpoint free_chain (fuel : nat) (addrinfo : loc) (m : memory) : outcome memory :=
  match fuel with
  | O => Undef
  | S fuel =>
      if addrinfo =? NULL then Ret m
      else n ← load as_addr_info addrinfo m; m ← mfree addrinfo m; free_chain fuel n m
  end.

Definition addrmask_free (addrinfo : loc) (m : memory) : outcome memory :=
  free_chain (S (size (blocks m))) addrinfo m.

(** [free] of a field, and [string_free] of a buffer that is a member. *)
Definition free_field (config : loc) (f : config_field) (m : memory) : outcome memory :=
  '(c, _) ← load as_config config m; mfree (c f) m.

Definition string_free_field (config : loc) (f : config_field) (m : memory) : outcome memory :=
  '(c, head) ← load as_config config m;
  if c f =? NULL then Ret m
  else m ← mfree (c f) m; Ret (store config (CConfig (fun g => if decide (g = f) then NULL else c g) head) m).

Fixpoint free_fields (config : loc) (fs : list config_field) (m : memory) : outcome memory :=
  match fs with [] => Ret m | f :: fs => m ← free_field config f m; free_fields config fs m end.

Definition text_fields : list config_field :=
  [F_pidfile; F_peerid; F_vpn_ip; F_vpn_ip6; F_networkname; F_my_ip; F_my_addressfamily; F_tincd_bin;
   F_tincctl_bin; F_routemetric; F_routeadd; F_routeadd6; F_routedel; F_routedel6; F_postup; F_ifconfig;
   F_ifconfig6; F_master_url; F_base_path; F_tincd_pidfile; F_masterdata_signkey; F_tincd_graphdumpfile;
   F_tmpconffile; F_tincd_device; F_tincd_interface; F_tincd_user; F_tincd_raw_config; F_vpn_netmask; F_password].

Definition field (config : loc) (f : config_field) (m : memory) : outcome loc :=
  '(c, _) ← load as_config config m; Ret (c f).

(** The memory and [globalconfig] afterwards. *)
Definition config_free (config globalconfig : loc) (m : memory) : outcome (memory * loc) :=
  if config =? NULL then Ret (m, globalconfig) else
  m ← free_fields config text_fields m;
  m ← string_free_field config F_privkey_s m;
  m ← string_free_field config F_ed25519publickey_s m;
  p ← field config F_exclude m; m ← free_settings_list p m;
  '(_, head) ← load as_config config m; m ← parser_free_config head m;
  m ← free_fields config [F_configfile; F_tincd_version] m;
  p ← field config F_mergeroutes_supernet_raw m; m ← free_settings_list p m;
  p ← field config F_mergeroutes_supernet m; m ← addrmask_free p m;
  p ← field config F_ignore_subnets_raw m; m ← free_settings_list p m;
  p ← field config F_ignore_subnets m; m ← addrmask_free p m;
  p ← field config F_whitelist_subnets_raw m; m ← free_settings_list p m;
  p ← field config F_whitelist_subnets m; m ← addrmask_free p m;
  m ← mfree config m;
  Ret (m, if globalconfig =? config then NULL else globalconfig).

(** ** daemon.c *)

(** struct daemon_info, without [di_numarguments]. *)
Record daemon_cell := {
  dc_path : loc; dc_arguments : loc; dc_stderr_fd : Z * Z; dc_stderr : option Z; dc_pid : Z
}.

(** The loop over [di_arguments], which ends in NULL. *)
Fixpoint free_until_null (l : list loc) (m : memory) : outcome memory :=
  match l with
  | [] => Undef
  | p :: l => if p =? NULL then Ret m else m ← mfree p m; free_until_null l m
  end.

(** The stream is given by its descriptor; the list is what is closed. *)
Definition daemon_free (di : daemon_cell) (m : memory) : outcome (memory * list Z * daemon_cell) :=
  m ← mfree (dc_path di) m;
  l ← load as_pointers (dc_arguments di) m;
  m ← free_until_null l m;
  m ← mfree (dc_arguments di) m;
  let '(fd0, fd1) := dc_stderr_fd di in
  let closed := (if fd0 =? -1 then [] else [fd0]) ++ (if fd1 =? -1 then [] else [fd1]) ++
                match dc_stderr di with Some fd => [fd] | None => [] end in
  Ret (m, closed, {| dc_path := dc_path di; dc_arguments := NULL; dc_stderr_fd := (-1, -1); dc_stderr := None; dc_pid := -1 |}).
