(* ===== verification/ReleaseProps.v ===== *)
(** * What is given back: proofs about Release.v

    [frees X N m m'] says that the blocks [X], and no others, are gone in [m'] and
    that the list nodes outside [N] are untouched.  Each function is described by a
    tree of the structures it walks and by this relation. *)

From S2P Require Import Prelude KList KListProps ListIter Release.

(** ** The effect of giving back *)

Record frees (X N : list loc) (m m' : memory) : Prop := {
  fr_gone : forall q, q ∈ X -> blocks m' !! q = None;
  fr_kept : forall q, q ∉ X -> blocks m' !! q = blocks m !! q;
  fr_nodes : forall q, q ∉ N -> nodes m' !! q = nodes m !! q
}.

Lemma frees_nil m : frees [] [] m m.
Proof. split; [by intros q ?%not_elem_of_nil | done | done]. Qed.

Lemma frees_app X Y N K m m1 m2 : frees X N m m1 -> frees Y K m1 m2 -> frees (X ++ Y) (N ++ K) m m2.
Proof.
  intros [G1 K1 N1] [G2 K2 N2]. split; intros q.
  - intros [Hq | Hq]%elem_of_app; [|by apply G2]. destruct (decide (q ∈ Y)) as [Hy | Hy]; [by apply G2|].
    rewrite K2 by done. by apply G1.
  - intros [? ?]%not_elem_of_app. by rewrite K2, K1 by (done || congruence).
  - intros [? ?]%not_elem_of_app. by rewrite N2, N1.
Qed.

Lemma frees_weaken X Y N K m m' : (forall q, q ∈ X <-> q ∈ Y) -> N ⊆ K -> frees X N m m' -> frees Y K m m'.
Proof.
  intros HXY HNK [G1 K1 N1]. split; intros q Hq; [apply G1 | apply K1 | apply N1]; [by apply HXY | by rewrite HXY | set_solver].
Qed.

(** [p] points to an allocated block. *)
Definition live (m : memory) (p : loc) (c : cell) : Prop := p <> NULL /\ blocks m !! p = Some c.
Definition text_at (m : memory) (p : loc) : Prop := p = NULL \/ live m p CText.

Definition nonnull (ps : list loc) : list loc := List.filter (fun p => negb (p =? NULL)) ps.

Lemma elem_of_nonnull p ps : p ∈ nonnull ps <-> p ∈ ps /\ p <> NULL.
Proof. unfold nonnull. rewrite !list_elem_of_In, filter_In. destruct (Z.eqb_spec p NULL); cbn; intuition congruence. Qed.

Lemma nonnull_cons p ps : nonnull (p :: ps) = nonnull [p] ++ nonnull ps.
Proof. unfold nonnull. cbn. by destruct (negb (p =? NULL)). Qed.

Lemma nonnull_NULL : nonnull [NULL] = [].
Proof. reflexivity. Qed.

Lemma load_live {A} (as_ : cell -> option A) m p c a : live m p c -> as_ c = Some a -> load as_ p m = Ret a.
Proof. intros [_ Hb] Hc. unfold load. by rewrite Hb; cbn; rewrite Hc. Qed.

Lemma live_frame m m' p c : live m p c -> blocks m' !! p = blocks m !! p -> live m' p c.
Proof. intros [? ?] E. split; [done|]. by rewrite E. Qed.

Lemma text_frame m m' p : text_at m p -> (p ∈ nonnull [p] -> blocks m' !! p = blocks m !! p) -> text_at m' p.
Proof.
  intros [-> | Hl] Hf; [by left|]. right. apply (live_frame m); [done|]. apply Hf, elem_of_nonnull.
  split; [set_solver | apply Hl].
Qed.

Lemma foldr_delete_lookup (h : lheap) ps q : q ∉ ps -> foldr delete h ps !! q = h !! q.
Proof.
  induction ps as [|p ps IH]; [done|]. intros [Hn Hq]%not_elem_of_cons. cbn. rewrite lookup_delete_ne by done. by apply IH.
Qed.

Lemma mfree_live m p c : live m p c -> exists m', mfree p m = Ret m' /\ frees [p] (nodes_in p c) m m'.
Proof.
  intros [Hp Hb]. unfold mfree. rewrite (proj2 (Z.eqb_neq p NULL) Hp), Hb. eexists. split; [done|]. split; cbn; intros q Hq.
  - apply list_elem_of_singleton in Hq as ->. apply lookup_delete_eq.
  - apply lookup_delete_ne. set_solver.
  - by apply foldr_delete_lookup.
Qed.

Lemma mfree_text m p : text_at m p -> exists m', mfree p m = Ret m' /\ frees (nonnull [p]) [] m m'.
Proof.
  intros [-> | Hl]; [exists m; split; [done | apply frees_nil]|].
  destruct (mfree_live m p CText Hl) as (m' & E & F). exists m'. split; [done|].
  destruct Hl as [Hp _]. unfold nonnull. cbn. by rewrite (proj2 (Z.eqb_neq p NULL) Hp).
Qed.

Lemma free_all_ok ps : forall m, Forall (text_at m) ps -> NoDup (nonnull ps) ->
  exists m', free_all ps m = Ret m' /\ frees (nonnull ps) [] m m'.
Proof.
  induction ps as [|p ps IH]; intros m Hps Hnd; [exists m; split; [done | apply frees_nil]|].
  apply list.Forall_cons in Hps as [Hp Hps]. rewrite nonnull_cons in Hnd. apply list.NoDup_app in Hnd as (_ & Hd & Hnd).
  destruct (mfree_text m p Hp) as (m1 & E1 & F1). destruct (IH m1) as (m2 & E2 & F2); [|done|].
  { apply list.Forall_forall. intros q Hq. apply (text_frame m); [by eapply list.Forall_forall in Hps|].
    intros Hn. apply (fr_kept _ _ _ _ F1). intros Hqp. apply (Hd q Hqp). apply elem_of_nonnull in Hn as [_ Hn]. by apply elem_of_nonnull. }
  exists m2. cbn [free_all]. rewrite E1. split; [done|]. rewrite nonnull_cons. by apply (frees_app _ _ [] []  _ m1).
Qed.

(** ** Nodes *)

Lemma ring_agree h h' head l : (forall q, q ∈ head :: l -> h' !! q = h !! q) -> ring h head l -> ring h' head l.
Proof. intros Ha. apply ring_frame. intros q Hq. unfold nxt, prv. by rewrite Ha. Qed.

Lemma ring_size h head l : ring h head l -> (length l < size h)%nat.
Proof.
  intros [Hnd Hl]. assert (list_to_set (head :: l) ⊆ dom h) as Hs.
  { intros q Hq. apply elem_of_list_to_set in Hq. apply elem_of_dom.
    apply list_elem_of_split in Hq as (k & s & E). change (head :: l ++ [head]) with ((head :: l) ++ [head]) in Hl.
    rewrite E, <- app_assoc in Hl. cbn [app] in Hl. destruct (cons_view s head) as (b & k2 & Eb). rewrite Eb in Hl.
    by apply links_allocated in Hl as [? _]. }
  apply subseteq_size in Hs. rewrite size_dom, size_list_to_set in Hs by done. cbn [length] in Hs. lia.
Qed.

(** Deleting writes to the node and its two neighbours. *)
Lemma set_next_frame a v h h' q : set_next a v h = Ret h' -> q <> a -> h' !! q = h !! q.
Proof. unfold set_next, get. destruct (h !! a); [|done]. intros [= <-] ?. by apply lookup_insert_ne. Qed.

Lemma set_prev_frame a v h h' q : set_prev a v h = Ret h' -> q <> a -> h' !! q = h !! q.
Proof. unfold set_prev, get. destruct (h !! a); [|done]. intros [= <-] ?. by apply lookup_insert_ne. Qed.

Lemma list_del_first m head x l :
  ring (nodes m) head (x :: l) ->
  exists m', on_nodes (list_del x) m = Ret m' /\ ring (nodes m') head l /\ frees [] (head :: x :: l) m m' /\
    allocated (nodes m') x.
Proof.
  intros Hr. destruct (list_del_ring (nodes m) head [] x l Hr) as (h' & E & Hr' & Ha).
  exists (mkmemory h' (blocks m)). unfold on_nodes. rewrite E. split_and!; [done | done | |].
  - split; [by intros q ?%not_elem_of_nil | done |]. cbn [nodes]. intros q Hq.
    pose proof Hr as [_ Hl]. cbn [app] in Hl. rewrite links_cons in Hl. destruct Hl as (_ & Hp & _).
    pose proof (ring_second _ _ _ _ Hr) as Hn. destruct (get_both _ _ _ _ Hn Hp) as (n & Eg & En & Ep).
    assert (q <> next n /\ q <> prev n /\ q <> x) as (? & ? & ?) by (rewrite En, Ep; destruct l; cbn; set_solver).
    unfold list_del in E. rewrite Eg in E. cbn [mbind outcome_bind] in E. unfold list_unlink in E.
    destruct (set_prev (next n) (prev n) (nodes m)) as [h1| |] eqn:E1; [|done..]. cbn [mbind outcome_bind] in E.
    destruct (set_next (prev n) (next n) h1) as [h2| |] eqn:E2; [|done..]. cbn [mbind outcome_bind] in E.
    destruct (set_next x NULL h2) as [h3| |] eqn:E3; [|done..]. cbn [mbind outcome_bind] in E.
    rewrite (set_prev_frame _ _ _ _ _ E), (set_next_frame _ _ _ _ _ E3), (set_next_frame _ _ _ _ _ E2) by done.
    by apply (set_prev_frame _ _ _ _ _ E1).
  - apply Ha. pose proof (ring_second _ _ _ _ Hr) as Hn. by apply nxt_allocated in Hn.
Qed.

(** ** The loop *)

Section Loop.
Context {E : Type} (at_ : E -> loc) (X B K : E -> list loc) (good : memory -> E -> Prop).
Context (body : loc -> memory -> outcome memory) (head : loc).

(** [X]: what an element frees, [B]: the blocks it is made of, [K]: the nodes inside. *)
Hypothesis XB : forall e q, q ∈ X e -> q ∈ B e.
Hypothesis good_frame : forall m m' e, good m e ->
  (forall q, q ∈ B e -> blocks m' !! q = blocks m !! q) ->
  (forall q, q ∈ K e -> nodes m' !! q = nodes m !! q) -> good m' e.
Hypothesis body_ok : forall m e l, ring (nodes m) head (at_ e :: l) -> good m e -> NoDup (B e) -> NoDup (K e) ->
  (forall q, q ∈ K e -> q ∉ head :: at_ e :: l) ->
  exists m', body (at_ e) m = Ret m' /\ ring (nodes m') head l /\ frees (X e) (head :: at_ e :: l ++ K e) m m'.

Lemma safe_loop_ok es : forall fuel m pos n,
  ring (nodes m) head (map at_ es) -> (length es < fuel)%nat ->
  nxt (nodes m) head = Some pos -> nxt (nodes m) pos = Some n ->
  Forall (good m) es -> NoDup (concat (map B es)) -> NoDup (concat (map K es)) ->
  (forall q, q ∈ concat (map K es) -> q ∉ head :: map at_ es) ->
  exists m', safe_loop fuel body pos n head m = Ret m' /\ ring (nodes m') head [] /\
    frees (concat (map X es)) (head :: map at_ es ++ concat (map K es)) m m'.
Proof using XB good_frame body_ok.
  induction es as [|e es IH]; intros [|fuel] m pos n Hr Hf Hpos Hn Hg HB HK Hd; cbn [length] in Hf; try lia.
  { pose proof (ring_first _ _ _ Hr) as E1. rewrite Hpos in E1. injection E1 as ->. cbn. rewrite Z.eqb_refl.
    exists m. split_and!; [done | done |]. eapply frees_weaken; [done | | apply frees_nil]. set_solver. }
  cbn [map concat] in *. apply list.Forall_cons in Hg as [Hge Hg].
  apply list.NoDup_app in HB as (HBe & HBd & HB). apply list.NoDup_app in HK as (HKe & HKd & HK).
  pose proof (ring_first _ _ _ Hr) as E1. rewrite Hpos in E1. injection E1 as ->. cbn [hd_or] in *.
  pose proof (ring_second _ _ _ _ Hr) as E2. rewrite Hn in E2. injection E2 as ->.
  destruct (body_ok m e (map at_ es) Hr Hge HBe HKe) as (m1 & Eb & Hr1 & F1).
  { intros q Hq. apply Hd. apply elem_of_app. by left. }
  pose proof (ring_first _ _ _ Hr1) as Hn1. destruct es as [|e' es].
  - destruct (get_next _ _ _ Hn1) as (hn & Eg & En). exists m1. cbn [safe_loop].
    assert (at_ e <> head) as Hne by (destruct Hr as [Hnd _]; apply list.NoDup_cons in Hnd as [Hnd _]; set_solver).
    rewrite (proj2 (Z.eqb_neq _ _) Hne), Eb. cbn [mbind outcome_bind map hd_or] in *. rewrite Eg. cbn [mbind outcome_bind].
    destruct fuel; [lia|]. cbn [safe_loop]. rewrite Z.eqb_refl. split_and!; [done | done |].
    cbn [map concat]. rewrite !app_nil_r. eapply frees_weaken; [done | | exact F1]. set_solver.
  - pose proof (ring_second _ _ _ _ Hr1) as Hn2. cbn [map hd_or] in *.
    destruct (IH fuel m1 (at_ e') (hd_or head (map at_ es))) as (m2 & E2' & Hr2 & F2); try done; [lia| | |].
    + apply list.Forall_forall. intros x Hx. eapply list.Forall_forall in Hg; [|exact Hx].
      assert (forall Y : E -> list loc, forall q, q ∈ Y x -> q ∈ concat (map Y (e' :: es))) as Hin.
      { intros Y q Hq. apply list_elem_of_In, in_concat. exists (Y x). split; [apply in_map|]; by apply list_elem_of_In. }
      apply (good_frame m); [done | |]; intros q Hq.
      * apply (fr_kept _ _ _ _ F1). intros HX. by apply (HBd q (XB _ _ HX)), Hin.
      * apply (fr_nodes _ _ _ _ F1). apply Hin in Hq. intros Hin'.
        assert (q ∉ head :: at_ e :: at_ e' :: map at_ es) as Hnot by (apply Hd, elem_of_app; by right).
        assert (q ∈ K e) by set_solver. by apply (HKd q).
    + intros q Hq Hin. apply (Hd q); [apply elem_of_app; by right | set_solver].
    + destruct (get_next _ _ _ Hn2) as (hn & Eg & En). exists m2. cbn [safe_loop].
      assert (at_ e <> head) as Hne by (destruct Hr as [Hnd _]; apply list.NoDup_cons in Hnd as [Hnd _]; set_solver).
      rewrite (proj2 (Z.eqb_neq _ _) Hne), Eb. cbn [mbind outcome_bind]. rewrite Eg. cbn [mbind outcome_bind]. rewrite En.
      split_and!; [done | done |]. eapply frees_weaken; [done | | exact (frees_app _ _ _ _ _ _ _ F1 F2)]. set_solver.
Qed.

Lemma list_for_each_safe_ok es m :
  ring (nodes m) head (map at_ es) -> Forall (good m) es -> NoDup (concat (map B es)) -> NoDup (concat (map K es)) ->
  (forall q, q ∈ concat (map K es) -> q ∉ head :: map at_ es) ->
  exists m', list_for_each_safe body head m = Ret m' /\ ring (nodes m') head [] /\
    frees (concat (map X es)) (head :: map at_ es ++ concat (map K es)) m m'.
Proof using XB good_frame body_ok.
  intros Hr Hg HB HK Hd. pose proof (ring_first _ _ _ Hr) as Hp.
  assert (exists n, nxt (nodes m) (hd_or head (map at_ es)) = Some n) as [n Hn].
  { destruct es as [|e es]; [by exists head|]. eexists. exact (ring_second _ _ _ _ Hr). }
  destruct (get_next _ _ _ Hp) as (a & Ea & Ha). destruct (get_next _ _ _ Hn) as (b & Eb & Hb).
  unfold list_for_each_safe. rewrite Ea. cbn [mbind outcome_bind]. rewrite Ha, Eb. cbn [mbind outcome_bind]. rewrite Hb.
  apply safe_loop_ok; try done. apply ring_size in Hr. rewrite length_map in Hr. lia.
Qed.

End Loop.

(** ** Lists of texts *)

(** An item and its text. *)
Notation item := (loc * loc)%type.

Definition item_good (m : memory) (e : item) : Prop := live m (fst e) (CStringList (snd e)) /\ text_at m (snd e).
Definition item_blocks (e : item) : list loc := fst e :: nonnull [snd e].

(** A list of texts: the address of the head and the items. *)
Notation slist := (loc * list item)%type.

Definition string_list (m : memory) (l : slist) : Prop :=
  ring (nodes m) (fst l) (map fst (snd l)) /\ Forall (item_good m) (snd l).
Definition slist_blocks (l : slist) : list loc := concat (map item_blocks (snd l)).
Definition slist_nodes (l : slist) : list loc := fst l :: map fst (snd l).

Lemma item_frame m m' e : item_good m e -> (forall q, q ∈ item_blocks e -> blocks m' !! q = blocks m !! q) -> item_good m' e.
Proof.
  intros [Hl Ht] Hb. split; [eapply live_frame; [exact Hl|] | eapply text_frame; [exact Ht|]; intros Hq]; apply Hb; unfold item_blocks; set_solver.
Qed.

Lemma in_concat_map {A} (f : A -> list loc) (x : A) l q : x ∈ l -> q ∈ f x -> q ∈ concat (map f l).
Proof. intros Hx Hq. apply list_elem_of_In, in_concat. exists (f x). split; [apply in_map|]; by apply list_elem_of_In. Qed.

Lemma string_list_frame m m' l : string_list m l ->
  (forall q, q ∈ slist_blocks l -> blocks m' !! q = blocks m !! q) ->
  (forall q, q ∈ slist_nodes l -> nodes m' !! q = nodes m !! q) -> string_list m' l.
Proof.
  intros [Hr Hg] Hb Hn. split; [by apply (ring_agree (nodes m))|]. apply list.Forall_forall. intros e He.
  apply (item_frame m); [by eapply list.Forall_forall in Hg|]. intros q Hq. by apply Hb, (in_concat_map _ e).
Qed.

(** The last steps of every loop body: the node is taken out and its block freed. *)
Lemma del_and_free m head x l c :
  ring (nodes m) head (x :: l) -> live m x c -> nodes_in x c = [x] ->
  exists m', (m ← on_nodes (list_del x) m; mfree x m) = Ret m' /\ ring (nodes m') head l /\ frees [x] (head :: x :: l) m m'.
Proof.
  intros Hr Hl Hc. destruct (list_del_first m head x l Hr) as (m1 & E1 & Hr1 & F1 & _).
  destruct (mfree_live m1 x c) as (m2 & E2 & F2).
  { apply (live_frame m); [done|]. apply (fr_kept _ _ _ _ F1). apply not_elem_of_nil. }
  exists m2. rewrite E1. cbn [mbind outcome_bind]. split_and!; [done | |].
  - apply (ring_agree (nodes m1)); [|done]. intros q Hq. apply (fr_nodes _ _ _ _ F2). rewrite Hc.
    destruct Hr as [Hnd _]. rewrite !list.NoDup_cons in Hnd. set_solver.
  - eapply frees_weaken; [| | exact (frees_app _ _ _ _ _ _ _ F1 F2)]; [done|]. rewrite Hc. set_solver.
Qed.

Lemma delete_string_item_ok m head e l :
  ring (nodes m) head (fst e :: l) -> item_good m e -> NoDup (item_blocks e) ->
  exists m', delete_string_item (fst e) m = Ret m' /\ ring (nodes m') head l /\
    frees (item_blocks e) (head :: fst e :: l ++ []) m m'.
Proof.
  intros Hr [Hl Ht] Hnd. unfold delete_string_item. rewrite (load_live as_string_list _ _ _ _ Hl eq_refl). cbn [mbind outcome_bind].
  destruct (mfree_text m (snd e) Ht) as (m1 & E1 & F1). rewrite E1. cbn [mbind outcome_bind].
  apply list.NoDup_cons in Hnd as [Hnot _].
  destruct (del_and_free m1 head (fst e) l (CStringList (snd e))) as (m2 & E2 & Hr2 & F2); [| |done|].
  - apply (ring_agree (nodes m)); [|done]. intros q _. apply (fr_nodes _ _ _ _ F1), not_elem_of_nil.
  - apply (live_frame m); [done|]. by apply (fr_kept _ _ _ _ F1).
  - exists m2. split_and!; [done | done |]. rewrite app_nil_r.
    eapply frees_weaken; [| | exact (frees_app _ _ _ _ _ _ _ F1 F2)]; unfold item_blocks; set_solver.
Qed.

Lemma concat_nil_map {A B} (l : list A) : concat (map (fun _ => @nil B) l) = [].
Proof. by induction l. Qed.

Lemma delete_string_list_ok m l :
  string_list m l -> NoDup (slist_blocks l) ->
  exists m', parser_delete_string_list (fst l) m = Ret m' /\ ring (nodes m') (fst l) [] /\
    frees (slist_blocks l) (slist_nodes l) m m'.
Proof.
  intros [Hr Hg] Hnd.
  destruct (list_for_each_safe_ok fst item_blocks item_blocks (fun _ => []) item_good delete_string_item (fst l))
    with (es := snd l) (m := m) as (m' & E & Hr' & F); try done.
  - intros m1 m2 e He Hb _. by apply (item_frame m1).
  - intros m1 e k Hr1 He Hb _ _. by apply delete_string_item_ok.
  - rewrite concat_nil_map. constructor.
  - intros q. by rewrite concat_nil_map, elem_of_nil.
  - exists m'. split_and!; [done | done |]. eapply frees_weaken; [done | | exact F].
    by rewrite concat_nil_map, app_nil_r.
Qed.

(** Several lists, one after the other. *)
Fixpoint delete_lists (heads : list loc) (m : memory) : outcome memory :=
  match heads with [] => Ret m | h :: heads => m ← parser_delete_string_list h m; delete_lists heads m end.

Lemma delete_lists_ok ls : forall m,
  Forall (string_list m) ls -> NoDup (concat (map slist_blocks ls)) -> NoDup (concat (map slist_nodes ls)) ->
  exists m', delete_lists (map fst ls) m = Ret m' /\
    frees (concat (map slist_blocks ls)) (concat (map slist_nodes ls)) m m'.
Proof.
  induction ls as [|l ls IH]; intros m Hg HB HN; [exists m; split; [done | apply frees_nil]|].
  cbn [map concat] in *. apply list.Forall_cons in Hg as [Hl Hg].
  apply list.NoDup_app in HB as (HBl & HBd & HB). apply list.NoDup_app in HN as (HNl & HNd & HN).
  destruct (delete_string_list_ok m l Hl HBl) as (m1 & E1 & _ & F1).
  destruct (IH m1) as (m2 & E2 & F2); [|done|done|].
  - apply list.Forall_forall. intros x Hx. apply (string_list_frame m); [by eapply list.Forall_forall in Hg| |]; intros q Hq.
    + apply (fr_kept _ _ _ _ F1). intros Hin. apply (HBd q Hin). by apply (in_concat_map _ x).
    + apply (fr_nodes _ _ _ _ F1). intros Hin. apply (HNd q Hin). by apply (in_concat_map _ x).
  - exists m2. cbn [delete_lists]. rewrite E1. split; [done|]. by apply (frees_app _ _ _ _ _ m1).
Qed.

(** ** Peers *)

Record peer_tree := {
  pt_item : loc; pt_peer : loc; pt_cell : peer_cell;
  pt_network : list item; pt_network6 : list item; pt_route_network : list item; pt_route_network6 : list item
}.

Definition peer_lists (t : peer_tree) : list slist :=
  [(pc_network (pt_cell t), pt_network t); (pc_network6 (pt_cell t), pt_network6 t);
   (pc_route_network (pt_cell t), pt_route_network t); (pc_route_network6 (pt_cell t), pt_route_network6 t)].

(** The strings of a struct peer_config, as chaosvpn.h declares them. *)
Definition peer_strings (c : peer_cell) : list loc :=
  [pc_name c; pc_gatewayhost c; pc_owner c; pc_key c; pc_ed25519publickey c; pc_cipher c; pc_compression c; pc_digest c].

Lemma peer_texts_strings c : peer_texts c = peer_strings c.
Proof. reflexivity. Qed.

Definition peer_good (m : memory) (t : peer_tree) : Prop :=
  live m (pt_item t) (CPeerList (pt_peer t)) /\ live m (pt_peer t) (CPeerConfig (pt_cell t)) /\
  Forall (text_at m) (peer_strings (pt_cell t)) /\ Forall (string_list m) (peer_lists t).
Definition peer_blocks (t : peer_tree) : list loc :=
  pt_item t :: pt_peer t :: nonnull (peer_strings (pt_cell t)) ++ concat (map slist_blocks (peer_lists t)).
Definition peer_nodes (t : peer_tree) : list loc := concat (map slist_nodes (peer_lists t)).

Lemma peer_frame m m' t : peer_good m t ->
  (forall q, q ∈ peer_blocks t -> blocks m' !! q = blocks m !! q) ->
  (forall q, q ∈ peer_nodes t -> nodes m' !! q = nodes m !! q) -> peer_good m' t.
Proof.
  intros (Hi & Hp & Ht & Hl) Hb Hn. unfold peer_blocks in Hb. split_and!.
  - apply (live_frame m); [done|]. apply Hb. set_solver.
  - apply (live_frame m); [done|]. apply Hb. set_solver.
  - apply list.Forall_forall. intros p Hin. apply (text_frame m); [by eapply list.Forall_forall in Ht|].
    intros [_ Hq]%elem_of_nonnull. apply Hb. apply elem_of_cons; right; apply elem_of_cons; right.
    apply elem_of_app. left. by apply elem_of_nonnull.
  - apply list.Forall_forall. intros l Hin. apply (string_list_frame m); [by eapply list.Forall_forall in Hl| |]; intros q Hq.
    + apply Hb. apply elem_of_cons; right; apply elem_of_cons; right. apply elem_of_app. right. by apply (in_concat_map _ l).
    + apply Hn. by apply (in_concat_map _ l).
Qed.

Lemma parser_free_peer_config_ok m t :
  peer_good m t -> NoDup (peer_blocks t) -> NoDup (peer_nodes t) ->
  exists m', parser_free_peer_config (pt_peer t) m = Ret m' /\
    frees (nonnull (peer_strings (pt_cell t)) ++ concat (map slist_blocks (peer_lists t))) (peer_nodes t) m m'.
Proof.
  intros (_ & Hp & Ht & Hl) HB HN. unfold parser_free_peer_config. rewrite (load_live as_peer_config _ _ _ _ Hp eq_refl). cbn [mbind outcome_bind].
  apply list.NoDup_cons in HB as [_ [_ (HBt & HBd & HBl)%list.NoDup_app]%list.NoDup_cons].
  rewrite peer_texts_strings. destruct (free_all_ok (peer_strings (pt_cell t)) m Ht HBt) as (m1 & E1 & F1). rewrite E1. cbn [mbind outcome_bind].
  destruct (delete_lists_ok (peer_lists t) m1) as (m2 & E2 & F2); [|done|done|].
  - apply list.Forall_forall. intros l Hin. apply (string_list_frame m); [by eapply list.Forall_forall in Hl| |]; intros q Hq.
    + apply (fr_kept _ _ _ _ F1). intros Hq'. apply (HBd q Hq'). by apply (in_concat_map _ l).
    + apply (fr_nodes _ _ _ _ F1), not_elem_of_nil.
  - exists m2. split; [|by apply (frees_app _ _ [] _ _ m1)]. rewrite <- E2. unfold peer_lists. cbn [map fst delete_lists].
    by repeat (destruct (parser_delete_string_list _ _); cbn [mbind outcome_bind]; [|done..]).
Qed.

Lemma peer_heads_nodes t q : q ∈ peer_heads (pt_cell t) -> q ∈ peer_nodes t.
Proof.
  intros Hq. change (peer_heads (pt_cell t)) with (map fst (peer_lists t)) in Hq.
  apply list_elem_of_fmap in Hq as (l & -> & Hl). apply (in_concat_map slist_nodes l); [done | by left].
Qed.

Lemma free_peer_item_ok m head t l :
  ring (nodes m) head (pt_item t :: l) -> peer_good m t -> NoDup (peer_blocks t) -> NoDup (peer_nodes t) ->
  (forall q, q ∈ peer_nodes t -> q ∉ head :: pt_item t :: l) ->
  exists m', free_peer_item (pt_item t) m = Ret m' /\ ring (nodes m') head l /\
    frees (peer_blocks t) (head :: pt_item t :: l ++ peer_nodes t) m m'.
Proof.
  intros Hr Hg HB HN Hd. pose proof Hg as (Hi & Hp & _). unfold free_peer_item.
  rewrite (load_live as_peer_list _ _ _ _ Hi eq_refl). cbn [mbind outcome_bind].
  destruct (parser_free_peer_config_ok m t Hg HB HN) as (m1 & E1 & F1). rewrite E1. cbn [mbind outcome_bind].
  apply list.NoDup_cons in HB as [HBi [HBp _]%list.NoDup_cons].
  destruct (mfree_live m1 (pt_peer t) (CPeerConfig (pt_cell t))) as (m2 & E2 & F2).
  { apply (live_frame m); [done|]. by apply (fr_kept _ _ _ _ F1). }
  rewrite E2. cbn [mbind outcome_bind].
  assert (forall q, q ∉ peer_nodes t -> nodes m2 !! q = nodes m !! q) as Hn.
  { intros q Hq. rewrite (fr_nodes _ _ _ _ F2), (fr_nodes _ _ _ _ F1); [done | done |].
    intros Hin. by apply Hq, peer_heads_nodes. }
  destruct (del_and_free m2 head (pt_item t) l (CPeerList (pt_peer t))) as (m3 & E3 & Hr3 & F3); [| |done|].
  - apply (ring_agree (nodes m)); [|done]. intros q Hq. apply Hn. intros Hin. by apply (Hd q).
  - apply (live_frame m); [done|]. apply not_elem_of_cons in HBi as [? ?].
    by rewrite (fr_kept _ _ _ _ F2), (fr_kept _ _ _ _ F1) by (done || by apply not_elem_of_cons; split; [|apply not_elem_of_nil]).
  - exists m3. split_and!; [done | done |].
    eapply frees_weaken; [| | exact (frees_app _ _ _ _ _ _ _ F1 (frees_app _ _ _ _ _ _ _ F2 F3))].
    + intros q. unfold peer_blocks. rewrite !elem_of_app, !elem_of_cons, !elem_of_app, elem_of_nil. tauto.
    + intros q. rewrite !elem_of_app, !elem_of_cons, !elem_of_app. pose proof (peer_heads_nodes t q). cbn [nodes_in]. tauto.
Qed.

(** A list of peers behind [head], as parser_parse_config builds it. *)
Record peer_list (m : memory) (head : loc) (ts : list peer_tree) : Prop := {
  pl_ring : ring (nodes m) head (map pt_item ts);
  pl_good : Forall (peer_good m) ts;
  pl_blocks : NoDup (concat (map peer_blocks ts));
  pl_inner : NoDup (concat (map peer_nodes ts));
  pl_outer : forall q, q ∈ concat (map peer_nodes ts) -> q ∉ head :: map pt_item ts
}.

Lemma parser_free_config_ok m head ts : peer_list m head ts ->
  exists m', parser_free_config head m = Ret m' /\ ring (nodes m') head [] /\
    frees (concat (map peer_blocks ts)) (head :: map pt_item ts ++ concat (map peer_nodes ts)) m m'.
Proof.
  intros [Hr Hg HB HN Hd].
  apply (list_for_each_safe_ok pt_item peer_blocks peer_blocks peer_nodes peer_good free_peer_item head);
    try done; [apply peer_frame | intros m1 t l; apply free_peer_item_ok].
Qed.

(** ** Settings *)

(** An item, its entry, whether that is a text, and the text. *)
Record setting_tree := { st_item : loc; st_entry : loc; st_string : bool; st_text : loc }.

Definition setting_freed (t : setting_tree) : list loc :=
  st_item t :: if st_string t then nonnull [st_text t] else [].
Definition setting_blocks (t : setting_tree) : list loc := st_entry t :: setting_freed t.
Definition setting_good (m : memory) (t : setting_tree) : Prop :=
  live m (st_item t) (CSettingsList (st_entry t)) /\ live m (st_entry t) (CSettingsEntry (st_string t) (st_text t)) /\
  (st_string t = true -> text_at m (st_text t)).

Lemma setting_frame m m' t : setting_good m t ->
  (forall q, q ∈ setting_blocks t -> blocks m' !! q = blocks m !! q) -> setting_good m' t.
Proof.
  intros (Hi & He & Ht) Hb. unfold setting_blocks, setting_freed in Hb. split_and!.
  - apply (live_frame m); [done|]. apply Hb. set_solver.
  - apply (live_frame m); [done|]. apply Hb. set_solver.
  - intros Hs. apply (text_frame m); [by apply Ht|]. rewrite Hs in Hb. intros Hq. apply Hb. set_solver.
Qed.

Lemma free_settings_item_ok m head t l :
  ring (nodes m) head (st_item t :: l) -> setting_good m t -> NoDup (setting_blocks t) ->
  exists m', free_settings_item (st_item t) m = Ret m' /\ ring (nodes m') head l /\
    frees (setting_freed t) (head :: st_item t :: l ++ []) m m'.
Proof.
  intros Hr (Hi & He & Ht) HB. unfold free_settings_item.
  destruct (list_del_first m head _ l Hr) as (m1 & E1 & Hr1 & F1 & _). rewrite E1. cbn [mbind outcome_bind].
  assert (forall q, blocks m1 !! q = blocks m !! q) as Hb by (intros q; apply (fr_kept _ _ _ _ F1), not_elem_of_nil).
  rewrite (load_live as_settings_list m1 _ _ _ (live_frame _ _ _ _ Hi (Hb _)) eq_refl). cbn [mbind outcome_bind].
  rewrite (load_live as_settings_entry m1 _ _ _ (live_frame _ _ _ _ He (Hb _)) eq_refl). cbn [mbind outcome_bind].
  apply list.NoDup_cons in HB as [_ [Hnot _]%list.NoDup_cons].
  assert (exists m2, (if st_string t then mfree (st_text t) m1 else Ret m1) = Ret m2 /\
    frees (if st_string t then nonnull [st_text t] else []) [] m1 m2) as (m2 & E2 & F2).
  { destruct (st_string t); [|exists m1; split; [done | apply frees_nil]].
    apply mfree_text. apply (text_frame m); [by apply Ht | done]. }
  rewrite E2. cbn [mbind outcome_bind].
  destruct (mfree_live m2 (st_item t) (CSettingsList (st_entry t))) as (m3 & E3 & F3).
  { apply (live_frame m); [done|]. rewrite <- Hb. by apply (fr_kept _ _ _ _ F2). }
  exists m3. split_and!; [done | |].
  - apply (ring_agree (nodes m1)); [|done]. intros q Hq.
    rewrite (fr_nodes _ _ _ _ F3), (fr_nodes _ _ _ _ F2); [done | apply not_elem_of_nil |].
    cbn [nodes_in]. destruct Hr as [Hnd _]. rewrite !list.NoDup_cons in Hnd. set_solver.
  - rewrite app_nil_r. eapply frees_weaken; [| | exact (frees_app _ _ _ _ _ _ _ F1 (frees_app _ _ _ _ _ _ _ F2 F3))].
    + intros q. unfold setting_freed. set_solver.
    + cbn [nodes_in]. set_solver.
Qed.

(** A list made by the parser of the configuration file, or NULL. *)
Record settings (m : memory) (s : loc) (ts : list setting_tree) : Prop := {
  sl_head : exists e, live m s (CSettingsList e);
  sl_ring : ring (nodes m) s (map st_item ts);
  sl_good : Forall (setting_good m) ts;
  sl_blocks : NoDup (s :: concat (map setting_blocks ts))
}.

Definition settings_freed (s : loc) (ts : list setting_tree) : list loc := s :: concat (map setting_freed ts).

Lemma free_settings_list_ok m s ts : settings m s ts ->
  exists m', free_settings_list s m = Ret m' /\ frees (settings_freed s ts) (s :: map st_item ts) m m'.
Proof.
  intros [[e Hs] Hr Hg [Hnot HB]%list.NoDup_cons]. unfold free_settings_list.
  rewrite (proj2 (Z.eqb_neq s NULL)) by apply Hs.
  destruct (list_for_each_safe_ok st_item setting_freed setting_blocks (fun _ => []) setting_good free_settings_item s)
    with (es := ts) (m := m) as (m1 & E1 & Hr1 & F1); try done.
  - intros t q Hq. unfold setting_blocks. set_solver.
  - intros m1 m2 t Ht Hb _. by apply (setting_frame m1).
  - intros m1 t k Hr1 Ht Hb _ _. by apply free_settings_item_ok.
  - rewrite concat_nil_map. constructor.
  - intros q. by rewrite concat_nil_map, elem_of_nil.
  - rewrite E1. cbn [mbind outcome_bind]. destruct (mfree_live m1 s (CSettingsList e)) as (m2 & E2 & F2).
    { apply (live_frame m); [done|]. apply (fr_kept _ _ _ _ F1). intros Hin. apply Hnot. clear -Hin.
      induction ts as [|t ts IH]; [done|]. cbn [map concat] in *. unfold setting_blocks at 1. set_solver. }
    exists m2. split; [done|]. eapply frees_weaken; [| | exact (frees_app _ _ _ _ _ _ _ F1 F2)].
    + intros q. unfold settings_freed. set_solver.
    + rewrite concat_nil_map. cbn [nodes_in]. set_solver.
Qed.

(** ** Chains of address ranges *)

Fixpoint chain (m : memory) (p : loc) (l : list loc) : Prop :=
  match l with
  | [] => p = NULL
  | q :: l => p = q /\ exists n, live m q (CAddrInfo n) /\ chain m n l
  end.

Lemma chain_frame m m' l : forall p, chain m p l -> (forall q, q ∈ l -> blocks m' !! q = blocks m !! q) -> chain m' p l.
Proof.
  induction l as [|q l IH]; intros p; [done|]. intros [-> (n & Hl & Hc)] Hb. split; [done|]. exists n. split.
  - apply (live_frame m); [done|]. apply Hb. set_solver.
  - apply IH; [done|]. intros q' Hq. apply Hb. set_solver.
Qed.

Lemma free_chain_ok l : forall fuel m p, chain m p l -> NoDup l -> (length l < fuel)%nat ->
  exists m', free_chain fuel p m = Ret m' /\ frees l [] m m'.
Proof.
  induction l as [|q l IH]; intros [|fuel] m p Hc Hnd Hf; cbn [length] in Hf; try lia.
  { cbn in Hc. subst p. exists m. split; [done | apply frees_nil]. }
  destruct Hc as [-> (n & Hl & Hc)]. apply list.NoDup_cons in Hnd as [Hq Hnd]. cbn [free_chain].
  rewrite (proj2 (Z.eqb_neq q NULL)) by apply Hl. rewrite (load_live as_addr_info _ _ _ _ Hl eq_refl). cbn [mbind outcome_bind].
  destruct (mfree_live m q (CAddrInfo n) Hl) as (m1 & E1 & F1). rewrite E1. cbn [mbind outcome_bind].
  destruct (IH fuel m1 n) as (m2 & E2 & F2); [|done|lia|].
  - apply (chain_frame m); [done|]. intros q' Hq'. apply (fr_kept _ _ _ _ F1). set_solver.
  - exists m2. split; [done|]. by apply (frees_app [q] l [] [] _ m1).
Qed.

Lemma chain_live m l : forall p q, chain m p l -> q ∈ l -> is_Some (blocks m !! q).
Proof.
  induction l as [|x l IH]; intros p q; [by intros _ ?%not_elem_of_nil|].
  intros [_ (n & [_ Hl] & Hc)] [-> | Hq]%elem_of_cons; [by rewrite Hl | by apply (IH n)].
Qed.

Lemma addrmask_free_ok m p l : chain m p l -> NoDup l ->
  exists m', addrmask_free p m = Ret m' /\ frees l [] m m'.
Proof.
  intros Hc Hnd. apply free_chain_ok; [done..|].
  assert (list_to_set l ⊆ dom (blocks m)) as Hs.
  { intros q Hq. apply elem_of_list_to_set in Hq. apply elem_of_dom. by apply (chain_live m l p). }
  apply subseteq_size in Hs. rewrite size_dom, size_list_to_set in Hs by done. lia.
Qed.

(** ** A whole configuration *)

(** Unfolding the long lists of fields helps nobody. *)
#[local] Opaque nonnull.

(** A step of [config_free]: when it may run, the blocks and nodes it looks at, and
    the blocks it frees. *)
Record piece := {
  pi_run : memory -> outcome memory;
  pi_ok : memory -> Prop;
  pi_blocks : list loc; pi_nodes : list loc; pi_freed : list loc
}.

Section Pieces.
Context (config head : loc) (c : config_field -> loc).

(** Every step reads pointers in the block of the configuration. *)
Definition at_config (m : memory) : Prop := live m config (CConfig c head).

Record lawful (p : piece) : Prop := {
  la_frame : forall m m', pi_ok p m -> (forall q, q ∈ pi_blocks p -> blocks m' !! q = blocks m !! q) ->
    (forall q, q ∈ pi_nodes p -> nodes m' !! q = nodes m !! q) -> pi_ok p m';
  la_run : forall m, at_config m -> config ∉ pi_blocks p -> pi_ok p m ->
    exists m', pi_run p m = Ret m' /\ frees (pi_freed p) (pi_nodes p) m m';
  la_freed : forall q, q ∈ pi_freed p -> q ∈ pi_blocks p
}.

Fixpoint run_all (ps : list piece) (m : memory) : outcome memory :=
  match ps with [] => Ret m | p :: ps => m ← pi_run p m; run_all ps m end.

Lemma at_config_frame m m' : at_config m -> blocks m' !! config = blocks m !! config -> at_config m'.
Proof using Type. apply live_frame. Qed.

Lemma run_all_ok ps : forall m,
  at_config m -> Forall lawful ps -> Forall (fun p => pi_ok p m) ps ->
  NoDup (config :: concat (map pi_blocks ps)) -> NoDup (concat (map pi_nodes ps)) ->
  exists m', run_all ps m = Ret m' /\ frees (concat (map pi_freed ps)) (concat (map pi_nodes ps)) m m'.
Proof using Type.
  induction ps as [|p ps IH]; intros m Hat Hlaw Hok HB HN; [exists m; split; [done | apply frees_nil]|].
  cbn [map concat] in *. apply list.Forall_cons in Hlaw as [Hl Hlaw]. apply list.Forall_cons in Hok as [Hp Hok].
  apply list.NoDup_cons in HB as [Hc (_ & HBd & HB)%list.NoDup_app]. apply list.NoDup_app in HN as (_ & HNd & HN).
  apply not_elem_of_app in Hc as [Hcp Hc].
  destruct (la_run _ Hl m Hat Hcp Hp) as (m1 & E1 & F1).
  assert (at_config m1) as Hat1.
  { apply (at_config_frame m); [done|]. apply (fr_kept _ _ _ _ F1). by intros Hin%(la_freed _ Hl). }
  destruct (IH m1 Hat1 Hlaw) as (m2 & E2 & F2); [| |done|].
  - apply list.Forall_forall. intros x Hx. pose proof (proj1 (list.Forall_forall _ _) Hok x Hx) as Hox.
    apply (la_frame x) with m; [by eapply list.Forall_forall in Hlaw | done | |]; intros q Hq.
    + apply (fr_kept _ _ _ _ F1). intros Hin%(la_freed _ Hl). apply (HBd q Hin). by apply (in_concat_map _ x).
    + apply (fr_nodes _ _ _ _ F1). intros Hin. apply (HNd q Hin). by apply (in_concat_map _ x).
  - by apply list.NoDup_cons.
  - exists m2. cbn [run_all]. rewrite E1. split; [done|]. by apply (frees_app _ _ _ _ _ m1).
Qed.

Lemma field_value m f : at_config m -> field config f m = Ret (c f).
Proof using Type. intros Hc. unfold field. by rewrite (load_live as_config _ _ _ _ Hc eq_refl). Qed.

Definition texts_piece (fs : list config_field) : piece := {|
  pi_run := free_fields config fs;
  pi_ok m := Forall (text_at m) (map c fs) /\ NoDup (nonnull (map c fs));
  pi_blocks := nonnull (map c fs); pi_nodes := []; pi_freed := nonnull (map c fs) |}.

Lemma free_fields_all fs : forall m, at_config m -> config ∉ map c fs -> free_fields config fs m = free_all (map c fs) m.
Proof using Type.
  induction fs as [|f fs IH]; intros m Hc Hn; [done|]. cbn [free_fields map free_all] in *. unfold free_field.
  rewrite (load_live as_config _ _ _ _ Hc eq_refl). cbn [mbind outcome_bind].
  apply not_elem_of_cons in Hn as [Hne Hn].
  destruct (mfree (c f) m) as [m1| |] eqn:E; cbn [mbind outcome_bind]; [|done..].
  apply IH; [|done]. apply (at_config_frame m); [done|]. unfold mfree in E. destruct (c f =? NULL); [by injection E as <-|].
  destruct (blocks m !! c f); [|done]. injection E as <-. by apply lookup_delete_ne.
Qed.

Lemma texts_lawful fs : lawful (texts_piece fs).
Proof using Type.
  split; cbn; [| |done].
  - intros m m' (Ht & Hnd) Hb _. split; [|done].
    apply list.Forall_forall. intros p Hp. apply (text_frame m); [by eapply list.Forall_forall in Ht|].
    intros [_ Hq]%elem_of_nonnull. apply Hb. by apply elem_of_nonnull.
  - intros m Hc Hn (Ht & Hnd). rewrite free_fields_all; [by apply free_all_ok | done |].
    intros Hin. apply Hn, elem_of_nonnull. by split; [|apply Hc].
Qed.

(** A list of settings, or NULL. *)
Definition opt_settings (m : memory) (s : loc) (o : option (list setting_tree)) : Prop :=
  match o with Some ts => settings m s ts | None => s = NULL end.

Definition settings_piece (f : config_field) (o : option (list setting_tree)) : piece := {|
  pi_run m := s ← field config f m; free_settings_list s m;
  pi_ok m := opt_settings m (c f) o;
  pi_blocks := match o with Some ts => c f :: concat (map setting_blocks ts) | None => [] end;
  pi_nodes := match o with Some ts => c f :: map st_item ts | None => [] end;
  pi_freed := match o with Some ts => settings_freed (c f) ts | None => [] end |}.

Lemma settings_frame m m' s ts : settings m s ts ->
  (forall q, q ∈ s :: concat (map setting_blocks ts) -> blocks m' !! q = blocks m !! q) ->
  (forall q, q ∈ s :: map st_item ts -> nodes m' !! q = nodes m !! q) -> settings m' s ts.
Proof using Type.
  intros [[e Hs] Hr Hg Hnd] Hb Hn. split; [| by apply (ring_agree (nodes m)) | | done].
  - exists e. apply (live_frame m); [done|]. apply Hb. by left.
  - apply list.Forall_forall. intros t Ht. apply (setting_frame m); [by eapply list.Forall_forall in Hg|].
    intros q Hq. apply Hb, elem_of_cons. right. by apply (in_concat_map _ t).
Qed.

Lemma setting_freed_blocks ts q : q ∈ concat (map setting_freed ts) -> q ∈ concat (map setting_blocks ts).
Proof using Type.
  induction ts as [|t ts IH]; [done|]. cbn [map concat]. rewrite !elem_of_app. intros [Hq | Hq]; [left | right; by apply IH].
  by right.
Qed.

Lemma settings_lawful f o : lawful (settings_piece f o).
Proof using Type.
  split; cbn.
  - intros m m' Ho Hb Hn. destruct o as [ts|]; [|done]. by apply (settings_frame m).
  - intros m Hc _ Ho. rewrite field_value by done. cbn [mbind outcome_bind].
    destruct o as [ts|]; [by apply free_settings_list_ok|]. cbn in Ho. rewrite Ho. exists m. split; [done | apply frees_nil].
  - destruct o as [ts|]; [|done]. unfold settings_freed. intros q [-> | Hq]%elem_of_cons; [by left|]. right. by apply setting_freed_blocks.
Qed.

Definition peers_piece (ts : list peer_tree) : piece := {|
  pi_run m := '(_, head) ← load as_config config m; parser_free_config head m;
  pi_ok m := peer_list m head ts;
  pi_blocks := concat (map peer_blocks ts); pi_nodes := head :: map pt_item ts ++ concat (map peer_nodes ts);
  pi_freed := concat (map peer_blocks ts) |}.

Lemma peers_lawful ts : lawful (peers_piece ts).
Proof using Type.
  split; cbn; [| |done].
  - intros m m' [Hr Hg HB HN Hd] Hb Hn. split; [| |done..].
    + apply (ring_agree (nodes m)); [|done]. intros q Hq. apply Hn. rewrite app_comm_cons. apply elem_of_app. by left.
    + apply list.Forall_forall. intros t Ht. apply (peer_frame m); [by eapply list.Forall_forall in Hg| |]; intros q Hq.
      * apply Hb. by apply (in_concat_map _ t).
      * apply Hn. rewrite app_comm_cons. apply elem_of_app. right. by apply (in_concat_map _ t).
  - intros m Hc _ Hp. rewrite (load_live as_config _ _ _ _ Hc eq_refl). cbn [mbind outcome_bind].
    destruct (parser_free_config_ok m head ts Hp) as (m' & E & _ & F). by exists m'.
Qed.

Definition chain_piece (f : config_field) (l : list loc) : piece := {|
  pi_run m := p ← field config f m; addrmask_free p m;
  pi_ok m := chain m (c f) l /\ NoDup l;
  pi_blocks := l; pi_nodes := []; pi_freed := l |}.

Lemma chain_lawful f l : lawful (chain_piece f l).
Proof using Type.
  split; cbn; [| |done].
  - intros m m' (Ho & Hnd) Hb _. split; [|done]. by apply (chain_frame m).
  - intros m Hc _ (Ho & Hnd). rewrite field_value by done. by apply addrmask_free_ok.
Qed.

End Pieces.

Lemma NoDup_part (L : list (list loc)) l : NoDup (concat L) -> l ∈ L -> NoDup l.
Proof.
  induction L as [|k L IH]; [by intros _ ?%not_elem_of_nil|]. cbn [concat].
  intros (? & _ & ?)%list.NoDup_app [-> | ?]%elem_of_cons; auto.
Qed.

(** What a configuration consists of. *)
Record config_tree := {
  ct_field : config_field -> loc; ct_head : loc; ct_peers : list peer_tree;
  ct_exclude : option (list setting_tree); ct_mergeroutes_raw : option (list setting_tree);
  ct_ignore_raw : option (list setting_tree); ct_whitelist_raw : option (list setting_tree);
  ct_mergeroutes : list loc; ct_ignore : list loc; ct_whitelist : list loc
}.

Section Tree.
Context (T : config_tree).
Notation c := (ct_field T).

Definition opt_blocks (s : loc) (o : option (list setting_tree)) : list loc :=
  match o with Some ts => s :: concat (map setting_blocks ts) | None => [] end.
Definition opt_nodes (s : loc) (o : option (list setting_tree)) : list loc :=
  match o with Some ts => s :: map st_item ts | None => [] end.
Definition opt_freed (s : loc) (o : option (list setting_tree)) : list loc :=
  match o with Some ts => settings_freed s ts | None => [] end.

Definition buffer_fields : list config_field := [F_privkey_s; F_ed25519publickey_s].
Definition other_fields : list config_field := [F_configfile; F_tincd_version].

(** In the order of [config_free], with [opt] for the lists of settings. *)
Definition parts (opt : loc -> option (list setting_tree) -> list loc) : list (list loc) :=
         [nonnull (map c text_fields); nonnull (map c buffer_fields);
          opt (c F_exclude) (ct_exclude T); concat (map peer_blocks (ct_peers T)); nonnull (map c other_fields);
          opt (c F_mergeroutes_supernet_raw) (ct_mergeroutes_raw T); ct_mergeroutes T;
          opt (c F_ignore_subnets_raw) (ct_ignore_raw T); ct_ignore T;
          opt (c F_whitelist_subnets_raw) (ct_whitelist_raw T); ct_whitelist T].
Definition footprint opt : list loc := concat (parts opt).

Definition config_blocks : list loc := footprint opt_blocks.
Definition config_freed : list loc := footprint opt_freed.
(** The entries of the lists of settings. *)
Definition config_leaked : list loc :=
  map st_entry (concat (omap id [ct_exclude T; ct_mergeroutes_raw T; ct_ignore_raw T; ct_whitelist_raw T])).
Definition config_nodes : list loc :=
  concat [opt_nodes (c F_exclude) (ct_exclude T);
          ct_head T :: map pt_item (ct_peers T) ++ concat (map peer_nodes (ct_peers T));
          []; opt_nodes (c F_mergeroutes_supernet_raw) (ct_mergeroutes_raw T); [];
          opt_nodes (c F_ignore_subnets_raw) (ct_ignore_raw T); [];
          opt_nodes (c F_whitelist_subnets_raw) (ct_whitelist_raw T); []].

(** The same, grouped as [config_free] goes through it. *)
Record held (m : memory) (config : loc) : Prop := {
  ow_block : live m config (CConfig c (ct_head T));
  ow_texts : Forall (text_at m) (map c (text_fields ++ buffer_fields ++ other_fields));
  ow_exclude : opt_settings m (c F_exclude) (ct_exclude T);
  ow_mergeroutes_raw : opt_settings m (c F_mergeroutes_supernet_raw) (ct_mergeroutes_raw T);
  ow_ignore_raw : opt_settings m (c F_ignore_subnets_raw) (ct_ignore_raw T);
  ow_whitelist_raw : opt_settings m (c F_whitelist_subnets_raw) (ct_whitelist_raw T);
  ow_peers : peer_list m (ct_head T) (ct_peers T);
  ow_mergeroutes : chain m (c F_mergeroutes_supernet) (ct_mergeroutes T);
  ow_ignore : chain m (c F_ignore_subnets) (ct_ignore T);
  ow_whitelist : chain m (c F_whitelist_subnets) (ct_whitelist T);
  ow_blocks : NoDup (config :: config_blocks);
  ow_nodes : NoDup config_nodes
}.

(** The steps behind the two buffers, with the fields [c'] of the block. *)
Definition late_pieces (config : loc) (c' : config_field -> loc) : list piece :=
  [settings_piece config c' F_exclude (ct_exclude T); peers_piece config (ct_head T) (ct_peers T);
   texts_piece config c' other_fields;
   settings_piece config c' F_mergeroutes_supernet_raw (ct_mergeroutes_raw T);
   chain_piece config c' F_mergeroutes_supernet (ct_mergeroutes T);
   settings_piece config c' F_ignore_subnets_raw (ct_ignore_raw T);
   chain_piece config c' F_ignore_subnets (ct_ignore T);
   settings_piece config c' F_whitelist_subnets_raw (ct_whitelist_raw T);
   chain_piece config c' F_whitelist_subnets (ct_whitelist T)].

Lemma late_lawful config c' : Forall (lawful config (ct_head T) c') (late_pieces config c').
Proof using Type. repeat (apply list.Forall_cons; split); try (apply settings_lawful || apply peers_lawful || apply texts_lawful || apply chain_lawful || constructor). Qed.

Definition late_footprint (opt : loc -> option (list setting_tree) -> list loc) : list loc :=
  concat [opt (c F_exclude) (ct_exclude T); concat (map peer_blocks (ct_peers T)); nonnull (map c other_fields);
          opt (c F_mergeroutes_supernet_raw) (ct_mergeroutes_raw T); ct_mergeroutes T;
          opt (c F_ignore_subnets_raw) (ct_ignore_raw T); ct_ignore T;
          opt (c F_whitelist_subnets_raw) (ct_whitelist_raw T); ct_whitelist T].

Lemma config_parts : config_blocks = concat (parts opt_blocks).
Proof using Type. reflexivity. Qed.

Lemma elem_of_parts opt l :
  l = ct_mergeroutes T \/ l = ct_ignore T \/ l = ct_whitelist T \/ l = nonnull (map c other_fields) -> l ∈ parts opt.
Proof using Type. unfold parts. generalize (nonnull (map c text_fields)) (nonnull (map c buffer_fields)) (nonnull (map c other_fields)).
  intros k1 k2 k3. rewrite !elem_of_cons. tauto. Qed.

Lemma owns_parts m config : held m config ->
  NoDup (ct_mergeroutes T) /\ NoDup (ct_ignore T) /\ NoDup (ct_whitelist T) /\ NoDup (nonnull (map c other_fields)) /\
  Forall (text_at m) (map c other_fields).
Proof using Type.
  intros Ho. pose proof (ow_blocks _ _ Ho) as [_ Hnd]%list.NoDup_cons. rewrite config_parts in Hnd.
  split_and!; [apply (NoDup_part _ _ Hnd), elem_of_parts; do 3 (try first [by left | right]); done ..|].
  pose proof (ow_texts _ _ Ho) as Ht. rewrite !map_app, !Forall_app in Ht. apply Ht.
Qed.

Section Late.
Context (config : loc) (c' : config_field -> loc).
Hypothesis Hc' : forall f, f ∉ buffer_fields -> c' f = c f.

Lemma late_footprints :
  concat (map pi_blocks (late_pieces config c')) = late_footprint opt_blocks /\
  concat (map pi_freed (late_pieces config c')) = late_footprint opt_freed /\
  concat (map pi_nodes (late_pieces config c')) = config_nodes.
Proof using Hc'.
  unfold late_pieces, late_footprint, config_nodes, settings_piece, peers_piece, texts_piece, chain_piece, other_fields.
  cbn [map pi_blocks pi_freed pi_nodes]. rewrite !Hc' by (by apply (bool_decide_unpack _)). done.
Qed.

Lemma late_fields : c' F_exclude = c F_exclude /\ map c' other_fields = map c other_fields /\
  c' F_mergeroutes_supernet_raw = c F_mergeroutes_supernet_raw /\ c' F_mergeroutes_supernet = c F_mergeroutes_supernet /\
  c' F_ignore_subnets_raw = c F_ignore_subnets_raw /\ c' F_ignore_subnets = c F_ignore_subnets /\
  c' F_whitelist_subnets_raw = c F_whitelist_subnets_raw /\ c' F_whitelist_subnets = c F_whitelist_subnets.
Proof using Hc'.
  unfold other_fields. cbn [map]. rewrite !Hc' by (by apply (bool_decide_unpack _)). by split_and!.
Qed.

Lemma owns_ok m : held m config -> Forall (fun p => pi_ok p m) (late_pieces config c').
Proof using Hc'.
  intros Ho. pose proof (owns_parts m config Ho) as (N1 & N2 & N3 & N4 & Ht).
  destruct late_fields as (E1 & E2 & E3 & E4 & E5 & E6 & E7 & E8).
  unfold late_pieces. rewrite !list.Forall_cons, list.Forall_nil.
  refine (conj _ (conj _ (conj _ (conj _ (conj _ (conj _ (conj _ (conj _ (conj _ I)))))))));
    cbn [pi_ok settings_piece peers_piece texts_piece chain_piece].
  - rewrite E1. exact (ow_exclude _ _ Ho).
  - exact (ow_peers _ _ Ho).
  - rewrite E2. by split.
  - rewrite E3. exact (ow_mergeroutes_raw _ _ Ho).
  - rewrite E4. split; [exact (ow_mergeroutes _ _ Ho) | done].
  - rewrite E5. exact (ow_ignore_raw _ _ Ho).
  - rewrite E6. split; [exact (ow_ignore _ _ Ho) | done].
  - rewrite E7. exact (ow_whitelist_raw _ _ Ho).
  - rewrite E8. split; [exact (ow_whitelist _ _ Ho) | done].
Qed.

Lemma late_ok m m' : held m config -> (forall q, q ∈ late_footprint opt_blocks -> blocks m' !! q = blocks m !! q) ->
  (forall q, nodes m' !! q = nodes m !! q) -> Forall (fun p => pi_ok p m') (late_pieces config c').
Proof using Hc'.
  intros Ho Hb Hn. destruct late_footprints as (EB & _). rewrite <- EB in Hb. pose proof (owns_ok m Ho) as Hok.
  apply list.Forall_forall. intros p Hp. pose proof (proj1 (list.Forall_forall _ _) (late_lawful config c') p Hp) as Hl.
  apply (la_frame _ _ _ _ Hl m); [by eapply list.Forall_forall in Hok | |]; intros q Hq; [|done].
  apply Hb. by apply (in_concat_map _ p).
Qed.

End Late.
End Tree.

(** The buffers inside the block: what changes apart from the block itself. *)
Record frees_beside (r : loc) (X : list loc) (m m' : memory) : Prop := {
  fb_gone : forall q, q ∈ X -> blocks m' !! q = None;
  fb_kept : forall q, q ∉ X -> q <> r -> blocks m' !! q = blocks m !! q;
  fb_nodes : forall q, nodes m' !! q = nodes m !! q
}.

Lemma string_free_field_ok config head c f m :
  at_config config head c m -> c f <> config -> text_at m (c f) ->
  exists m' c', string_free_field config f m = Ret m' /\ at_config config head c' m' /\
    (forall g, g <> f -> c' g = c g) /\ frees_beside config (nonnull [c f]) m m'.
Proof.
  intros Hc Hne Ht. unfold string_free_field. rewrite (load_live as_config _ _ _ _ Hc eq_refl). cbn [mbind outcome_bind].
  destruct (Z.eqb_spec (c f) NULL) as [-> | Hn].
  { exists m, c. rewrite nonnull_NULL. split_and!; [done..|]. split; [by intros q ?%not_elem_of_nil | done | done]. }
  destruct (mfree_text m (c f) Ht) as (m1 & E1 & F1). rewrite E1. cbn [mbind outcome_bind].
  eexists _, _. split_and!; [done | | |].
  - split; [apply Hc|]. unfold store. cbn [blocks]. apply lookup_insert_eq.
  - intros g Hg. cbn. by rewrite decide_False.
  - unfold store. split; cbn [blocks nodes]; intros q.
    + intros Hq. rewrite lookup_insert_ne; [by apply (fr_gone _ _ _ _ F1)|]. intros ->. apply elem_of_nonnull in Hq as [Hq _].
      apply list_elem_of_singleton in Hq. congruence.
    + intros Hq Hr. rewrite lookup_insert_ne by done. by apply (fr_kept _ _ _ _ F1).
    + apply (fr_nodes _ _ _ _ F1), not_elem_of_nil.
Qed.

Lemma frees_beside_app r X Y m m1 m2 : frees_beside r X m m1 -> frees_beside r Y m1 m2 -> r ∉ X -> frees_beside r (X ++ Y) m m2.
Proof.
  intros [G1 K1 N1] [G2 K2 N2] Hr. split; intros q.
  - intros [Hq | Hq]%elem_of_app; [|by apply G2]. destruct (decide (q ∈ Y)); [by apply G2|].
    rewrite K2; [by apply G1 | done | by intros ->].
  - intros [? ?]%not_elem_of_app ?. by rewrite K2, K1 by (done || congruence).
  - by rewrite N2, N1.
Qed.

(** Both of them. *)
Lemma free_buffers_ok config head c m :
  at_config config head c m -> config ∉ nonnull (map c buffer_fields) -> Forall (text_at m) (map c buffer_fields) ->
  NoDup (nonnull (map c buffer_fields)) ->
  exists m' c', (m ← string_free_field config F_privkey_s m; string_free_field config F_ed25519publickey_s m) = Ret m' /\
    at_config config head c' m' /\ (forall f, f ∉ buffer_fields -> c' f = c f) /\
    frees_beside config (nonnull (map c buffer_fields)) m m'.
Proof.
  intros Hc Hn Ht Hnd. unfold buffer_fields in *. cbn [map] in *.
  apply list.Forall_cons in Ht as [Ht1 [Ht2 _]%list.Forall_cons]. rewrite nonnull_cons in Hn, Hnd.
  apply not_elem_of_app in Hn as [Hn1 Hn2]. apply list.NoDup_app in Hnd as (_ & Hd & _).
  assert (c F_privkey_s <> config /\ c F_ed25519publickey_s <> config) as [Hne1 Hne2].
  { split; intros E; [apply Hn1 | apply Hn2]; apply elem_of_nonnull; (split; [rewrite <- E; by left | apply Hc]). }
  destruct (string_free_field_ok config head c F_privkey_s m) as (m1 & c1 & E1 & Hc1 & K1 & F1); [done..|].
  destruct (string_free_field_ok config head c1 F_ed25519publickey_s m1) as (m2 & c2 & E2 & Hc2 & K2 & F2); [done | | |].
  - by rewrite (K1 F_ed25519publickey_s) by done.
  - rewrite K1 by done. apply (text_frame m); [done|]. intros Hq. apply (fb_kept _ _ _ _ F1).
    + intros Hin. apply (Hd _ Hin). exact Hq.
    + done.
  - exists m2, c2. rewrite E1. split_and!; [done | done | |].
    + intros f [Hf1 [Hf2 _]%not_elem_of_cons]%not_elem_of_cons. by rewrite K2, K1 by (done || congruence).
    + rewrite nonnull_cons. apply (frees_beside_app _ _ _ _ m1); [done | | done]. rewrite <- (K1 F_ed25519publickey_s) by done. exact F2.
Qed.

Lemma config_free_runs config g T m m1 m2 m3 m4 c' :
  config <> NULL ->
  free_fields config text_fields m = Ret m1 ->
  (m ← string_free_field config F_privkey_s m1; string_free_field config F_ed25519publickey_s m) = Ret m2 ->
  run_all (late_pieces T config c') m2 = Ret m3 -> mfree config m3 = Ret m4 ->
  config_free config g m = Ret (m4, if g =? config then NULL else g).
Proof.
  intros Hne E1 E2 E3 E4. unfold config_free. rewrite (proj2 (Z.eqb_neq _ _) Hne), E1. cbn [mbind outcome_bind].
  destruct (string_free_field config F_privkey_s m1) as [m1'| |]; [|done..]. cbn [mbind outcome_bind] in E2 |- *.
  rewrite E2. cbn [mbind outcome_bind].
  unfold late_pieces, other_fields in E3. cbn [run_all pi_run settings_piece peers_piece texts_piece chain_piece] in E3.
  repeat match type of E3 with
  | (?x ≫= _) ≫= _ = Ret _ => destruct x as [?| |] eqn:?; cbn [mbind outcome_bind] in E3; [|discriminate E3..]
  | ?x ≫= _ = Ret _ => destruct x as [?| |] eqn:?; cbn [mbind outcome_bind] in E3; [|discriminate E3..]
  end.
  injection E3 as ->. repeat match goal with p : (_ * _)%type |- _ => destruct p end.
  repeat (cbn [mbind outcome_bind]; match goal with H : ?x = Ret _ |- ?x ≫= _ = _ => rewrite H end). done.
Qed.

(** What is freed and what is leaked make up the blocks of a configuration. *)
Lemma settings_perm ts : concat (map setting_blocks ts) ≡ₚ concat (map setting_freed ts) ++ map st_entry ts.
Proof.
  induction ts as [|t ts IH]; [done|]. cbn [map concat]. unfold setting_blocks at 1. cbn [app]. rewrite IH. solve_Permutation.
Qed.

Lemma opt_perm s o : opt_blocks s o ≡ₚ opt_freed s o ++ map st_entry (default [] o).
Proof. destruct o as [ts|]; [|done]. cbn. unfold settings_freed. cbn [app]. by rewrite settings_perm. Qed.

Lemma opt_parts s o q : q ∈ opt_blocks s o <-> q ∈ opt_freed s o \/ q ∈ map st_entry (default [] o).
Proof. by rewrite opt_perm, elem_of_app. Qed.

Lemma concat_perm (ks : list (list loc)) fs ls :
  Forall2 (fun k fl => k ≡ₚ fst fl ++ snd fl) ks (zip fs ls) -> length fs = length ks -> length ls = length ks ->
  concat ks ≡ₚ concat fs ++ concat ls.
Proof.
  revert fs ls; induction ks as [|k ks IH]; intros [|f fs] [|l ls] HF Hf Hl; try done. cbn [concat].
  apply list.Forall2_cons in HF as [Hk HF]. cbn [fst snd] in Hk. injection Hf as Hf. injection Hl as Hl. rewrite Hk, (IH fs ls HF Hf Hl).
  solve_Permutation.
Qed.

Lemma leaked_parts T : config_leaked T =
  concat [[]; []; map st_entry (default [] (ct_exclude T)); []; []; map st_entry (default [] (ct_mergeroutes_raw T)); [];
          map st_entry (default [] (ct_ignore_raw T)); []; map st_entry (default [] (ct_whitelist_raw T)); []].
Proof.
  unfold config_leaked. destruct (ct_exclude T), (ct_mergeroutes_raw T), (ct_ignore_raw T), (ct_whitelist_raw T);
    cbn [omap list_omap id concat app default]; rewrite ?app_nil_r, ?map_app; done.
Qed.

Lemma config_blocks_perm T : config_blocks T ≡ₚ config_freed T ++ config_leaked T.
Proof.
  rewrite leaked_parts. apply concat_perm; [|done..]. unfold parts. cbn [zip zip_with].
  repeat apply List.Forall2_cons; try apply List.Forall2_nil; cbn [fst snd]; rewrite ?app_nil_r; try done; apply opt_perm.
Qed.

Definition early_footprint (T : config_tree) : list loc :=
  nonnull (map (ct_field T) text_fields) ++ nonnull (map (ct_field T) buffer_fields).

Lemma blocks_split T : config_blocks T = early_footprint T ++ late_footprint T opt_blocks.
Proof. unfold early_footprint. rewrite <- app_assoc. reflexivity. Qed.

Lemma freed_split T : config_freed T = early_footprint T ++ late_footprint T opt_freed.
Proof. unfold early_footprint. rewrite <- app_assoc. reflexivity. Qed.

Lemma head_in_nodes T : ct_head T ∈ config_nodes T.
Proof. unfold config_nodes. cbn [concat]. rewrite !elem_of_app, elem_of_cons. tauto. Qed.

Lemma late_sub T q : q ∈ late_footprint T opt_freed -> q ∈ late_footprint T opt_blocks.
Proof.
  unfold late_footprint. cbn [concat]. rewrite !elem_of_app, !opt_parts. tauto.
Qed.

Lemma owns_split T m config : held T m config ->
  config ∉ early_footprint T /\ config ∉ late_footprint T opt_blocks /\ NoDup (early_footprint T) /\
  NoDup (late_footprint T opt_blocks) /\ (forall q, q ∈ early_footprint T -> q ∉ late_footprint T opt_blocks) /\
  Forall (text_at m) (map (ct_field T) text_fields) /\ Forall (text_at m) (map (ct_field T) buffer_fields).
Proof.
  intros Ho. pose proof (ow_blocks _ _ _ Ho) as [Hnot Hnd]%list.NoDup_cons.
  rewrite blocks_split in Hnot, Hnd.
  pose proof (ow_texts _ _ _ Ho) as Ht. rewrite !map_app, !Forall_app in Ht. destruct Ht as (Ht1 & Ht2 & _).
  apply not_elem_of_app in Hnot as [? ?]. apply list.NoDup_app in Hnd as (? & ? & ?). by split_and!.
Qed.

(** The first half: the texts and the two buffers. *)
Lemma config_free_early T m config : held T m config ->
  exists m1 m2 c', free_fields config text_fields m = Ret m1 /\
    (m ← string_free_field config F_privkey_s m1; string_free_field config F_ed25519publickey_s m) = Ret m2 /\
    at_config config (ct_head T) c' m2 /\ (forall f, f ∉ buffer_fields -> c' f = ct_field T f) /\
    frees_beside config (early_footprint T) m m2.
Proof.
  intros Ho. destruct (owns_split _ _ _ Ho) as (Hn & _ & Hnd & _ & _ & Ht1 & Ht2). pose proof (ow_block _ _ _ Ho) as Hc.
  unfold early_footprint in *. apply not_elem_of_app in Hn as [Hn1 Hn2]. apply list.NoDup_app in Hnd as (HN1 & HD & HN2).
  destruct (la_run _ _ _ _ (texts_lawful config (ct_head T) (ct_field T) text_fields) m Hc Hn1 (conj Ht1 HN1)) as (m1 & E1 & F1).
  cbn [pi_run pi_freed pi_nodes texts_piece] in E1, F1.
  destruct (free_buffers_ok config (ct_head T) (ct_field T) m1) as (m2 & c' & E2 & Hc2 & Hc' & F2); [| exact Hn2 | | exact HN2 |].
  - apply (live_frame m); [exact Hc|]. by apply (fr_kept _ _ _ _ F1).
  - apply list.Forall_forall. intros p Hp. apply (text_frame m); [by eapply list.Forall_forall in Ht2|].
    intros [_ Hpn]%elem_of_nonnull. apply (fr_kept _ _ _ _ F1). intros Hin. apply (HD p Hin). by apply elem_of_nonnull.
  - exists m1, m2, c'. split_and!; [exact E1 | exact E2 | exact Hc2 | exact Hc' |].
    apply (frees_beside_app _ _ _ _ m1); [|exact F2 | exact Hn1].
    split; intros q; [apply F1 | intros Hq _; by apply (fr_kept _ _ _ _ F1) | apply (fr_nodes _ _ _ _ F1), not_elem_of_nil].
Qed.

(** The second half: the lists and the chains. *)
Lemma config_free_late T m m2 config c' : held T m config ->
  at_config config (ct_head T) c' m2 -> (forall f, f ∉ buffer_fields -> c' f = ct_field T f) ->
  frees_beside config (early_footprint T) m m2 ->
  exists m3, run_all (late_pieces T config c') m2 = Ret m3 /\ frees (late_footprint T opt_freed) (config_nodes T) m2 m3.
Proof.
  intros Ho Hc2 Hc' F2. destruct (owns_split _ _ _ Ho) as (_ & Hn & _ & Hnd & Hd & _ & _).
  destruct (late_footprints T config c' Hc') as (EB & EX & EN). rewrite <- EX, <- EN.
  apply (run_all_ok config (ct_head T) c'); [exact Hc2 | apply late_lawful | | |].
  - apply (late_ok T config c' Hc' m); [exact Ho | | apply (fb_nodes _ _ _ _ F2)]. intros q Hq. apply (fb_kept _ _ _ _ F2).
    + intros Hin. by apply (Hd q Hin).
    + by intros ->.
  - rewrite EB. apply list.NoDup_cons. by split.
  - rewrite EN. apply (ow_nodes _ _ _ Ho).
Qed.

Lemma config_free_frees T m config g : held T m config ->
  exists m', config_free config g m = Ret (m', if g =? config then NULL else g) /\
    frees (config :: config_freed T) (config_nodes T) m m'.
Proof.
  intros Ho. destruct (config_free_early T m config Ho) as (m1 & m2 & c' & E1 & E2 & Hc2 & Hc' & F2).
  destruct (config_free_late T m m2 config c' Ho Hc2 Hc' F2) as (m3 & E3 & F3).
  destruct (owns_split _ _ _ Ho) as (Hn1 & Hn2 & _).
  destruct (mfree_live m3 config (CConfig c' (ct_head T))) as (m4 & E4 & F4).
  { apply (live_frame m2); [exact Hc2|]. apply (fr_kept _ _ _ _ F3). intros Hin. by apply Hn2, late_sub. }
  exists m4. split; [exact (config_free_runs _ _ _ _ _ _ _ _ _ (proj1 Hc2) E1 E2 E3 E4)|].
  rewrite freed_split.
  split; intros q.
  - intros Hq. destruct (decide (q = config)) as [-> | Hne]; [apply (fr_gone _ _ _ _ F4); by left|].
    rewrite (fr_kept _ _ _ _ F4) by (by intros ?%list_elem_of_singleton). apply elem_of_cons in Hq as [Hq | Hq]; [done|].
    destruct (decide (q ∈ late_footprint T opt_freed)) as [Hl | Hl]; [by apply (fr_gone _ _ _ _ F3)|]. rewrite (fr_kept _ _ _ _ F3) by done.
    apply elem_of_app in Hq as [Hq | Hq]; [by apply (fb_gone _ _ _ _ F2) | by destruct Hl].
  - intros [Hne [He Hl]%not_elem_of_app]%not_elem_of_cons.
    rewrite (fr_kept _ _ _ _ F4), (fr_kept _ _ _ _ F3) by (done || by intros ?%list_elem_of_singleton). by apply (fb_kept _ _ _ _ F2).
  - intros Hq. rewrite (fr_nodes _ _ _ _ F4), (fr_nodes _ _ _ _ F3), (fb_nodes _ _ _ _ F2); [done | done |].
    cbn [nodes_in]. intros ->%list_elem_of_singleton. apply Hq, head_in_nodes.
Qed.

Lemma opt_entries m s o e : opt_settings m s o -> e ∈ map st_entry (default [] o) -> is_Some (blocks m !! e).
Proof.
  destruct o as [ts|]; cbn; [|by intros _ ?%not_elem_of_nil]. intros Hs (t & -> & Ht)%list_elem_of_fmap.
  pose proof (proj1 (list.Forall_forall _ _) (sl_good _ _ _ Hs) t Ht) as (_ & [_ He] & _). by rewrite He.
Qed.

Lemma leaked_live T m config e : held T m config -> e ∈ config_leaked T -> is_Some (blocks m !! e).
Proof.
  intros Ho. rewrite leaked_parts. cbn [concat]. rewrite !elem_of_app, !elem_of_nil.
  pose proof (opt_entries m _ _ e (ow_exclude _ _ _ Ho)). pose proof (opt_entries m _ _ e (ow_mergeroutes_raw _ _ _ Ho)).
  pose proof (opt_entries m _ _ e (ow_ignore_raw _ _ _ Ho)). pose proof (opt_entries m _ _ e (ow_whitelist_raw _ _ _ Ho)).
  tauto.
Qed.

Lemma config_free_held T m config g : held T m config ->
  exists m', config_free config g m = Ret (m', if g =? config then NULL else g) /\
    (forall q, q ∉ config :: config_blocks T -> blocks m' !! q = blocks m !! q) /\
    (forall q, q ∉ config_nodes T -> nodes m' !! q = nodes m !! q) /\
    (forall q, q ∈ config :: config_blocks T -> is_Some (blocks m' !! q) <-> q ∈ config_leaked T).
Proof.
  intros Ho. destruct (config_free_frees T m config g Ho) as (m' & E & [G K N]). exists m'. split; [exact E|].
  assert (forall q, q ∈ config_blocks T <-> q ∈ config_freed T \/ q ∈ config_leaked T) as Hp
    by (intros q; by rewrite config_blocks_perm, elem_of_app).
  split_and!; [| exact N |].
  - intros q [Hc Hq]%not_elem_of_cons. apply K. rewrite Hp in Hq. apply not_elem_of_cons. tauto.
  - intros q Hq. split.
    + intros Hs. destruct (decide (q ∈ config :: config_freed T)) as [Hf | Hf]; [rewrite (G q Hf) in Hs; by destruct Hs|].
      apply not_elem_of_cons in Hf as [Hc Hf]. apply elem_of_cons in Hq as [Hq | Hq]; [done|]. apply Hp in Hq. tauto.
    + intros Hl. rewrite K; [by apply (leaked_live T m config)|]. pose proof (ow_blocks _ _ _ Ho) as Hnd.
      rewrite config_blocks_perm in Hnd. apply list.NoDup_cons in Hnd as [Hn (_ & Hd & _)%list.NoDup_app].
      apply not_elem_of_cons. split; [intros ->; apply Hn, elem_of_app; by right | intros Hf; by apply (Hd q)].
Qed.

(** ** What a struct config owns, by its declaration *)

Inductive kept_as := Text | Buffer | Settings | Chain.

#[export] Instance kept_as_dec : EqDecision kept_as.
Proof. solve_decision. Defined.

(** The pointers of struct config in chaosvpn.h, in their order, with their types:
    char*, the buffer of a struct string, struct settings_list*, struct addr_info*. *)
Definition declared : list (config_field * kept_as) :=
  [(F_pidfile, Text); (F_peerid, Text); (F_vpn_ip, Text); (F_vpn_ip6, Text); (F_networkname, Text); (F_my_ip, Text);
   (F_my_addressfamily, Text); (F_tincd_bin, Text); (F_tincd_version, Text); (F_tincctl_bin, Text);
   (F_routemetric, Text); (F_routeadd, Text); (F_routeadd6, Text); (F_routedel, Text); (F_routedel6, Text);
   (F_postup, Text); (F_ifconfig, Text); (F_ifconfig6, Text); (F_master_url, Text); (F_base_path, Text);
   (F_tincd_pidfile, Text); (F_masterdata_signkey, Text); (F_tincd_graphdumpfile, Text); (F_tmpconffile, Text);
   (F_tincd_device, Text); (F_tincd_interface, Text); (F_tincd_user, Text); (F_tincd_raw_config, Text);
   (F_privkey_s, Buffer); (F_ed25519publickey_s, Buffer); (F_exclude, Settings);
   (F_mergeroutes_supernet_raw, Settings); (F_mergeroutes_supernet, Chain);
   (F_ignore_subnets_raw, Settings); (F_ignore_subnets, Chain);
   (F_whitelist_subnets_raw, Settings); (F_whitelist_subnets, Chain);
   (F_password, Text); (F_vpn_netmask, Text); (F_configfile, Text)].

(** Every pointer is there, once. *)
Lemma declared_all : (forall f, exists k, (f, k) ∈ declared) /\ NoDup (map fst declared).
Proof.
  split; [|by apply (bool_decide_unpack _); vm_compute].
  assert (forall f, f ∈ map fst declared) as Hall by (intros []; by apply (bool_decide_unpack _); vm_compute).
  intros f. pose proof (Hall f) as ([g k] & -> & Hin)%list_elem_of_fmap. by exists k.
Qed.

Section Owns.
Context (T : config_tree).
Notation c := (ct_field T).

Definition settings_of (f : config_field) : option (list setting_tree) :=
  match f with
  | F_exclude => ct_exclude T | F_mergeroutes_supernet_raw => ct_mergeroutes_raw T
  | F_ignore_subnets_raw => ct_ignore_raw T | F_whitelist_subnets_raw => ct_whitelist_raw T
  | _ => None
  end.

Definition chain_of (f : config_field) : list loc :=
  match f with
  | F_mergeroutes_supernet => ct_mergeroutes T | F_ignore_subnets => ct_ignore T | F_whitelist_subnets => ct_whitelist T
  | _ => []
  end.

(** What is behind a pointer: nothing or a text, a list of settings, a chain. *)
Definition field_good (m : memory) (fk : config_field * kept_as) : Prop :=
  match snd fk with
  | Text | Buffer => text_at m (c (fst fk))
  | Settings => opt_settings m (c (fst fk)) (settings_of (fst fk))
  | Chain => chain m (c (fst fk)) (chain_of (fst fk))
  end.

Definition field_blocks (fk : config_field * kept_as) : list loc :=
  match snd fk with
  | Text | Buffer => nonnull [c (fst fk)]
  | Settings => opt_blocks (c (fst fk)) (settings_of (fst fk))
  | Chain => chain_of (fst fk)
  end.

(** Every block a configuration owns apart from its own. *)
Definition owned_blocks : list loc := concat (map field_blocks declared) ++ concat (map peer_blocks (ct_peers T)).

(** The configuration at [config] owns these structures, each once. *)
Record owns (m : memory) (config : loc) : Prop := {
  os_block : live m config (CConfig c (ct_head T));
  os_fields : Forall (field_good m) declared;
  os_peers : peer_list m (ct_head T) (ct_peers T);
  os_blocks : NoDup (config :: owned_blocks);
  os_nodes : NoDup (config_nodes T)
}.

(** *** The order of config_free goes through all of it *)

Definition as_text (f : config_field) : config_field * kept_as := (f, Text).

(** The pointers in the order in which config_free frees what is behind them. *)
Definition freeing : list (config_field * kept_as) :=
  map as_text text_fields ++ [(F_privkey_s, Buffer); (F_ed25519publickey_s, Buffer); (F_exclude, Settings)] ++
  map as_text other_fields ++
  [(F_mergeroutes_supernet_raw, Settings); (F_mergeroutes_supernet, Chain); (F_ignore_subnets_raw, Settings);
   (F_ignore_subnets, Chain); (F_whitelist_subnets_raw, Settings); (F_whitelist_subnets, Chain)].

Lemma freeing_declared : freeing ≡ₚ declared.
Proof using Type.
  apply NoDup_Permutation; [by apply (bool_decide_unpack _); vm_compute..|].
  assert (Forall (fun x => x ∈ declared) freeing /\ Forall (fun x => x ∈ freeing) declared) as [H1 H2]
    by (split; by apply (bool_decide_unpack _); vm_compute).
  rewrite list.Forall_forall in H1, H2. intros x. split; [apply H1 | apply H2].
Qed.

Lemma concat_map_perm {A} (f : A -> list loc) (l k : list A) : l ≡ₚ k -> concat (map f l) ≡ₚ concat (map f k).
Proof using Type.
  induction 1 as [|x l k _ IH|x y l|l k j _ IH1 _ IH2]; cbn [map concat]; [done | by rewrite IH | solve_Permutation | by etrans].
Qed.

Lemma text_blocks fs : concat (map field_blocks (map as_text fs)) = nonnull (map c fs).
Proof using Type.
  induction fs as [|f fs IH]; [by rewrite <- (app_nil_l (nonnull _))|]. cbn [map concat]. rewrite IH.
  rewrite (nonnull_cons (c f)). done.
Qed.

Lemma owned_perm : owned_blocks ≡ₚ config_blocks T.
Proof using Type.
  unfold owned_blocks. rewrite <- (concat_map_perm field_blocks _ _ freeing_declared).
  unfold freeing. rewrite !map_app, !concat_app, !text_blocks. unfold config_blocks, footprint, parts, buffer_fields.
  cbn [map concat field_blocks fst snd settings_of chain_of].
  rewrite (nonnull_cons (c F_privkey_s) [c F_ed25519publickey_s]). rewrite ?app_nil_r.
  generalize (nonnull (map c text_fields)) (nonnull (map c other_fields)) (nonnull [c F_privkey_s])
    (nonnull [c F_ed25519publickey_s]) (concat (map peer_blocks (ct_peers T))).
  intros k1 k2 k3 k4 k5. rewrite <- !app_assoc. solve_Permutation.
Qed.

Lemma declared_good m f k : Forall (field_good m) declared -> (f, k) ∈ declared -> field_good m (f, k).
Proof using Type. rewrite list.Forall_forall. auto. Qed.

Lemma owns_held m config : owns m config -> held T m config.
Proof using Type.
  intros [Hb Hf Hp HB HN].
  assert (forall f k, (f, k) ∈ declared -> field_good m (f, k)) as Hg by (intros; by apply declared_good).
  split; [done | | | | | | done | | | | by rewrite <- owned_perm | done].
  2: exact (Hg F_exclude Settings ltac:(by apply (bool_decide_unpack _); vm_compute)).
  2: exact (Hg F_mergeroutes_supernet_raw Settings ltac:(by apply (bool_decide_unpack _); vm_compute)).
  2: exact (Hg F_ignore_subnets_raw Settings ltac:(by apply (bool_decide_unpack _); vm_compute)).
  2: exact (Hg F_whitelist_subnets_raw Settings ltac:(by apply (bool_decide_unpack _); vm_compute)).
  2: exact (Hg F_mergeroutes_supernet Chain ltac:(by apply (bool_decide_unpack _); vm_compute)).
  2: exact (Hg F_ignore_subnets Chain ltac:(by apply (bool_decide_unpack _); vm_compute)).
  2: exact (Hg F_whitelist_subnets Chain ltac:(by apply (bool_decide_unpack _); vm_compute)).
  apply list.Forall_forall. intros p (f & -> & Hin)%list_elem_of_fmap.
  assert (Forall (fun f => (f, Text) ∈ declared \/ (f, Buffer) ∈ declared) (text_fields ++ buffer_fields ++ other_fields)) as Hall
    by (by apply (bool_decide_unpack _); vm_compute).
  rewrite list.Forall_forall in Hall. by destruct (Hall f Hin) as [Hd | Hd]; apply Hg in Hd.
Qed.

End Owns.

(** C13. config_free of a configuration that owns what its declaration and those of
    its peers in chaosvpn.h let it own, each structure once, ends without a double
    free or a use after free.  Afterwards exactly the blocks of the configuration are
    gone, except the entries of its lists of settings, which are all leaked; nothing
    else in memory has changed, apart from nodes of its own lists; and the global
    pointer is reset when it pointed here. *)
Theorem config_free_exact T m config g : owns T m config ->
  exists m', config_free config g m = Ret (m', if g =? config then NULL else g) /\
    (forall q, q ∉ config :: owned_blocks T -> blocks m' !! q = blocks m !! q) /\
    (forall q, q ∉ config_nodes T -> nodes m' !! q = nodes m !! q) /\
    (forall q, q ∈ config :: owned_blocks T -> is_Some (blocks m' !! q) <-> q ∈ config_leaked T).
Proof.
  intros Ho%owns_held. destruct (config_free_held T m config g Ho) as (m' & E & K & N & L). exists m'.
  split; [exact E|]. split_and!; [| exact N |]; intros q; rewrite (owned_perm T); auto.
Qed.

(** A configuration with two texts, a key, a setting, two address ranges and a peer
    with one network. *)
Definition sample_peer : peer_cell := {|
  pc_name := 32; pc_gatewayhost := NULL; pc_owner := NULL; pc_key := NULL; pc_ed25519publickey := NULL;
  pc_cipher := NULL; pc_compression := NULL; pc_digest := NULL;
  pc_network := 33; pc_network6 := 34; pc_route_network := 35; pc_route_network6 := 36 |}.

Definition sample_field (f : config_field) : loc :=
  match f with
  | F_pidfile => 1 | F_peerid => 2 | F_privkey_s => 3 | F_exclude => 10 | F_mergeroutes_supernet => 20 | _ => NULL
  end.

Definition sample_memory : memory := {|
  nodes := list_to_map [(10, mknode 11 11); (11, mknode 10 10); (101, mknode 30 30); (30, mknode 101 101);
                        (33, mknode 37 37); (37, mknode 33 33); (34, mknode 34 34); (35, mknode 35 35); (36, mknode 36 36)];
  blocks := list_to_map [(100, CConfig sample_field 101); (1, CText); (2, CText); (3, CText);
                         (10, CSettingsList NULL); (11, CSettingsList 12); (12, CSettingsEntry true 13); (13, CText);
                         (20, CAddrInfo 21); (21, CAddrInfo NULL);
                         (30, CPeerList 31); (31, CPeerConfig sample_peer); (32, CText);
                         (37, CStringList 38); (38, CText); (50, CText)] |}.

Definition sample_tree : config_tree := {|
  ct_field := sample_field; ct_head := 101;
  ct_peers := [{| pt_item := 30; pt_peer := 31; pt_cell := sample_peer; pt_network := [(37, 38)];
                  pt_network6 := []; pt_route_network := []; pt_route_network6 := [] |}];
  ct_exclude := Some [{| st_item := 11; st_entry := 12; st_string := true; st_text := 13 |}];
  ct_mergeroutes_raw := None; ct_ignore_raw := None; ct_whitelist_raw := None;
  ct_mergeroutes := [20; 21]; ct_ignore := []; ct_whitelist := [] |}.

Ltac live_ := split; [done | by vm_compute].
Ltac texts := repeat first [apply List.Forall_nil | apply List.Forall_cons; [first [by left | right; split; [done | by vm_compute]] |]].
Ltac ring_ := split; [by apply (bool_decide_unpack _); vm_compute | by vm_compute].

Lemma sample_owns : owns sample_tree sample_memory 100.
Proof.
  split.
  - split; [done | by vm_compute].
  - assert (field_good sample_tree sample_memory (F_exclude, Settings)) as He.
    { split; [by exists NULL | ring_ | | by apply (bool_decide_unpack _); vm_compute].
      apply list.Forall_singleton. split_and!; [live_ | live_ |].
      intros _. right. split; [done | by vm_compute]. }
    assert (field_good sample_tree sample_memory (F_mergeroutes_supernet, Chain)) as Hm.
    { split; [done|]. exists 21. split; [split; [done | by vm_compute]|]. split; [done|]. exists NULL.
      by split; [split; [done | by vm_compute]|]. }
    unfold declared.
    repeat first [apply List.Forall_nil | apply List.Forall_cons;
      [first [exact He | exact Hm | by left | reflexivity | right; split; [done | by vm_compute]] |]].
  - split; [ring_ | | by apply (bool_decide_unpack _); vm_compute | by apply (bool_decide_unpack _); vm_compute |].
    + apply list.Forall_singleton. split_and!; [live_ | live_ | texts |].
      repeat apply List.Forall_cons; try apply List.Forall_nil; (split; [ring_|]); try apply List.Forall_nil.
      apply List.Forall_cons; [|apply List.Forall_nil]. split; [live_ | right; live_].
    + intros q Hq Hin. cbn in Hq, Hin. set_solver.
  - by apply (bool_decide_unpack _); vm_compute.
  - by apply (bool_decide_unpack _); vm_compute.
Qed.

Example config_free_exact_witness : exists m', config_free 100 100 sample_memory = Ret (m', NULL) /\
  blocks m' !! 100 = None /\ blocks m' !! 50 = Some CText /\ is_Some (blocks m' !! 12).
Proof.
  destruct (config_free_exact sample_tree sample_memory 100 100 sample_owns) as (m' & E & K & _ & L).
  exists m'. split; [exact E|]. split_and!.
  - destruct (blocks m' !! 100) as [x|] eqn:Eb; [|reflexivity]. exfalso.
    assert (100 ∈ config_leaked sample_tree) as Hin by (apply L; [by left | by rewrite Eb]).
    vm_compute in Hin. by apply list_elem_of_singleton in Hin.
  - rewrite K; [by vm_compute | by apply (bool_decide_unpack _); vm_compute].
  - apply L; [by apply (bool_decide_unpack _); vm_compute | by vm_compute; left].
Defined.

(** ** Processes *)

Lemma free_until_null_ok l r : forall m, Forall (fun p => live m p CText) l -> NoDup l ->
  exists m', free_until_null (l ++ NULL :: r) m = Ret m' /\ frees l [] m m'.
Proof.
  induction l as [|p l IH]; intros m Hl Hnd; [exists m; split; [done | apply frees_nil]|].
  apply list.Forall_cons in Hl as [Hp Hl]. apply list.NoDup_cons in Hnd as [Hn Hnd]. cbn [app free_until_null].
  rewrite (proj2 (Z.eqb_neq p NULL)) by apply Hp. destruct (mfree_live m p CText Hp) as (m1 & E1 & F1). rewrite E1. cbn [mbind outcome_bind].
  destruct (IH m1) as (m2 & E2 & F2); [|done|].
  - apply list.Forall_forall. intros q Hq. apply (live_frame m); [by eapply list.Forall_forall in Hl|].
    apply (fr_kept _ _ _ _ F1). by intros ->%list_elem_of_singleton.
  - exists m2. split; [done|]. by apply (frees_app [p] l [] [] _ m1).
Qed.

(** What daemon_init or daemon_addparam left is given back, once; and when the
    stream is the one daemon_start opened on the first descriptor, that descriptor is
    closed twice. *)
Lemma daemon_free_ok di m args r :
  live m (dc_path di) CText -> live m (dc_arguments di) (CPointers (args ++ NULL :: r)) ->
  Forall (fun p => live m p CText) args -> NoDup (dc_path di :: dc_arguments di :: args) ->
  exists m' closed di', daemon_free di m = Ret (m', closed, di') /\
    frees (dc_path di :: dc_arguments di :: args) [] m m' /\ dc_pid di' = -1 /\ dc_arguments di' = NULL /\
    (forall fd, 0 <= fd -> dc_stderr_fd di = (fd, -1) -> dc_stderr di = Some fd -> closed = [fd; fd]).
Proof.
  intros Hp Ha Hargs [Hn1 [Hn2 Hnd]%list.NoDup_cons]%list.NoDup_cons. unfold daemon_free.
  destruct (mfree_live _ _ _ Hp) as (m1 & E1 & F1). rewrite E1. cbn [mbind outcome_bind].
  assert (forall q, q <> dc_path di -> blocks m1 !! q = blocks m !! q) as K1
    by (intros q Hq; apply (fr_kept _ _ _ _ F1); by intros ?%list_elem_of_singleton).
  apply not_elem_of_cons in Hn1 as [Hne Hn1].
  rewrite (load_live as_pointers m1 _ _ _ (live_frame _ _ _ _ Ha (K1 _ (not_eq_sym Hne))) eq_refl). cbn [mbind outcome_bind].
  destruct (free_until_null_ok args r m1) as (m2 & E2 & F2); [|done|].
  { apply list.Forall_forall. intros q Hq. apply (live_frame m); [by eapply list.Forall_forall in Hargs|]. apply K1. by intros ->. }
  rewrite E2. cbn [mbind outcome_bind].
  destruct (mfree_live m2 (dc_arguments di) (CPointers (args ++ NULL :: r))) as (m3 & E3 & F3).
  { apply (live_frame m); [done|]. rewrite (fr_kept _ _ _ _ F2) by done. by apply K1. }
  rewrite E3. cbn [mbind outcome_bind]. destruct (dc_stderr_fd di) as [fd0 fd1]. eexists _, _, _. split_and!; [done | | done | done |].
  - eapply frees_weaken; [| | exact (frees_app _ _ _ _ _ _ _ F1 (frees_app _ _ _ _ _ _ _ F2 F3))]; [|done].
    intros q. rewrite !elem_of_app, !elem_of_cons, elem_of_nil. tauto.
  - intros fd Hfd [= -> ->] ->. by replace (fd =? -1) with false by lia.
Qed.
