(* ===== verification/CLib.v ===== *)
(** * The C library functions the program calls on characters and strings

    [<ctype.h>] in the "C" locale, [<string.h>] on NUL-terminated strings and
    the number conversions of [<stdlib.h>], as their standard describes them.
    A NUL-terminated string is a [text] (Prelude): the terminator is the end of
    the list.  Nothing here is code of the repository; the files that model it
    are written against these functions. *)

From S2P Require Import Prelude.

(** ** Character classes *)

Definition isspace (c : char) : bool := (c =? 32) || ((9 <=? c) && (c <=? 13)).
Definition isdigit (c : char) : bool := (48 <=? c) && (c <=? 57).
Definition isupper (c : char) : bool := (65 <=? c) && (c <=? 90).
Definition islower (c : char) : bool := (97 <=? c) && (c <=? 122).
Definition isalnum (c : char) : bool := isdigit c || isupper c || islower c.
Definition isascii (c : char) : bool := (0 <=? c) && (c <=? 127).
Definition tolower (c : char) : char := if isupper c then c + 32 else c.
Definition toupper (c : char) : char := if islower c then c - 32 else c.

(** ** Strings *)

Definition strlen (s : text) : Z := zlen s.

(** The sign of [strcmp] and [strcasecmp]: the first difference, as unsigned
    characters after [f]. *)
Fixpoint cmp_with (f : char -> char) (a b : text) : Z :=
  match a, b with
  | [], [] => 0
  | [], _ :: _ => -1
  | _ :: _, [] => 1
  | x :: a', y :: b' =>
      if f x =? f y then cmp_with f a' b' else if f x <? f y then -1 else 1
  end.
Definition strcmp : text -> text -> Z := cmp_with (fun c => c).
Definition strcasecmp : text -> text -> Z := cmp_with tolower.

Fixpoint ncmp_with (f : char -> char) (a b : text) (n : nat) {struct n} : Z :=
  match n with
  | O => 0%Z
  | S n' =>
      match a, b with
      | [], [] => 0
      | [], _ :: _ => -1
      | _ :: _, [] => 1
      | x :: a', y :: b' =>
          if f x =? f y then ncmp_with f a' b' n' else if f x <? f y then -1 else 1
      end
  end.
Definition strncmp (a b : text) (n : Z) : Z := ncmp_with (fun c => c) a b (Z.to_nat n).
Definition strncasecmp (a b : text) (n : Z) : Z := ncmp_with tolower a b (Z.to_nat n).

(** [strchr (s, c)]: the text before the first [c] and the text from it on. *)
Fixpoint strchr (s : text) (c : char) : option (text * text) :=
  match s with
  | [] => None
  | x :: s' =>
      if x =? c then Some ([], s)
      else match strchr s' c with
           | Some (before, from) => Some (x :: before, from)
           | None => None
           end
  end.

(** [strrchr (s, c)]: the same for the last [c]. *)
Fixpoint strrchr (s : text) (c : char) : option (text * text) :=
  match s with
  | [] => None
  | x :: s' =>
      match strrchr s' c with
      | Some (before, from) => Some (x :: before, from)
      | None => if x =? c then Some ([], s) else None
      end
  end.

Fixpoint skip_while (p : char -> bool) (s : text) : text :=
  match s with
  | [] => []
  | x :: s' => if p x then skip_while p s' else s
  end.

Fixpoint take_until (p : char -> bool) (s : text) : text :=
  match s with
  | [] => []
  | x :: s' => if p x then [] else x :: take_until p s'
  end.

(** [strtok_r] with a one-character delimiter, on the text its save pointer is
    at: the token and the text after it. *)
Definition strtok_r (s : text) (c : char) : option (text * text) :=
  let s := skip_while (fun x => x =? c) s in
  match s with
  | [] => None
  | _ => match strchr s c with
         | Some (token, from) => Some (token, drop 1 from)
         | None => Some (s, [])
         end
  end.

(** ** Number conversions *)

Definition long_max : Z := 2 ^ 63 - 1.
Definition long_min : Z := - 2 ^ 63.
Definition ulong_max : Z := 2 ^ 64 - 1.

Definition digit_val (c : char) : Z :=
  if isdigit c then c - 48
  else if islower c then c - 87
  else if isupper c then c - 55
  else 36.

Fixpoint scan_digits (base acc : Z) (s : text) : Z * text :=
  match s with
  | [] => (acc, [])
  | c :: s' =>
      if digit_val c <? base then scan_digits base (acc * base + digit_val c) s'
      else (acc, s)
  end.

(** Sign of the subject sequence and the text after it. *)
Definition scan_sign (s : text) : bool * text :=
  match s with
  | c :: s' => if c =? 45 then (true, s') else if c =? 43 then (false, s') else (false, s)
  | [] => (false, s)
  end.

(** The base that base 0 stands for, and the text after a 0x prefix. *)
Definition scan_base (base : Z) (s : text) : Z * text :=
  if base =? 0 then
    match s with
    | z :: x :: h :: s' =>
        if (z =? 48) && ((x =? 120) || (x =? 88)) && (digit_val h <? 16) then (16, h :: s')
        else if z =? 48 then (8, s) else (10, s)
    | z :: _ => if z =? 48 then (8, s) else (10, s)
    | [] => (10, s)
    end
  else (base, s).

(** Sign, magnitude and rest of the subject sequence; [None] when there is none. *)
Definition scan_int (base : Z) (s : text) : option (bool * Z * text) :=
  let '(neg, s1) := scan_sign (skip_while isspace s) in
  let '(b, s2) := scan_base base s1 in
  match s2 with
  | c :: _ =>
      if digit_val c <? b then
        let '(v, rest) := scan_digits b 0 s2 in Some (neg, v, rest)
      else None
  | [] => None
  end.

(** [strtol]: the value, saturated, and the text [*endp] points to. *)
Definition strtol (s : text) (base : Z) : Z * text :=
  match scan_int base s with
  | None => (0, s)
  | Some (neg, v, rest) =>
      (Z.max long_min (Z.min long_max (if neg : bool then - v else v)), rest)
  end.

Definition strtoul (s : text) (base : Z) : Z :=
  match scan_int base s with
  | None => 0
  | Some (neg, v, _) =>
      if ulong_max <? v then ulong_max else if neg : bool then u64 (- v) else v
  end.

(** [atoi] as the C library computes it: [strtol] converted to [int]. *)
Definition atoi (s : text) : Z := s32 (fst (strtol s 10)).

(** ** Decimal output: the conversion [%d] *)

Fixpoint dec_digits (fuel : nat) (n : Z) : text :=
  match fuel with
  | O => []
  | S fuel' => if n <? 10 then [48 + n] else dec_digits fuel' (n / 10) ++ [48 + n mod 10]
  end.
(** A number has at most one digit more than its binary logarithm. *)
Definition dec_nat (n : Z) : text := dec_digits (S (Z.to_nat (Z.log2 n))) n.
Definition dec (n : Z) : text := if n <? 0 then 45 :: dec_nat (- n) else dec_nat n.

(** ** Comparison *)

Lemma cmp_with_eq f a b : cmp_with f a b = 0 <-> map f a = map f b.
Proof.
  revert b; induction a as [|x a IH]; intros [|y b]; cbn [cmp_with map].
  - done.
  - split; [lia | done].
  - split; [lia | done].
  - case_bool; [rewrite IH; split; congruence |].
    case_bool; (split; [lia | congruence]).
Qed.

Lemma strcmp_eq a b : strcmp a b = 0 <-> a = b.
Proof. unfold strcmp. rewrite cmp_with_eq, !map_id. done. Qed.

Lemma strcmp_eqb a b : (strcmp a b =? 0) = bool_decide (a = b).
Proof.
  case_bool_decide as H; rewrite <- strcmp_eq in H; [by apply Z.eqb_eq | by apply Z.eqb_neq].
Qed.

Lemma strcasecmp_eq a b : strcasecmp a b = 0 <-> map tolower a = map tolower b.
Proof. apply cmp_with_eq. Qed.

Lemma ncmp_with_eq f a b (n : nat) :
  ncmp_with f a b n = 0 <-> map f (take n a) = map f (take n b).
Proof.
  revert a b; induction n as [|n IH]; intros [|x a] [|y b];
    cbn [ncmp_with take firstn map]; try done; try (split; [lia | done]).
  case_bool; [rewrite IH; split; congruence |].
  case_bool; (split; [lia | congruence]).
Qed.

Lemma ncmp_with_prefix f p s :
  ncmp_with f (p ++ s) p (length p) = 0.
Proof. apply ncmp_with_eq. by rewrite take_app_length, take_ge. Qed.

Lemma strncmp_prefix s p : strncmp s p (zlen p) = 0 <-> exists rest, s = p ++ rest.
Proof.
  unfold strncmp, zlen. rewrite Nat2Z.id. split.
  - intros E. apply ncmp_with_eq in E. rewrite !map_id, (take_ge p) in E by lia.
    exists (drop (length p) s). rewrite <- E at 1. by rewrite take_drop.
  - intros [rest ->]. apply ncmp_with_prefix.
Qed.

Lemma cmp_with_antisym f a b : cmp_with f b a = - cmp_with f a b.
Proof.
  revert b; induction a as [|x a IH]; intros [|y b]; cbn [cmp_with]; try done.
  rewrite IH. repeat case_bool; lia.
Qed.

(** ** Search *)

Lemma strchr_Some s c before from :
  strchr s c = Some (before, from) ->
  s = before ++ from /\ c ∉ before /\ exists rest, from = c :: rest.
Proof.
  revert before; induction s as [|x s IH]; intros before H; cbn [strchr] in H; [done|].
  case_bool.
  - injection H as <- <-. subst. split_and!; [done | set_solver | eauto].
  - destruct (strchr s c) as [[b f]|] eqn:E; [|done]. injection H as <- <-.
    destruct (IH b eq_refl) as (-> & Hb & Hf). split_and!; [done | set_solver | done].
Qed.

Lemma strchr_None s c : strchr s c = None <-> c ∉ s.
Proof.
  induction s as [|x s IH]; cbn [strchr]; [set_solver|].
  case_bool; [subst; split; [done | set_solver]|].
  destruct (strchr s c) as [[b f]|].
  - split; [done|]. intros Hn. exfalso.
    assert (c ∉ s) as Hs by set_solver. apply IH in Hs. done.
  - split; [|done]. intros _. assert (c ∉ s) by (by apply IH). set_solver.
Qed.

Lemma strchr_app before c rest :
  c ∉ before -> strchr (before ++ c :: rest) c = Some (before, c :: rest).
Proof.
  induction before as [|x b IH]; intros H; cbn [strchr app].
  - by rewrite Z.eqb_refl.
  - case_bool; [set_solver|]. rewrite IH by set_solver. done.
Qed.

Lemma strrchr_None s c : strrchr s c = None <-> c ∉ s.
Proof.
  induction s as [|x s IH]; cbn [strrchr]; [set_solver|].
  destruct (strrchr s c) as [[b f]|].
  - split; [done|]. intros Hn. assert (c ∉ s) as Hs by set_solver. by apply IH in Hs.
  - assert (c ∉ s) by (by apply IH). case_bool; split; try done; set_solver.
Qed.

Lemma strrchr_app before c rest :
  c ∉ rest -> strrchr (before ++ c :: rest) c = Some (before, c :: rest).
Proof.
  intros H. induction before as [|x b IH]; cbn [strrchr app].
  - rewrite (proj2 (strrchr_None rest c)) by done. by rewrite Z.eqb_refl.
  - by rewrite IH.
Qed.

Lemma strchr_rest_length s c before from :
  strchr s c = Some (before, from) -> zlen s = zlen before + zlen from.
Proof. intros (-> & _ & _)%strchr_Some. apply zlen_app. Qed.

(** ** Scanning *)

Lemma skip_while_app p s t :
  Forall (fun c => p c = true) s -> skip_while p (s ++ t) = skip_while p t.
Proof. induction 1 as [|x s Hx _ IH]; cbn [skip_while app]; [done|]. by rewrite Hx. Qed.

Lemma skip_while_stop p c s : p c = false -> skip_while p (c :: s) = c :: s.
Proof. cbn [skip_while]. by intros ->. Qed.

Lemma skip_while_id p s : Forall (fun c => p c = false) s -> skip_while p s = s.
Proof. destruct 1 as [|x s Hx _]; [done|]. by apply skip_while_stop. Qed.

Lemma skip_while_suffix p s : exists k, s = k ++ skip_while p s /\ Forall (fun c => p c = true) k.
Proof.
  induction s as [|x s (k & Hk & HF)]; cbn [skip_while]; [by exists []|].
  destruct (p x) eqn:E; [|by exists []].
  exists (x :: k). split; [cbn; by rewrite <- Hk | by constructor].
Qed.

Lemma skip_while_head p s c r : skip_while p s = c :: r -> p c = false.
Proof.
  induction s as [|x s IH]; cbn [skip_while]; [done|].
  destruct (p x) eqn:E; [done|]. by intros [= <- <-].
Qed.

(** ** Numbers *)

Definition dec_val (acc : Z) (s : text) : Z := foldl (fun a c => a * 10 + (c - 48)) acc s.

Lemma isdigit_val c : isdigit c = true -> digit_val c = c - 48 /\ digit_val c < 10.
Proof. unfold digit_val. intros H. rewrite H. unfold isdigit in H. lia. Qed.

Lemma digit_val_10 c : (digit_val c <? 10) = isdigit c.
Proof.
  unfold digit_val. destruct (isdigit c) eqn:E; [unfold isdigit in E; lia|].
  unfold islower, isupper. destruct ((97 <=? c) && (c <=? 122)) eqn:E1; [lia|].
  destruct ((65 <=? c) && (c <=? 90)) eqn:E2; lia.
Qed.

Lemma scan_digits_dec ds rest acc :
  Forall (fun c => isdigit c = true) ds ->
  (forall c r, rest = c :: r -> isdigit c = false) ->
  scan_digits 10 acc (ds ++ rest) = (dec_val acc ds, rest).
Proof.
  intros Hds Hrest. revert acc; induction Hds as [|c ds Hc _ IH]; intros acc.
  - destruct rest as [|c r]; [done|]. cbn [app scan_digits].
    rewrite digit_val_10, (Hrest c r) by done. done.
  - cbn [app scan_digits]. destruct (isdigit_val c Hc) as [-> _].
    replace (c - 48 <? 10) with true; [|unfold isdigit in Hc; lia].
    apply IH.
Qed.

Lemma dec_digits_isdigit fuel n :
  0 <= n -> Forall (fun c => isdigit c = true) (dec_digits fuel n).
Proof.
  revert n; induction fuel as [|fuel IH]; intros n Hn; cbn [dec_digits]; [constructor|].
  case_bool; [repeat constructor; unfold isdigit; lia|].
  apply Forall_app; split; [apply IH, Z.div_pos; lia|].
  repeat constructor. unfold isdigit. pose proof (Z.mod_pos_bound n 10). lia.
Qed.

Lemma dec_digits_val fuel n :
  0 <= n < 2 ^ Z.of_nat fuel -> dec_val 0 (dec_digits fuel n) = n.
Proof.
  revert n; induction fuel as [|fuel IH]; intros n Hn; cbn [dec_digits].
  - replace n with 0 by (change (2 ^ Z.of_nat 0) with 1 in Hn; lia). done.
  - case_bool; [unfold dec_val; cbn; lia|].
    unfold dec_val. rewrite foldl_app. cbn.
    fold (dec_val 0 (dec_digits fuel (n / 10))). rewrite IH.
    + pose proof (Z.div_mod n 10). lia.
    + rewrite Nat2Z.inj_succ, Z.pow_succ_r in Hn by lia.
      split; [apply Z.div_pos; lia|]. apply Z.div_lt_upper_bound; lia.
Qed.

Lemma dec_nat_isdigit n : 0 <= n -> Forall (fun c => isdigit c = true) (dec_nat n).
Proof. apply dec_digits_isdigit. Qed.

Lemma dec_nat_val n : 0 <= n -> dec_val 0 (dec_nat n) = n.
Proof.
  intros Hn. apply dec_digits_val. split; [done|].
  rewrite Nat2Z.inj_succ, Z2Nat.id by apply Z.log2_nonneg.
  destruct (decide (n = 0)) as [->|]; [done|]. apply Z.log2_spec. lia.
Qed.

Lemma dec_nat_nonempty n : dec_nat n <> [].
Proof.
  unfold dec_nat. cbn [dec_digits]. case_bool; [done|].
  intros []%app_nil. done.
Qed.

Lemma dec_digits_length fuel n : zlen (dec_digits fuel n) <= Z.of_nat fuel.
Proof.
  revert n; induction fuel as [|fuel IH]; intros n; cbn [dec_digits]; [done|].
  case_bool; [zlia|]. specialize (IH (n / 10)). zlia.
Qed.

(** The decimal text of a number, read back with whatever follows it. *)
Lemma scan_int_dec n rest :
  0 <= n -> (forall c r, rest = c :: r -> isdigit c = false) ->
  scan_int 10 (dec_nat n ++ rest) = Some (false, n, rest).
Proof.
  intros Hn Hrest. pose proof (dec_nat_isdigit n Hn) as Hd.
  pose proof (scan_digits_dec _ rest 0 Hd Hrest) as Hs.
  rewrite dec_nat_val in Hs by done.
  pose proof (dec_nat_nonempty n) as Hne.
  destruct (dec_nat n) as [|c ds]; [done|].
  inversion Hd as [|? ? Hc _ Heq]; subst. unfold isdigit in Hc.
  unfold scan_int. cbn [app skip_while] in *.
  replace (isspace c) with false by (unfold isspace; lia).
  cbn [scan_sign]. replace (c =? 45) with false by lia. replace (c =? 43) with false by lia.
  cbn [scan_base Z.eqb]. rewrite digit_val_10.
  replace (isdigit c) with true by (symmetry; unfold isdigit; lia).
  rewrite Hs. done.
Qed.

Lemma strtol_dec n rest :
  0 <= n <= long_max -> (forall c r, rest = c :: r -> isdigit c = false) ->
  strtol (dec_nat n ++ rest) 10 = (n, rest).
Proof.
  intros Hn Hrest. unfold strtol. rewrite scan_int_dec by (done || lia).
  f_equal. unfold long_min, long_max in *. lia.
Qed.

Lemma atoi_dec n : 0 <= n < 2 ^ 31 -> atoi (dec_nat n) = n.
Proof.
  intros Hn. unfold atoi. rewrite <- (app_nil_r (dec_nat n)), strtol_dec.
  - cbn [fst]. unfold s32. rewrite Z.mod_small; lia.
  - unfold long_max. lia.
  - done.
Qed.

Lemma dec_nat_not_in n c : 0 <= n -> isdigit c = false -> c ∉ dec_nat n.
Proof.
  intros Hn Hc Hi. pose proof (dec_nat_isdigit n Hn) as HF.
  rewrite list.Forall_forall in HF. specialize (HF c Hi). congruence.
Qed.

(** A number below [10 ^ k] has at most [k] digits. *)
Lemma dec_nat_length (k : nat) n : 0 <= n < 10 ^ Z.of_nat (S k) -> zlen (dec_nat n) <= Z.of_nat (S k).
Proof.
  unfold dec_nat. generalize (S (Z.to_nat (Z.log2 n))) as fuel. intros fuel. revert n fuel.
  induction k as [|k IH]; intros n [|fuel] Hn; cbn [dec_digits].
  - done.
  - change (10 ^ Z.of_nat 1) with 10 in Hn. by replace (n <? 10) with true by lia.
  - zlia.
  - case_bool; [zlia|]. rewrite zlen_app. change (zlen [48 + n mod 10]) with 1.
    assert (zlen (dec_digits fuel (n / 10)) <= Z.of_nat (S k)); [|lia].
    apply IH. rewrite Nat2Z.inj_succ, Z.pow_succ_r in Hn by lia.
    split; [apply Z.div_pos; lia | apply Z.div_lt_upper_bound; lia].
Qed.

Lemma dec_eq n : 0 <= n -> dec n = dec_nat n.
Proof. intros. unfold dec. by replace (n <? 0) with false by lia. Qed.

#[export] Hint Resolve dec_nat_isdigit dec_nat_nonempty : chaos.
