(* ===== verification/CString.v ===== *)
(** * Plain C strings: the inline functions of string/string.h

    [str_is_empty] to [str_trim].  A function that writes a terminator into
    its argument ([str_split_at], [str_trim]) returns the text left in place
    together with the pointer it returns. *)

From S2P Require Import Prelude CLib.

(** A [NULL] pointer is [None]. *)
Definition str_is_empty (s : cptr) : bool :=
  match s with
  | Some t => negb (0 <? strlen t)
  | None => true
  end.

Definition str_is_nonempty (s : cptr) : bool :=
  match s with
  | Some t => 0 <? strlen t
  | None => false
  end.

Definition str_is_true (s : cptr) (def : bool) : bool :=
  if str_is_nonempty s then
    match s with
    | Some t =>
        if (strcmp t (c_lit "0") =? 0) || (strcasecmp t (c_lit "no") =? 0) then false
        else if (strcmp t (c_lit "1") =? 0) || (strcasecmp t (c_lit "yes") =? 0) then true
        else def
    | None => def
    end
  else def.

(** What is left of the string, and the remainder after the delimiter. *)
Definition str_split_at (s : text) (delimiter : char) : text * cptr :=
  match strchr s delimiter with
  | Some (before, from) => (before, Some (drop 1 from))
  | None => (s, None)
  end.

Definition str_split_at_right (s : text) (delimiter : char) : text * cptr :=
  match strrchr s delimiter with
  | Some (before, from) => (before, Some (drop 1 from))
  | None => (s, None)
  end.

Fixpoint alldig_loop (s : text) : bool :=
  match s with
  | [] => true
  | c :: s' => if negb (isascii c) || negb (isdigit c) then false else alldig_loop s'
  end.
Definition str_alldig (s : text) : bool :=
  match s with
  | [] => false
  | _ => alldig_loop s
  end.

Definition str_skip_spaces (s : text) : text := skip_while isspace s.

(** The loop that walks [end] left over spaces: the [n] first characters of
    [s] are still in front of [end + 1]. *)
Fixpoint trim_end (s : text) (n : nat) : nat :=
  match n with
  | O => O
  | S n' => if isspace (nth n' s 0) then trim_end s n' else n
  end.

Definition str_trim (s : text) : text :=
  let s := str_skip_spaces s in
  let size := strlen s in
  if size =? 0 then s
  else ztake (Z.of_nat (trim_end s (Z.to_nat size))) s.

(** ** Lemmas *)

Lemma str_is_nonempty_negb s : str_is_nonempty s = negb (str_is_empty s).
Proof. destruct s as [t|]; cbn; [by rewrite negb_involutive | done]. Qed.

Lemma str_is_empty_Some t : str_is_empty (Some t) = true <-> t = [].
Proof.
  cbn. unfold strlen. destruct t as [|x t]; [done|].
  rewrite zlen_cons. pose proof (zlen_nonneg t). split; [|done]. lia.
Qed.

Lemma str_is_nonempty_Some t : str_is_nonempty (Some t) = true <-> t <> [].
Proof.
  pose proof (str_is_empty_Some t) as H. rewrite str_is_nonempty_negb.
  destruct (str_is_empty (Some t)); cbn; intuition congruence.
Qed.

Lemma str_split_at_app before c rest :
  c ∉ before -> str_split_at (before ++ c :: rest) c = (before, Some rest).
Proof. intros H. unfold str_split_at. by rewrite strchr_app. Qed.

Lemma str_split_at_none s c : c ∉ s -> str_split_at s c = (s, None).
Proof. intros H. unfold str_split_at. by rewrite (proj2 (strchr_None s c)). Qed.

Lemma str_split_at_spec s c :
  (exists before rest, s = before ++ c :: rest /\ c ∉ before /\
      str_split_at s c = (before, Some rest)) \/
  (c ∉ s /\ str_split_at s c = (s, None)).
Proof.
  unfold str_split_at. destruct (strchr s c) as [[b f]|] eqn:E.
  - apply strchr_Some in E as (-> & Hb & r & ->). left. eauto.
  - right. split; [by apply strchr_None | done].
Qed.

Lemma alldig_loop_spec s : alldig_loop s = true <-> Forall (fun c => isdigit c = true) s.
Proof.
  induction s as [|c s IH]; cbn [alldig_loop]; [split; [constructor | done]|].
  rewrite Forall_cons_iff. unfold isascii. unfold isdigit at 2.
  destruct (isdigit c) eqn:E; unfold isdigit in E.
  - rewrite <- IH. replace (negb ((0 <=? c) && (c <=? 127)) || negb true) with false by lia.
    split; [intros; split; [lia | done] | by intros []].
  - rewrite orb_true_r. split; [done|]. intros []. lia.
Qed.

Lemma str_alldig_spec s :
  str_alldig s = true <-> s <> [] /\ Forall (fun c => isdigit c = true) s.
Proof.
  destruct s as [|c s]; [split; [done | by intros []]|].
  unfold str_alldig. rewrite alldig_loop_spec. split; [by split | by intros []].
Qed.

Lemma str_alldig_dec n : 0 <= n -> str_alldig (dec_nat n) = true.
Proof. intros H. apply str_alldig_spec. auto with chaos. Qed.

(** What [trim_end] leaves: all spaces behind it, no space in front. *)
Lemma trim_end_spec s n :
  (n <= length s)%nat ->
  (trim_end s n <= n)%nat /\
  Forall (fun c => isspace c = true) (drop (trim_end s n) (take n s)) /\
  (forall k c, take (trim_end s n) s = k ++ [c] -> isspace c = false).
Proof.
  induction n as [|n IH]; intros Hn; cbn [trim_end].
  - split_and!; [lia | constructor | intros [] ?; done].
  - destruct (isspace (nth n s 0)) eqn:E.
    + destruct IH as (Hle & HF & Hlast); [lia|]. split_and!; [lia | | done].
      destruct (lookup_lt_is_Some_2 s n) as [c Hc]; [lia|].
      rewrite (take_S_r s n c Hc), drop_app_le by (rewrite length_take; lia).
      apply Forall_app; split; [done|]. repeat constructor.
      by rewrite <- (nth_lookup_Some s n 0 c Hc).
    + split_and!; [lia | |].
      * rewrite drop_ge by (rewrite length_take; lia). constructor.
      * intros k c Hk. destruct (lookup_lt_is_Some_2 s n) as [d Hd]; [lia|].
        rewrite (take_S_r s n d Hd) in Hk. apply app_inj_tail in Hk as [_ <-].
        by rewrite <- (nth_lookup_Some s n 0 d Hd).
Qed.

Definition starts_with_space (s : text) : Prop := exists c r, s = c :: r /\ isspace c = true.
Definition ends_with_space (s : text) : Prop := exists k c, s = k ++ [c] /\ isspace c = true.

Lemma str_trim_spec s :
  exists l r, s = l ++ str_trim s ++ r /\
    Forall (fun c => isspace c = true) l /\ Forall (fun c => isspace c = true) r /\
    ~ starts_with_space (str_trim s) /\ ~ ends_with_space (str_trim s).
Proof.
  unfold str_trim, str_skip_spaces, strlen.
  destruct (skip_while_suffix isspace s) as (l & Hs & Hl).
  pose proof (skip_while_head isspace s) as Hhead.
  set (t := skip_while isspace s) in *. clearbody t.
  destruct (Z.eqb_spec (zlen t) 0) as [E|E].
  - apply zlen_zero in E. rewrite E in *. exists l, []. cbn [app]. split_and!; try done.
    + intros (c & r & H & _). done.
    + intros ([] & c & H & _); done.
  - destruct (trim_end_spec t (length t)) as (Hle & HF & Hlast); [done|].
    unfold ztake, zlen. rewrite !Nat2Z.id. rewrite take_ge in HF at 1 by lia.
    set (n := trim_end t (length t)) in *.
    exists l, (drop n t). split_and!; try done.
    + by rewrite take_drop.
    + intros (c & r & Hc & Hsp). destruct t as [|d t]; [by rewrite take_nil in Hc|].
      destruct n; [done|]. injection Hc as -> _. by rewrite (Hhead _ _ eq_refl) in Hsp.
    + intros (k & c & Hc & Hsp). by rewrite (Hlast _ _ Hc) in Hsp.
Qed.

Lemma not_starts_with_space c s : isspace c = false -> ~ starts_with_space (c :: s).
Proof. intros H (d & r & [= <- <-] & Hd). by rewrite H in Hd. Qed.

(** The trimmed text is the only one between two runs of spaces. *)
Lemma str_trim_unique l t r :
  Forall (fun c => isspace c = true) l -> Forall (fun c => isspace c = true) r ->
  ~ starts_with_space t -> ~ ends_with_space t -> str_trim (l ++ t ++ r) = t.
Proof.
  intros Hl Hr Hs He. unfold str_trim, str_skip_spaces, strlen.
  rewrite skip_while_app by done.
  assert (t = [] \/ skip_while isspace (t ++ r) = t ++ r) as [-> | ->].
  { destruct t as [|c t]; [by left | right]. apply skip_while_stop.
    destruct (isspace c) eqn:E; [|done]. exfalso. apply Hs. by exists c, t. }
  { rewrite <- (app_nil_r r), app_nil_l, skip_while_app by done. done. }
  destruct (Z.eqb_spec (zlen (t ++ r)) 0) as [E|E].
  { apply zlen_zero in E. by apply app_nil in E as [-> ->]. }
  unfold ztake, zlen. rewrite !Nat2Z.id. clear Hl Hs E l.
  enough (trim_end (t ++ r) (length (t ++ r)) = length t) as -> by (by rewrite take_app_length).
  revert Hr. induction r as [|c r IH] using rev_ind; intros Hr.
  - rewrite app_nil_r. induction t as [|c t _] using rev_ind; [done|].
    rewrite length_app, Nat.add_1_r. cbn [trim_end].
    rewrite app_nth2, Nat.sub_diag by lia. cbn [nth].
    destruct (isspace c) eqn:E; [|done]. exfalso. apply He. by exists t, c.
  - apply Forall_app in Hr as [Hr Hc]. inversion Hc as [|? ? Hc' _]; subst.
    rewrite app_assoc, length_app, Nat.add_1_r. cbn [trim_end].
    rewrite app_nth2, Nat.sub_diag by lia. cbn [nth]. rewrite Hc'.
    rewrite <- IH by done. generalize (t ++ r) as s. intros s.
    enough (forall n, (n <= length s)%nat -> trim_end (s ++ [c]) n = trim_end s n) as H
      by (by apply H).
    induction n as [|n IHn]; intros Hn; [done|]. cbn [trim_end].
    rewrite app_nth1, IHn by lia. done.
Qed.

Lemma str_trim_id t : ~ starts_with_space t -> ~ ends_with_space t -> str_trim t = t.
Proof.
  intros. rewrite <- (app_nil_r t) at 1. change (t ++ []) with ([] ++ t ++ []).
  by apply str_trim_unique.
Qed.

Lemma str_trim_idemp s : str_trim (str_trim s) = str_trim s.
Proof. destruct (str_trim_spec s) as (l & r & _ & _ & _ & Hs & He). by apply str_trim_id. Qed.
