(* ===== verification/StrBuf.v ===== *)
(** * The growable byte buffer: struct string of string/

    One definition per function of string/.  A buffer is the record the C
    struct is, with the allocated bytes as a list; [wf_str] is its type
    invariant and [content] the bytes it holds.  The contract of the appending
    functions is [appends]: what a client may assume of a piece of code that
    only adds text to one buffer. *)

From S2P Require Import Prelude CLib CString.

Record strbuf := mkstr {
  s_length : Z;
  s_size : Z;
  s_growby : Z;
  s_s : option (list char)   (** the [s_size] bytes allocated, [None] for NULL *)
}.

(** ** Construction and release *)

Section Ops.
Context `{Allocator}.

Definition string_init (size growby : Z) : bool * strbuf :=
  if alloc_ok size
  then (true, mkstr 0 size growby (Some (zrep size 0)))
  else (true, mkstr 0 0 growby None).

Definition string_lazyinit (growby : Z) : strbuf := mkstr 0 0 growby None.

Definition string_clear (s : strbuf) : strbuf :=
  mkstr 0 (s_size s) (s_growby s) (s_s s).

Definition string_free (s : strbuf) : strbuf :=
  match s_s s with
  | Some _ => mkstr 0 0 (s_growby s) None
  | None => s
  end.

(** The emptied source and the new value of the destination. *)
Definition string_move (s1 : strbuf) : strbuf * strbuf :=
  (mkstr 0 0 (s_growby s1) None, s1).

Definition string_get (s : strbuf) : option (list char) := s_s s.

(** [s->s = z]: the buffer is the caller's string, with its terminator. *)
Definition string_mkstatic (z : text) : strbuf :=
  mkstr (strlen z) (strlen z) 0 (Some z).

(** ** Appending *)

(** The bytes of [b] with [data] stored from offset [off] on. *)
Definition bwrite (off : Z) (data b : list char) : list char :=
  ztake off b ++ data ++ zdrop (off + zlen data) b.

(** [realloc] granted: [growby] more bytes, zeroed. *)
Definition str_grow (s : strbuf) (growby : Z) : strbuf :=
  mkstr (s_length s) (u64 (s_size s + growby)) (s_growby s)
        (Some (default [] (s_s s) ++ zrep growby 0)).

Inductive grow_result :=
| GrowBy (growby : Z)   (** the loop ends: ask for this many bytes more *)
| GrowOverflow          (** [size + growby] wrapped: [return false] *)
| GrowFuel.             (** still looping *)

Fixpoint grow_loop (fuel : nat) (s : strbuf) (growby len : Z) : grow_result :=
  match fuel with
  | O => GrowFuel
  | S fuel' =>
      if u64 (s_size s + growby - s_length s) <? len then
        let growby := u64 (growby + s_growby s) in
        if u64 (s_size s + growby) <? s_size s then GrowOverflow
        else grow_loop fuel' s growby len
      else GrowBy growby
  end.

(** Enough turns to reach [len] in steps of [s->growby]. *)
Definition grow_fuel (s : strbuf) (len : Z) : nat := S (Z.to_nat (len / s_growby s)).

(** [memcpy (s->s + s->length, sta, len); s->length += len]. *)
Definition str_store (s : strbuf) (sta : list char) (len : Z) : outcome (bool * strbuf) :=
  if zlen sta <? len then Undef
  else if len =? 0 then Ret (true, s)
  else match s_s s with
       | None => Undef
       | Some b =>
           if zlen b <? s_length s + len then Undef
           else Ret (true, mkstr (u64 (s_length s + len)) (s_size s) (s_growby s)
                                 (Some (bwrite (s_length s) (ztake len sta) b)))
       end.

(** [sta] is the object the source pointer points into, from that pointer on.
    The new bytes are cleared before the result of [realloc] is tested, so a
    refused request writes through NULL. *)
Definition string_concatb (s : strbuf) (sta : list char) (len : Z) : outcome (bool * strbuf) :=
  if u64 (s_size s - s_length s) <? len then
    if s_growby s =? 0 then Ret (false, s)
    else match grow_loop (grow_fuel s len) s (s_growby s) len with
         | GrowFuel => Undef
         | GrowOverflow => Ret (false, s)
         | GrowBy growby =>
             if alloc_ok (u64 (s_size s + growby))
             then str_store (str_grow s growby) sta len
             else Undef
         end
  else str_store s sta len.

(** The terminator is copied and then taken off the length again. *)
Definition string_concat (s : strbuf) (sta : text) : outcome (bool * strbuf) :=
  '(ok, s') ← string_concatb s (sta ++ [0]) (strlen sta + 1);
  if ok : bool
  then Ret (true, mkstr (u64 (s_length s' - 1)) (s_size s') (s_growby s') (s_s s'))
  else Ret (false, s').

Definition putc_store (s : strbuf) (c : char) : outcome (bool * strbuf) :=
  match s_s s with
  | None => Undef
  | Some b =>
      if s_length s <? zlen b
      then Ret (true, mkstr (u64 (s_length s + 1)) (s_size s) (s_growby s)
                            (Some (bwrite (s_length s) [c] b)))
      else Undef
  end.

Definition string_putc (s : strbuf) (c : char) : outcome (bool * strbuf) :=
  if s_size s =? s_length s then
    if alloc_ok (u64 (s_size s + s_growby s))
    then putc_store (str_grow s (s_growby s)) c
    else Ret (false, s)
  else putc_store s c.

Definition MAXSTRINGLEN : Z := 32.

Definition string_putint (s : strbuf) (i : Z) : outcome (bool * strbuf) :=
  let len := zlen (dec i) in
  let buf := ztake (MAXSTRINGLEN - 1) (dec i) ++ [0] in
  if MAXSTRINGLEN - 1 <=? len then Exit 1
  else string_concatb s buf len.

(** [s->s = NULL] is read before [ss->length] bytes of it: a NULL source is
    only touched when its length is positive. *)
Definition string_concats (s ss : strbuf) : outcome (bool * strbuf) :=
  string_concatb s (default [] (s_s ss)) (s_length ss).

Definition string_initfromstringz (is_ : text) : outcome (bool * strbuf) :=
  let l := strlen is_ in
  string_concatb (string_lazyinit l) (is_ ++ [0]) l.

(** [s->s[s->length - 1]] is the byte in front of the buffer when the length is 0. *)
Definition string_ensurez (s : strbuf) : outcome (bool * strbuf) :=
  let terminate :=
    '(ok, s') ← string_putc s 0;
    if ok : bool
    then Ret (true, mkstr (u64 (s_length s' - 1)) (s_size s') (s_growby s') (s_s s'))
    else Ret (false, s') in
  match s_s s with
  | Some b =>
      if s_length s =? 0 then
        match byte_before with
        | None => Undef
        | Some c => if c =? 0 then Ret (true, s) else terminate
        end
      else
        let i := u64 (s_length s - 1) in
        if zlen b <=? i then Undef
        else if nth (Z.to_nat i) b 0 =? 0 then Ret (true, s)
        else terminate
  | None => terminate
  end.

(** [same] is the test [s1 == s2] on the two pointers.  Distinct structs never
    share a buffer, so their data pointers are equal exactly when both are NULL. *)
Definition string_equals (same : bool) (s1 s2 : strbuf) : bool :=
  if same then true
  else match s_s s1, s_s s2 with
       | None, None => true
       | b1, b2 =>
           if negb (s_length s1 =? s_length s2) then false
           else match b1, b2 with
                | Some b1, Some b2 =>
                    bool_decide (ztake (s_length s1) b1 = ztake (s_length s1) b2)
                | _, _ => false
                end
       end.

(** [rd n] is what [read (fd, p, n)] delivers: the bytes, or [None] for -1.
    The outer [None] of the result: still in the growth loop. *)
Definition string_read (fuel : nat) (s : strbuf) (rd : Z -> option (list char)) (len : Z)
  : option (outcome (bool * option Z * strbuf)) :=
  let do_read (s : strbuf) :=
    match rd len with
    | None => Ret (true, Some (-1), s)
    | Some data =>
        '(_, s') ← str_store s data (zlen data);
        Ret (true, Some (zlen data), s')
    end in
  if u64 (s_size s - s_length s) <? len then
    match grow_loop fuel s (s_growby s) len with
    | GrowFuel => None
    | GrowOverflow => Some (Ret (false, None, s))
    | GrowBy growby =>
        Some (if alloc_ok (u64 (s_size s + growby))
              then do_read (str_grow s growby)
              else Ret (false, None, s))
    end
  else Some (do_read s).

End Ops.

(** ** Invariant and abstraction *)

Record wf_str (s : strbuf) : Prop := {
  wf_length : 0 <= s_length s <= s_size s;
  wf_size : s_size s <= size_max;
  wf_growby : 0 <= s_growby s <= size_max;
  wf_buf : match s_s s with Some b => zlen b = s_size s | None => s_size s = 0 end
}.

(** The bytes the buffer holds. *)
Definition content (s : strbuf) : list char := ztake (s_length s) (default [] (s_s s)).

(** What a C string function sees behind [string_get (s)]: the bytes before the
    first NUL, [None] when it runs out of the allocated bytes. *)
Definition string_cstr (s : strbuf) : option text :=
  match s_s s with
  | Some b => match strchr b 0 with Some (t, _) => Some t | None => None end
  | None => None
  end.

Definition default_buf (s : strbuf) : list char := default [] (s_s s).

Section Invariant.
Context `{Allocator}.

Lemma wf_default_buf s : wf_str s -> zlen (default [] (s_s s)) = s_size s.
Proof. intros [? ? ? Hb]. destruct (s_s s); cbn; [done | by rewrite Hb]. Qed.

Lemma zlen_content s : wf_str s -> zlen (content s) = s_length s.
Proof.
  intros Hw. pose proof (wf_default_buf s Hw). destruct Hw.
  apply zlen_ztake. lia.
Qed.

Lemma wf_lazyinit g : 0 <= g <= size_max -> wf_str (string_lazyinit g).
Proof. intros. split; cbn; unfold size_max in *; lia. Qed.

Lemma wf_init size g :
  0 <= size <= size_max -> 0 <= g <= size_max -> wf_str (snd (string_init size g)).
Proof.
  intros Hs Hg. unfold string_init. unfold size_max in *.
  destruct (alloc_ok size); split; cbn; first [lia | zlia | unfold size_max; lia].
Qed.

Lemma wf_clear s : wf_str s -> wf_str (string_clear s).
Proof. intros []. split; cbn; [lia.. | done]. Qed.

Lemma wf_free s : wf_str s -> wf_str (string_free s).
Proof.
  intros Hw. unfold string_free. destruct (s_s s) eqn:E; [|done].
  destruct Hw. split; cbn; unfold size_max in *; lia.
Qed.

Lemma bwrite_length off data b :
  0 <= off -> off + zlen data <= zlen b -> zlen (bwrite off data b) = zlen b.
Proof. unfold bwrite. zlia. Qed.

(** After a write at the end of the content, the content has the new bytes. *)
Lemma ztake_bwrite off data b :
  0 <= off -> off + zlen data <= zlen b ->
  ztake (off + zlen data) (bwrite off data b) = ztake off b ++ data.
Proof.
  intros. unfold bwrite. rewrite app_assoc, ztake_app_le by zlia.
  apply ztake_all. zlia.
Qed.

Lemma str_grow_wf s g :
  wf_str s -> 0 <= g -> s_size s + g <= size_max -> wf_str (str_grow s g).
Proof.
  intros Hw Hg Hb. pose proof (wf_default_buf s Hw) as Hd. destruct Hw.
  unfold size_max in *. split; cbn; rewrite ?u64_small by lia; unfold size_max; try lia.
  rewrite zlen_app, zlen_zrep by lia. lia.
Qed.

Lemma str_grow_content s g :
  wf_str s -> 0 <= g -> s_size s + g <= size_max -> content (str_grow s g) = content s.
Proof.
  intros Hw Hg Hb. unfold content, str_grow; cbn.
  apply ztake_app_le. rewrite wf_default_buf by done. destruct Hw. lia.
Qed.

Lemma str_grow_size s g :
  wf_str s -> 0 <= g -> s_size s + g <= size_max -> s_size (str_grow s g) = s_size s + g.
Proof. intros [] ? ?. cbn. unfold size_max in *. apply u64_small. lia. Qed.

Lemma str_store_ok s sta len :
  wf_str s -> 0 <= len <= zlen sta -> s_length s + len <= s_size s ->
  exists s', str_store s sta len = Ret (true, s') /\ wf_str s' /\
    content s' = content s ++ ztake len sta /\
    s_growby s' = s_growby s /\ s_size s' = s_size s /\
    zdrop (s_length s + len) (default [] (s_s s'))
      = zdrop (s_length s + len) (default [] (s_s s)).
Proof.
  intros Hw Hlen Hroom. unfold str_store.
  replace (zlen sta <? len) with false by lia.
  destruct (Z.eqb_spec len 0) as [->|Hne].
  { exists s. rewrite ztake_0, app_nil_r. done. }
  pose proof (wf_buf s Hw) as Hb. pose proof (wf_length s Hw). pose proof (wf_size s Hw).
  destruct (s_s s) as [b|] eqn:E; [|lia].
  replace (zlen b <? s_length s + len) with false by lia.
  assert (zlen (ztake len sta) = len) as Ht by (apply zlen_ztake; lia).
  pose proof (ztake_bwrite (s_length s) (ztake len sta) b) as Hbw.
  rewrite Ht in Hbw.
  eexists; split_and!; [done | | | done | done |].
  - split; cbn; rewrite ?u64_small by (unfold size_max in *; lia); try lia.
    + apply Hw.
    + rewrite bwrite_length; lia.
  - unfold content; cbn. rewrite u64_small, E by (unfold size_max in *; lia).
    apply Hbw; lia.
  - cbn. unfold bwrite. rewrite Ht, app_assoc, zdrop_app_ge by zlia.
    rewrite zlen_app, zlen_ztake, Ht by lia.
    replace (s_length s + len - _) with 0 by lia. done.
Qed.

(** The growth loop: it ends within [grow_fuel] turns and finds the least
    multiple of [s->growby] that makes enough room. *)
Lemma grow_loop_ok fuel s g len :
  wf_str s -> 0 < s_growby s -> 0 <= g -> 0 < len ->
  s_length s + len + s_growby s <= size_max ->
  g < len + s_growby s ->
  len + s_growby s <= g + s_growby s * Z.of_nat fuel ->
  s_size s + g - s_growby s - s_length s < len ->
  exists k, grow_loop fuel s g len = GrowBy (g + k * s_growby s) /\ 0 <= k /\
    len <= s_size s + (g + k * s_growby s) - s_length s /\
    s_size s + (g + k * s_growby s) - s_growby s - s_length s < len.
Proof.
  intros Hw Hpos. pose proof (wf_length s Hw). unfold size_max in *.
  revert g; induction fuel as [|fuel IH]; intros g Hg Hlen Hroom Hgb Hfuel Hmin; [lia|].
  cbn [grow_loop].
  rewrite u64_small by lia.
  destruct (Z.ltb_spec (s_size s + g - s_length s) len).
  - rewrite (u64_small (g + s_growby s)) by lia. rewrite u64_small by lia.
    replace (s_size s + (g + s_growby s) <? s_size s) with false by lia.
    destruct (IH (g + s_growby s)) as (k & -> & Hk & Hge & Hlt); try lia.
    exists (k + 1). split_and!; try lia. f_equal. lia.
  - exists 0. split_and!; try lia. f_equal. lia.
Qed.

(** The loop as [string_concatb] starts it. *)
Lemma grow_loop_first s len :
  wf_str s -> 0 < s_growby s -> s_length s + len + s_growby s <= size_max ->
  s_size s - s_length s < len ->
  exists k, grow_loop (grow_fuel s len) s (s_growby s) len = GrowBy (s_growby s + k * s_growby s) /\
    0 <= k /\ len <= s_size s + (s_growby s + k * s_growby s) - s_length s /\
    s_size s + k * s_growby s - s_length s < len.
Proof.
  intros Hw Hpos Hmax Hlt. pose proof (wf_length s Hw).
  destruct (grow_loop_ok (grow_fuel s len) s (s_growby s) len)
    as (k & -> & Hk & Hok & Hmin); try lia; try done; [|exists k; split_and!; done || lia].
  unfold grow_fuel. rewrite Nat2Z.inj_succ, Z2Nat.id by (apply Z.div_pos; lia).
  pose proof (Z.div_mod len (s_growby s)). pose proof (Z.mod_pos_bound len (s_growby s)). nia.
Qed.

(** [string_concatb] when memory is granted: it returns true and has appended
    the bytes; the buffer grew by at most [growby] more than was needed. *)
Lemma concatb_ok s sta len :
  wf_str s -> 0 < s_growby s -> 0 <= len <= zlen sta ->
  s_length s + len + s_growby s <= size_max ->
  alloc_upto (s_length s + len + s_growby s) ->
  exists s', string_concatb s sta len = Ret (true, s') /\ wf_str s' /\
    content s' = content s ++ ztake len sta /\ s_growby s' = s_growby s /\
    s_size s <= s_size s' <= Z.max (s_size s) (s_length s + len + s_growby s - 1).
Proof.
  intros Hw Hpos Hlen Hmax Halloc. unfold string_concatb.
  pose proof (wf_length s Hw). pose proof (wf_size s Hw). unfold size_max in *.
  rewrite u64_small by lia.
  destruct (Z.ltb_spec (s_size s - s_length s) len) as [Hlt|Hge].
  - replace (s_growby s =? 0) with false by lia.
    destruct (grow_loop_first s len) as (k & -> & Hk & Hok & Hmin); try done.
    set (g := s_growby s + k * s_growby s) in *.
    assert (0 <= g) by (unfold g; nia).
    assert (s_size s + g <= size_max) by (unfold size_max; lia).
    rewrite u64_small by lia. rewrite Halloc by lia.
    destruct (str_store_ok (str_grow s g) sta len) as (s' & -> & Hw' & Hc & Hg' & Hs' & _).
    + by apply str_grow_wf.
    + lia.
    + rewrite str_grow_size by done. cbn. lia.
    + exists s'. rewrite str_grow_content in Hc by done.
      rewrite str_grow_size in Hs' by done. cbn in Hg'.
      split_and!; try done; lia.
  - destruct (str_store_ok s sta len) as (s' & -> & Hw' & Hc & Hg' & Hs' & _); try done; try lia.
    exists s'. split_and!; try done; lia.
Qed.

End Invariant.

(** ** The contract of code that adds text to a buffer *)

(** Bound on the texts the theorems speak of, far above what the program builds. *)
Definition str_limit : Z := 2 ^ 32.

Record good_str (s : strbuf) : Prop := {
  good_wf : wf_str s;
  good_growby : 0 < s_growby s <= str_limit;
  good_size : s_size s <= 2 * str_limit
}.

(** Requests up to the sizes these buffers reach are granted. *)
Definition alloc_enough `{Allocator} : Prop := alloc_upto (3 * str_limit).

(** The allocator that grants everything, for the concrete evaluations. *)
Definition roomy : Allocator := {| alloc_ok := fun _ => true; byte_before := None |}.

(** An allocator that refuses every request. *)
Definition refusing : Allocator := {| alloc_ok := fun _ => false; byte_before := None |}.

Lemma roomy_enough : @alloc_enough roomy.
Proof. by intros n Hn. Qed.

Definition str_op : Type := strbuf -> outcome (bool * strbuf).

(** [if (!f) return false; g] *)
Definition str_then (f g : str_op) : str_op := fun s =>
  '(ok, s) ← f s; if ok : bool then g s else Ret (false, s).

Definition str_skip : str_op := fun s => Ret (true, s).

(** A loop over a list whose body only adds text. *)
Fixpoint str_each {A} (f : A -> str_op) (l : list A) : str_op :=
  match l with
  | [] => str_skip
  | x :: l => str_then (f x) (str_each f l)
  end.

Notation "f ';;;' g" := (str_then f g) (at level 62, right associativity) : c_scope.

(** [f] returns true and adds exactly [t]. *)
Definition appends (f : str_op) (t : text) : Prop :=
  forall s, good_str s -> s_length s + zlen t < str_limit ->
  exists s', f s = Ret (true, s') /\ good_str s' /\
    content s' = content s ++ t /\ s_growby s' = s_growby s.

Section Contract.
Context `{Allocator}.

Lemma good_length s s' t :
  wf_str s -> wf_str s' -> content s' = content s ++ t -> s_length s' = s_length s + zlen t.
Proof. intros. rewrite <- !zlen_content by done. rewrite <- zlen_app. congruence. Qed.

Lemma appends_skip : appends str_skip [].
Proof. intros s Hs Hl. exists s. by rewrite app_nil_r. Qed.

Lemma appends_then f g t u : appends f t -> appends g u -> appends (f ;;; g) (t ++ u).
Proof.
  intros Hf Hg s Hs Hl. rewrite zlen_app in Hl.
  pose proof (zlen_nonneg u). pose proof (zlen_nonneg t).
  destruct (Hf s Hs) as (s1 & E1 & Hs1 & Hc1 & Hg1); [lia|].
  destruct (Hg s1 Hs1) as (s2 & E2 & Hs2 & Hc2 & Hg2).
  { rewrite (good_length s s1 t) by (done || apply good_wf; done). lia. }
  exists s2. unfold str_then. rewrite E1. cbn. rewrite E2, Hc2, Hc1, app_assoc, Hg2. done.
Qed.

Lemma appends_each {A} (f : A -> str_op) (g : A -> text) l :
  (forall x, x ∈ l -> appends (f x) (g x)) -> appends (str_each f l) (concat (map g l)).
Proof.
  induction l as [|x l IH]; intros Hf; cbn [str_each map concat]; [apply appends_skip|].
  apply appends_then; [apply Hf; set_solver | apply IH; intros; apply Hf; set_solver].
Qed.

Lemma appends_if (b : bool) f g t u :
  appends f t -> appends g u -> appends (if b then f else g) (if b then t else u).
Proof. by destruct b. Qed.

Lemma appends_ext f t u : appends f t -> t = u -> appends f u.
Proof. by intros ? <-. Qed.

Lemma good_init size g :
  alloc_enough -> 0 <= size <= str_limit -> 0 < g <= str_limit ->
  exists s, string_init size g = (true, s) /\ good_str s /\ content s = [] /\ s_length s = 0.
Proof.
  intros Ha Hs Hg. pose proof (wf_init size g) as Hw. unfold string_init in *.
  rewrite Ha in * by (unfold str_limit in *; lia).
  eexists; split_and!; [done | | done | done].
  unfold str_limit, size_max in *. split; [apply Hw; lia | cbn; unfold str_limit; lia..].
Qed.

Lemma concatb_appends sta len :
  alloc_enough -> 0 <= len <= zlen sta ->
  appends (fun s => string_concatb s sta len) (ztake len sta).
Proof.
  intros Ha Hlen s [Hw Hg Hsz] Hl. rewrite zlen_ztake in Hl by lia.
  pose proof (wf_length s Hw). unfold str_limit in *.
  destruct (concatb_ok s sta len) as (s' & E & Hw' & Hc & Hg' & Hs'); try done; try lia.
  - unfold size_max. lia.
  - intros n Hn. apply Ha. unfold str_limit. lia.
  - exists s'. split_and!; try done. split; [done | |]; unfold str_limit; lia.
Qed.

(** [string_concat] also leaves a terminator behind the content. *)
Lemma concat_appends_z sta s :
  alloc_enough -> good_str s -> s_length s + zlen sta < str_limit ->
  exists s', string_concat s sta = Ret (true, s') /\ good_str s' /\
    content s' = content s ++ sta /\ s_growby s' = s_growby s /\
    default [] (s_s s') !! Z.to_nat (s_length s') = Some 0.
Proof.
  intros Ha [Hw Hg Hsz] Hl. pose proof (wf_length s Hw). unfold str_limit in *.
  pose proof (zlen_nonneg sta).
  destruct (concatb_ok s (sta ++ [0]) (strlen sta + 1)) as (s' & E & Hw' & Hc & Hg' & Hs');
    unfold strlen in *; try done; try (unfold size_max; zlia).
  { intros n Hn. apply Ha. unfold str_limit. lia. }
  rewrite ztake_all in Hc by zlia.
  assert (s_length s' = s_length s + zlen sta + 1) as Hlen.
  { rewrite (good_length s s' (sta ++ [0])) by done. zlia. }
  unfold string_concat, strlen. rewrite E. cbn. rewrite u64_small by lia.
  eexists; split_and!; [done | | | done |]; cbn.
  - pose proof (wf_length _ Hw'). destruct Hw'. split; [split; cbn; try lia; done | |];
      cbn; unfold str_limit; lia.
  - unfold content at 1; cbn. replace (s_length s' - 1) with (s_length s + zlen sta) by lia.
    transitivity (ztake (s_length s + zlen sta) (content s')).
    + unfold content. rewrite ztake_ztake. f_equal. lia.
    + rewrite Hc, app_assoc, ztake_app_le; [apply ztake_all|];
        rewrite zlen_app, zlen_content by done; lia.
  - assert (content s' !! Z.to_nat (s_length s' - 1) = Some 0) as Hz.
    { rewrite Hc, app_assoc, lookup_app_r; rewrite length_app.
      - replace (_ - _)%nat with 0%nat; [done|].
        pose proof (zlen_content s Hw). zlia.
      - pose proof (zlen_content s Hw). zlia. }
    unfold content in Hz. apply lookup_take_Some in Hz as [Hz _]. done.
Qed.

Lemma concat_appends sta : alloc_enough -> appends (fun s => string_concat s sta) sta.
Proof.
  intros Ha s Hs Hl.
  destruct (concat_appends_z sta s) as (s' & E & Hs' & Hc & Hg & _); eauto 6.
Qed.

Lemma putc_ok s c :
  wf_str s -> 0 < s_growby s -> s_length s + 1 + s_growby s <= size_max ->
  alloc_upto (s_size s + s_growby s) ->
  exists s', string_putc s c = Ret (true, s') /\ wf_str s' /\
    content s' = content s ++ [c] /\ s_growby s' = s_growby s /\
    s_size s <= s_size s' <= Z.max (s_size s) (s_length s + s_growby s) /\
    s_length s' = s_length s + 1 /\ s_length s' <= s_size s' /\
    default [] (s_s s') !! Z.to_nat (s_length s) = Some c.
Proof.
  intros Hw Hg Hmax Ha. pose proof (wf_length s Hw). pose proof (wf_size s Hw).
  unfold string_putc. unfold size_max in *.
  assert (forall s1, wf_str s1 -> s_length s1 < s_size s1 ->
    exists s', putc_store s1 c = Ret (true, s') /\ wf_str s' /\
      content s' = content s1 ++ [c] /\ s_growby s' = s_growby s1 /\
      s_size s' = s_size s1 /\ s_length s' = s_length s1 + 1 /\
      default [] (s_s s') !! Z.to_nat (s_length s1) = Some c) as Hstore.
  { intros s1 Hw1 Hr. pose proof (wf_buf s1 Hw1) as Hb. pose proof (wf_length s1 Hw1).
    pose proof (wf_size s1 Hw1). unfold putc_store.
    destruct (s_s s1) as [b|] eqn:E; [|lia].
    replace (s_length s1 <? zlen b) with true by lia.
    pose proof (ztake_bwrite (s_length s1) [c] b) as Hbw.
    change (zlen [c]) with 1 in Hbw.
    unfold size_max in *.
    eexists; split_and!; [done | | | done | done | cbn; apply u64_small; lia |].
    - split; cbn; rewrite ?u64_small by lia; unfold size_max; try lia.
      + apply Hw1.
      + rewrite bwrite_length by zlia. lia.
    - unfold content; cbn. rewrite u64_small, E by lia. apply Hbw; lia.
    - cbn. unfold bwrite. rewrite lookup_app_r by zlia.
      replace (_ - _)%nat with 0%nat by zlia. done. }
  destruct (Z.eqb_spec (s_size s) (s_length s)) as [E|E].
  - rewrite u64_small by lia. rewrite Ha by lia.
    assert (s_size s + s_growby s <= size_max) by (unfold size_max; lia).
    destruct (Hstore (str_grow s (s_growby s))) as (s' & -> & Hw' & Hc & Hg' & Hs' & Hl' & Hz).
    + apply str_grow_wf; try done; lia.
    + rewrite str_grow_size by (done || lia). cbn. lia.
    + rewrite str_grow_content in Hc by (done || lia).
      rewrite str_grow_size in Hs' by (done || lia). cbn in Hg', Hl', Hz.
      exists s'. split_and!; try done; lia.
  - destruct (Hstore s) as (s' & -> & Hw' & Hc & Hg' & Hs' & Hl' & Hz); [done | lia |].
    exists s'. split_and!; try done; lia.
Qed.

Lemma putc_appends c : alloc_enough -> appends (fun s => string_putc s c) [c].
Proof.
  intros Ha s [Hw Hg Hsz] Hl. change (zlen [c]) with 1 in Hl.
  pose proof (wf_length s Hw). unfold str_limit in *.
  destruct (putc_ok s c) as (s' & E & Hw' & Hc & Hg' & Hs' & _); try done; try lia.
  - unfold size_max. lia.
  - intros n Hn. apply Ha. unfold str_limit. lia.
  - exists s'. split_and!; try done. split; [done | |]; unfold str_limit; lia.
Qed.

(** A 32-bit number never reaches the limit of the conversion buffer. *)
Lemma dec_length i : -2 ^ 31 <= i < 2 ^ 31 -> zlen (dec i) < 31.
Proof.
  intros Hi. enough (forall n, 0 <= n <= 2 ^ 31 -> zlen (dec_nat n) <= 11) as Hn.
  { unfold dec. destruct (Z.ltb_spec i 0).
    - rewrite zlen_cons. specialize (Hn (- i)). lia.
    - specialize (Hn i). lia. }
  intros n Hn. unfold dec_nat.
  enough (forall k f m, 0 <= m < 10 ^ (Z.of_nat k + 1) -> zlen (dec_digits f m) <= Z.of_nat k + 1)
    as Hd.
  { specialize (Hd 9%nat (S (Z.to_nat (Z.log2 n))) n).
    change (10 ^ (Z.of_nat 9 + 1)) with 10000000000 in Hd. lia. }
  clear. induction k as [|k IH]; intros f m Hm; destruct f as [|f]; cbn [dec_digits]; try zlia.
  - change (10 ^ (Z.of_nat 0 + 1)) with 10 in Hm. replace (m <? 10) with true by lia. zlia.
  - case_bool; [zlia|]. specialize (IH f (m / 10)).
    rewrite Nat2Z.inj_succ, Z.add_succ_l, Z.pow_succ_r in Hm by lia.
    assert (0 <= m / 10 < 10 ^ (Z.of_nat k + 1)).
    { split; [apply Z.div_pos; lia | apply Z.div_lt_upper_bound; lia]. }
    zlia.
Qed.

Lemma putint_appends i :
  alloc_enough -> -2 ^ 31 <= i < 2 ^ 31 -> appends (fun s => string_putint s i) (dec i).
Proof.
  intros Ha Hi. pose proof (dec_length i Hi) as Hd. unfold string_putint, MAXSTRINGLEN.
  replace (32 - 1 <=? zlen (dec i)) with false by lia.
  pose proof (zlen_nonneg (dec i)).
  replace (ztake (32 - 1) (dec i)) with (dec i) by (symmetry; apply ztake_all; lia).
  eapply appends_ext; [apply concatb_appends; [done | zlia]|].
  rewrite ztake_app_le by lia. by apply ztake_all.
Qed.

End Contract.

(** ** Reading a buffer as a C string *)

Section Terminated.
Context `{Allocator}.

Lemma strchr_terminated t b :
  nonul t -> take (length t) b = t -> b !! length t = Some 0 ->
  exists f, strchr b 0 = Some (t, f).
Proof.
  intros Ht Htake Hz. rewrite <- (take_drop (length t) b), Htake.
  rewrite (drop_S b 0 (length t)) by done.
  eexists. apply strchr_app. intros Hin.
  unfold nonul in Ht. rewrite list.Forall_forall in Ht. by apply (Ht 0).
Qed.

Lemma cstr_content s :
  wf_str s -> nonul (content s) ->
  default [] (s_s s) !! Z.to_nat (s_length s) = Some 0 ->
  string_cstr s = Some (content s).
Proof.
  intros Hw Hn Hz. pose proof (zlen_content s Hw) as Hl. unfold string_cstr.
  destruct (s_s s) as [b|] eqn:E; cbn in Hz; [|done].
  assert (content s = take (Z.to_nat (s_length s)) b) as Hc by (unfold content; by rewrite E).
  assert (length (content s) = Z.to_nat (s_length s)) as Hn' by zlia.
  destruct (strchr_terminated (content s) b) as (f & ->); rewrite ?Hn'; done.
Qed.

(** The terminating step of [string_ensurez]: one NUL behind the content. *)
Lemma terminate_ok s :
  wf_str s -> 0 < s_growby s -> s_length s + 1 + s_growby s <= size_max ->
  alloc_upto (s_size s + s_growby s) ->
  exists s' s1, string_putc s 0 = Ret (true, s1) /\
    s' = mkstr (u64 (s_length s1 - 1)) (s_size s1) (s_growby s1) (s_s s1) /\
    wf_str s' /\ content s' = content s /\ s_growby s' = s_growby s /\
    s_length s' = s_length s /\
    s_size s' <= Z.max (s_size s) (s_length s + s_growby s) /\
    default [] (s_s s') !! Z.to_nat (s_length s') = Some 0.
Proof.
  intros Hw Hg Hmax Ha. pose proof (wf_length s Hw). pose proof (wf_size s Hw).
  destruct (putc_ok s 0) as (s1 & E & Hw1 & Hc & Hg1 & Hs & Hl & Hle & Hz); try done.
  unfold size_max in *.
  exists (mkstr (u64 (s_length s1 - 1)) (s_size s1) (s_growby s1) (s_s s1)), s1.
  rewrite u64_small by lia. replace (s_length s1 - 1) with (s_length s) by lia.
  split_and!; try done; cbn; try lia.
  - pose proof (wf_size s1 Hw1). destruct Hw1. unfold size_max in *. split; cbn; unfold size_max; first [lia | done].
  - unfold content at 1; cbn. transitivity (ztake (s_length s) (content s1)).
    + unfold content. rewrite ztake_ztake. f_equal. lia.
    + rewrite Hc, ztake_app_le by (rewrite zlen_content; done || lia).
      apply ztake_all. rewrite zlen_content by done. lia.
Qed.

Lemma content_last s b :
  wf_str s -> s_s s = Some b -> 0 < s_length s ->
  content s !! Z.to_nat (s_length s - 1) = Some (nth (Z.to_nat (s_length s - 1)) b 0).
Proof.
  intros Hw E Hl. pose proof (wf_buf s Hw) as Hb. rewrite E in Hb. pose proof (wf_length s Hw).
  unfold content. rewrite E. cbn. unfold ztake. rewrite lookup_take_lt by lia.
  destruct (lookup_lt_is_Some_2 b (Z.to_nat (s_length s - 1))) as [c Hc]; [zlia|].
  by rewrite Hc, (nth_lookup_Some b _ 0 c Hc).
Qed.

(** [string_ensurez] on a buffer whose content has no NUL: the content stays
    and the buffer reads as that C string. *)
Lemma ensurez_ok s :
  wf_str s -> 0 < s_growby s -> s_length s + 1 + s_growby s <= size_max ->
  alloc_upto (s_size s + s_growby s) ->
  nonul (content s) -> (0 < s_length s \/ s_s s = None) ->
  exists s', string_ensurez s = Ret (true, s') /\ wf_str s' /\ content s' = content s /\
    s_growby s' = s_growby s /\ s_size s' <= Z.max (s_size s) (s_length s + s_growby s) /\
    string_cstr s' = Some (content s) /\
    default [] (s_s s') !! Z.to_nat (s_length s') = Some 0.
Proof.
  intros Hw Hg Hmax Ha Hn Hl.
  destruct (terminate_ok s) as (s' & s1 & E & -> & Hw' & Hc & Hg' & Hlen & Hsz & Hz); try done.
  exists (mkstr (u64 (s_length s1 - 1)) (s_size s1) (s_growby s1) (s_s s1)).
  split_and!; try done; [|rewrite cstr_content; rewrite ?Hc; done].
  unfold string_ensurez. rewrite E. cbn.
  destruct (s_s s) as [b|] eqn:Eb; [|done].
  destruct Hl as [Hl|]; [|done].
  pose proof (wf_length s Hw). pose proof (wf_size s Hw). unfold size_max in *.
  pose proof (wf_buf s Hw) as Hb. rewrite Eb in Hb.
  replace (s_length s =? 0) with false by lia.
  rewrite u64_small by lia. replace (zlen b <=? s_length s - 1) with false by lia.
  pose proof (content_last s b Hw Eb Hl) as Hlast.
  destruct (Z.eqb_spec (nth (Z.to_nat (s_length s - 1)) b 0) 0) as [E0|]; [|done].
  rewrite E0 in Hlast. unfold nonul in Hn. rewrite list.Forall_forall in Hn.
  exfalso. by apply (Hn 0); [eapply list_elem_of_lookup_2|].
Qed.

End Terminated.

(** ** Buffers that hold a C string *)

(** What [string_get] gives to a function that wants a C string. *)
Definition cstr_of (s : strbuf) : outcome text :=
  match string_cstr s with Some t => Ret t | None => Undef end.

Section Holds.
Context `{Allocator}.
Hypothesis Hmem : alloc_enough.

(** [s] is good, holds the text [c] and is terminated behind it. *)
Record holds (s : strbuf) (c : text) : Prop := {
  holds_good : good_str s;
  holds_content : content s = c;
  holds_nonul : nonul c;
  holds_end : default [] (s_s s) !! Z.to_nat (s_length s) = Some 0
}.

Lemma holds_length s c : holds s c -> s_length s = zlen c.
Proof using Type. intros [Hg <- _ _]. symmetry. apply zlen_content, Hg. Qed.

Lemma holds_cstr s c : holds s c -> cstr_of s = Ret c.
Proof using Type.
  intros [Hg Hc Hn Hz]. unfold cstr_of. rewrite cstr_content; [by rewrite Hc | apply Hg | | done].
  by rewrite Hc.
Qed.

Lemma concat_holds s t :
  good_str s -> nonul (content s ++ t) -> s_length s + zlen t < str_limit ->
  exists s', string_concat s t = Ret (true, s') /\ holds s' (content s ++ t).
Proof using Hmem.
  intros Hg Hn Hl. destruct (concat_appends_z t s Hmem Hg Hl) as (s' & E & Hg' & Hc & _ & Hz).
  exists s'. split; [done|]. by split.
Qed.

Lemma ensurez_holds s :
  good_str s -> nonul (content s) -> (0 < s_length s \/ s_s s = None) -> s_length s + 1 < str_limit ->
  exists s', string_ensurez s = Ret (true, s') /\ holds s' (content s).
Proof using Hmem.
  intros [Hw Hg Hsz] Hn Hl Hlim. pose proof (wf_length s Hw). unfold str_limit in *.
  destruct (ensurez_ok s) as (s' & E & Hw' & Hc & Hg' & Hsz' & _ & Hz);
    try done; try (unfold size_max; lia).
  { intros n Hn'. apply Hmem. unfold str_limit. lia. }
  exists s'. split; [done|]. split; try done. split; unfold str_limit; [done | lia..].
Qed.

(** A fresh buffer, and the text concatenated into it. *)
Lemma init_good size g :
  0 <= size <= str_limit -> 0 < g <= str_limit ->
  exists s, string_init size g = (true, s) /\ good_str s /\ content s = [] /\ s_length s = 0.
Proof using Hmem. by apply good_init. Qed.

End Holds.
