(* ===== verification/StrSafe.v ===== *)
(** * Buffers under an allocator that may refuse

    The theorems of StrBuf.v say what an operation does when memory is granted.
    Here: whatever the allocator does, a buffer that comes back from an operation
    is well formed, and its content is the old one or the old one with the new
    bytes.  The one thing assumed of the allocator is what the C library promises,
    that no object is larger than PTRDIFF_MAX. *)

From S2P Require Import Prelude CLib CString StrBuf.

Definition ptrdiff_max : Z := 2 ^ 63 - 1.

(** No object is larger than PTRDIFF_MAX. *)
Definition alloc_ptrdiff `{Allocator} : Prop := forall n, alloc_ok n = true -> n <= ptrdiff_max.

(** The allocator that grants every possible request. *)
Definition greatest : Allocator := {| alloc_ok := fun n => n <=? ptrdiff_max; byte_before := Some 0 |}.

Lemma greatest_ptrdiff : @alloc_ptrdiff greatest.
Proof. intros n Hn. cbn in Hn. lia. Qed.

Record sane (s : strbuf) : Prop := {
  sane_wf : wf_str s;
  sane_size : s_size s <= ptrdiff_max;
  sane_growby : s_growby s <= str_limit
}.

Section Sane.
Context `{Allocator}.
Hypothesis Hptr : alloc_ptrdiff.

Lemma sane_init size g :
  0 <= size <= ptrdiff_max -> 0 <= g <= str_limit -> sane (snd (string_init size g)).
Proof using Type.
  unfold ptrdiff_max, str_limit. intros Hs Hg. split.
  - apply wf_init; unfold size_max; lia.
  - unfold string_init, ptrdiff_max. destruct (alloc_ok size); cbn; lia.
  - unfold string_init, str_limit. destruct (alloc_ok size); cbn; lia.
Qed.

Lemma sane_lazyinit g : 0 <= g <= str_limit -> sane (string_lazyinit g).
Proof using Type.
  unfold str_limit. intros Hg. split; [apply wf_lazyinit; unfold size_max; lia | cbn; unfold ptrdiff_max; lia | cbn; unfold str_limit; lia].
Qed.

Lemma sane_clear s : sane s -> sane (string_clear s).
Proof using Type. intros [Hw ? ?]. split; [by apply wf_clear | done..]. Qed.

Lemma sane_free s : sane s -> sane (string_free s).
Proof using Type.
  intros [Hw ? ?]. split; [by apply wf_free | ..].
  all: unfold string_free, ptrdiff_max in *; destruct (s_s s); cbn; lia.
Qed.

Lemma content_free s : wf_str s -> content (string_free s) = [].
Proof using Type.
  intros Hw. unfold string_free, content. destruct (s_s s) eqn:E; cbn; [done|].
  rewrite E. cbn. unfold ztake. by rewrite take_nil.
Qed.

(** A growth loop that ends has found room, without wrapping around. *)
Lemma grow_loop_room fuel s g len g' :
  sane s -> 0 <= g -> s_size s + g < 2 ^ 64 ->
  grow_loop fuel s g len = GrowBy g' ->
  0 <= g' /\ s_size s + g' < 2 ^ 64 /\ len <= s_size s + g' - s_length s.
Proof using Type.
  intros Hs. pose proof (wf_length s (sane_wf s Hs)). pose proof (wf_growby s (sane_wf s Hs)).
  pose proof (sane_size s Hs). pose proof (sane_growby s Hs).
  unfold ptrdiff_max, size_max, str_limit in *.
  revert g; induction fuel as [|fuel IH]; intros g Hg Hb; cbn [grow_loop]; [done|].
  rewrite (u64_small (s_size s + g - s_length s)) by lia.
  destruct (Z.ltb_spec (s_size s + g - s_length s) len).
  - pose proof (Z.mod_pos_bound (g + s_growby s) (2 ^ 64)). unfold u64 in *.
    destruct (Z.ltb_spec ((s_size s + (g + s_growby s) mod 2 ^ 64) mod 2 ^ 64) (s_size s)) as [|Hno]; [done|].
    intros E. eapply IH; [| | exact E]; [lia|].
    destruct (Z.lt_ge_cases (s_size s + (g + s_growby s) mod 2 ^ 64) (2 ^ 64)) as [|Hge]; [done|].
    exfalso. set (x := (g + s_growby s) mod 2 ^ 64) in *.
    rewrite (Z.mod_eq (s_size s + x) (2 ^ 64)) in Hno by lia.
    assert ((s_size s + x) / 2 ^ 64 = 1) as Hq; [|rewrite Hq in Hno; lia].
    symmetry. apply (Z.div_unique_pos _ _ 1 (s_size s + x - 2 ^ 64)); lia.
  - intros [= <-]. lia.
Qed.

Lemma str_grow_sane s g :
  sane s -> 0 <= g -> s_size s + g < 2 ^ 64 -> alloc_ok (u64 (s_size s + g)) = true ->
  sane (str_grow s g) /\ content (str_grow s g) = content s /\ s_size (str_grow s g) = s_size s + g.
Proof using Hptr.
  intros Hs Hg Hb Ha. pose proof (wf_length s (sane_wf s Hs)). apply Hptr in Ha.
  rewrite u64_small in Ha by lia. destruct Hs as [Hw ? ?].
  assert (s_size s + g <= size_max) by (unfold size_max; lia).
  rewrite str_grow_size by done. split_and!; [|by apply str_grow_content | done].
  split; [by apply str_grow_wf | by rewrite str_grow_size | done].
Qed.

Lemma str_store_sane s sta len ok s' :
  sane s -> 0 <= len -> s_length s + len <= s_size s -> str_store s sta len = Ret (ok, s') ->
  ok = true /\ sane s' /\ content s' = content s ++ ztake len sta.
Proof using Type.
  intros [Hw Hs Hg] Hlen Hroom E.
  destruct (Z.ltb_spec (zlen sta) len) as [Hlt|Hge].
  - unfold str_store in E. by replace (zlen sta <? len) with true in E by lia.
  - destruct (str_store_ok s sta len) as (s1 & E1 & Hw1 & Hc & Hg1 & Hs1 & _); [done|lia|done|].
    rewrite E1 in E. injection E as <- <-. split_and!; try done. split; [done | lia..].
Qed.

(** [string_concatb] appends the bytes, or returns false and does nothing. *)
Lemma concatb_sane s sta len ok s' :
  sane s -> 0 <= len -> string_concatb s sta len = Ret (ok, s') ->
  sane s' /\ (if ok then content s' = content s ++ ztake len sta else s' = s).
Proof using Hptr.
  intros Hs Hlen. pose proof (wf_length s (sane_wf s Hs)). pose proof (sane_size s Hs).
  pose proof (sane_growby s Hs). pose proof (wf_growby s (sane_wf s Hs)).
  unfold ptrdiff_max, str_limit in *.
  unfold string_concatb. rewrite (u64_small (s_size s - s_length s)) by lia.
  destruct (Z.ltb_spec (s_size s - s_length s) len) as [Hlt|Hge].
  - destruct (s_growby s =? 0); [intros [= <- <-]; done|].
    destruct (grow_loop _ _ _ _) as [g| |] eqn:Eg; [|intros [= <- <-]; done | done].
    destruct (grow_loop_room (grow_fuel s len) s (s_growby s) len g Hs) as (Hg & Hb & Hr); [lia|lia|exact Eg|].
    destruct (alloc_ok _) eqn:Ea; [|done].
    destruct (str_grow_sane s g Hs Hg Hb Ea) as (Hs1 & Hc1 & Hz1).
    intros E. destruct (str_store_sane (str_grow s g) sta len ok s') as (-> & Hs' & Hc'); try done.
    { rewrite Hz1. cbn. lia. }
    split; [done|]. by rewrite Hc', Hc1.
  - intros E. destruct (str_store_sane s sta len ok s') as (-> & Hs' & Hc'); try done. lia.
Qed.

Lemma content_shorter s n :
  sane s -> 0 <= n <= s_length s ->
  sane (mkstr n (s_size s) (s_growby s) (s_s s)) /\
  content (mkstr n (s_size s) (s_growby s) (s_s s)) = ztake n (content s).
Proof using Type.
  intros [Hw Hs Hg] Hn. pose proof (wf_length s Hw). split.
  - split; [|done..]. destruct Hw. split; cbn; [lia | done | done | done].
  - unfold content; cbn. rewrite ztake_ztake. f_equal. lia.
Qed.

Lemma putc_sane s c ok s' :
  sane s -> string_putc s c = Ret (ok, s') ->
  sane s' /\ (if ok then content s' = content s ++ [c] else s' = s).
Proof using Hptr.
  intros Hs. pose proof (wf_length s (sane_wf s Hs)). pose proof (sane_size s Hs).
  pose proof (sane_growby s Hs). pose proof (wf_growby s (sane_wf s Hs)).
  unfold ptrdiff_max, str_limit in *.
  assert (forall s1, sane s1 -> putc_store s1 c = Ret (ok, s') ->
    ok = true /\ sane s' /\ content s' = content s1 ++ [c]) as Hstore.
  { intros s1 Hs1. unfold putc_store. destruct (s_s s1) as [b|] eqn:Eb; [|done].
    pose proof (wf_length s1 (sane_wf s1 Hs1)) as Hl. pose proof (wf_buf s1 (sane_wf s1 Hs1)) as Hb.
    rewrite Eb in Hb. destruct (Z.ltb_spec (s_length s1) (zlen b)); [|done].
    intros E. apply (str_store_sane s1 [c] 1); [done|lia|lia|]. rewrite <- E. unfold str_store.
    change (zlen [c] <? 1) with false. change (1 =? 0) with false. cbn iota. rewrite Eb.
    by replace (zlen b <? s_length s1 + 1) with false by lia. }
  unfold string_putc. destruct (s_size s =? s_length s).
  - destruct (alloc_ok _) eqn:Ea; [|intros [= <- <-]; done].
    destruct (str_grow_sane s (s_growby s) Hs) as (Hs1 & Hc1 & _); [lia|lia|done|].
    intros E. destruct (Hstore _ Hs1 E) as (-> & Hs' & Hc'). by rewrite Hc', Hc1.
  - intros E. destruct (Hstore _ Hs E) as (-> & Hs' & Hc'). done.
Qed.

Lemma terminated_length s s1 c :
  sane s -> sane s1 -> content s1 = content s ++ [c] -> u64 (s_length s1 - 1) = s_length s.
Proof using Type.
  intros Hs Hs1 Hc. pose proof (wf_length s (sane_wf s Hs)). pose proof (sane_size s Hs).
  pose proof (zlen_content s (sane_wf s Hs)) as Hl. pose proof (zlen_content s1 (sane_wf s1 Hs1)) as Hl1.
  rewrite Hc, zlen_app in Hl1. unfold ptrdiff_max in *. change (zlen [c]) with 1 in Hl1.
  rewrite u64_small by lia. lia.
Qed.

(** [string_ensurez] never changes the content. *)
Lemma ensurez_sane s ok s' :
  sane s -> string_ensurez s = Ret (ok, s') -> sane s' /\ content s' = content s.
Proof using Hptr.
  intros Hs.
  assert (('(ok0, s'0) ← string_putc s 0;
           if ok0 : bool then Ret (true, mkstr (u64 (s_length s'0 - 1)) (s_size s'0) (s_growby s'0) (s_s s'0))
           else Ret (false, s'0)) = Ret (ok, s') -> sane s' /\ content s' = content s) as Hterm.
  { destruct (string_putc s 0) as [[ok1 s1]| |] eqn:Ep; [|done..]. cbn.
    destruct (putc_sane s 0 ok1 s1 Hs Ep) as (Hs1 & Hc1).
    destruct ok1; [|intros [= <- <-]; by subst s1].
    intros [= <- <-]. rewrite (terminated_length s s1 0) by done.
    pose proof (wf_length s (sane_wf s Hs)). pose proof (zlen_content s (sane_wf s Hs)).
    pose proof (zlen_content s1 (sane_wf s1 Hs1)) as Hl1. rewrite Hc1, zlen_app in Hl1.
    change (zlen [0]) with 1 in Hl1.
    destruct (content_shorter s1 (s_length s) Hs1) as (Ha & Hb); [lia|]. split; [done|].
    rewrite Hb, Hc1, ztake_app_le by lia. apply ztake_all. lia. }
  unfold string_ensurez. destruct (s_s s) as [b|]; [|exact Hterm].
  destruct (s_length s =? 0).
  - destruct byte_before as [c|]; [|done]. destruct (c =? 0); [intros [= <- <-]; done | exact Hterm].
  - cbn. destruct (zlen b <=? _); [done|]. destruct (_ =? 0); [intros [= <- <-]; done | exact Hterm].
Qed.

End Sane.
