(* ===== verification/StrFmt.v ===== *)
(** * Formatted output: string_concat_sprintf

    [string_concat_sprintf] interprets [%s], [%S] and [%d] itself and hands any
    other directive to the C library's [vsnprintf].  [render] is the reference
    the loop is compared with: the text a format denotes, as a plain function. *)

From S2P Require Import Prelude CLib CString StrBuf.

(** One variable argument. *)
Inductive arg :=
| AStr (p : cptr)        (** [char *] *)
| AString (s : strbuf)   (** [struct string *] *)
| AInt (i : Z).          (** [int] *)

(** ** The C library's conversions

    A directive is %, flags, an optional width, an optional precision and a
    conversion character.  [s], [c], [d], [x], [X] and % are described; a
    directive with any other conversion is not, and is [None]. *)

Definition is_flag (c : char) : bool :=
  (c =? 45) || (c =? 48) || (c =? 32) || (c =? 35) || (c =? 43) || (c =? 39).

Fixpoint hex_digits (fuel : nat) (a n : Z) : text :=
  match fuel with
  | O => []
  | S fuel' =>
      let d := n mod 16 in
      let c := if d <? 10 then 48 + d else a + (d - 10) in
      if n <? 16 then [c] else hex_digits fuel' a (n / 16) ++ [c]
  end.

Definition pad (left zero : bool) (width : Z) (t : text) : text :=
  let fill := width - zlen t in
  if left then t ++ zrep fill 32
  else if zero then zrep fill 48 ++ t
  else zrep fill 32 ++ t.

(** The text of one directive [%...] (without the %), and the arguments left. *)
Definition vsnprintf (fmt : text) (args : list arg) : option (text * list arg) :=
  let flags := take_until (fun c => negb (is_flag c)) fmt in
  let rest := skip_while is_flag fmt in
  let left := bool_decide (45 ∈ flags) in
  let zero := bool_decide (48 ∈ flags) in
  let '(width, rest) := scan_digits 10 0 rest in
  let '(prec, rest) :=
    match rest with
    | 46 :: rest => let '(p, rest) := scan_digits 10 0 rest in (Some p, rest)
    | _ => (None, rest)
    end in
  match rest, args with
  | [115], AStr (Some t) :: args =>
      let t := match prec with Some p => ztake p t | None => t end in
      Some (pad left false width t, args)
  | [99], AInt i :: args => Some (pad left false width [u8 i], args)
  | [100], AInt i :: args => Some (pad left zero width (dec i), args)
  | [120], AInt i :: args => Some (pad left zero width (
      let t := hex_digits 8 97 (u32 i) in
      match prec with Some p => pad false true p t | None => t end), args)
  | [88], AInt i :: args => Some (pad left zero width (hex_digits 8 65 (u32 i)), args)
  | [37], _ => Some ([37], args)
  | _, _ => None
  end.

(** ** string/string_concat_sprintf.c *)

Definition STRING_CFS_SIZE : Z := 32.
Definition cfsmaxlen : Z := STRING_CFS_SIZE - 2.

(** The characters that open or continue a complex directive. *)
Definition is_cfs_char (c : char) : bool :=
  isdigit c || (c =? 46) || (c =? 32) || (c =? 35) || (c =? 43) || (c =? 45) || (c =? 39).

Section Sprintf.
Context `{Allocator}.

(** The buffer of 4096 bytes holds the text cut to 4095 bytes and a NUL; the
    length [vsnprintf] returns is that of the whole text. *)
Definition defprintf (s : strbuf) (fmt : text) (args : list arg)
  : outcome (bool * strbuf * list arg) :=
  match vsnprintf fmt args with
  | None => Undef
  | Some (out, args') =>
      '(ok, s') ← string_concatb s (if zlen out <? 4096 then out ++ [0]
                                    else ztake 4095 out ++ [0]) (zlen out);
      Ret (ok, s', args')
  end.

(** The loop that collects a complex directive: [cfsptr] characters of [cfs]
    are filled, [msg] is at the current character.  It ends at the first
    character that does not continue the directive. *)
Fixpoint cfs_loop (cfs : text) (msg : text) : outcome (text * text) :=
  match msg with
  | [] => Ret (cfs, [])
  | c :: msg' =>
      if is_cfs_char c then
        if zlen cfs + 1 =? cfsmaxlen then Exit 1 else cfs_loop (cfs ++ [c]) msg'
      else Ret (cfs, msg)
  end.

(** The [for] loop over the format.  The fuel is the number of its turns; each
    turn consumes a character. *)
Fixpoint sprintf_loop (fuel : nat) (s : strbuf) (msg : text) (args : list arg)
  : outcome (bool * strbuf) :=
  match fuel with
  | O => Undef
  | S fuel' =>
      match msg with
      | [] => Ret (true, s)
      | c :: msg1 =>
          if c =? 37 then
            match msg1 with
            | [] => Ret (true, s)                     (* case 0: goto finished *)
            | curchar :: msg2 =>
                if curchar =? 115 then                (* case s *)
                  match args with
                  | AStr (Some a_s) :: args' =>
                      '(ok, s') ← string_concat s a_s;
                      if ok : bool then sprintf_loop fuel' s' msg2 args' else Ret (false, s')
                  | _ => Undef
                  end
                else if curchar =? 83 then            (* case S *)
                  match args with
                  | AString a_S :: args' =>
                      '(ok, s') ← string_concats s a_S;
                      if ok : bool then sprintf_loop fuel' s' msg2 args' else Ret (false, s')
                  | _ => Undef
                  end
                else if curchar =? 100 then           (* case d *)
                  match args with
                  | AInt a_i :: args' =>
                      '(ok, s') ← string_putint s a_i;
                      if ok : bool then sprintf_loop fuel' s' msg2 args' else Ret (false, s')
                  | _ => Undef
                  end
                else
                  '(cfs, rest) ← (if is_cfs_char curchar then cfs_loop [] msg1
                                  else Ret ([], msg1));
                  match rest with
                  | [] => Undef                       (* the directive has no end *)
                  | conv :: msg3 =>
                      '(ok, s', args') ← defprintf s (cfs ++ [conv]) args;
                      if ok : bool then sprintf_loop fuel' s' msg3 args' else Ret (false, s')
                  end
            end
          else
            '(ok, s') ← string_putc s c;
            if ok : bool then sprintf_loop fuel' s' msg1 args else Ret (false, s')
      end
  end.

Definition string_concat_sprintf (s : strbuf) (msg : text) (args : list arg)
  : outcome (bool * strbuf) :=
  '(ok, s') ← sprintf_loop (S (length msg)) s msg args;
  if ok : bool then
    '(ok, s'') ← string_putc s' 0;
    if ok : bool
    then Ret (true, mkstr (u64 (s_length s'' - 1)) (s_size s'') (s_growby s'') (s_s s''))
    else Ret (false, s'')
  else Ret (false, s').

End Sprintf.

(** ** The reference: what a format denotes *)

Fixpoint render (msg : text) (args : list arg) : option text :=
  match msg with
  | [] => Some []
  | c :: msg1 =>
      if c =? 37 then
        match msg1 with
        | [] => Some []
        | k :: msg2 =>
            if k =? 115 then
              match args with
              | AStr (Some t) :: args' => app t <$> render msg2 args'
              | _ => None
              end
            else if k =? 83 then
              match args with
              | AString b :: args' => app (content b) <$> render msg2 args'
              | _ => None
              end
            else if k =? 100 then
              match args with
              | AInt i :: args' => app (dec i) <$> render msg2 args'
              | _ => None
              end
            else if k =? 37 then app [37] <$> render msg2 args
            else None
        end
      else app [c] <$> render msg1 args
  end.

(** Arguments a C caller can pass: well-formed buffers and 32-bit numbers. *)
Definition arg_ok (a : arg) : Prop :=
  match a with
  | AStr _ => True
  | AString b => wf_str b
  | AInt i => -2 ^ 31 <= i < 2 ^ 31
  end.

(** ** The loop computes the reference *)

Section SprintfRender.
Context `{Allocator}.

Lemma concats_appends b :
  alloc_enough -> wf_str b -> appends (fun s => string_concats s b) (content b).
Proof.
  intros Ha Hb. pose proof (wf_default_buf b Hb). pose proof (wf_length b Hb).
  apply (concatb_appends (default [] (s_s b)) (s_length b)); [done | lia].
Qed.

(** *** One turn of the loop: what it appends, and what the other turns append *)

Section Turns.
Hypothesis Ha : alloc_enough.
Variables (fuel : nat) (u : text).

Lemma loop_literal c msg args : c <> 37 ->
  appends (fun s => sprintf_loop fuel s msg args) u -> appends (fun s => sprintf_loop (S fuel) s (c :: msg) args) (c :: u).
Proof using Ha.
  intros Hc Hu. cbn [sprintf_loop]. destruct (Z.eqb_spec c 37); [done|].
  by apply (appends_then (fun s => string_putc s c) (fun s => sprintf_loop fuel s msg args) [c] u (putc_appends c Ha)).
Qed.

Lemma loop_s p msg args :
  appends (fun s => sprintf_loop fuel s msg args) u ->
  appends (fun s => sprintf_loop (S fuel) s (37 :: 115 :: msg) (AStr (Some p) :: args)) (p ++ u).
Proof using Ha.
  exact (appends_then (fun s => string_concat s p) (fun s => sprintf_loop fuel s msg args) p u (concat_appends p Ha)).
Qed.

Lemma loop_S b msg args : wf_str b ->
  appends (fun s => sprintf_loop fuel s msg args) u ->
  appends (fun s => sprintf_loop (S fuel) s (37 :: 83 :: msg) (AString b :: args)) (content b ++ u).
Proof using Ha.
  intros Hb. exact (appends_then (fun s => string_concats s b) (fun s => sprintf_loop fuel s msg args) _ u (concats_appends b Ha Hb)).
Qed.

Lemma loop_d i msg args : -2 ^ 31 <= i < 2 ^ 31 ->
  appends (fun s => sprintf_loop fuel s msg args) u ->
  appends (fun s => sprintf_loop (S fuel) s (37 :: 100 :: msg) (AInt i :: args)) (dec i ++ u).
Proof using Ha.
  intros Hi. exact (appends_then (fun s => string_putint s i) (fun s => sprintf_loop fuel s msg args) _ u (putint_appends i Ha Hi)).
Qed.

(** Any other directive [%fmt] goes to the C library. *)
Lemma loop_other k msg cfs conv msg' t args args' :
  k <> 115 -> k <> 83 -> k <> 100 ->
  (if is_cfs_char k then cfs_loop [] (k :: msg) else Ret ([], k :: msg)) = Ret (cfs, conv :: msg') ->
  vsnprintf (cfs ++ [conv]) args = Some (t, args') -> zlen t < 4096 ->
  appends (fun s => sprintf_loop fuel s msg' args') u ->
  appends (fun s => sprintf_loop (S fuel) s (37 :: k :: msg) args) (t ++ u).
Proof using Ha.
  intros H1 H2 H3 Hcfs Hv Ht Hu s Hs Hl.
  assert (appends (fun s => string_concatb s (t ++ [0]) (zlen t)) t) as Hp.
  { eapply appends_ext; [apply (concatb_appends (t ++ [0]) (zlen t) Ha); rewrite zlen_app; pose proof (zlen_nonneg t); split; [lia|]; change (zlen [0]) with 1; lia|].
    by apply ztake_app_eq. }
  destruct (appends_then _ (fun s => sprintf_loop fuel s msg' args') t u Hp Hu s Hs Hl) as (s' & E & Hr).
  exists s'. split; [|done]. rewrite <- E. clear E Hr. cbn [sprintf_loop]. rewrite Z.eqb_refl.
  destruct (Z.eqb_spec k 115), (Z.eqb_spec k 83), (Z.eqb_spec k 100); try done.
  rewrite Hcfs. cbn [mbind outcome_bind]. unfold defprintf. rewrite Hv. destruct (Z.ltb_spec (zlen t) 4096); [|lia].
  unfold str_then. by destruct (string_concatb s (t ++ [0]) (zlen t)) as [[[] s1]| |].
Qed.

End Turns.

Lemma sprintf_loop_render fuel msg args t :
  alloc_enough -> render msg args = Some t -> Forall arg_ok args -> (length msg < fuel)%nat ->
  appends (fun s => sprintf_loop fuel s msg args) t.
Proof.
  intros Ha. revert msg args t. induction fuel as [|fuel IH]; intros msg args t Hr Hargs Hf; [lia|].
  destruct msg as [|c msg1]; cbn [render] in Hr; [injection Hr as <-; apply appends_skip|]. cbn [length] in Hf.
  destruct (Z.eqb_spec c 37) as [-> | Hc].
  - destruct msg1 as [|k msg2]; [injection Hr as <-; apply appends_skip|]. cbn [length] in Hf.
    destruct (Z.eqb_spec k 115) as [-> | H1]; [|destruct (Z.eqb_spec k 83) as [-> | H2];
      [|destruct (Z.eqb_spec k 100) as [-> | H3]; [|destruct (Z.eqb_spec k 37) as [-> | _]; [|done]]]].
    1-3: destruct args as [|a args]; [done|]; apply list.Forall_cons in Hargs as [Ha1 Hargs]; destruct a as [[p|]|b|i]; try done.
    all: destruct (render msg2 args) as [u|] eqn:Hu; [|done]; injection Hr as <-;
      assert (appends (fun s => sprintf_loop fuel s msg2 args) u) as Hrest by (apply IH; [done | done | lia]).
    + by apply loop_s.
    + by apply loop_S.
    + by apply loop_d.
    + by eapply (loop_other Ha fuel u 37 msg2 [] 37 msg2 [37] args args).
  - destruct (render msg1 args) as [u|] eqn:Hu; [|done]. injection Hr as <-.
    apply loop_literal; [done | done |]. apply IH; [done | done | lia].
Qed.

(** The whole call: the text is appended and a NUL stands behind it. *)
Lemma sprintf_terminates msg args t s :
  alloc_enough -> appends (fun s => sprintf_loop (S (length msg)) s msg args) t ->
  good_str s -> s_length s + zlen t < str_limit ->
  exists s', string_concat_sprintf s msg args = Ret (true, s') /\ good_str s' /\
    content s' = content s ++ t /\ s_growby s' = s_growby s /\
    default [] (s_s s') !! Z.to_nat (s_length s') = Some 0.
Proof.
  intros Ha Hloop Hs Hl. destruct (Hloop s Hs Hl) as (s1 & E & Hs1 & Hc & Hg).
  pose proof (good_length s s1 t (good_wf s Hs) (good_wf s1 Hs1) Hc) as Hlen.
  pose proof (wf_length s (good_wf s Hs)). pose proof (zlen_nonneg t).
  destruct Hs1 as [Hw1 Hg1 Hsz1]. unfold str_limit in *.
  destruct (terminate_ok s1) as (s' & s2 & E2 & -> & Hw' & Hc' & Hg' & Hl' & Hsz' & Hz);
    try done; try (unfold size_max; lia).
  { intros n Hn. apply Ha. unfold str_limit. lia. }
  unfold string_concat_sprintf. rewrite E. cbn. rewrite E2. cbn.
  eexists; split_and!; [done | | | | done].
  - split; [done | |]; unfold str_limit; cbn in *; lia.
  - by rewrite Hc', Hc.
  - by rewrite Hg', Hg.
Qed.

Lemma sprintf_of_loop msg args t :
  alloc_enough -> appends (fun s => sprintf_loop (S (length msg)) s msg args) t ->
  appends (fun s => string_concat_sprintf s msg args) t.
Proof.
  intros Ha Hloop s Hs Hl. destruct (sprintf_terminates msg args t s) as (s' & E & ? & ? & ? & _); eauto 6.
Qed.

Lemma sprintf_render_z msg args t s :
  alloc_enough -> render msg args = Some t -> Forall arg_ok args ->
  good_str s -> s_length s + zlen t < str_limit ->
  exists s', string_concat_sprintf s msg args = Ret (true, s') /\ good_str s' /\
    content s' = content s ++ t /\ s_growby s' = s_growby s /\
    default [] (s_s s') !! Z.to_nat (s_length s') = Some 0.
Proof.
  intros Ha Hr Hargs. apply sprintf_terminates; [done|]. by apply sprintf_loop_render; [| | |lia].
Qed.

Lemma sprintf_appends msg args t :
  alloc_enough -> render msg args = Some t -> Forall arg_ok args ->
  appends (fun s => string_concat_sprintf s msg args) t.
Proof. intros Ha Hr Hargs. apply sprintf_of_loop; [done|]. by apply sprintf_loop_render; [| | |lia]. Qed.

End SprintfRender.
