(* ===== verification/Hexdump.v ===== *)
(** * The hex dump: string/string_hexdump.c

    [string_hexdump] collects a row of up to sixteen bytes in three buffers and
    appends it as a line.  [hexdump_spec] is the dump as a plain function of the
    data; the theorem says that the two agree and that no buffer is too small. *)

From S2P Require Import Prelude CLib CString StrBuf StrFmt.

(** [snprintf] of one argument into a buffer of [size] bytes. *)
Definition snprintf1 (size : Z) (fmt : text) (a : arg) : text :=
  match vsnprintf fmt [a] with Some (t, _) => ztake (size - 1) t | None => [] end.

(** [strncat (dst, src, n)] *)
Definition strncat (dst src : text) (n : Z) : text := dst ++ ztake n src.

Definition sizeof_hexstr : Z := 16 * 3 + 5.
Definition sizeof_charstr : Z := 16 * 1 + 5.

Section Hexdump.
Context `{Allocator}.

Definition dump_row (s : strbuf) (addrstr hexstr charstr : text) : outcome strbuf :=
  '(_, s) ← string_concat_sprintf s (c_lit "[%4.4s]   %-50.50s  %s\n")
              [AStr (Some addrstr); AStr (Some hexstr); AStr (Some charstr)];
  Ret s.

(** The loop over [n], at the bytes from [p] on, and the rest of the last row. *)
Fixpoint hexdump_loop (p : list char) (n : Z) (addrstr hexstr charstr : text) (s : strbuf) : outcome strbuf :=
  match p with
  | [] => if strlen hexstr >? 0 then dump_row s addrstr hexstr charstr else Ret s
  | b :: p =>
      let addrstr := if n mod 16 =? 1 then snprintf1 10 (c_lit ".4x") (AInt (s32 (n - 1))) else addrstr in
      let c := if isalnum b then b else 46 in
      let bytestr := snprintf1 4 (c_lit "02X") (AInt b) ++ [32] in
      let hexstr := strncat hexstr bytestr (sizeof_hexstr - strlen hexstr - 1) in
      let bytestr := snprintf1 4 (c_lit "c") (AInt c) in
      let charstr := strncat charstr bytestr (sizeof_charstr - strlen charstr - 1) in
      if n mod 16 =? 0 then
        s ← dump_row s addrstr hexstr charstr;
        hexdump_loop p (n + 1) addrstr [] [] s
      else if n mod 8 =? 0 then
        let hexstr := strncat hexstr (c_lit "  ") (sizeof_hexstr - strlen hexstr - 1) in
        let charstr := strncat charstr (c_lit " ") (sizeof_charstr - strlen charstr - 1) in
        hexdump_loop p (n + 1) addrstr hexstr charstr s
      else hexdump_loop p (n + 1) addrstr hexstr charstr s
  end.

Definition string_hexdump (s : strbuf) (data : list char) (size : Z) : outcome strbuf :=
  hexdump_loop (ztake size data) 1 [] [] [] s.

(** What [debug_hexdump] prints to stderr; the results of [string_init] and
    [string_putc] are not looked at. *)
Definition debug_hexdump (data : list char) (len : Z) : outcome text :=
  let '(_, s) := string_init 1024 1024 in
  s ← string_hexdump s data len;
  '(_, s) ← string_putc s 0;
  match string_get s with
  | Some b => Ret (take_until (fun c => c =? 0) b)
  | None => Undef
  end.

End Hexdump.

(** ** The reference *)

Definition hex2 (b : char) : text := pad false true 2 (hex_digits 8 65 (u32 b)).
Definition hex_byte (b : char) : text := hex2 b ++ [32].
Definition shown (b : char) : char := if isalnum b then b else 46.

(** Both columns have a gap behind the eighth byte of a row. *)
Definition hex_column (row : list char) : text :=
  concat (map hex_byte (take 8 row)) ++ (if (8 <=? length row)%nat then [32; 32] else []) ++
  concat (map hex_byte (drop 8 row)).
Definition char_column (row : list char) : text :=
  map shown (take 8 row) ++ (if (8 <=? length row)%nat then [32] else []) ++ map shown (drop 8 row).

(** The offset has at least four digits; only the first four are printed. *)
Definition offset_digits (offset : Z) : text := pad false true 4 (hex_digits 8 97 (u32 offset)).

Definition row_line (offset : Z) (row : list char) : text :=
  91 :: ztake 4 (offset_digits offset) ++ c_lit "]   " ++ pad true false 50 (hex_column row) ++ c_lit "  " ++
  char_column row ++ [10].

Fixpoint rows (fuel : nat) (offset : Z) (data : list char) : text :=
  match fuel, data with
  | S fuel, _ :: _ => row_line offset (take 16 data) ++ rows fuel (offset + 16) (drop 16 data)
  | _, _ => []
  end.

Definition hexdump_spec (data : list char) : text := rows (length data) 0 data.

(** ** The code computes the reference *)

Section Proofs.
Context `{Allocator}.
Hypothesis Hmem : alloc_enough.

Lemma hex_digits_length a n fuel : zlen (hex_digits fuel a n) <= Z.of_nat fuel.
Proof using Type.
  revert n; induction fuel as [|fuel IH]; intros n; cbn [hex_digits]; [done|].
  destruct (n <? 16); [zlia|]. specialize (IH (n / 16)). zlia.
Qed.

Lemma hex_digits_nonempty a n fuel : hex_digits (S fuel) a n <> [].
Proof using Type. cbn [hex_digits]. destruct (n <? 16); [done|]. by destruct (hex_digits fuel a (n / 16)). Qed.

Lemma vsnprintf_4_4s t args :
  vsnprintf (c_lit "4.4s") (AStr (Some t) :: args) = Some (pad false false 4 (ztake 4 t), args).
Proof using Type. reflexivity. Qed.

Lemma vsnprintf_50_50s t args :
  vsnprintf (c_lit "-50.50s") (AStr (Some t) :: args) = Some (pad true false 50 (ztake 50 t), args).
Proof using Type. reflexivity. Qed.

Lemma pad_length left zero width t : zlen t <= width -> zlen (pad left zero width t) = width.
Proof using Type.
  intros Ht. pose proof (zlen_nonneg t). unfold pad.
  destruct left; [|destruct zero]; rewrite zlen_app, zlen_zrep by lia; lia.
Qed.

Lemma dump_row_appends addrstr hexstr charstr :
  4 <= zlen addrstr -> zlen hexstr <= 50 ->
  appends (fun s => string_concat_sprintf s (c_lit "[%4.4s]   %-50.50s  %s\n")
             [AStr (Some addrstr); AStr (Some hexstr); AStr (Some charstr)])
    (91 :: ztake 4 addrstr ++ c_lit "]   " ++ pad true false 50 hexstr ++ c_lit "  " ++ charstr ++ [10]).
Proof using Hmem.
  intros Ha Hh. apply sprintf_of_loop; [done|].
  change (c_lit "[%4.4s]   %-50.50s  %s\n") with
    [91; 37; 52; 46; 52; 115; 93; 32; 32; 32; 37; 45; 53; 48; 46; 53; 48; 115; 32; 32; 37; 115; 10].
  change (c_lit "]   ") with [93; 32; 32; 32]. change (c_lit "  ") with [32; 32]. cbn [length app].
  assert (zlen (ztake 4 addrstr) = 4) as H4 by (apply zlen_ztake; lia).
  assert (ztake 50 hexstr = hexstr) as H50 by (apply ztake_all; lia).
  apply loop_literal; [done | done |].
  eapply (loop_other Hmem _ _ 52); [done | done | done | reflexivity | | |].
  { rewrite (vsnprintf_4_4s addrstr). unfold pad. rewrite H4. reflexivity. }
  { lia. }
  do 4 (apply loop_literal; [done | done |]).
  eapply (loop_other Hmem _ _ 45); [done | done | done | reflexivity | | |].
  { rewrite (vsnprintf_50_50s hexstr), H50. reflexivity. }
  { rewrite pad_length by lia. lia. }
  do 2 (apply loop_literal; [done | done |]). apply loop_s; [done|].
  apply loop_literal; [done | done |]. apply appends_skip.
Qed.

(** *** The columns *)

Lemma hex2_length b : is_byte b -> zlen (hex2 b) = 2.
Proof using Type.
  intros Hb. unfold hex2. apply pad_length. unfold u32, is_byte in *. rewrite Z.mod_small by lia.
  change (hex_digits 8 65 b) with (let d := b mod 16 in let c := if d <? 10 then 48 + d else 65 + (d - 10) in
    if b <? 16 then [c] else hex_digits 7 65 (b / 16) ++ [c]). cbn zeta.
  destruct (Z.ltb_spec b 16); [zlia|]. cbn [hex_digits].
  assert (b / 16 < 16) by (apply Z.div_lt_upper_bound; lia). destruct (Z.ltb_spec (b / 16) 16); [zlia | lia].
Qed.

Lemma hex_bytes_length row : Forall is_byte row -> zlen (concat (map hex_byte row)) = 3 * zlen row.
Proof using Type.
  induction 1 as [|b row Hb Hr IH]; [done|]. cbn [map concat]. unfold hex_byte at 1.
  rewrite !zlen_app, !zlen_cons, IH, hex2_length by done. change (zlen []) with 0. lia.
Qed.

Lemma hex_column_length row : Forall is_byte row -> (length row <= 16)%nat -> zlen (hex_column row) <= 3 * zlen row + 2.
Proof using Type.
  intros Hr Hl. unfold hex_column. rewrite !zlen_app, !hex_bytes_length by (by apply Forall_take || by apply Forall_drop).
  assert (zlen (take 8 row) + zlen (drop 8 row) = zlen row) by zlia.
  destruct (8 <=? length row)%nat; [change (zlen [32; 32]) with 2 | change (zlen []) with 0]; lia.
Qed.

Lemma char_column_length row : (length row <= 16)%nat -> zlen (char_column row) <= zlen row + 1.
Proof using Type.
  intros Hl. unfold char_column. rewrite !zlen_app. unfold zlen. rewrite !length_map, length_take, length_drop.
  destruct (8 <=? length row)%nat; cbn [length]; lia.
Qed.

Lemma take_drop_snoc {A} (row : list A) b :
  take 8 (row ++ [b]) = (if (length row <? 8)%nat then row ++ [b] else take 8 row) /\
  drop 8 (row ++ [b]) = (if (length row <? 8)%nat then [] else drop 8 row ++ [b]).
Proof using Type.
  destruct (Nat.ltb_spec (length row) 8).
  - rewrite take_ge, drop_ge by (rewrite length_app; cbn; lia). done.
  - rewrite take_app_le, drop_app_le by lia. done.
Qed.

Lemma hex_column_snoc row b :
  hex_column (row ++ [b]) = hex_column row ++ hex_byte b ++ (if (length row =? 7)%nat then [32; 32] else []).
Proof using Type.
  unfold hex_column. destruct (take_drop_snoc row b) as [-> ->]. rewrite length_app. cbn [length].
  destruct (Nat.ltb_spec (length row) 8).
  - rewrite (take_ge row), (drop_ge row) by lia. rewrite map_app, concat_app. cbn [map concat].
    destruct (Nat.leb_spec 8 (length row + 1)), (Nat.leb_spec 8 (length row)), (Nat.eqb_spec (length row) 7); try lia;
      rewrite ?app_nil_r; by rewrite <- ?app_assoc.
  - rewrite map_app, concat_app. cbn [map concat].
    destruct (Nat.leb_spec 8 (length row + 1)), (Nat.leb_spec 8 (length row)), (Nat.eqb_spec (length row) 7); try lia.
    rewrite !app_nil_r. by rewrite <- !app_assoc.
Qed.

Lemma char_column_snoc row b :
  char_column (row ++ [b]) = char_column row ++ [shown b] ++ (if (length row =? 7)%nat then [32] else []).
Proof using Type.
  unfold char_column. destruct (take_drop_snoc row b) as [-> ->]. rewrite length_app. cbn [length].
  destruct (Nat.ltb_spec (length row) 8).
  - rewrite (take_ge row), (drop_ge row) by lia. rewrite map_app. cbn [map].
    destruct (Nat.leb_spec 8 (length row + 1)), (Nat.leb_spec 8 (length row)), (Nat.eqb_spec (length row) 7); try lia;
      rewrite ?app_nil_r; by rewrite <- ?app_assoc.
  - rewrite map_app. cbn [map].
    destruct (Nat.leb_spec 8 (length row + 1)), (Nat.leb_spec 8 (length row)), (Nat.eqb_spec (length row) 7); try lia.
    rewrite !app_nil_r. by rewrite <- !app_assoc.
Qed.

(** *** The conversions *)

Lemma offset_text k : 0 <= k < 2 ^ 31 -> snprintf1 10 (c_lit ".4x") (AInt (s32 k)) = offset_digits k.
Proof using Type.
  intros Hk. assert (s32 k = k) as -> by (unfold s32; rewrite Z.mod_small; lia).
  assert (vsnprintf (c_lit ".4x") [AInt k] = Some (pad false false 0 (offset_digits k), [])) as E by reflexivity.
  unfold snprintf1. rewrite E. pose proof (hex_digits_length 97 (u32 k) 8) as Hl.
  pose proof (zlen_nonneg (hex_digits 8 97 (u32 k))).
  assert (pad false false 0 (offset_digits k) = offset_digits k) as ->
    by (unfold pad, zrep; by replace (Z.to_nat (0 - _)) with 0%nat by (pose proof (zlen_nonneg (offset_digits k)); lia)).
  apply ztake_all. unfold offset_digits, pad. rewrite zlen_app. unfold zrep, zlen at 1. rewrite length_replicate. lia.
Qed.

Lemma offset_long k : 4 <= zlen (offset_digits k).
Proof using Type.
  unfold offset_digits, pad. rewrite zlen_app. unfold zrep, zlen at 1. rewrite length_replicate.
  pose proof (zlen_nonneg (hex_digits 8 97 (u32 k))). lia.
Qed.

Lemma hex_text b : is_byte b -> snprintf1 4 (c_lit "02X") (AInt b) = hex2 b.
Proof using Type.
  intros Hb. assert (vsnprintf (c_lit "02X") [AInt b] = Some (hex2 b, [])) as E by reflexivity.
  unfold snprintf1. rewrite E. apply ztake_all. rewrite hex2_length by done. lia.
Qed.

Lemma char_text c : is_byte c -> snprintf1 4 (c_lit "c") (AInt c) = [c].
Proof using Type.
  intros Hc. assert (vsnprintf (c_lit "c") [AInt c] = Some ([u8 c], [])) as E by reflexivity.
  unfold snprintf1. rewrite E. unfold u8, is_byte in *. by rewrite Z.mod_small by lia.
Qed.

Lemma strncat_all dst src n : zlen src <= n -> strncat dst src n = dst ++ src.
Proof using Type. intros Hn. unfold strncat. by rewrite ztake_all. Qed.

(** *** The rows *)

Lemma rows_enough f g offset data : (length data <= f)%nat -> (length data <= g)%nat -> rows f offset data = rows g offset data.
Proof using Type.
  revert g offset data; induction f as [|f IH]; intros g offset data Hf Hg.
  { destruct data; [|cbn in Hf; lia]. by destruct g. }
  destruct data as [|b data]; [by destruct g|]. destruct g as [|g]; [cbn in Hg; lia|]. cbn [rows].
  f_equal. apply IH; rewrite length_drop; cbn [length] in *; lia.
Qed.

Lemma rows_cons offset row data : length row = 16%nat ->
  rows (length (row ++ data)) offset (row ++ data) = row_line offset row ++ rows (length data) (offset + 16) data.
Proof using Type.
  intros Hr. destruct row as [|b row]; [done|]. cbn [app length rows].
  change (b :: row ++ data) with ((b :: row) ++ data). rewrite take_app_length', drop_app_length' by done.
  f_equal. apply rows_enough; [rewrite length_app|]; lia.
Qed.

Lemma dump_row_line s offset row :
  Forall is_byte row -> (length row <= 16)%nat -> good_str s -> s_length s + zlen (row_line offset row) < str_limit ->
  exists s', dump_row s (offset_digits offset) (hex_column row) (char_column row) = Ret s' /\ good_str s' /\
    content s' = content s ++ row_line offset row.
Proof using Hmem.
  intros Hb Hl Hs Hlim. pose proof (hex_column_length row Hb Hl). assert (zlen row <= 16) by zlia.
  destruct (dump_row_appends (offset_digits offset) (hex_column row) (char_column row)) with (s := s)
    as (s' & E & Hs' & Hc & _); [apply offset_long | | done | done |].
  - unfold hex_column. rewrite !zlen_app, !hex_bytes_length by (by apply Forall_take || by apply Forall_drop).
    assert (zlen (take 8 row) + zlen (drop 8 row) = zlen row) by zlia.
    destruct (8 <=? length row)%nat; [change (zlen [32; 32]) with 2 | change (zlen []) with 0]; lia.
  - exists s'. unfold dump_row. by rewrite E.
Qed.

(** One turn: the byte [b] behind [k] bytes of a row. *)
Lemma turn_columns row b : Forall is_byte row -> is_byte b -> (length row < 16)%nat ->
  strncat (hex_column row) (hex2 b ++ [32]) (sizeof_hexstr - strlen (hex_column row) - 1) = hex_column row ++ hex_byte b /\
  strncat (char_column row) [shown b] (sizeof_charstr - strlen (char_column row) - 1) = char_column row ++ [shown b].
Proof using Type.
  intros Hr Hb Hl. pose proof (hex_column_length row Hr ltac:(lia)). pose proof (char_column_length row ltac:(lia)).
  assert (zlen row < 16) by zlia. unfold hex_byte, strlen, sizeof_hexstr, sizeof_charstr.
  split; apply strncat_all; [rewrite zlen_app, hex2_length by done; change (zlen [32]) with 1 | change (zlen [shown b]) with 1]; lia.
Qed.

Lemma shown_byte b : is_byte b -> is_byte (shown b).
Proof using Type. unfold shown, is_byte. destruct (isalnum b); lia. Qed.

Lemma modulo_row offset (k : nat) (m : Z) : 0 <= offset -> offset mod 16 = 0 -> (k < 16)%nat ->
  (offset + Z.of_nat k + 1) mod 16 = (Z.of_nat k + 1) mod 16 /\ (offset + Z.of_nat k + 1) mod 8 = (Z.of_nat k + 1) mod 8.
Proof using Type.
  intros Ho Hm Hk. split.
  - replace (offset + Z.of_nat k + 1) with (Z.of_nat k + 1 + (offset / 16) * 16) by (pose proof (Z.div_mod offset 16); lia).
    by rewrite Z.mod_add by lia.
  - replace (offset + Z.of_nat k + 1) with (Z.of_nat k + 1 + (offset / 16 * 2) * 8) by (pose proof (Z.div_mod offset 16); lia).
    by rewrite Z.mod_add by lia.
Qed.

Lemma hexdump_turn p b row offset addrstr s :
  Forall is_byte row -> is_byte b -> (length row < 16)%nat ->
  0 <= offset -> offset + zlen row < 2 ^ 31 -> offset mod 16 = 0 -> (row <> [] -> addrstr = offset_digits offset) ->
  hexdump_loop (b :: p) (offset + zlen row + 1) addrstr (hex_column row) (char_column row) s =
  if (length row =? 15)%nat then
    s ← dump_row s (offset_digits offset) (hex_column (row ++ [b])) (char_column (row ++ [b]));
    hexdump_loop p (offset + 16 + zlen (@nil Z) + 1) (offset_digits offset) (hex_column []) (char_column []) s
  else hexdump_loop p (offset + zlen (row ++ [b]) + 1) (offset_digits offset) (hex_column (row ++ [b])) (char_column (row ++ [b])) s.
Proof using Type.
  intros Hr Hb Hl Ho Hlim Hm Ha. destruct (modulo_row offset (length row) 0 Ho Hm Hl) as [H16 H8]. fold (zlen row) in H16, H8.
  cbn [hexdump_loop]. rewrite H16, H8.
  assert ((if (zlen row + 1) mod 16 =? 1 then snprintf1 10 (c_lit ".4x") (AInt (s32 (offset + zlen row + 1 - 1))) else addrstr)
    = offset_digits offset) as ->.
  { destruct row as [|c row].
    - change (zlen (@nil Z)) with 0. change ((0 + 1) mod 16 =? 1) with true. cbn iota. change (zlen (@nil Z)) with 0 in Hlim. rewrite offset_text by lia. f_equal. lia.
    - destruct (Z.eqb_spec ((zlen (c :: row) + 1) mod 16) 1) as [E|E]; [|by apply Ha]. exfalso.
      destruct (decide (length (c :: row) = 15%nat)) as [E15|E15]; [unfold zlen in E; by rewrite E15 in E|].
      rewrite Z.mod_small in E by zlia. zlia. }
  rewrite hex_text by done. fold (shown b). rewrite char_text by (by apply shown_byte).
  destruct (turn_columns row b Hr Hb Hl) as [-> ->]. rewrite hex_column_snoc, char_column_snoc, zlen_app.
  change (zlen [b]) with 1.
  assert ((zlen row + 1) mod 16 =? 0 = (length row =? 15)%nat) as ->.
  { destruct (Nat.eqb_spec (length row) 15) as [E|E]; [unfold zlen; by rewrite E|].
    rewrite Z.mod_small by zlia. apply Z.eqb_neq. zlia. }
  destruct (Nat.eqb_spec (length row) 15) as [E15|E15].
  - replace (length row =? 7)%nat with false by (symmetry; apply Nat.eqb_neq; lia). rewrite !app_nil_r.
    replace (offset + zlen row + 1 + 1) with (offset + 16 + zlen (@nil Z) + 1) by (unfold zlen; rewrite E15; cbn; lia). done.
  - assert ((zlen row + 1) mod 8 =? 0 = (length row =? 7)%nat) as ->.
    { destruct (Nat.eqb_spec (length row) 7) as [E|E]; [unfold zlen; by rewrite E|]. apply Z.eqb_neq.
      destruct (decide (length row < 7)%nat).
      - rewrite Z.mod_small by zlia. zlia.
      - replace (zlen row + 1) with (zlen row + 1 - 8 + 1 * 8) by lia. rewrite Z.mod_add, Z.mod_small by zlia. zlia. }
    rewrite Z.add_assoc. destruct (Nat.eqb_spec (length row) 7) as [E|E]; [|by rewrite !app_nil_r].
    pose proof (hex_column_length row Hr ltac:(lia)). pose proof (char_column_length row ltac:(lia)).
    assert (zlen row = 7) by (unfold zlen; by rewrite E).
    rewrite !strncat_all; unfold strlen, sizeof_hexstr, sizeof_charstr, hex_byte;
      rewrite ?zlen_app, ?hex2_length by done; change (zlen (c_lit "  ")) with 2; change (zlen (c_lit " ")) with 1;
      change (zlen [32]) with 1; change (zlen [shown b]) with 1; try lia.
    by rewrite <- !app_assoc.
Qed.

Lemma hexdump_loop_rows p row offset addrstr s :
  Forall is_byte row -> Forall is_byte p -> (length row < 16)%nat ->
  0 <= offset -> offset + zlen row + zlen p < 2 ^ 31 -> offset mod 16 = 0 -> (row <> [] -> addrstr = offset_digits offset) ->
  good_str s -> s_length s + zlen (rows (length (row ++ p)) offset (row ++ p)) < str_limit ->
  exists s', hexdump_loop p (offset + zlen row + 1) addrstr (hex_column row) (char_column row) s = Ret s' /\ good_str s' /\
    content s' = content s ++ rows (length (row ++ p)) offset (row ++ p).
Proof using Hmem.
  revert row offset addrstr s; induction p as [|b p IH]; intros row offset addrstr s Hr Hp Hl Ho Hlim Hm Ha Hs Hsz.
  - rewrite app_nil_r in *. destruct row as [|c row]; [exists s; by rewrite app_nil_r|].
    cbn [hexdump_loop]. rewrite Ha in * by done.
    assert (rows (length (c :: row)) offset (c :: row) = row_line offset (c :: row)) as Er.
    { cbn [length rows]. rewrite take_ge, drop_ge by (cbn [length] in *; lia). destruct (length row); by rewrite app_nil_r. }
    rewrite Er in *. assert (strlen (hex_column (c :: row)) >? 0 = true) as ->.
    { apply Z.gtb_lt. unfold strlen, hex_column. cbn [take map concat]. unfold hex_byte. rewrite !zlen_app.
      change (zlen [32]) with 1. pose proof (zlen_nonneg (hex2 c)).
      assert (forall t : text, 0 <= zlen t) as Hn by (intros; apply zlen_nonneg).
      pose proof (Hn (concat (map (fun b => hex2 b ++ [32]) (take 7 row)))).
      match goal with |- _ < ?a + ?x + ?y + (?z + ?w) => pose proof (Hn (if (8 <=? length (c :: row))%nat then [32; 32] else [])) end.
      match goal with |- context [concat (map ?f (drop 8 ?r))] => pose proof (Hn (concat (map f (drop 8 r)))) end.
      unfold hex_byte in *. lia. }
    apply dump_row_line; [done | lia | done | done].
  - apply list.Forall_cons in Hp as [Hb Hp].
    assert (Forall is_byte (row ++ [b])) as Hrb by (apply Forall_app; split; [done | by apply Forall_singleton]).
    rewrite zlen_cons in Hlim. pose proof (zlen_nonneg p).
    rewrite hexdump_turn by (done || lia). change (b :: p) with ([b] ++ p) in *. rewrite (app_assoc row [b] p) in *.
    destruct (Nat.eqb_spec (length row) 15) as [E|E].
    + assert (length (row ++ [b]) = 16%nat) as E16 by (rewrite length_app; cbn; lia).
      rewrite rows_cons in * by done. rewrite zlen_app in Hsz. pose proof (zlen_nonneg (rows (length p) (offset + 16) p)).
      destruct (dump_row_line s offset (row ++ [b])) as (s1 & E1 & Hs1 & Hc1); [done | lia | done | lia |].
      rewrite E1. cbn [mbind outcome_bind].
      pose proof (good_length s s1 _ (good_wf s Hs) (good_wf s1 Hs1) Hc1) as Hl1.
      assert (zlen row = 15) by (unfold zlen; by rewrite E).
      destruct (IH [] (offset + 16) (offset_digits offset) s1) as (s' & E2 & Hs' & Hc').
      * constructor.
      * done.
      * cbn. lia.
      * lia.
      * change (zlen (@nil Z)) with 0. lia.
      * rewrite <- (Z.mul_1_l 16) at 1. by rewrite Z.mod_add by lia.
      * done.
      * done.
      * cbn [app]. lia.
      * exists s'. split_and!; [done | done|]. rewrite Hc', Hc1. by rewrite <- app_assoc.
    + apply IH; try done; try lia; rewrite ?length_app, ?zlen_app; cbn [length]; change (zlen [b]) with 1; lia.
Qed.

End Proofs.

(** C39. For any data below 2 GiB, [string_hexdump] appends exactly the dump
    [hexdump_spec] gives: a line for every sixteen bytes with the first four digits
    of the offset, the bytes in hexadecimal and as characters, in columns that are
    aligned also in the last line; none of the buffers overflows.  The comment in
    front of the code speaks of stdout, and shows [unknown 0.....9.] for the
    sixteen bytes of the witness: the code appends to a string, and prints the
    space as a dot and a gap in the middle, [unknown. 0.....9.]. *)
Theorem string_hexdump_correct `{Allocator} data size s :
  alloc_enough -> Forall is_byte data -> 0 <= size <= zlen data -> size < 2 ^ 31 ->
  good_str s -> s_length s + zlen (hexdump_spec (ztake size data)) < str_limit ->
  exists s', string_hexdump s data size = Ret s' /\ good_str s' /\
    content s' = content s ++ hexdump_spec (ztake size data).
Proof.
  intros Hmem Hd Hsz Hlim Hs Hl.
  apply (hexdump_loop_rows Hmem (ztake size data) [] 0 [] s); try done.
  - by apply Forall_take.
  - cbn. lia.
  - rewrite zlen_ztake by lia. change (zlen (@nil Z)) with 0. lia.
Qed.

Definition sample_data : list char := c_lit "unknown 0" ++ [255; 0; 0; 0; 0; 57; 0; 1; 2].

Example string_hexdump_correct_witness : exists s,
  @string_hexdump roomy (snd (@string_init roomy 1024 1024)) sample_data 18 = Ret s /\
  content s = c_lit "[0000]   75 6E 6B 6E 6F 77 6E 20   30 FF 00 00 00 00 39 00   unknown. 0.....9.\n" ++
              c_lit "[0010]   01 02                                               ..\n".
Proof.
  destruct (@string_hexdump_correct roomy sample_data 18 (snd (@string_init roomy 1024 1024))) as (s & E & _ & Hc).
  - exact roomy_enough.
  - repeat constructor; done.
  - by vm_compute.
  - done.
  - destruct (@good_init roomy 1024 1024 roomy_enough) as (s & -> & Hs & _); [by vm_compute | by vm_compute | exact Hs].
  - by vm_compute.
  - exists s. split; [exact E|]. rewrite Hc. by vm_compute.
Defined.

(** From 64 KiB on the last digit of the offset is missing. *)
Lemma offsets_cut : ztake 4 (offset_digits 65536) = ztake 4 (offset_digits 4096).
Proof. by vm_compute. Qed.
