(* ===== verification/Log.v ===== *)
(** * The log: log.c and the macros of chaosvpn.h

    A message goes to syslog and to one of the standard streams.  The other files
    leave messages out of their results; here is what one of them does.  [vfprintf]
    is the C library's formatting for the directives [vsnprintf] of StrFmt.v
    describes; the values of the priorities are those of syslog.h. *)

From S2P Require Import Prelude CLib CString StrBuf StrFmt.

Definition LOG_EMERG : Z := 0.
Definition LOG_ALERT : Z := 1.
Definition LOG_CRIT : Z := 2.
Definition LOG_ERR : Z := 3.
Definition LOG_WARNING : Z := 4.
Definition LOG_NOTICE : Z := 5.
Definition LOG_INFO : Z := 6.
Definition LOG_DEBUG : Z := 7.

Inductive sink := Syslog (priority : Z) | Stdout | Stderr.

#[export] Instance sink_dec : EqDecision sink.
Proof. solve_decision. Defined.

(** The prefix and the stream of a priority. *)
Definition log_prefix (priority : Z) : text * sink :=
  if priority =? LOG_EMERG then (c_lit "<EMERG>", Stderr)
  else if priority =? LOG_ALERT then (c_lit "<ALERT>", Stderr)
  else if priority =? LOG_ERR then (c_lit "<ERR>  ", Stderr)
  else if priority =? LOG_WARNING then (c_lit "<WARN> ", Stderr)
  else if priority =? LOG_NOTICE then (c_lit "<NOTE> ", Stdout)
  else if priority =? LOG_INFO then (c_lit "<INFO> ", Stdout)
  else if priority =? LOG_DEBUG then (c_lit "<DEBUG>", Stdout)
  else (c_lit "<INFO> ", Stdout).

(** The characters between the percent sign and the conversion. *)
Definition is_directive_char (c : char) : bool := is_flag c || isdigit c || (c =? 46).

(** [None]: a directive without a conversion this model has, or an argument that
    does not fit.  Every turn consumes a character. *)
Fixpoint format_loop (fuel : nat) (format : text) (args : list arg) : option text :=
  match fuel with
  | O => None
  | S fuel =>
      match format with
      | [] => Some []
      | c :: format =>
          if c =? 37 then
            let directive := take_until (fun c => negb (is_directive_char c)) format in
            match skip_while is_directive_char format with
            | [] => None
            | conv :: format =>
                '(t, args) ← vsnprintf (directive ++ [conv]) args;
                u ← format_loop fuel format args;
                Some (t ++ u)
            end
          else u ← format_loop fuel format args; Some (c :: u)
      end
  end.

Definition vfprintf (format : text) (args : list arg) : option text :=
  format_loop (S (length format)) format args.

(** The calls made, in their order.  An empty format is read in front of its
    first character. *)
Definition log_raw (priority : Z) (format : text) (args : list arg) : outcome (list (sink * text)) :=
  let '(prefix, out) := log_prefix priority in
  match vfprintf format args, list.last format with
  | Some t, Some c =>
      Ret ([(Syslog priority, t); (out, prefix ++ [32]); (out, t)] ++ (if negb (c =? 10) then [(out, [10])] else []))
  | _, _ => Undef
  end.

(** The name [openlog] gets. *)
Definition log_init (argv0 : text) : text :=
  match strrchr argv0 47 with Some (_, slash) => zdrop 1 slash | None => argv0 end.

(** The macros; the one for critical messages logs an error. *)
Definition log_emerg := log_raw LOG_EMERG.
Definition log_alert := log_raw LOG_ALERT.
Definition log_err := log_raw LOG_ERR.
Definition log_warn := log_raw LOG_WARNING.
Definition log_crit := log_raw LOG_ERR.
Definition log_note := log_raw LOG_NOTICE.
Definition log_info := log_raw LOG_INFO.
Definition log_debug := log_raw LOG_DEBUG.

(** LOG_CRASH, at a line of a file, for a message that can be formatted. *)
Definition LOG_CRASH (file : text) (line : Z) (format : text) (args : list arg) : outcome unit :=
  _ ← log_raw LOG_ERR (c_lit "CRASH @ " ++ file ++ c_lit ":%d " ++ format) (AInt line :: args);
  Exit 2.

(** LOG_ERREXIT, with the text of [errno] and the name of the function. *)
Definition LOG_ERREXIT (strerror file : text) (line : Z) (function : text) (format : text) (args : list arg) : outcome unit :=
  _ ← log_raw LOG_ERR (c_lit "ERREXIT: %s @ " ++ file ++ c_lit ":%d (%s) " ++ format)
        (AStr (Some strerror) :: AInt line :: AStr (Some function) :: args);
  Exit 2.

(** ** What is printed *)

(** What one stream gets. *)
Definition written_to (s : sink) (calls : list (sink * text)) : text :=
  concat (map snd (List.filter (fun c => bool_decide (fst c = s)) calls)).

Lemma format_cons fuel c format args t : c <> 37 -> format_loop (S fuel) (c :: format) args = Some t ->
  exists u, t = c :: u /\ format_loop fuel format args = Some u.
Proof.
  intros Hc. cbn [format_loop]. destruct (Z.eqb_spec c 37); [done|].
  destruct (format_loop fuel format args) as [u|]; [|done]. intros [= <-]. by exists u.
Qed.

Lemma format_directive fuel format args t : format_loop (S fuel) (37 :: format) args = Some t ->
  exists conv rest d args' v u, skip_while is_directive_char format = conv :: rest /\
    vsnprintf (d ++ [conv]) args = Some (v, args') /\ format_loop fuel rest args' = Some u /\ t = v ++ u.
Proof.
  cbn [format_loop]. rewrite Z.eqb_refl. destruct (skip_while is_directive_char format) as [|conv rest]; [done|].
  destruct (vsnprintf _ args) as [[v args']|] eqn:Ev; [|done]. cbn.
  destruct (format_loop fuel rest args') as [u|] eqn:Eu; [|done]. intros [= <-]. by eauto 10.
Qed.

Lemma scan_digits_suffix base acc s : exists k, s = k ++ snd (scan_digits base acc s).
Proof.
  revert acc; induction s as [|c s IH]; intros acc; cbn [scan_digits]; [by exists []|].
  destruct (digit_val c <? base); [|by exists []]. destruct (IH (acc * base + digit_val c)) as [k Hk]. exists (c :: k). cbn [app]. by f_equal.
Qed.

Lemma last_suffix {A} (k s : list A) : s <> [] -> list.last (k ++ s) = list.last s.
Proof. intros Hs. rewrite last_app. by destruct (list.last s) eqn:E; [|apply last_None in E]. Qed.

(** What the C library converts ends in a conversion character. *)
Lemma vsnprintf_conversion fmt args v args' : vsnprintf fmt args = Some (v, args') -> list.last fmt <> Some 10.
Proof.
  intros E. unfold vsnprintf in E.
  destruct (skip_while_suffix is_flag fmt) as (k0 & E0 & _). set (r0 := skip_while is_flag fmt) in *.
  destruct (scan_digits_suffix 10 0 r0) as [k1 E1]. destruct (scan_digits 10 0 r0) as [width r1]. cbn [snd] in E1.
  assert (exists prec k2 r2, r1 = k2 ++ r2 /\
    match r1 with 46 :: rest => let '(p, rest) := scan_digits 10 0 rest in (Some p, rest) | _ => (None, r1) end = (prec, r2))
    as (prec & k2 & r2 & E2 & Ep).
  { destruct r1 as [|c r]; [by exists None, [], []|]. destruct (decide (c = 46)) as [-> | Hc].
    - destruct (scan_digits_suffix 10 0 r) as [k Ek]. destruct (scan_digits 10 0 r) as [p rest]. cbn [snd] in Ek.
      exists (Some p), (46 :: k), rest. split; [|done]. cbn [app]. by f_equal.
    - exists None, [], (c :: r). split; [done|]. by repeat (case_match; try done). }
  rewrite Ep in E. intros Hl.
  assert (exists k, fmt = k ++ r2) as [k Ek] by (exists (k0 ++ k1 ++ k2); by rewrite E0, E1, E2, <- !app_assoc).
  assert (r2 = [] \/ exists x, r2 = [x] /\ x <> 10) as Hr2.
  { clear -E. destruct r2 as [|x [|y r]]; [by left | right; exists x; split; [done | intros ->; done] |].
    by repeat (case_match; try done). }
  destruct Hr2 as [-> | (x & -> & Hx)]; [done|].
  rewrite Ek, last_suffix in Hl by done. by injection Hl as ->.
Qed.

Lemma format_newline fuel format args t :
  format_loop fuel format args = Some t -> list.last format = Some 10 -> list.last t = Some 10.
Proof.
  revert format args t; induction fuel as [|fuel IH]; intros [|c format] args t E Hl; try done.
  assert (forall (v : text) rest args' u, format_loop fuel rest args' = Some u -> list.last rest = Some 10 ->
    list.last (v ++ u) = Some 10) as Hgo.
  { intros v rest args' u Eu Hr. specialize (IH _ _ _ Eu Hr). by rewrite last_suffix by (by intros ->). }
  destruct (decide (c = 37)) as [-> | Hc].
  - apply format_directive in E as (conv & rest & d & args' & v & u & Es & Ev & Eu & ->).
    destruct (skip_while_suffix is_directive_char format) as (k & Ek & _). rewrite Es in Ek.
    assert (list.last (37 :: format) = list.last (conv :: rest)) as Elast.
    { rewrite Ek. change (37 :: k ++ conv :: rest) with ((37 :: k) ++ conv :: rest). by rewrite last_suffix. }
    rewrite Elast in Hl. destruct rest as [|c' rest].
    + injection Hl as ->. apply vsnprintf_conversion in Ev. by rewrite last_snoc in Ev.
    + eapply Hgo; [exact Eu | exact Hl].
  - apply format_cons in E as (u & -> & Eu); [|done]. destruct format as [|c' format].
    + injection Hl as ->. destruct fuel; [done|]. by injection Eu as <-.
    + by apply (Hgo [c] (c' :: format) args u).
Qed.

(** A message whose format is not empty and can be filled in reaches syslog
    once with its priority and exactly its text, and one of the standard streams as
    one entry: the prefix of the priority, a blank and the text, always with a
    newline at its end and with one added only where the format has none.  Errors,
    warnings and worse go to stderr, everything else to stdout. *)
Lemma log_raw_line priority format args t :
  format <> [] -> vfprintf format args = Some t ->
  exists calls line, log_raw priority format args = Ret calls /\
    List.filter (fun c => match fst c with Syslog _ => true | _ => false end) calls = [(Syslog priority, t)] /\
    written_to (snd (log_prefix priority)) calls = line /\
    line = fst (log_prefix priority) ++ [32] ++ t ++ (if bool_decide (list.last format = Some 10) then [] else [10]) /\
    list.last line = Some 10 /\
    written_to (if bool_decide (snd (log_prefix priority) = Stdout) then Stderr else Stdout) calls = [] /\
    (snd (log_prefix priority) = Stderr <-> priority ∈ [LOG_EMERG; LOG_ALERT; LOG_ERR; LOG_WARNING]).
Proof.
  intros Hf Ht. unfold log_raw. rewrite Ht. destruct (list.last format) as [c|] eqn:El; [|by apply last_None in El].
  assert (snd (log_prefix priority) = Stderr <-> priority ∈ [LOG_EMERG; LOG_ALERT; LOG_ERR; LOG_WARNING]) as Hs.
  { unfold log_prefix. rewrite !elem_of_cons, elem_of_nil. repeat case_bool; cbn [snd]; intuition (done || lia). }
  assert (snd (log_prefix priority) = Stderr \/ snd (log_prefix priority) = Stdout) as Hout
    by (unfold log_prefix; repeat case_match; auto).
  destruct (log_prefix priority) as [prefix out]. cbn [fst snd] in *.
  eexists _, _. split_and!; [reflexivity | | reflexivity | | | | done];
    unfold written_to; cbn [app List.filter fst snd].
  - destruct Hout as [-> | ->]; cbn; destruct (negb (c =? 10)); done.
  - rewrite (bool_decide_true (out = out)) by done. rewrite (bool_decide_false (Syslog _ = out)) by (by destruct Hout as [-> | ->]).
    destruct (Z.eqb_spec c 10) as [-> | Hc]; cbn [negb List.filter fst].
    + rewrite bool_decide_true by done. cbn [map concat snd]. by rewrite app_nil_r, <- app_assoc.
    + rewrite (bool_decide_true (out = out)), bool_decide_false by congruence. cbn [map concat snd].
      by rewrite <- !app_assoc.
  - rewrite (bool_decide_true (out = out)) by done. rewrite (bool_decide_false (Syslog _ = out)) by (by destruct Hout as [-> | ->]).
    destruct (Z.eqb_spec c 10) as [-> | Hc]; cbn [negb List.filter fst].
    + cbn [map concat snd]. rewrite app_nil_r. apply (format_newline _ _ _ _ Ht) in El.
      rewrite last_suffix; [done|]. by intros ->.
    + rewrite (bool_decide_true (out = out)) by done. cbn [map concat snd]. rewrite !app_assoc, app_nil_r. apply last_snoc.
  - destruct Hout as [-> | ->]; cbn; destruct (negb (c =? 10)); done.
Qed.

Example log_raw_line_witness : exists calls line,
  log_raw LOG_NOTICE (c_lit "tinc.%s[%d] %s") [AStr (Some (c_lit "chaos")); AInt 12; AStr (Some (c_lit "Ready\n"))] = Ret calls /\
  written_to Stdout calls = line /\ line = c_lit "<NOTE>  tinc.chaos[12] Ready\n\n" /\ list.last line = Some 10.
Proof.
  destruct (log_raw_line LOG_NOTICE (c_lit "tinc.%s[%d] %s")
    [AStr (Some (c_lit "chaos")); AInt 12; AStr (Some (c_lit "Ready\n"))] (c_lit "tinc.chaos[12] Ready\n"))
    as (calls & line & E & _ & Hw & Hl & Hn & _); [done | by vm_compute |].
  exists calls, line. split; [exact E|]. split; [exact Hw|]. split; [|exact Hn]. rewrite Hl. by vm_compute.
Defined.

(** Only the format is looked at: a text that brings its own newline is followed by
    an empty line, as the example shows.  The critical priority has no case. *)
Lemma log_critical : log_prefix LOG_CRIT = log_prefix LOG_INFO /\ forall f a, log_crit f a = log_err f a.
Proof. done. Qed.

Lemma log_init_name : log_init (c_lit "/usr/sbin/chaosvpn") = c_lit "chaosvpn" /\ log_init (c_lit "chaosvpn") = c_lit "chaosvpn".
Proof. by vm_compute. Qed.
