(* ===== verification/StrNatCmp.v ===== *)
(** * Natural order comparison: strnatcmp.c

    The comparison that decides which tinc features a version has.  A pointer
    into a string is the text from it on; reading at the terminator gives 0 and
    moving past it is undefined.  [char] is signed, so characters are compared
    through [s8]. *)

From S2P Require Import Prelude CLib.

Definition nat_isdigit (a : char) : bool := isdigit (u8 a).
Definition nat_isspace (a : char) : bool := isspace (u8 a).
Definition nat_toupper (a : char) : char := u8 (toupper (u8 a)).

(** The character a pointer is at. *)
Definition cur (s : text) : char := match s with [] => 0 | c :: _ => c end.

Fixpoint compare_right (bias : Z) (a b : text) : outcome Z :=
  if negb (nat_isdigit (cur a)) && negb (nat_isdigit (cur b)) then Ret bias
  else if negb (nat_isdigit (cur a)) then Ret (-1)
  else if negb (nat_isdigit (cur b)) then Ret 1
  else
    let continue (bias : Z) :=
      match a, b with
      | _ :: a', _ :: b' => compare_right bias a' b'
      | _, _ => Undef
      end in
    if s8 (cur a) <? s8 (cur b) then continue (if bias =? 0 then -1 else bias)
    else if s8 (cur b) <? s8 (cur a) then continue (if bias =? 0 then 1 else bias)
    else if (cur a =? 0) && (cur b =? 0) then Ret bias
    else continue bias.

Fixpoint compare_left (a b : text) : outcome Z :=
  if negb (nat_isdigit (cur a)) && negb (nat_isdigit (cur b)) then Ret 0
  else if negb (nat_isdigit (cur a)) then Ret (-1)
  else if negb (nat_isdigit (cur b)) then Ret 1
  else if s8 (cur a) <? s8 (cur b) then Ret (-1)
  else if s8 (cur b) <? s8 (cur a) then Ret 1
  else match a, b with
       | _ :: a', _ :: b' => compare_left a' b'
       | _, _ => Undef
       end.

(** One turn of the [while (1)] loop: a result, or the pointers of the next. *)
Definition strnatcmp_turn (fold_case : bool) (a b : text) : outcome (Z + text * text) :=
  let a := skip_while nat_isspace a in
  let b := skip_while nat_isspace b in
  result ← (if nat_isdigit (cur a) && nat_isdigit (cur b) then
              if (cur a =? 48) || (cur b =? 48) then compare_left a b
              else compare_right 0 a b
            else Ret 0);
  if negb (result =? 0) then Ret (inl result)
  else if (cur a =? 0) && (cur b =? 0) then Ret (inl 0)
  else
    let ca := if fold_case then nat_toupper (cur a) else cur a in
    let cb := if fold_case then nat_toupper (cur b) else cur b in
    if s8 ca <? s8 cb then Ret (inl (-1))
    else if s8 cb <? s8 ca then Ret (inl 1)
    else match a, b with
         | _ :: a', _ :: b' => Ret (inr (a', b'))
         | _, _ => Undef
         end.

(** Each turn that goes on consumes a character of both strings. *)
Fixpoint strnatcmp_loop (fuel : nat) (fold_case : bool) (a b : text) : outcome Z :=
  match fuel with
  | O => Undef
  | S fuel' =>
      r ← strnatcmp_turn fold_case a b;
      match r with
      | inl result => Ret result
      | inr (a', b') => strnatcmp_loop fuel' fold_case a' b'
      end
  end.

Definition strnatcmp0 (a b : text) (fold_case : bool) : outcome Z :=
  strnatcmp_loop (S (length a)) fold_case a b.

Definition strnatcmp (a b : text) : outcome Z := strnatcmp0 a b false.
Definition strnatcasecmp (a b : text) : outcome Z := strnatcmp0 a b true.

(** ** No access behind the terminator *)

(** A C string: bytes other than NUL. *)
Definition cstring (s : text) : Prop := Forall (fun c => 0 < c < 256) s.

Lemma nat_isdigit_pos c : nat_isdigit c = true -> 0 <= c < 256 -> 48 <= c <= 57.
Proof.
  unfold nat_isdigit, u8, isdigit. intros H Hc. rewrite Z.mod_small in H by lia. lia.
Qed.

Lemma cur_digit a :
  cstring a -> nat_isdigit (cur a) = true -> exists c a', a = c :: a' /\ 48 <= c <= 57 /\ cstring a'.
Proof.
  intros Ha Hd. destruct a as [|c a]; [done|]. apply list.Forall_cons in Ha as [Hc Ha].
  exists c, a. split_and!; try done; apply nat_isdigit_pos in Hd; cbn in *; lia.
Qed.

Lemma s8_range c : -128 <= s8 c <= 127.
Proof. unfold s8. pose proof (Z.mod_pos_bound (c + 2 ^ 7) (2 ^ 8)). lia. Qed.

Lemma s8_inj c d : 0 <= c < 256 -> 0 <= d < 256 -> s8 c = s8 d -> c = d.
Proof.
  unfold s8. intros Hc Hd H.
  assert (forall x, 0 <= x < 256 ->
    (x + 2 ^ 7) mod 2 ^ 8 = if x <? 128 then x + 128 else x - 128) as Hx.
  { intros x Hx. change (2 ^ 7) with 128. change (2 ^ 8) with 256.
    destruct (Z.ltb_spec x 128); [apply Z.mod_small; lia|].
    symmetry. apply (Z.mod_unique_pos _ _ 1); lia. }
  rewrite !Hx in H by done. repeat case_bool; lia.
Qed.

Lemma s8_small c : 0 <= c < 128 -> s8 c = c.
Proof. intros. unfold s8. rewrite Z.mod_small; lia. Qed.

(** Both comparisons of digit runs end, in [-1,1]. *)
Lemma compare_right_ok bias a b :
  cstring a -> cstring b -> -1 <= bias <= 1 ->
  exists r, compare_right bias a b = Ret r /\ -1 <= r <= 1.
Proof.
  revert bias b; induction a as [|x a IH]; intros bias b Ha Hb Hbias;
    cbn [compare_right]; destruct (nat_isdigit (cur b)) eqn:Eb;
    try destruct (nat_isdigit (cur (x :: a))) eqn:Ea;
    cbn -[cur]; try (eexists; split; [reflexivity | lia]).
  apply cur_digit in Eb as (y & b' & -> & Hy & Hb'); [|done].
  apply cur_digit in Ea as (? & ? & [= <- <-] & Hx & Ha'); [|done].
  cbn [cur]. replace (x =? 0) with false by lia. cbn [andb].
  repeat case_bool; apply IH; try done; lia.
Qed.

Lemma compare_left_ok a b :
  cstring a -> cstring b -> exists r, compare_left a b = Ret r /\ -1 <= r <= 1.
Proof.
  revert b; induction a as [|x a IH]; intros b Ha Hb;
    cbn [compare_left]; destruct (nat_isdigit (cur b)) eqn:Eb;
    try destruct (nat_isdigit (cur (x :: a))) eqn:Ea;
    cbn -[cur]; try (eexists; split; [reflexivity | lia]).
  apply cur_digit in Eb as (y & b' & -> & Hy & Hb'); [|done].
  apply cur_digit in Ea as (? & ? & [= <- <-] & Hx & Ha'); [|done].
  cbn [cur]. repeat case_bool; try (eexists; split; [done | lia]). by apply IH.
Qed.

(** ** Antisymmetry *)

(** The answer with the arguments exchanged. *)
Definition opposite (r : outcome Z) : outcome Z := x ← r; Ret (- x).

Lemma compare_right_antisym bias a b :
  compare_right (- bias) b a = opposite (compare_right bias a b).
Proof.
  revert bias b; induction a as [|x a IH]; intros bias [|y b]; cbn [compare_right cur].
  all: try (destruct (nat_isdigit x) eqn:?); try (destruct (nat_isdigit y) eqn:?);
    change (nat_isdigit 0) with false; cbn; try done.
  rewrite (andb_comm (y =? 0)).
  destruct (Z.ltb_spec (s8 x) (s8 y)), (Z.ltb_spec (s8 y) (s8 x)); try lia.
  - rewrite <- IH. f_equal. repeat case_bool; lia.
  - rewrite <- IH. f_equal. repeat case_bool; lia.
  - destruct ((x =? 0) && (y =? 0)); [done | apply IH].
Qed.

Lemma compare_left_antisym a b : compare_left b a = opposite (compare_left a b).
Proof.
  revert b; induction a as [|x a IH]; intros [|y b]; cbn [compare_left cur].
  all: try (destruct (nat_isdigit x) eqn:?); try (destruct (nat_isdigit y) eqn:?);
    change (nat_isdigit 0) with false; cbn; try done.
  destruct (Z.ltb_spec (s8 x) (s8 y)), (Z.ltb_spec (s8 y) (s8 x)); try lia; done.
Qed.

(** One turn with the arguments exchanged. *)
Definition swap_turn (r : outcome (Z + text * text)) : outcome (Z + text * text) :=
  x ← r;
  Ret (match x with inl v => inl (- v) | inr (a, b) => inr (b, a) end).

Lemma turn_antisym fold a b : strnatcmp_turn fold b a = swap_turn (strnatcmp_turn fold a b).
Proof.
  unfold strnatcmp_turn.
  set (a1 := skip_while nat_isspace a). set (b1 := skip_while nat_isspace b).
  rewrite (andb_comm (nat_isdigit (cur b1))), (orb_comm (cur b1 =? 48)),
    (andb_comm (cur b1 =? 0)).
  set (ra := if nat_isdigit (cur a1) && nat_isdigit (cur b1) then
    if (cur a1 =? 48) || (cur b1 =? 48) then compare_left a1 b1 else compare_right 0 a1 b1
    else Ret 0).
  replace (if nat_isdigit (cur a1) && nat_isdigit (cur b1) then
    if (cur a1 =? 48) || (cur b1 =? 48) then compare_left b1 a1 else compare_right 0 b1 a1
    else Ret 0) with (opposite ra).
  2: { unfold ra. destruct (nat_isdigit (cur a1) && nat_isdigit (cur b1)); [|done].
       destruct ((cur a1 =? 48) || (cur b1 =? 48)); symmetry;
         [apply compare_left_antisym | apply (compare_right_antisym 0)]. }
  destruct ra as [r| |]; cbn; try done.
  replace (- r =? 0) with (r =? 0) by (repeat case_bool; lia).
  destruct (r =? 0); cbn; [|done].
  destruct ((cur a1 =? 0) && (cur b1 =? 0)); [done|].
  set (ca := if fold then nat_toupper (cur a1) else cur a1).
  set (cb := if fold then nat_toupper (cur b1) else cur b1).
  destruct (Z.ltb_spec (s8 ca) (s8 cb)), (Z.ltb_spec (s8 cb) (s8 ca)); try lia; try done.
  destruct a1, b1; done.
Qed.

(** ** Totality *)

Lemma cstring_skip p s : cstring s -> cstring (skip_while p s).
Proof.
  intros H. destruct (skip_while_suffix p s) as (k & E & _). unfold cstring in *.
  rewrite E, Forall_app in H. by destruct H.
Qed.

Lemma cur_range s : cstring s -> 0 <= cur s < 256.
Proof. destruct 1; cbn; lia. Qed.

Lemma u8_id c : 0 <= c < 256 -> u8 c = c.
Proof. apply Z.mod_small. Qed.

Lemma nat_toupper_zero c : 0 <= c < 256 -> nat_toupper c = 0 -> c = 0.
Proof.
  intros Hc. unfold nat_toupper, toupper, islower. rewrite (u8_id c) by done.
  destruct ((97 <=? c) && (c <=? 122)) eqn:E; rewrite u8_id by lia; lia.
Qed.

Lemma nat_toupper_range c : 0 <= c < 256 -> 0 <= nat_toupper c < 256.
Proof. intros. unfold nat_toupper. apply Z.mod_pos_bound. lia. Qed.

Lemma folded_range (fold : bool) c :
  0 <= c < 256 -> 0 <= (if fold then nat_toupper c else c) < 256.
Proof. destruct fold; auto using nat_toupper_range. Qed.

Lemma folded_zero (fold : bool) c :
  0 <= c < 256 -> (if fold then nat_toupper c else c) = 0 -> c = 0.
Proof. destruct fold; auto using nat_toupper_zero. Qed.

Lemma skip_while_length p s : (length (skip_while p s) <= length s)%nat.
Proof.
  destruct (skip_while_suffix p s) as (k & E & _). rewrite E at 2. rewrite length_app. lia.
Qed.

(** A turn answers, or goes on with shorter strings. *)
Lemma turn_ok fold a b :
  cstring a -> cstring b ->
  (exists v, strnatcmp_turn fold a b = Ret (inl v) /\ -1 <= v <= 1) \/
  (exists a' b', strnatcmp_turn fold a b = Ret (inr (a', b')) /\ cstring a' /\ cstring b' /\
     (length a' < length a)%nat).
Proof.
  intros Ha Hb. unfold strnatcmp_turn.
  pose proof (skip_while_length nat_isspace a) as Hla.
  apply (cstring_skip nat_isspace) in Ha, Hb.
  set (a1 := skip_while nat_isspace a) in *. set (b1 := skip_while nat_isspace b) in *.
  set (ra := if nat_isdigit (cur a1) && nat_isdigit (cur b1) then _ else Ret 0).
  assert (exists r, ra = Ret r /\ -1 <= r <= 1) as (r & -> & Hr).
  { unfold ra. destruct (_ && _); [|exists 0; split; [done | lia]].
    destruct (_ || _); [by apply compare_left_ok | apply compare_right_ok; done || lia]. }
  cbn. destruct (r =? 0); cbn; [|left; exists r; split; [done | lia]].
  pose proof (cur_range a1 Ha). pose proof (cur_range b1 Hb).
  destruct (Z.eqb_spec (cur a1) 0), (Z.eqb_spec (cur b1) 0); cbn;
    try (left; exists 0; split; [done | lia]).
  all: set (ca := if fold then nat_toupper (cur a1) else cur a1).
  all: set (cb := if fold then nat_toupper (cur b1) else cur b1).
  all: destruct (Z.ltb_spec (s8 ca) (s8 cb)); [left; exists (-1); split; [done | lia]|].
  all: destruct (Z.ltb_spec (s8 cb) (s8 ca)); [left; exists 1; split; [done | lia]|].
  1-2: assert (ca = cb) as Hcc by (apply s8_inj; [by apply folded_range.. | lia]).
  - exfalso. apply n, (folded_zero fold); [done|]. fold cb. rewrite <- Hcc. unfold ca.
    rewrite e. by destruct fold.
  - exfalso. apply n, (folded_zero fold); [done|]. fold ca. rewrite Hcc. unfold cb.
    rewrite e. by destruct fold.
  - right. destruct a1 as [|x a1]; [done|]. destruct b1 as [|y b1]; [done|].
    apply list.Forall_cons in Ha as [_ Ha], Hb as [_ Hb].
    exists a1, b1. cbn in Hla. split_and!; first [done | lia].
Qed.

Lemma loop_ok fuel fold a b :
  cstring a -> cstring b -> (length a < fuel)%nat ->
  exists r, strnatcmp_loop fuel fold a b = Ret r /\ -1 <= r <= 1.
Proof.
  revert a b; induction fuel as [|fuel IH]; intros a b Ha Hb Hf; [lia|].
  cbn [strnatcmp_loop].
  destruct (turn_ok fold a b) as [(v & -> & Hv)|(a' & b' & -> & Ha' & Hb' & Hl)]; try done; cbn.
  - by exists v.
  - apply IH; [done.. | lia].
Qed.

Lemma loop_antisym fuel fold a b :
  strnatcmp_loop fuel fold b a = opposite (strnatcmp_loop fuel fold a b).
Proof.
  revert a b; induction fuel as [|fuel IH]; intros a b; cbn [strnatcmp_loop]; [done|].
  rewrite turn_antisym. destruct (strnatcmp_turn fold a b) as [[v|[a' b']]| |]; cbn; auto.
Qed.

(** Any fuel that covers the first string gives the same answer. *)
Lemma loop_fuel fuel fuel' fold a b :
  cstring a -> cstring b -> (length a < fuel)%nat -> (length a < fuel')%nat ->
  strnatcmp_loop fuel fold a b = strnatcmp_loop fuel' fold a b.
Proof.
  revert fuel' a b; induction fuel as [|fuel IH]; intros [|fuel'] a b Ha Hb Hf Hf'; try lia.
  cbn [strnatcmp_loop].
  destruct (turn_ok fold a b) as [(v & -> & _)|(a' & b' & -> & Ha' & Hb' & Hl)]; try done; cbn.
  apply IH; try done; lia.
Qed.

(** ** Dotted version numbers

    A version is a list of numbers, its text their decimals joined by dots.
    The order tinc's version checks rely on is the lexicographic one. *)

Fixpoint ver_text (v : list Z) : text :=
  match v with
  | [] => []
  | n :: [] => dec_nat n
  | n :: v' => dec_nat n ++ 46 :: ver_text v'
  end.

Fixpoint lex_cmp (v w : list Z) : Z :=
  match v, w with
  | [], [] => 0
  | [], _ :: _ => -1
  | _ :: _, [] => 1
  | x :: v', y :: w' => if x =? y then lex_cmp v' w' else if x <? y then -1 else 1
  end.

Abbreviation digits := (Forall (fun c => isdigit c = true)).
Definition no_digit (s : text) : Prop := nat_isdigit (cur s) = false.

Lemma nat_isdigit_ascii c : 0 <= c < 256 -> nat_isdigit c = isdigit c.
Proof. intros. unfold nat_isdigit. by rewrite u8_id. Qed.

Lemma digit_range c : isdigit c = true -> 48 <= c <= 57.
Proof. unfold isdigit. lia. Qed.

Lemma digit_nat c : isdigit c = true -> nat_isdigit c = true.
Proof. intros H. pose proof (digit_range c H). by rewrite nat_isdigit_ascii by lia. Qed.

Lemma compare_left_digits da db ra rb :
  digits da -> digits db -> no_digit ra -> no_digit rb ->
  compare_left (da ++ ra) (db ++ rb) = Ret (strcmp da db).
Proof.
  intros Ha Hb Hra Hrb. revert db Hb. induction Ha as [|x da Hx Ha IH]; intros db Hb.
  - destruct Hb as [|y db Hy Hb]; unfold no_digit in *.
    + cbn [app]. destruct ra; cbn [compare_left]; by rewrite Hra, Hrb.
    + cbn [app]. destruct ra; cbn [compare_left cur] in *; rewrite Hra, digit_nat by done; done.
  - destruct Hb as [|y db Hy Hb]; cbn [app compare_left].
    + rewrite Hrb. cbn [cur]. rewrite digit_nat by done. done.
    + cbn [cur]. rewrite !digit_nat by done. cbn [negb andb].
      apply digit_range in Hx, Hy. rewrite !s8_small by lia.
      unfold strcmp. cbn [cmp_with]. fold (strcmp da db). rewrite IH by done.
      repeat case_bool; try lia; done.
Qed.

Lemma compare_right_digits bias da db ra rb :
  digits da -> digits db -> no_digit ra -> no_digit rb ->
  compare_right bias (da ++ ra) (db ++ rb) =
    Ret (if zlen da =? zlen db then if bias =? 0 then strcmp da db else bias
         else if zlen da <? zlen db then -1 else 1).
Proof.
  intros Ha Hb Hra Hrb. revert bias db Hb.
  induction Ha as [|x da Hx Ha IH]; intros bias db Hb.
  - destruct Hb as [|y db Hy Hb]; unfold no_digit in *.
    + cbn [app]. destruct ra; cbn [compare_right]; rewrite Hra, Hrb; cbn;
        repeat case_bool; by subst.
    + cbn [app]. destruct ra; cbn [compare_right cur] in *; rewrite Hra, digit_nat by done;
        cbn [negb andb]; rewrite zlen_cons, zlen_nil; pose proof (zlen_nonneg db);
        repeat case_bool; try lia; done.
  - destruct Hb as [|y db Hy Hb]; cbn [app compare_right].
    + rewrite Hrb. cbn [cur]. rewrite digit_nat by done. cbn [negb andb].
      rewrite zlen_cons, zlen_nil. pose proof (zlen_nonneg da). repeat case_bool; try lia; done.
    + cbn [cur]. rewrite !digit_nat by done. cbn [negb andb].
      apply digit_range in Hx, Hy. rewrite !s8_small by lia.
      replace (x =? 0) with false by lia. cbn [andb].
      unfold strcmp. cbn [cmp_with]. fold (strcmp da db). rewrite !IH, !zlen_cons by done.
      repeat case_bool; try lia; done.
Qed.

(** Equal-length digit runs compare as their values do. *)
Lemma dec_val_acc acc ds :
  dec_val acc ds = acc * 10 ^ zlen ds + dec_val 0 ds.
Proof.
  revert acc; induction ds as [|c ds IH]; intros acc; unfold dec_val; cbn [foldl].
  - rewrite zlen_nil. lia.
  - fold (dec_val (acc * 10 + (c - 48)) ds). fold (dec_val (0 * 10 + (c - 48)) ds).
    rewrite IH, (IH (0 * 10 + (c - 48))), zlen_cons, Z.pow_add_r by (lia || apply zlen_nonneg).
    lia.
Qed.

Lemma dec_val_cons c ds : dec_val 0 (c :: ds) = (c - 48) * 10 ^ zlen ds + dec_val 0 ds.
Proof. change (dec_val 0 (c :: ds)) with (dec_val (c - 48) ds). apply dec_val_acc. Qed.

Lemma dec_val_bound ds : digits ds -> 0 <= dec_val 0 ds < 10 ^ zlen ds.
Proof.
  induction 1 as [|c ds Hc _ IH]; [done|].
  rewrite dec_val_cons, zlen_cons, Z.pow_add_r by (lia || apply zlen_nonneg).
  apply digit_range in Hc. nia.
Qed.

Lemma strcmp_digits da db :
  digits da -> digits db -> zlen da = zlen db ->
  strcmp da db = Z.sgn (dec_val 0 da - dec_val 0 db).
Proof.
  intros Ha. revert db. induction Ha as [|x da Hx Ha IH]; intros db Hb Hl.
  - symmetry in Hl. apply zlen_zero in Hl. by subst.
  - destruct Hb as [|y db Hy Hb]; [by apply zlen_zero in Hl|].
    rewrite !zlen_cons in Hl. assert (zlen da = zlen db) as Hl' by lia.
    unfold strcmp. cbn [cmp_with]. fold (strcmp da db). rewrite !dec_val_cons, Hl'.
    pose proof (dec_val_bound da Ha) as Bda. pose proof (dec_val_bound db Hb) as Bdb.
    rewrite Hl' in Bda.
    repeat case_bool.
    + subst. rewrite IH by done. f_equal. lia.
    + symmetry. apply Z.sgn_neg_iff. nia.
    + symmetry. apply Z.sgn_pos_iff. nia.
Qed.

Lemma dec_val_lower c ds : digits (c :: ds) -> c <> 48 -> 10 ^ zlen ds <= dec_val 0 (c :: ds).
Proof.
  intros H Hc. apply list.Forall_cons in H as [Hd H]. rewrite dec_val_cons.
  pose proof (dec_val_bound ds H). apply digit_range in Hd. nia.
Qed.

(** Decimals have no leading zero. *)
Lemma dec_digits_cur fuel n : 0 < n < 2 ^ Z.of_nat fuel -> cur (dec_digits fuel n) <> 48.
Proof.
  revert n; induction fuel as [|fuel IH]; intros n Hn; cbn [dec_digits]; [done|].
  case_bool; [cbn; lia|].
  rewrite Nat2Z.inj_succ, Z.pow_succ_r in Hn by lia.
  assert (cur (dec_digits fuel (n / 10)) <> 48) as Hc.
  { apply IH. split; [apply Z.div_str_pos; lia | apply Z.div_lt_upper_bound; lia]. }
  destruct (dec_digits fuel (n / 10)) as [|c ds] eqn:E; [|done].
  assert (dec_val 0 (dec_digits fuel (n / 10)) = n / 10) as Hv.
  { apply dec_digits_val. split; [apply Z.div_pos; lia | apply Z.div_lt_upper_bound; lia]. }
  rewrite E in Hv. change (dec_val 0 []) with 0 in Hv.
  pose proof (Z.div_str_pos n 10). lia.
Qed.

Lemma dec_nat_cur n : 0 < n -> cur (dec_nat n) <> 48.
Proof.
  intros Hn. apply dec_digits_cur. split; [done|].
  rewrite Nat2Z.inj_succ, Z2Nat.id by apply Z.log2_nonneg. apply Z.log2_spec. lia.
Qed.

(** The digit comparison of a turn, on two decimals: their order. *)
Definition run_cmp (a b : text) : outcome Z :=
  if nat_isdigit (cur a) && nat_isdigit (cur b) then
    if (cur a =? 48) || (cur b =? 48) then compare_left a b else compare_right 0 a b
  else Ret 0.

Lemma dec_nat_zero : dec_nat 0 = [48].
Proof. done. Qed.

Lemma dec_nat_head n : 0 <= n -> exists c ds, dec_nat n = c :: ds /\ digits (c :: ds).
Proof.
  intros Hn. pose proof (dec_nat_isdigit n Hn). pose proof (dec_nat_nonempty n).
  destruct (dec_nat n) as [|c ds]; [done | eauto].
Qed.

Lemma run_cmp_dec m n ra rb :
  0 <= m -> 0 <= n -> no_digit ra -> no_digit rb ->
  run_cmp (dec_nat m ++ ra) (dec_nat n ++ rb) = Ret (Z.sgn (m - n)).
Proof.
  intros Hm Hn Hra Hrb. unfold run_cmp.
  destruct (dec_nat_head m Hm) as (x & da & Ea & Hda).
  destruct (dec_nat_head n Hn) as (y & db & Eb & Hdb).
  pose proof (dec_nat_val m Hm) as Vm. pose proof (dec_nat_val n Hn) as Vn.
  pose proof (dec_nat_cur m) as Cm. pose proof (dec_nat_cur n) as Cn.
  rewrite Ea, Eb in *. cbn [cur app] in *.
  rewrite !digit_nat by (by apply list.Forall_cons in Hda as [], Hdb as []). cbn [andb].
  rewrite !app_comm_cons.
  destruct (Z.eqb_spec x 48) as [->|Hx]; [|destruct (Z.eqb_spec y 48) as [->|Hy]]; cbn [orb].
  - assert (m = 0) as -> by (destruct (Z.eq_dec m 0); [done | destruct Cm; lia]).
    rewrite dec_nat_zero in Ea. injection Ea as <-.
    rewrite compare_left_digits by done. f_equal.
    destruct (Z.eq_dec n 0) as [->|]; [rewrite dec_nat_zero in Eb; by injection Eb as <- <-|].
    assert (y <> 48) by (apply Cn; lia). apply list.Forall_cons in Hdb as [Hd _].
    apply digit_range in Hd. unfold strcmp; cbn [cmp_with].
    replace (48 =? y) with false by lia. replace (48 <? y) with true by lia. lia.
  - assert (n = 0) as -> by (destruct (Z.eq_dec n 0); [done | destruct Cn; lia]).
    rewrite dec_nat_zero in Eb. injection Eb as <-.
    rewrite compare_left_digits by done. f_equal.
    apply list.Forall_cons in Hda as [Hd _]. apply digit_range in Hd.
    assert (m <> 0) by (intros ->; rewrite dec_nat_zero in Ea; congruence).
    unfold strcmp; cbn [cmp_with].
    replace (x =? 48) with false by lia. replace (x <? 48) with false by lia. lia.
  - rewrite compare_right_digits by done. f_equal. cbn [Z.eqb].
    destruct (Z.eqb_spec (zlen (x :: da)) (zlen (y :: db))) as [El|El].
    { rewrite strcmp_digits, Vm, Vn by done. done. }
    pose proof (dec_val_bound _ Hda) as Bm. pose proof (dec_val_bound _ Hdb) as Bn.
    pose proof (dec_val_lower _ _ Hda Hx) as Lm. pose proof (dec_val_lower _ _ Hdb Hy) as Ln.
    rewrite Vm, Vn, !zlen_cons in *. pose proof (zlen_nonneg da). pose proof (zlen_nonneg db).
    destruct (Z.ltb_spec (1 + zlen da) (1 + zlen db)).
    + pose proof (Z.pow_le_mono_r 10 (1 + zlen da) (zlen db)). lia.
    + pose proof (Z.pow_le_mono_r 10 (1 + zlen db) (zlen da)). lia.
Qed.

Lemma strnatcmp_turn_run fold a b :
  isspace (u8 (cur a)) = false -> isspace (u8 (cur b)) = false ->
  strnatcmp_turn fold a b =
    (result ← run_cmp a b;
     if negb (result =? 0) then Ret (inl result)
     else if (cur a =? 0) && (cur b =? 0) then Ret (inl 0)
     else
       let ca := if fold then nat_toupper (cur a) else cur a in
       let cb := if fold then nat_toupper (cur b) else cur b in
       if s8 ca <? s8 cb then Ret (inl (-1))
       else if s8 cb <? s8 ca then Ret (inl 1)
       else match a, b with
            | _ :: a', _ :: b' => Ret (inr (a', b'))
            | _, _ => Undef
            end).
Proof.
  intros Ha Hb. unfold strnatcmp_turn.
  replace (skip_while nat_isspace a) with a by
    (destruct a; [done | symmetry; by apply skip_while_stop]).
  replace (skip_while nat_isspace b) with b by
    (destruct b; [done | symmetry; by apply skip_while_stop]).
  done.
Qed.

(** A turn that goes on: the comparison of the rest. *)
Lemma strnatcmp_go a b a' b' :
  cstring a -> cstring b -> strnatcmp_turn false a b = Ret (inr (a', b')) ->
  strnatcmp a b = strnatcmp a' b'.
Proof.
  intros Ha Hb E. unfold strnatcmp, strnatcmp0. cbn [strnatcmp_loop]. rewrite E.
  cbn [mbind outcome_bind].
  change (_ = _) with (strnatcmp_loop (length a) false a' b' =
    strnatcmp_loop (S (length a')) false a' b').
  destruct (turn_ok false a b Ha Hb) as [(v & E' & _)|(a1 & b1 & E' & Ha' & Hb' & Hl)];
    rewrite E in E'; [done|]. injection E' as <- <-. apply loop_fuel; done || lia.
Qed.

Lemma strnatcmp_stop a b v :
  strnatcmp_turn false a b = Ret (inl v) -> strnatcmp a b = Ret v.
Proof. intros E. unfold strnatcmp, strnatcmp0. cbn [strnatcmp_loop]. by rewrite E. Qed.

Lemma cstring_app a b : cstring (a ++ b) <-> cstring a /\ cstring b.
Proof. apply Forall_app. Qed.

Lemma digit_not_space c : isdigit c = true -> isspace (u8 c) = false.
Proof.
  intros H. apply digit_range in H. rewrite u8_id by lia. unfold isspace. lia.
Qed.

(** Equal characters in front are passed over. *)
Lemma strnatcmp_same_digits ds ra rb :
  digits ds -> no_digit ra -> no_digit rb -> cstring (ds ++ ra) -> cstring (ds ++ rb) ->
  strnatcmp (ds ++ ra) (ds ++ rb) = strnatcmp ra rb.
Proof.
  intros Hds Hra Hrb. induction Hds as [|c ds Hc Hds IH]; intros Ha Hb; [done|].
  pose proof (cstring_app ds ra). cbn [app] in *.
  rewrite (strnatcmp_go _ _ (ds ++ ra) (ds ++ rb)); [| done | done |].
  { apply IH; [by apply list.Forall_cons in Ha as [] | by apply list.Forall_cons in Hb as []]. }
  rewrite strnatcmp_turn_run by (by apply digit_not_space). unfold run_cmp. cbn [cur].
  rewrite digit_nat by done. cbn [andb]. rewrite !app_comm_cons.
  assert (digits (c :: ds)) as Hcds by (by constructor).
  rewrite compare_left_digits, compare_right_digits by done.
  rewrite Z.eqb_refl. replace (strcmp (c :: ds) (c :: ds)) with 0 by (symmetry; by apply strcmp_eq).
  apply digit_range in Hc. replace (c =? 0) with false by lia.
  destruct ((c =? 48) || (c =? 48)); cbn; by rewrite Z.ltb_irrefl.
Qed.

Lemma dec_nat_cstring n : 0 <= n -> cstring (dec_nat n).
Proof.
  intros Hn. eapply list.Forall_impl; [by apply dec_nat_isdigit|].
  intros c Hc. apply digit_range in Hc. lia.
Qed.

Lemma ver_text_cstring v : Forall (fun n => 0 <= n) v -> cstring (ver_text v).
Proof.
  induction 1 as [|n v Hn Hv IH]; [constructor|]. cbn [ver_text].
  destruct v; [by apply dec_nat_cstring|].
  apply cstring_app. split; [by apply dec_nat_cstring|]. constructor; [lia | done].
Qed.

(** What follows the first number of a version. *)
Definition ver_rest (v : list Z) : text :=
  match v with [] => [] | _ => 46 :: ver_text v end.

Lemma ver_text_cons n v : ver_text (n :: v) = dec_nat n ++ ver_rest v.
Proof. cbn [ver_text ver_rest]. destruct v; [by rewrite app_nil_r | done]. Qed.

Lemma ver_rest_no_digit v : no_digit (ver_rest v).
Proof. by destruct v. Qed.

Lemma ver_rest_cstring v : Forall (fun n => 0 <= n) v -> cstring (ver_rest v).
Proof.
  intros H. pose proof (ver_text_cstring v H). destruct v; [constructor|].
  constructor; [lia | done].
Qed.

Lemma strnatcmp_numbers m n v w :
  0 <= m -> 0 <= n -> Forall (fun n => 0 <= n) v -> Forall (fun n => 0 <= n) w ->
  strnatcmp (ver_text (m :: v)) (ver_text (n :: w)) =
    if m =? n then strnatcmp (ver_rest v) (ver_rest w) else Ret (if m <? n then -1 else 1).
Proof.
  intros Hm Hn Hv Hw. rewrite !ver_text_cons.
  pose proof (run_cmp_dec m n (ver_rest v) (ver_rest w) Hm Hn
    (ver_rest_no_digit v) (ver_rest_no_digit w)) as Hrun.
  destruct (Z.eqb_spec m n) as [<-|Hne].
  - apply strnatcmp_same_digits; try apply ver_rest_no_digit; [auto with chaos | |];
      apply cstring_app; auto using dec_nat_cstring, ver_rest_cstring.
  - apply strnatcmp_stop.
    rewrite strnatcmp_turn_run; [rewrite Hrun; cbn | |].
    + replace (Z.sgn (m - n) =? 0) with false by lia. cbn. do 2 f_equal.
      destruct (Z.ltb_spec m n); lia.
    + destruct (dec_nat_head m Hm) as (c & ds & -> & H).
      apply digit_not_space. by apply list.Forall_cons in H as [].
    + destruct (dec_nat_head n Hn) as (c & ds & -> & H).
      apply digit_not_space. by apply list.Forall_cons in H as [].
Qed.

Lemma strnatcmp_ver_rest v w :
  Forall (fun n => 0 <= n) v -> Forall (fun n => 0 <= n) w ->
  strnatcmp (ver_rest v) (ver_rest w) = Ret (lex_cmp v w).
Proof.
  intros Hv. revert w. induction Hv as [|m v Hm Hv IH]; intros w Hw.
  - destruct Hw as [|n w Hn Hw]; [done|]. by apply strnatcmp_stop.
  - destruct Hw as [|n w Hn Hw]; [by apply strnatcmp_stop|].
    rewrite (strnatcmp_go _ _ (ver_text (m :: v)) (ver_text (n :: w))).
    + rewrite strnatcmp_numbers by done. cbn [lex_cmp].
      destruct (m =? n); [by apply IH | done].
    + by apply ver_rest_cstring; constructor.
    + by apply ver_rest_cstring; constructor.
    + done.
Qed.
