(* ===== verification/StringProps.v ===== *)
(** * Theorems about the string library

    string/*.c and strnatcmp.c: what the buffer operations append and when they
    fail, the formatter against its reference, the comparison of versions, and
    trimming. *)

From S2P Require Import Prelude CLib CString StrBuf StrFmt StrNatCmp.

Section Buffers.
Context `{Allocator}.

(** Given memory, [string_concat] on a well-formed buffer returns true, keeps
    the buffer well formed, appends exactly the text and leaves it terminated:
    read as a C string the buffer is the old content followed by the text.  The
    growth loop ends whatever the sizes. *)
Lemma string_concat_spec s t :
  alloc_enough -> good_str s -> nonul (content s) -> nonul t ->
  s_length s + zlen t < str_limit ->
  exists s', string_concat s t = Ret (true, s') /\ good_str s' /\
    content s' = content s ++ t /\ string_cstr s' = Some (content s ++ t).
Proof.
  intros Ha Hs Hn Ht Hl.
  destruct (concat_appends_z t s Ha Hs Hl) as (s' & E & Hs' & Hc & _ & Hz).
  exists s'. split_and!; try done. rewrite <- Hc. apply cstr_content; [apply Hs' | | done].
  rewrite Hc. by apply nonul_app.
Qed.

(** When a text does not fit and the allocator refuses the request, appending
    is undefined behaviour instead of the failure the callers test for: the new
    bytes are cleared through the NULL [realloc] returned. *)
Lemma string_concatb_oom s sta len :
  wf_str s -> 0 < s_growby s -> s_size s - s_length s < len ->
  s_length s + len + s_growby s <= size_max ->
  (forall n, alloc_ok n = false) -> string_concatb s sta len = Undef.
Proof.
  intros Hw Hg Hlt Hmax Hno. unfold string_concatb. pose proof (wf_length s Hw).
  pose proof (wf_size s Hw). unfold size_max in *. rewrite u64_small by lia.
  replace (s_size s - s_length s <? len) with true by lia. replace (s_growby s =? 0) with false by lia.
  destruct (grow_loop_first s len) as (k & -> & _); try done. by rewrite Hno.
Qed.

(** [string_equals] on two distinct buffers, one of which has storage,
    decides equality of their contents, up to the case of an unallocated buffer
    next to an allocated one, which it calls different even when both are
    empty. *)
Lemma string_equals_spec s1 s2 :
  wf_str s1 -> wf_str s2 ->
  string_equals false s1 s2 = true <->
    content s1 = content s2 /\ (s_s s1 = None <-> s_s s2 = None).
Proof.
  intros H1 H2. pose proof (zlen_content s1 H1) as L1. pose proof (zlen_content s2 H2) as L2.
  unfold string_equals, content in *.
  destruct (s_s s1) as [b1|] eqn:E1, (s_s s2) as [b2|] eqn:E2; cbn [default] in *.
  - unfold id in *. case_bool; cbn [negb]; [|split; [done|]; intros [Ec _]; congruence].
    rewrite bool_decide_eq_true. split; [intros Ec; split; [congruence | done] |].
    intros [Ec _]. congruence.
  - split; [by case_bool | by intros [_ [_ ?]]; naive_solver].
  - split; [by case_bool | by intros [_ [? _]]; naive_solver].
  - split; [|done]. intros _. by rewrite !(ztake_all _ []) by (pose proof (wf_length s1 H1); pose proof (wf_length s2 H2); zlia).
Qed.

(** [string_putint] on any [int] never reaches its [exit (1)]: it appends a
    decimal text which [strtol] reads back as the same number. *)
Lemma string_putint_strtol s i :
  alloc_enough -> good_str s -> s_length s + 32 < str_limit -> 0 <= i < 2 ^ 31 ->
  exists s' t, string_putint s i = Ret (true, s') /\ good_str s' /\
    content s' = content s ++ t /\ strtol t 10 = (i, []).
Proof.
  intros Ha Hs Hl Hi. pose proof (dec_length i ltac:(lia)) as Hd.
  destruct (putint_appends i Ha ltac:(lia) s Hs ltac:(lia)) as (s' & E & Hg & Hc & _).
  exists s', (dec i). split_and!; try done. unfold dec. replace (i <? 0) with false by lia.
  rewrite <- (app_nil_r (dec_nat i)) at 1. apply strtol_dec; [unfold long_max; lia | done].
Qed.

(** C34. [string_concat_sprintf] computes the text its format denotes: for a
    format of literal characters and %s, %S, %d, %% with matching arguments it
    returns true, appends [render msg args] and terminates the buffer. *)
Theorem string_concat_sprintf_render msg args t s :
  alloc_enough -> render msg args = Some t -> Forall arg_ok args ->
  good_str s -> nonul (content s ++ t) -> s_length s + zlen t < str_limit ->
  exists s', string_concat_sprintf s msg args = Ret (true, s') /\ good_str s' /\
    content s' = content s ++ t /\ string_cstr s' = Some (content s ++ t).
Proof.
  intros Ha Hr Hargs Hs Hn Hl.
  destruct (sprintf_render_z msg args t s Ha Hr Hargs Hs Hl) as (s' & E & Hs' & Hc & _ & Hz).
  exists s'. split_and!; try done. rewrite <- Hc. apply cstr_content; [apply Hs' | | done].
  by rewrite Hc.
Qed.

End Buffers.

(** [strnatcmp0] is total on C strings: it returns -1, 0 or 1 without ever
    moving past a terminator, and swapping the arguments negates the result. *)
Lemma strnatcmp_total_antisym a b fold :
  cstring a -> cstring b ->
  exists r, strnatcmp0 a b fold = Ret r /\ -1 <= r <= 1 /\ strnatcmp0 b a fold = Ret (- r).
Proof.
  intros Ha Hb. destruct (loop_ok (S (length a)) fold a b Ha Hb) as (r & E & Hr); [lia|].
  exists r. split_and!; [done | lia.. |]. unfold strnatcmp0 in *.
  destruct (loop_ok (S (length b)) fold b a Hb Ha) as (r' & E' & _); [lia|].
  rewrite E'. f_equal.
  assert (strnatcmp_loop (S (Nat.max (length a) (length b))) fold a b = Ret r) as Em.
  { rewrite <- E. apply loop_fuel; try done; lia. }
  assert (strnatcmp_loop (S (Nat.max (length a) (length b))) fold b a = Ret r') as Em'.
  { rewrite <- E'. apply loop_fuel; try done; lia. }
  rewrite loop_antisym, Em in Em'. cbn in Em'. congruence.
Qed.

(** C35. On dotted version numbers [strnatcmp] is the version order: components
    are compared as numbers, left to right, and a proper prefix is smaller.
    The feature gates of tinc.c ("1.0.12" and the like) rest on it. *)
Theorem strnatcmp_versions v w :
  v <> [] -> w <> [] -> Forall (fun n => 0 <= n) v -> Forall (fun n => 0 <= n) w ->
  strnatcmp (ver_text v) (ver_text w) = Ret (lex_cmp v w).
Proof.
  intros Hv Hw Fv Fw. destruct v as [|m v]; [done|]. destruct w as [|n w]; [done|].
  apply list.Forall_cons in Fv as [Hm Fv]. apply list.Forall_cons in Fw as [Hn Fw].
  rewrite strnatcmp_numbers by done. cbn [lex_cmp]. rewrite strnatcmp_ver_rest by done.
  repeat case_bool; done || lia.
Qed.

(** [str_trim] returns the one text without leading or trailing space whose
    padding with runs of spaces is the argument. *)
Lemma str_trim_correct s t :
  str_trim s = t <->
  exists l r, s = l ++ t ++ r /\
    Forall (fun c => isspace c = true) l /\ Forall (fun c => isspace c = true) r /\
    ~ starts_with_space t /\ ~ ends_with_space t.
Proof.
  split; [intros <-; apply str_trim_spec|].
  intros (l & r & -> & Hl & Hr & Hs & He). by apply str_trim_unique.
Qed.

(** ** Witnesses *)

Definition buf0 : strbuf := string_lazyinit 16.

Lemma good_buf0 : good_str buf0.
Proof. split; [apply wf_lazyinit; done | done | done]. Qed.

Lemma string_concat_spec_witness :
  exists s', @string_concat roomy buf0 (c_lit "ChaosVPN") = Ret (true, s') /\ good_str s' /\
    content s' = content buf0 ++ c_lit "ChaosVPN" /\
    string_cstr s' = Some (content buf0 ++ c_lit "ChaosVPN").
Proof.
  apply (@string_concat_spec roomy); [apply roomy_enough | apply good_buf0 | constructor | | done].
  repeat constructor; done.
Defined.

Lemma string_concatb_oom_witness :
  @string_concatb refusing buf0 (c_lit "abc") 3 = Undef.
Proof.
  by apply (@string_concatb_oom refusing); try done; apply wf_lazyinit.
Defined.

Lemma string_equals_spec_witness :
  content buf0 = content (string_lazyinit 1) /\ (s_s buf0 = None <-> None = @None (list Z)).
Proof.
  apply (proj1 (string_equals_spec buf0 (string_lazyinit 1)
    (good_wf _ good_buf0) (wf_lazyinit 1 ltac:(done)))).
  vm_compute. reflexivity.
Defined.

Lemma string_putint_strtol_witness :
  exists s' t, @string_putint roomy buf0 655 = Ret (true, s') /\ good_str s' /\
    content s' = content buf0 ++ t /\ strtol t 10 = (655, []).
Proof. apply (@string_putint_strtol roomy); [apply roomy_enough | apply good_buf0 | done | lia]. Defined.

Lemma string_concat_sprintf_render_witness :
  exists s', @string_concat_sprintf roomy buf0 (c_lit "Subnet=%s/%d\n") [AStr (Some (c_lit "10.0.0.0")); AInt 8]
      = Ret (true, s') /\ good_str s' /\
    content s' = content buf0 ++ c_lit "Subnet=10.0.0.0/8\n" /\
    string_cstr s' = Some (content buf0 ++ c_lit "Subnet=10.0.0.0/8\n").
Proof.
  apply (@string_concat_sprintf_render roomy).
  - apply roomy_enough.
  - reflexivity.
  - repeat constructor; lia.
  - apply good_buf0.
  - repeat constructor; done.
  - reflexivity.
Defined.

Lemma strnatcmp_total_antisym_witness :
  exists r, strnatcmp0 (c_lit "1.0.13-3") (c_lit "1.1pre17") false = Ret r /\ -1 <= r <= 1 /\
    strnatcmp0 (c_lit "1.1pre17") (c_lit "1.0.13-3") false = Ret (- r).
Proof. apply strnatcmp_total_antisym; repeat constructor; done. Defined.

Lemma strnatcmp_versions_witness :
  strnatcmp (c_lit "1.0.9") (c_lit "1.0.12") = Ret (-1).
Proof. apply (strnatcmp_versions [1; 0; 9] [1; 0; 12]); try done; repeat constructor; done. Defined.
