(* ===== verification/AddrMask.v ===== *)
(** * Addresses with masks: addrmask.c

    Parsing of [address], [address/len] and their bracketed forms, matching of
    an address or subnet against a list, and the way back to text.  The two
    resolver functions are the interface [Resolver]; what addrmask.c relies on
    is the law class [ResolverOk].  A [struct addr_info] list is a Rocq list:
    the [next] pointers are the order of its elements.  The pointers [ip],
    [target] and [addr] are never NULL in this program, and the model takes
    the objects themselves. *)

From S2P Require Import Prelude CLib CString StrBuf.

(** ** Constants (addrmask.h, [<sys/socket.h>] on Linux) *)

Definition AF_UNSPEC : Z := 0.
Definition AF_INET : Z := 2.
Definition AF_INET6 : Z := 10.
Definition CHAR_BIT : Z := 8.
Definition ADDR_V4_BITS : Z := 32.
Definition ADDR_V6_BITS : Z := 128.
Definition ADDR_V4_BYTES : Z := (ADDR_V4_BITS + (CHAR_BIT - 1)) / CHAR_BIT.
Definition ADDR_V6_BYTES : Z := (ADDR_V6_BITS + (CHAR_BIT - 1)) / CHAR_BIT.
Definition ADDR_MAX_BYTES : Z := ADDR_V6_BYTES.

Record addr_info := mkaddr {
  net_bytes : list Z;       (** [ADDR_MAX_BYTES] of them *)
  mask_bytes : list Z;
  addr_family : Z;
  addr_byte_count : Z;
  addr_bit_count : Z;
  mask_shift : Z
}.

Definition CIDR_MATCH_ADDR_FAMILY (a : text) : Z :=
  match strchr a 58 with Some _ => AF_INET6 | None => AF_INET end.
Definition CIDR_MATCH_ADDR_BIT_COUNT (f : Z) : Z :=
  if f =? AF_INET6 then ADDR_V6_BITS else if f =? AF_INET then ADDR_V4_BITS else ADDR_V6_BITS.
Definition CIDR_MATCH_ADDR_BYTE_COUNT (f : Z) : Z :=
  if f =? AF_INET6 then ADDR_V6_BYTES else if f =? AF_INET then ADDR_V4_BYTES else ADDR_V6_BYTES.

(** ** The resolver *)

(** [getaddrinfo f t]: the address bytes of the first result for the numeric
    host [t] ([AI_NUMERICHOST]) in family [f]; [inet_ntop f bs]: the text of the
    address [bs]. *)
Class Resolver := {
  getaddrinfo : Z -> text -> option (list Z);
  inet_ntop : Z -> list Z -> option text
}.

Definition is_family (f : Z) : Prop := f = AF_INET \/ f = AF_INET6.

Definition addr_bytes_ok (f : Z) (bs : list Z) : Prop :=
  zlen bs = CIDR_MATCH_ADDR_BYTE_COUNT f /\ Forall is_byte bs.

Class ResolverOk (R : Resolver) : Prop := {
  gai_bytes f t bs : is_family f -> getaddrinfo f t = Some bs -> addr_bytes_ok f bs;
  ntop_total f bs : is_family f -> addr_bytes_ok f bs -> exists t, inet_ntop f bs = Some t;
  gai_ntop f bs t : is_family f -> addr_bytes_ok f bs ->
    inet_ntop f bs = Some t -> getaddrinfo f t = Some bs;
  ntop_text f bs t : is_family f -> addr_bytes_ok f bs -> inet_ntop f bs = Some t ->
    t <> [] /\ nonul t /\ 47 ∉ t /\ t !! 0%nat <> Some 91 /\ zlen t < 255 /\
    (58 ∈ t <-> f = AF_INET6)
}.

(** ** Masking *)

(** [while (p < addr_bytes + addr_byte_count) *p++ = 0]: [n] bytes are left. *)
Fixpoint zero_from (n : nat) (p : Z) (bytes : list Z) : list Z :=
  match n with
  | O => bytes
  | S n' => zero_from n' (p + 1) (<[Z.to_nat p := 0]> bytes)
  end.

Definition mask_addr (addr_bytes : list Z) (addr_byte_count network_bits : Z) : list Z :=
  if addr_byte_count * CHAR_BIT <? network_bits then addr_bytes
  else
    let p := network_bits / CHAR_BIT in
    let network_bits := network_bits mod CHAR_BIT in
    let '(bytes, p) :=
      if negb (network_bits =? 0) then
        (<[Z.to_nat p := u8 (Z.land (nth (Z.to_nat p) addr_bytes 0)
                                    (Z.shiftl (Z.lnot 0) (CHAR_BIT - network_bits)))]> addr_bytes,
         p + 1)
      else (addr_bytes, p) in
    zero_from (Z.to_nat (addr_byte_count - p)) p bytes.

(** [memset (p, c, n)] on an array. *)
Definition memset (bytes : list Z) (c n : Z) : list Z := zrep n c ++ zdrop n bytes.

Section Parse.
Context `{Allocator} `{Resolver}.

Definition zero_array : list Z := zrep ADDR_MAX_BYTES 0.

(** The loop over the bytes: [i] is the index of [np] and [mp].  A byte with
    host bits set masks the whole address; [None]: [inet_ntop] failed. *)
Fixpoint sanity_loop (n : nat) (i : Z) (net mask : list Z) (family count shift : Z)
  : option (list Z) :=
  match n with
  | O => Some net
  | S n' =>
      if negb (Z.land (nth (Z.to_nat i) net 0) (Z.lnot (nth (Z.to_nat i) mask 0)) =? 0) then
        let net := mask_addr net count shift in
        match inet_ntop family (ztake count net) with
        | None => None
        | Some _ => sanity_loop n' (i + 1) net mask family count shift
        end
      else sanity_loop n' (i + 1) net mask family count shift
  end.

(** The part of [addrmask_parse] that takes the brackets off: the address text
    and where the mask is looked for ([None]: in the address text itself). *)
Definition strip_brackets (pattern : text) : option (text * cptr) :=
  match pattern with
  | 91 :: pattern =>
      match str_split_at pattern 93 with
      | (_, None) => None
      | (pattern, Some mask_search) =>
          match mask_search with
          | 47 :: _ => Some (pattern, Some mask_search)
          | [] => Some (pattern, None)
          | _ => None
          end
      end
  | _ => Some (pattern, None)
  end.

Definition parse_with_mask (pattern mask : text) : option addr_info :=
  let family := CIDR_MATCH_ADDR_FAMILY pattern in
  let bit_count := CIDR_MATCH_ADDR_BIT_COUNT family in
  let byte_count := CIDR_MATCH_ADDR_BYTE_COUNT family in
  let shift := u8 (atoi mask) in
  if negb (str_alldig mask) || (bit_count <? shift) then None
  else match getaddrinfo family pattern with
       | None => None
       | Some addrbytes =>
           let net := ztake byte_count addrbytes ++ zdrop byte_count zero_array in
           let mask_bytes :=
             if 0 <? shift
             then mask_addr (memset zero_array (u8 (-1)) byte_count) byte_count shift
             else memset zero_array 0 byte_count in
           match sanity_loop (Z.to_nat byte_count) 0 net mask_bytes family byte_count shift with
           | None => None
           | Some net => Some (mkaddr net mask_bytes family byte_count bit_count shift)
           end
       end.

Definition parse_without_mask (pattern : text) : option addr_info :=
  let family := CIDR_MATCH_ADDR_FAMILY pattern in
  let bit_count := CIDR_MATCH_ADDR_BIT_COUNT family in
  let byte_count := CIDR_MATCH_ADDR_BYTE_COUNT family in
  match getaddrinfo family pattern with
  | None => None
  | Some addrbytes =>
      Some (mkaddr (ztake byte_count addrbytes ++ zdrop byte_count zero_array)
                   (memset zero_array (u8 (-1)) byte_count) family byte_count bit_count
                   (u8 bit_count))
  end.

(** The text of the pattern: [None] is the result [false]. *)
Definition parse_pattern (pattern : text) : option addr_info :=
  match strip_brackets pattern with
  | None => None
  | Some (pattern, mask_search) =>
      let '(pattern, mask) :=
        match mask_search with
        | Some m => (pattern, snd (str_split_at m 47))
        | None => str_split_at pattern 47
        end in
      match mask with
      | Some mask => parse_with_mask pattern mask
      | None => parse_without_mask pattern
      end
  end.

(** [Some ip] is the result [true]; the contents [*ip] has after [false] are
    not looked at by any caller. *)
Definition addrmask_parse (addressmask : text) : outcome (option addr_info) :=
  '(ok, patternstruct) ← string_initfromstringz addressmask;
  if negb ok then Ret None
  else
    '(ok, patternstruct) ← string_putc patternstruct 0;
    if negb ok then Ret None
    else match string_cstr patternstruct with
         | None => Undef
         | Some pattern => Ret (parse_pattern pattern)
         end.

Definition sizeof_addr_info : Z := 48.

Definition addrmask_init (addressmask : text) : outcome (option addr_info) :=
  if alloc_ok sizeof_addr_info then addrmask_parse addressmask else Ret None.

(** ** Matching *)

(** The byte loop with a mask: [true] is [goto found], [false] is [break]. *)
Fixpoint masked_loop (n : nat) (i : nat) (ap mp np : list Z) : bool :=
  match n with
  | O => true
  | S n' => if negb (Z.land (nth i ap 0) (nth i mp 0) =? nth i np 0) then false
            else masked_loop n' (S i) ap mp np
  end.

Fixpoint equal_loop (n : nat) (i : nat) (ap np : list Z) : bool :=
  match n with
  | O => true
  | S n' => if negb (nth i ap 0 =? nth i np 0) then false else equal_loop n' (S i) ap np
  end.

(** The test in the list loop. *)
Definition entry_contains (info entry : addr_info) : bool :=
  if addr_family entry =? addr_family info then
    if mask_shift entry <? addr_bit_count entry
    then masked_loop (Z.to_nat (addr_byte_count entry)) 0
           (net_bytes info) (mask_bytes entry) (net_bytes entry)
    else equal_loop (Z.to_nat (addr_byte_count entry)) 0 (net_bytes info) (net_bytes entry)
  else false.

Fixpoint match_list (matches : list addr_info) (info : addr_info) : option addr_info :=
  match matches with
  | [] => None
  | entry :: rest =>
      if entry_contains info entry then
        (* found: the size of the subnet decides *)
        if mask_shift info <? mask_shift entry then None else Some entry
      else match_list rest info
  end.

(** The empty list is the NULL pointer. *)
Definition addrmask_match (matches : list addr_info) (addr : cptr)
  : outcome (option addr_info) :=
  match matches, addr with
  | [], _ | _, None => Ret None
  | _, Some addr =>
      r ← addrmask_parse addr;
      match r with
      | None => Ret None
      | Some info => Ret (match_list matches info)
      end
  end.

(** ** Back to text, and the two checks *)

Definition NI_MAXHOST : Z := 1025.

Definition addrmask_to_string (target : strbuf) (addr : addr_info) : outcome (bool * strbuf) :=
  match inet_ntop (addr_family addr) (ztake (addr_byte_count addr) (net_bytes addr)) with
  | None => Ret (false, target)
  | Some buffer =>
      '(ok, target) ← string_concat target buffer;
      if negb ok then Ret (false, target)
      else
        '(ok, target) ← string_putc target 47;
        if negb ok then Ret (false, target)
        else
          '(ok, target) ← string_putint target (mask_shift addr);
          if negb ok then Ret (false, target) else Ret (true, target)
  end.

Definition addrmask_verify_subnet (addressmask : cptr) (family : Z) : outcome bool :=
  if str_is_empty addressmask then Ret false
  else
    addr ← addrmask_init (default [] addressmask);
    match addr with
    | None => Ret false
    | Some addr =>
        Ret (if (family =? AF_INET) && (addr_family addr =? AF_INET) then true
             else if (family =? AF_INET6) && (addr_family addr =? AF_INET6) then true
             else if family =? AF_UNSPEC then true
             else false)
    end.

Definition addrmask_verify_ip (addressmask : cptr) (family : Z) : outcome bool :=
  if str_is_empty addressmask then Ret false
  else
    addr ← addrmask_init (default [] addressmask);
    match addr with
    | None => Ret false
    | Some addr =>
        let res :=
          if (addr_family addr =? AF_INET) && (mask_shift addr =? 32) then true
          else if (addr_family addr =? AF_INET6) && (mask_shift addr =? 128) then true
          else false in
        Ret (if res then
               if (family =? AF_INET) && (addr_family addr =? AF_INET) then true
               else if (family =? AF_INET6) && (addr_family addr =? AF_INET6) then true
               else if family =? AF_UNSPEC then true
               else false
             else res)
    end.

End Parse.

(** ** Bits of an address

    Bit [j] of an address, counted from the most significant bit of its first
    byte, as prefixes count them. *)

Definition addr_bit (bs : list Z) (j : Z) : bool :=
  Z.testbit (nth (Z.to_nat (j / 8)) bs 0) (7 - j mod 8).

Lemma byte_ext x y :
  is_byte x -> is_byte y ->
  (forall b, 0 <= b < 8 -> Z.testbit x b = Z.testbit y b) -> x = y.
Proof.
  intros Hx Hy H. apply Z.bits_inj'. intros n Hn.
  destruct (Z.lt_ge_cases n 8); [apply H; lia|].
  assert (forall z, is_byte z -> Z.testbit z n = false) as Hz.
  { intros z Hz. unfold is_byte in Hz. destruct (Z.eq_dec z 0) as [->|]; [apply Z.testbit_0_l|].
    apply Z.bits_above_log2; [lia|]. apply Z.log2_lt_pow2; [lia|].
    apply Z.lt_le_trans with (2 ^ 8); [lia | apply Z.pow_le_mono_r; lia]. }
  by rewrite !Hz.
Qed.

Lemma nth_byte bs i : Forall is_byte bs -> is_byte (nth i bs 0).
Proof.
  intros H. destruct (decide (i < length bs)%nat) as [Hi|Hi].
  - rewrite list.Forall_forall in H. apply H. apply list_elem_of_In, nth_In. done.
  - rewrite nth_overflow by lia. unfold is_byte. lia.
Qed.

(** Addresses that agree on their first [8 * n] bits agree on [n] bytes. *)
Lemma bytes_ext n bs cs :
  Forall is_byte bs -> Forall is_byte cs ->
  (forall j, 0 <= j < 8 * Z.of_nat n -> addr_bit bs j = addr_bit cs j) ->
  forall i, (i < n)%nat -> nth i bs 0 = nth i cs 0.
Proof.
  intros Hb Hc H i Hi. apply byte_ext; [by apply nth_byte.. |]. intros b Hbb.
  specialize (H (8 * Z.of_nat i + (7 - b))). unfold addr_bit in H.
  replace ((8 * Z.of_nat i + (7 - b)) / 8) with (Z.of_nat i) in H
    by (apply (Z.div_unique_pos _ _ _ (7 - b)); lia).
  replace ((8 * Z.of_nat i + (7 - b)) mod 8) with (7 - b) in H
    by (apply (Z.mod_unique_pos _ _ (Z.of_nat i)); lia).
  rewrite Nat2Z.id in H. replace (7 - (7 - b)) with b in H by lia. apply H. lia.
Qed.

Lemma list_ext_nth (bs cs : list Z) :
  length bs = length cs -> (forall i, (i < length bs)%nat -> nth i bs 0 = nth i cs 0) -> bs = cs.
Proof. apply (nth_ext bs cs 0 0). Qed.

(** *** What [mask_addr] does to each byte and bit *)

Lemma zero_from_length n p bytes : length (zero_from n p bytes) = length bytes.
Proof. revert p bytes; induction n; intros; cbn; [done|]. by rewrite IHn, length_insert. Qed.

Lemma nth_insert (l : list Z) i j x :
  nth i (<[j:=x]> l) 0 = if decide (i = j /\ (j < length l)%nat) then x else nth i l 0.
Proof.
  destruct (decide (i = j /\ _)) as [[-> Hj]|Hn].
  - by rewrite (nth_lookup_Some _ _ _ x) by (by apply list_lookup_insert_eq).
  - rewrite !nth_lookup. destruct (decide (i = j)) as [->|].
    + by rewrite list_insert_ge by lia.
    + by rewrite list_lookup_insert_ne by done.
Qed.

Lemma nth_zero_from n p bytes i :
  0 <= p -> (Z.to_nat p + n <= length bytes)%nat ->
  nth i (zero_from n p bytes) 0 =
    if decide (Z.to_nat p <= i < Z.to_nat p + n)%nat then 0 else nth i bytes 0.
Proof.
  revert p bytes; induction n as [|n IH]; intros p bytes Hp Hl; cbn [zero_from].
  - by rewrite decide_False by lia.
  - rewrite IH by (rewrite ?length_insert; lia). rewrite nth_insert.
    repeat case_decide; try lia; done.
Qed.

Section MaskAddr.
Variables (bs : list Z) (count k : Z).
Hypothesis Hcount : 0 <= count <= zlen bs.
Hypothesis Hk : 0 <= k <= 8 * count.

Lemma mask_addr_length : length (mask_addr bs count k) = length bs.
Proof using Type.
  unfold mask_addr. destruct (count * CHAR_BIT <? k); [done|].
  destruct (negb (k mod CHAR_BIT =? 0)); by rewrite zero_from_length, ?length_insert.
Qed.

Lemma nth_mask_addr i :
  nth i (mask_addr bs count k) 0 =
    if decide (Z.of_nat i < k / 8) then nth i bs 0
    else if decide (Z.of_nat i = k / 8 /\ k mod 8 <> 0)
         then u8 (Z.land (nth i bs 0) (Z.shiftl (-1) (8 - k mod 8)))
    else if decide (Z.of_nat i < count) then 0 else nth i bs 0.
Proof using Hcount Hk.
  unfold mask_addr, CHAR_BIT. replace (count * 8 <? k) with false by lia.
  pose proof (Z.div_mod k 8) as Hdm. pose proof (Z.mod_pos_bound k 8).
  assert (0 <= k / 8 <= count) by nia.
  destruct (Z.eqb_spec (k mod 8) 0) as [E|E]; cbn [negb].
  - rewrite nth_zero_from by zlia. repeat case_decide; try lia; done.
  - assert (k / 8 < count) by nia.
    rewrite nth_zero_from by (rewrite ?length_insert; zlia).
    rewrite nth_insert. change (Z.lnot 0) with (-1).
    assert (Z.to_nat (k / 8) < length bs)%nat by zlia.
    repeat case_decide; try lia; try done.
    replace (Z.to_nat (k / 8)) with i by lia. done.
Qed.

Lemma mask_addr_bit j :
  0 <= j < 8 * count ->
  addr_bit (mask_addr bs count k) j = (j <? k) && addr_bit bs j.
Proof using Hcount Hk.
  intros Hj. unfold addr_bit. rewrite nth_mask_addr.
  pose proof (Z.div_mod k 8) as Hdm. pose proof (Z.mod_pos_bound k 8).
  pose proof (Z.div_mod j 8) as Hdj. pose proof (Z.mod_pos_bound j 8).
  assert (0 <= j / 8 < count) by nia. rewrite Z2Nat.id by lia.
  case_decide.
  { replace (j <? k) with true by nia. done. }
  case_decide as Hc.
  - destruct Hc as [Hc Hr]. unfold u8. rewrite Z.mod_pow2_bits_low by lia.
    rewrite Z.land_spec, Z.shiftl_spec by lia. rewrite andb_comm. f_equal.
    destruct (Z.ltb_spec j k).
    + apply Z.bits_m1. lia.
    + apply Z.testbit_neg_r. lia.
  - case_decide; [|lia]. rewrite Z.testbit_0_l. replace (j <? k) with false by nia. done.
Qed.

Lemma mask_addr_bytes : Forall is_byte bs -> Forall is_byte (mask_addr bs count k).
Proof using Hcount Hk.
  intros H. apply List.Forall_forall. intros x Hx.
  destruct (In_nth _ _ 0 Hx) as (i & Hi & <-). rewrite nth_mask_addr.
  repeat case_decide; try (by apply nth_byte); try (unfold is_byte; lia).
  apply Z.mod_pos_bound. lia.
Qed.

End MaskAddr.

(** ** The type invariant *)

Record wf_addr (a : addr_info) : Prop := {
  wa_family : is_family (addr_family a);
  wa_bytes : addr_byte_count a = CIDR_MATCH_ADDR_BYTE_COUNT (addr_family a);
  wa_bits : addr_bit_count a = CIDR_MATCH_ADDR_BIT_COUNT (addr_family a);
  wa_shift : 0 <= mask_shift a <= addr_bit_count a;
  wa_net : zlen (net_bytes a) = ADDR_MAX_BYTES /\ Forall is_byte (net_bytes a);
  wa_mask : zlen (mask_bytes a) = ADDR_MAX_BYTES /\ Forall is_byte (mask_bytes a);
  (** the mask has exactly its first [mask_shift] bits set *)
  wa_mask_bits : forall j, 0 <= j < addr_bit_count a ->
    addr_bit (mask_bytes a) j = (j <? mask_shift a);
  (** no host bit is set *)
  wa_net_bits : forall j, mask_shift a <= j < addr_bit_count a ->
    addr_bit (net_bytes a) j = false;
  (** the arrays are zero behind the address *)
  wa_tail : zdrop (addr_byte_count a) (net_bytes a) = zrep (ADDR_MAX_BYTES - addr_byte_count a) 0 /\
            zdrop (addr_byte_count a) (mask_bytes a) = zrep (ADDR_MAX_BYTES - addr_byte_count a) 0
}.

Lemma family_counts f :
  is_family f ->
  CIDR_MATCH_ADDR_BIT_COUNT f = 8 * CIDR_MATCH_ADDR_BYTE_COUNT f /\
  0 < CIDR_MATCH_ADDR_BYTE_COUNT f <= ADDR_MAX_BYTES /\
  CIDR_MATCH_ADDR_BIT_COUNT f <= 128.
Proof. by intros [-> | ->]. Qed.

Lemma family_of_text t : is_family (CIDR_MATCH_ADDR_FAMILY t).
Proof. unfold CIDR_MATCH_ADDR_FAMILY, is_family. destruct (strchr t 58); auto. Qed.

Lemma addr_bit_byte bs i b :
  (0 <= b < 8) -> addr_bit bs (8 * Z.of_nat i + b) = Z.testbit (nth i bs 0) (7 - b).
Proof.
  intros Hb. unfold addr_bit.
  replace ((8 * Z.of_nat i + b) / 8) with (Z.of_nat i)
    by (apply (Z.div_unique_pos _ _ _ b); lia).
  replace ((8 * Z.of_nat i + b) mod 8) with b
    by (apply (Z.mod_unique_pos _ _ (Z.of_nat i)); lia).
  by rewrite Nat2Z.id.
Qed.

(** Two arrays with equal tails and equal bits up to [8 * n] are equal. *)
Lemma array_ext n bs cs :
  length bs = length cs -> 0 <= n -> Forall is_byte bs -> Forall is_byte cs ->
  (forall j, 0 <= j < 8 * n -> addr_bit bs j = addr_bit cs j) ->
  zdrop n bs = zdrop n cs -> bs = cs.
Proof.
  intros Hl Hn Hb Hc Hbits Htail. apply list_ext_nth; [done|]. intros i Hi.
  destruct (Z.lt_ge_cases (Z.of_nat i) n) as [Hin|Hin].
  - apply (bytes_ext (Z.to_nat n)); try done; [|lia].
    intros j Hj. apply Hbits. lia.
  - unfold zdrop in Htail.
    rewrite <- (firstn_skipn (Z.to_nat n) bs), <- (firstn_skipn (Z.to_nat n) cs).
    rewrite !app_nth2 by (rewrite length_firstn; lia).
    change (skipn (Z.to_nat n) bs) with (drop (Z.to_nat n) bs).
    change (skipn (Z.to_nat n) cs) with (drop (Z.to_nat n) cs).
    rewrite Htail, !length_firstn. f_equal. lia.
Qed.

Lemma mask_addr_tail bs count k :
  0 <= count <= zlen bs -> 0 <= k <= 8 * count ->
  zdrop count (mask_addr bs count k) = zdrop count bs.
Proof.
  intros Hc Hk. unfold zdrop. apply list_ext_nth.
  - rewrite !length_drop, mask_addr_length. done.
  - intros i Hi. rewrite !nth_lookup, !lookup_drop, <- !nth_lookup, nth_mask_addr by done.
    assert (k / 8 <= count) by (apply Z.div_le_upper_bound; lia).
    assert (0 <= k / 8) by (apply Z.div_pos; lia).
    pose proof (Z.div_mod k 8). pose proof (Z.mod_pos_bound k 8).
    rewrite decide_False by lia. rewrite decide_False by nia. by rewrite decide_False by lia.
Qed.

(** *** The host-bits loop *)

Section Sanity.
Context `{ResolverOk}.

Definition host_free (net mask : list Z) (i : nat) : Prop :=
  Z.land (nth i net 0) (Z.lnot (nth i mask 0)) = 0.

Lemma host_free_bits net mask i b :
  host_free net mask i -> 0 <= b -> Z.testbit (nth i mask 0) b = false ->
  Z.testbit (nth i net 0) b = false.
Proof.
  intros Hf Hb Hm. unfold host_free in Hf.
  apply (f_equal (fun z => Z.testbit z b)) in Hf.
  rewrite Z.land_spec, Z.lnot_spec, Hm, Z.testbit_0_l in Hf by lia.
  by rewrite andb_true_r in Hf.
Qed.

Lemma host_free_intro net mask i :
  is_byte (nth i net 0) ->
  (forall b, 0 <= b < 8 -> Z.testbit (nth i mask 0) b = false ->
     Z.testbit (nth i net 0) b = false) ->
  host_free net mask i.
Proof.
  intros Hbyte Hbits. apply Z.bits_inj'. intros n Hn.
  rewrite Z.land_spec, Z.lnot_spec, Z.testbit_0_l by lia.
  destruct (Z.testbit (nth i mask 0) n) eqn:Em; [by rewrite andb_false_r|].
  destruct (Z.lt_ge_cases n 8); [rewrite Hbits by (lia || done); done|].
  assert (Z.testbit (nth i net 0) n = false) as ->; [|done].
  unfold is_byte in Hbyte. rewrite <- (Z.mod_small (nth i net 0) (2 ^ 8)) by lia.
  apply Z.mod_pow2_bits_high. lia.
Qed.

Lemma sanity_loop_free n i net mask f count k :
  0 <= i -> (forall i', Z.to_nat i <= i' < Z.to_nat i + n -> host_free net mask i')%nat ->
  sanity_loop n i net mask f count k = Some net.
Proof.
  revert i; induction n as [|n IH]; intros i Hi Hf; cbn [sanity_loop]; [done|].
  rewrite (Hf (Z.to_nat i)) by lia. cbn. apply IH; [lia|]. intros i' Hi'. apply Hf. lia.
Qed.

Lemma sanity_loop_cases n i net mask f count k net' :
  0 <= i -> (forall i', host_free (mask_addr net count k) mask i') ->
  sanity_loop n i net mask f count k = Some net' ->
  (net' = mask_addr net count k) \/
  (net' = net /\ forall i', (Z.to_nat i <= i' < Z.to_nat i + n)%nat -> host_free net mask i').
Proof.
  intros Hi Hfree. revert i Hi; induction n as [|n IH]; intros i Hi; cbn [sanity_loop].
  { intros [= <-]. right. split; [done | lia]. }
  case_bool.
  - cbn [negb]. intros [->|[-> Hf]]%IH; [by left | right | lia]. split; [done|].
    intros i' Hi'. destruct (decide (i' = Z.to_nat i)) as [->|]; [done | apply Hf; lia].
  - cbn [negb]. destruct (inet_ntop _ _); [|done].
    rewrite sanity_loop_free by (try done; lia). intros [= <-]. by left.
Qed.

Lemma sanity_loop_total n i net mask f count k :
  is_family f -> addr_bytes_ok f (ztake count (mask_addr net count k)) -> 0 <= i ->
  (forall i', host_free (mask_addr net count k) mask i') ->
  exists net', sanity_loop n i net mask f count k = Some net'.
Proof.
  intros Hfam Hok. revert i; induction n as [|n IH]; intros i Hi Hfree; cbn [sanity_loop]; [eauto|].
  case_bool; cbn [negb]; [apply IH; [lia | done]|].
  destruct (ntop_total f _ Hfam Hok) as [t ->].
  rewrite sanity_loop_free by (try done; lia). eauto.
Qed.

(** Host bits are cleared, and only they. *)
Lemma sanity_loop_eq net mask f count k :
  is_family f -> count = CIDR_MATCH_ADDR_BYTE_COUNT f -> zlen net = ADDR_MAX_BYTES ->
  Forall is_byte net -> 0 <= k <= 8 * count ->
  (forall j, 0 <= j < 8 * count -> addr_bit mask j = (j <? k)) ->
  (forall i, (Z.to_nat count <= i)%nat -> nth i net 0 = 0) ->
  sanity_loop (Z.to_nat count) 0 net mask f count k = Some (mask_addr net count k).
Proof.
  intros Hfam Hcount Hl Hb Hk Hmask Htail.
  destruct (family_counts f Hfam) as (_ & Hc & _). rewrite <- Hcount in Hc.
  assert (forall i, (i < Z.to_nat count)%nat -> forall b, 0 <= b < 8 ->
    Z.testbit (nth i mask 0) b = (8 * Z.of_nat i + (7 - b) <? k)) as Hm.
  { intros i Hi b Hbb. rewrite <- (Hmask (8 * Z.of_nat i + (7 - b))) by lia.
    rewrite addr_bit_byte by lia. f_equal. lia. }
  assert (forall i, host_free (mask_addr net count k) mask i) as Hfree.
  { intros i. apply host_free_intro.
    - apply nth_byte, mask_addr_bytes; try done; lia.
    - intros b Hbb Hz. destruct (decide (i < Z.to_nat count)%nat) as [Hi|Hi].
      + replace b with (7 - (7 - b)) by lia. rewrite <- addr_bit_byte by lia.
        rewrite mask_addr_bit by lia. rewrite <- (Hm i Hi b) by lia. by rewrite Hz.
      + rewrite nth_mask_addr by lia. assert (k / 8 <= count) by (apply Z.div_le_upper_bound; lia).
        pose proof (Z.div_mod k 8). pose proof (Z.mod_pos_bound k 8).
        rewrite Htail by lia. repeat case_decide; try lia; apply Z.testbit_0_l. }
  destruct (sanity_loop_total (Z.to_nat count) 0 net mask f count k) as (net' & E); try done.
  { split; [rewrite Hcount, zlen_ztake; [done|]|].
    - unfold zlen. rewrite mask_addr_length. unfold zlen in Hl. lia.
    - apply Forall_take, mask_addr_bytes; try done; lia. }
  rewrite E. f_equal. apply sanity_loop_cases in E as [->|[-> Hf]]; try done.
  apply (array_ext count); try done.
  - by rewrite mask_addr_length.
  - lia.
  - apply mask_addr_bytes; try done; lia.
  - intros j Hj. rewrite mask_addr_bit by lia. destruct (Z.ltb_spec j k); [done|]. cbn.
    replace j with (8 * Z.of_nat (Z.to_nat (j / 8)) + j mod 8)
      by (pose proof (Z.div_mod j 8); rewrite Z2Nat.id by (apply Z.div_pos; lia); lia).
    pose proof (Z.mod_pos_bound j 8). rewrite addr_bit_byte by lia.
    assert (0 <= j / 8 < count).
    { split; [apply Z.div_pos; lia | apply Z.div_lt_upper_bound; lia]. }
    apply (host_free_bits net mask); [apply Hf; lia | lia|].
    rewrite Hm by lia. pose proof (Z.div_mod j 8). rewrite Z2Nat.id by lia. lia.
  - symmetry. apply mask_addr_tail; lia.
Qed.

End Sanity.

(** ** The address that a family, address bytes and a prefix length make *)

Definition make_addr (f : Z) (bs : list Z) (k : Z) : addr_info :=
  let count := CIDR_MATCH_ADDR_BYTE_COUNT f in
  mkaddr (mask_addr (bs ++ zrep (ADDR_MAX_BYTES - count) 0) count k)
         (mask_addr (zrep count 255 ++ zrep (ADDR_MAX_BYTES - count) 0) count k)
         f count (CIDR_MATCH_ADDR_BIT_COUNT f) k.

Lemma Forall_zrep (P : Z -> Prop) n x : P x -> Forall P (zrep n x).
Proof. intros H. by apply Forall_replicate. Qed.

Lemma addr_bit_app bs cs j :
  0 <= j < 8 * zlen bs -> addr_bit (bs ++ cs) j = addr_bit bs j.
Proof.
  intros Hj. unfold addr_bit. rewrite app_nth1; [done|].
  assert (0 <= j / 8 < zlen bs); [|zlia].
  split; [apply Z.div_pos; lia | apply Z.div_lt_upper_bound; lia].
Qed.

Lemma addr_bit_ones n j : 0 <= j < 8 * n -> addr_bit (zrep n 255) j = true.
Proof.
  intros Hj. unfold addr_bit.
  assert (0 <= j / 8 < n).
  { split; [apply Z.div_pos; lia | apply Z.div_lt_upper_bound; lia]. }
  assert (zrep n 255 !! Z.to_nat (j / 8) = Some 255) as E by (apply lookup_replicate; lia).
  rewrite (nth_lookup_Some _ _ _ _ E). change 255 with (Z.ones 8).
  pose proof (Z.mod_pos_bound j 8). apply Z.ones_spec_low. lia.
Qed.

Lemma addr_bit_zeros n j : addr_bit (zrep n 0) j = false.
Proof.
  unfold addr_bit, zrep. rewrite nth_lookup.
  destruct (replicate (Z.to_nat n) 0 !! _) eqn:E; cbn; [|apply Z.testbit_0_l].
  apply lookup_replicate in E as [-> _]. apply Z.testbit_0_l.
Qed.

(** The two arrays [make_addr] masks. *)
Lemma full_array f bs :
  is_family f -> addr_bytes_ok f bs ->
  let count := CIDR_MATCH_ADDR_BYTE_COUNT f in
  let net := bs ++ zrep (ADDR_MAX_BYTES - count) 0 in
  zlen net = ADDR_MAX_BYTES /\ Forall is_byte net /\
  zdrop count net = zrep (ADDR_MAX_BYTES - count) 0 /\
  (forall j, 0 <= j < 8 * count -> addr_bit net j = addr_bit bs j) /\
  (forall i, (Z.to_nat count <= i)%nat -> nth i net 0 = 0).
Proof.
  intros Hf [Hl Hb] count net. destruct (family_counts f Hf) as (_ & Hc & _).
  fold count in Hl, Hc. unfold net. split_and!.
  - rewrite zlen_app, zlen_zrep; lia.
  - apply Forall_app; split; [done | apply Forall_zrep; unfold is_byte; lia].
  - rewrite zdrop_app_ge by lia. by rewrite Hl, Z.sub_diag.
  - intros j Hj. apply addr_bit_app. lia.
  - intros i Hi. rewrite app_nth2 by zlia. rewrite nth_lookup.
    destruct (zrep (ADDR_MAX_BYTES - count) 0 !! _) eqn:E; [|done].
    by apply lookup_replicate in E as [-> _].
Qed.

Lemma ones_ok f : is_family f -> addr_bytes_ok f (zrep (CIDR_MATCH_ADDR_BYTE_COUNT f) 255).
Proof.
  intros Hf. destruct (family_counts f Hf) as (_ & Hc & _). split; [apply zlen_zrep; lia|].
  apply Forall_zrep. unfold is_byte. lia.
Qed.

Lemma wf_make_addr f bs k :
  is_family f -> addr_bytes_ok f bs -> 0 <= k <= CIDR_MATCH_ADDR_BIT_COUNT f ->
  wf_addr (make_addr f bs k).
Proof.
  intros Hf Hbs Hk. destruct (family_counts f Hf) as (Hbits & Hc & _).
  destruct (full_array f bs Hf Hbs) as (Hl & Hb & Ht & Hj & _).
  destruct (full_array f _ Hf (ones_ok f Hf)) as (Hl1 & Hb1 & Ht1 & Hj1 & _).
  rewrite Hbits in Hk. unfold make_addr.
  split; cbn [net_bytes mask_bytes addr_family addr_byte_count addr_bit_count mask_shift];
    try done; rewrite ?Hbits; try lia.
  - split; [unfold zlen; rewrite mask_addr_length; done | apply mask_addr_bytes; done || lia].
  - split; [unfold zlen; rewrite mask_addr_length; done | apply mask_addr_bytes; done || lia].
  - intros j Hjj. rewrite mask_addr_bit, Hj1, addr_bit_ones by lia. apply andb_true_r.
  - intros j Hjj. rewrite mask_addr_bit by lia. by replace (j <? k) with false by lia.
  - split; rewrite mask_addr_tail by lia; done.
Qed.

Lemma make_addr_bit f bs k j :
  is_family f -> addr_bytes_ok f bs -> 0 <= k <= CIDR_MATCH_ADDR_BIT_COUNT f ->
  0 <= j < CIDR_MATCH_ADDR_BIT_COUNT f ->
  addr_bit (net_bytes (make_addr f bs k)) j = (j <? k) && addr_bit bs j.
Proof.
  intros Hf Hbs Hk Hj. destruct (family_counts f Hf) as (Hbits & Hc & _).
  destruct (full_array f bs Hf Hbs) as (Hl & Hb & Ht & Hjj & _).
  unfold make_addr; cbn [net_bytes]. rewrite mask_addr_bit by lia. f_equal. apply Hjj. lia.
Qed.

(** An address record is determined by its family, prefix length and bits. *)
Lemma wf_addr_ext a b :
  wf_addr a -> wf_addr b -> addr_family a = addr_family b -> mask_shift a = mask_shift b ->
  (forall j, 0 <= j < mask_shift a -> addr_bit (net_bytes a) j = addr_bit (net_bytes b) j) ->
  a = b.
Proof.
  intros Ha Hb Hf Hs Hj.
  destruct (family_counts (addr_family a) (wa_family a Ha)) as (Hbits & Hc & _).
  pose proof (wa_bytes a Ha) as Ba. pose proof (wa_bytes b Hb) as Bb.
  pose proof (wa_bits a Ha) as Ia. pose proof (wa_bits b Hb) as Ib.
  pose proof (wa_net a Ha) as [La Fa]. pose proof (wa_net b Hb) as [Lb Fb].
  pose proof (wa_mask a Ha) as [Ma Ga]. pose proof (wa_mask b Hb) as [Mb Gb].
  pose proof (wa_tail a Ha) as [Ta Ua]. pose proof (wa_tail b Hb) as [Tb Ub].
  pose proof (wa_net_bits a Ha) as Na. pose proof (wa_net_bits b Hb) as Nb.
  pose proof (wa_mask_bits a Ha) as Ka. pose proof (wa_mask_bits b Hb) as Kb.
  rewrite <- Hf in Bb, Ib. rewrite <- Ba in Bb, Hbits.
  assert (net_bytes a = net_bytes b) as En.
  { apply (array_ext (addr_byte_count a)); try done; [zlia | lia | | by rewrite Ta, <- Bb, Tb, Bb].
    intros j Hjj. destruct (Z.lt_ge_cases j (mask_shift a)); [apply Hj; lia|].
    rewrite Na, Nb by lia. done. }
  assert (mask_bytes a = mask_bytes b) as Em.
  { apply (array_ext (addr_byte_count a)); try done; [zlia | lia | | by rewrite Ua, <- Bb, Ub, Bb].
    intros j Hjj. rewrite Ka, Kb, Hs by lia. done. }
  destruct a, b; cbn in *. by subst.
Qed.

Section ParseSpec.
Context `{ResolverOk}.

Lemma u8_range z : 0 <= u8 z < 256.
Proof. apply Z.mod_pos_bound. lia. Qed.

(** [address/len]: what the two texts make. *)
Lemma parse_with_mask_eq pattern mask :
  parse_with_mask pattern mask =
    let f := CIDR_MATCH_ADDR_FAMILY pattern in
    if str_alldig mask && (u8 (atoi mask) <=? CIDR_MATCH_ADDR_BIT_COUNT f)
    then (fun bs => make_addr f bs (u8 (atoi mask))) <$> getaddrinfo f pattern
    else None.
Proof.
  cbn. unfold parse_with_mask.
  set (f := CIDR_MATCH_ADDR_FAMILY pattern). set (k := u8 (atoi mask)).
  destruct (str_alldig mask); [|done]. cbn [negb orb andb].
  destruct (Z.ltb_spec (CIDR_MATCH_ADDR_BIT_COUNT f) k).
  { by replace (k <=? CIDR_MATCH_ADDR_BIT_COUNT f) with false by lia. }
  replace (k <=? CIDR_MATCH_ADDR_BIT_COUNT f) with true by lia.
  destruct (getaddrinfo f pattern) as [bs|] eqn:E; [|done]. cbn [fmap option_fmap option_map].
  assert (is_family f) as Hf by apply family_of_text.
  pose proof (gai_bytes f pattern bs Hf E) as Hok. pose proof Hok as [Hlen _].
  destruct (family_counts f Hf) as (Hbits & Hc & _).
  assert (0 <= k <= 8 * CIDR_MATCH_ADDR_BYTE_COUNT f) as Hk
    by (pose proof (u8_range (atoi mask)); unfold k in *; lia).
  pose proof (full_array f bs Hf Hok) as (Hl & Hb & Ht & Hj & Hz).
  pose proof (full_array f _ Hf (ones_ok f Hf)) as (Hl1 & Hb1 & Ht1 & Hj1 & _).
  set (count := CIDR_MATCH_ADDR_BYTE_COUNT f) in *.
  replace (ztake count bs ++ zdrop count zero_array) with (bs ++ zrep (ADDR_MAX_BYTES - count) 0).
  2: { rewrite ztake_all by lia. f_equal. unfold zero_array, zdrop, zrep.
       rewrite drop_replicate. f_equal. lia. }
  replace (memset zero_array (u8 (-1)) count) with (zrep count 255 ++ zrep (ADDR_MAX_BYTES - count) 0).
  2: { unfold memset, zero_array, zdrop, zrep. rewrite drop_replicate. do 2 f_equal. lia. }
  set (ones := zrep count 255 ++ zrep (ADDR_MAX_BYTES - count) 0) in *.
  assert ((if 0 <? k then mask_addr ones count k else memset zero_array 0 count) =
          mask_addr ones count k) as ->.
  { destruct (Z.ltb_spec 0 k); [done|]. replace k with 0 by lia.
    replace (memset zero_array 0 count) with (zrep ADDR_MAX_BYTES 0).
    2: { unfold memset, zero_array, zdrop, zrep. rewrite drop_replicate, <- replicate_add.
         f_equal. lia. }
    apply (array_ext count); [| lia | | | |].
    - rewrite mask_addr_length. zlia.
    - apply Forall_zrep. unfold is_byte. lia.
    - apply mask_addr_bytes; done || lia.
    - intros j Hjj. rewrite mask_addr_bit, addr_bit_zeros by lia.
      by replace (j <? 0) with false by lia.
    - rewrite mask_addr_tail, Ht1 by lia. unfold zdrop, zrep. rewrite drop_replicate.
      f_equal. lia. }
  rewrite sanity_loop_eq; try done.
  intros j Hjj. rewrite mask_addr_bit, Hj1, addr_bit_ones by lia. apply andb_true_r.
Qed.

Lemma mask_addr_full bs count :
  0 <= count <= zlen bs -> Forall is_byte bs -> mask_addr bs count (8 * count) = bs.
Proof.
  intros Hc Hb. apply (array_ext count); try done; try lia.
  - apply mask_addr_length.
  - apply mask_addr_bytes; done || lia.
  - intros j Hj. rewrite mask_addr_bit by lia. by replace (j <? 8 * count) with true by lia.
  - apply mask_addr_tail; lia.
Qed.

Lemma parse_without_mask_eq pattern :
  parse_without_mask pattern =
    let f := CIDR_MATCH_ADDR_FAMILY pattern in
    (fun bs => make_addr f bs (CIDR_MATCH_ADDR_BIT_COUNT f)) <$> getaddrinfo f pattern.
Proof.
  cbn. unfold parse_without_mask. set (f := CIDR_MATCH_ADDR_FAMILY pattern).
  destruct (getaddrinfo f pattern) as [bs|] eqn:E; [|done]. cbn [fmap option_fmap option_map].
  assert (is_family f) as Hf by apply family_of_text.
  pose proof (gai_bytes f pattern bs Hf E) as Hok. pose proof Hok as [Hlen _].
  destruct (family_counts f Hf) as (Hbits & Hc & Hmax).
  pose proof (full_array f bs Hf Hok) as (Hl & Hb & _).
  pose proof (full_array f _ Hf (ones_ok f Hf)) as (Hl1 & Hb1 & _).
  unfold make_addr. rewrite !Hbits, !mask_addr_full by (done || lia).
  set (count := CIDR_MATCH_ADDR_BYTE_COUNT f) in *.
  do 2 f_equal.
  - rewrite ztake_all by lia. f_equal. unfold zero_array, zdrop, zrep.
    rewrite drop_replicate. f_equal. lia.
  - unfold memset, zero_array, zdrop, zrep. rewrite drop_replicate. do 2 f_equal. lia.
  - apply Z.mod_small. lia.
Qed.

(** Whatever is parsed satisfies the invariant. *)
Lemma parse_pattern_wf pattern a : parse_pattern pattern = Some a -> wf_addr a.
Proof.
  unfold parse_pattern. destruct (strip_brackets pattern) as [[p ms]|]; [|done].
  destruct (match ms with Some m => _ | None => _ end) as [p' mask].
  pose proof (family_of_text p') as Hf. destruct mask as [mask|].
  - rewrite parse_with_mask_eq. cbn. destruct (str_alldig mask && _) eqn:E; [|done].
    intros (bs & Hg & ->)%fmap_Some. apply wf_make_addr; [done | by eapply gai_bytes |].
    pose proof (u8_range (atoi mask)). lia.
  - rewrite parse_without_mask_eq. cbn.
    intros (bs & Hg & ->)%fmap_Some. apply wf_make_addr; [done | by eapply gai_bytes |].
    destruct (family_counts _ Hf). lia.
Qed.

End ParseSpec.

(** ** The functions around the parser *)

Section Functions.
Context `{Allocator} `{ResolverOk}.

(** Given memory, [addrmask_parse] is [parse_pattern] on every non-empty text. *)
Lemma addrmask_parse_eq t :
  alloc_enough -> nonul t -> t <> [] -> zlen t < str_limit ->
  addrmask_parse t = Ret (parse_pattern t).
Proof.
  intros Ha Hn Ht Hl. unfold addrmask_parse, string_initfromstringz, strlen.
  assert (0 < zlen t) as Hpos by (destruct t; [done | zlia]).
  assert (good_str (string_lazyinit (zlen t))) as Hg.
  { split; cbn; [|lia|unfold str_limit; lia]. apply wf_lazyinit. unfold size_max, str_limit in *. lia. }
  destruct (concatb_appends (t ++ [0]) (zlen t) Ha) with (s := string_lazyinit (zlen t))
    as (s & E & [Hw Hgb Hsz] & Hc & Hs); try done.
  { rewrite zlen_app. zlia. }
  { rewrite zlen_ztake by (rewrite zlen_app; zlia). cbn. lia. }
  rewrite E. cbn [mbind outcome_bind negb].
  rewrite ztake_app_le, ztake_all in Hc by lia. cbn in Hc.
  assert (s_length s = zlen t) as Hls by (rewrite <- (zlen_content s Hw), Hc; done).
  unfold str_limit in *.
  destruct (terminate_ok s) as (s' & s1 & Ep & -> & Hw' & Hc' & Hg' & Hlen' & _ & Hz); try done; try lia.
  { unfold size_max. lia. }
  { intros n Hn'. apply Ha. unfold str_limit. lia. }
  rewrite Ep. cbn [mbind outcome_bind negb].
  pose proof (cstr_content _ Hw') as Hcs. rewrite Hc', Hc in Hcs.
  unfold string_cstr in *. cbn [s_s] in *. by rewrite Hcs.
Qed.

(** A success comes from [parse_pattern], whatever the allocator does. *)
Lemma addrmask_parse_pattern t a :
  addrmask_parse t = Ret (Some a) -> exists p, parse_pattern p = Some a.
Proof using Type.
  unfold addrmask_parse.
  destruct (string_initfromstringz t) as [[[] s]| |]; cbn; try done.
  destruct (string_putc s 0) as [[[] s']| |]; cbn; try done.
  destruct (string_cstr s') as [p|]; cbn; [|done]. intros [= E]. by exists p.
Qed.

Lemma addrmask_init_eq t :
  alloc_enough -> nonul t -> t <> [] -> zlen t < str_limit ->
  addrmask_init t = Ret (parse_pattern t).
Proof.
  intros Ha Hn Ht Hl. unfold addrmask_init. rewrite (Ha sizeof_addr_info) by done.
  by apply addrmask_parse_eq.
Qed.

(** *** Matching *)

(** The bits of [info] below the mask of [entry] are those of [entry]. *)
Definition contains (entry info : addr_info) : Prop :=
  addr_family entry = addr_family info /\
  forall j, 0 <= j < mask_shift entry -> addr_bit (net_bytes info) j = addr_bit (net_bytes entry) j.

Lemma masked_loop_spec n i ap mp np :
  masked_loop n i ap mp np = true <->
  forall k, (i <= k < i + n)%nat -> Z.land (nth k ap 0) (nth k mp 0) = nth k np 0.
Proof using Type.
  revert i; induction n as [|n IH]; intros i; cbn [masked_loop]; [split; [lia | done]|].
  case_bool; cbn [negb].
  - rewrite IH. split; intros Hk k Hr; [|apply Hk; lia].
    destruct (decide (k = i)) as [->|]; [done | apply Hk; lia].
  - split; [done|]. intros Hk. by specialize (Hk i ltac:(lia)).
Qed.

Lemma equal_loop_spec n i ap np :
  equal_loop n i ap np = true <-> forall k, (i <= k < i + n)%nat -> nth k ap 0 = nth k np 0.
Proof using Type.
  revert i; induction n as [|n IH]; intros i; cbn [equal_loop]; [split; [lia | done]|].
  case_bool; cbn [negb].
  - rewrite IH. split; intros Hk k Hr; [|apply Hk; lia].
    destruct (decide (k = i)) as [->|]; [done | apply Hk; lia].
  - split; [done|]. intros Hk. by specialize (Hk i ltac:(lia)).
Qed.

Lemma land_byte x y : is_byte x -> is_byte y -> is_byte (Z.land x y).
Proof using Type.
  unfold is_byte. intros Hx Hy. assert (0 <= Z.land x y) by (apply Z.land_nonneg; lia).
  split; [done|]. replace (Z.land x y) with (Z.land x y mod 2 ^ 8); [apply Z.mod_pos_bound; lia|].
  by rewrite <- Z.land_ones, <- Z.land_assoc, (Z.land_ones y), (Z.mod_small y) by lia.
Qed.

(** A byte range in terms of the address bits. *)
Lemma addr_bit_index j : 0 <= j ->
  0 <= j mod 8 < 8 /\ j = 8 * Z.of_nat (Z.to_nat (j / 8)) + j mod 8.
Proof using Type.
  intros Hj. pose proof (Z.div_mod j 8). pose proof (Z.mod_pos_bound j 8).
  rewrite Z2Nat.id by (apply Z.div_pos; lia). lia.
Qed.

Lemma entry_contains_spec info entry :
  wf_addr info -> wf_addr entry ->
  entry_contains info entry = true <-> contains entry info.
Proof using Type.
  intros Hi He. unfold entry_contains, contains.
  destruct (Z.eqb_spec (addr_family entry) (addr_family info)) as [Ef|Ef];
    [|split; [done | by intros []]].
  destruct (family_counts _ (wa_family entry He)) as (Hbits & Hc & _).
  rewrite <- (wa_bytes entry He), <- (wa_bits entry He) in *.
  pose proof (wa_net info Hi) as [_ Hib]. pose proof (wa_net entry He) as [_ Hnb].
  pose proof (wa_mask entry He) as [_ Hmb]. pose proof (wa_shift entry He) as Hs.
  assert (forall j, 0 <= j < 8 * addr_byte_count entry ->
    (Z.to_nat (j / 8) < Z.to_nat (addr_byte_count entry))%nat) as Hidx.
  { intros j Hj. assert (0 <= j / 8 < addr_byte_count entry); [|lia].
    split; [apply Z.div_pos; lia | apply Z.div_lt_upper_bound; lia]. }
  case_bool.
  - rewrite masked_loop_spec. split.
    + intros Hk. split; [done|]. intros j Hj. destruct (addr_bit_index j) as [Hm Hd]; [lia|].
      specialize (Hk _ (conj (Nat.le_0_l _) (Hidx j ltac:(lia)))).
      pose proof (wa_mask_bits entry He j ltac:(lia)) as Hmask.
      replace (j <? mask_shift entry) with true in Hmask by lia.
      revert Hmask. rewrite Hd, !addr_bit_byte by lia. intros Hmask.
      by rewrite <- Hk, Z.land_spec, Hmask, andb_true_r.
    + intros [_ Hj] k Hk. apply byte_ext; [apply land_byte; by apply nth_byte | by apply nth_byte|].
      intros b Hb. rewrite Z.land_spec. replace b with (7 - (7 - b)) by lia.
      rewrite <- !addr_bit_byte by lia. rewrite (wa_mask_bits entry He) by lia.
      case_bool; [by rewrite andb_true_r, Hj by lia|].
      rewrite andb_false_r. symmetry. apply (wa_net_bits entry He). lia.
  - assert (mask_shift entry = addr_bit_count entry) as Esh by lia. rewrite equal_loop_spec. split.
    + intros Hk. split; [done|]. intros j Hj. destruct (addr_bit_index j) as [Hm Hd]; [lia|].
      specialize (Hk _ (conj (Nat.le_0_l _) (Hidx j ltac:(lia)))).
      by rewrite Hd, !addr_bit_byte, Hk by lia.
    + intros [_ Hj] k Hk. apply byte_ext; [by apply nth_byte.. |].
      intros b Hb. replace b with (7 - (7 - b)) by lia.
      rewrite <- !addr_bit_byte by lia. apply Hj. lia.
Qed.

(** [match_list] in terms of the first entry that contains the address. *)
Lemma match_list_first matches info :
  match_list matches info =
    match List.find (entry_contains info) matches with
    | Some e => if mask_shift info <? mask_shift e then None else Some e
    | None => None
    end.
Proof using Type.
  induction matches as [|e l IH]; cbn [match_list List.find]; [done|].
  by destruct (entry_contains info e).
Qed.

(** *** Text *)

Definition addr_text (a : addr_info) : text :=
  default [] (inet_ntop (addr_family a) (ztake (addr_byte_count a) (net_bytes a))) ++
  47 :: dec (mask_shift a).

Lemma wf_addr_bytes a :
  wf_addr a -> addr_bytes_ok (addr_family a) (ztake (addr_byte_count a) (net_bytes a)).
Proof using Type.
  intros Ha. destruct (family_counts _ (wa_family a Ha)) as (_ & Hc & _).
  pose proof (wa_net a Ha) as [Hl Hb]. rewrite <- (wa_bytes a Ha) in Hc. split.
  - rewrite zlen_ztake by lia. apply (wa_bytes a Ha).
  - by apply Forall_take.
Qed.

Lemma wf_addr_shift_range a : wf_addr a -> 0 <= mask_shift a <= 128.
Proof using Type.
  intros Ha. destruct (family_counts _ (wa_family a Ha)) as (_ & _ & Hm).
  pose proof (wa_shift a Ha). rewrite (wa_bits a Ha) in *. lia.
Qed.

(** The pieces of the text of a well-formed address. *)
Lemma addr_text_spec a :
  wf_addr a -> exists t,
    inet_ntop (addr_family a) (ztake (addr_byte_count a) (net_bytes a)) = Some t /\
    addr_text a = t ++ 47 :: dec (mask_shift a) /\ t <> [] /\ nonul t /\ 47 ∉ t /\
    t !! 0%nat <> Some 91 /\ CIDR_MATCH_ADDR_FAMILY t = addr_family a /\ zlen t < 255 /\
    getaddrinfo (addr_family a) t = Some (ztake (addr_byte_count a) (net_bytes a)).
Proof.
  intros Ha. pose proof (wf_addr_bytes a Ha) as Hok. pose proof (wa_family a Ha) as Hf.
  destruct (ntop_total _ _ Hf Hok) as [t Et]. exists t.
  destruct (ntop_text _ _ _ Hf Hok Et) as (Hne & Hn & H47 & H91 & Hlen & H58).
  split_and!; try done.
  - unfold addr_text. by rewrite Et.
  - unfold CIDR_MATCH_ADDR_FAMILY. destruct (strchr t 58) as [[b f]|] eqn:E.
    + symmetry. apply H58. apply strchr_Some in E as (-> & _ & r & ->). set_solver.
    + destruct Hf as [->|Hf6]; [done|]. apply strchr_None in E. by apply H58 in Hf6.
  - by apply gai_ntop.
Qed.

Lemma dec_small_facts k : 0 <= k <= 128 ->
  nonul (dec k) /\ zlen (dec k) <= 3 /\ str_alldig (dec k) = true /\ atoi (dec k) = k.
Proof using Type.
  intros Hk. assert (0 <= k < 129) as Hk' by lia. clear Hk. revert k Hk'.
  assert (Forall (fun k => nonul (dec k) /\ zlen (dec k) <= 3 /\ str_alldig (dec k) = true /\
            atoi (dec k) = k) (map Z.of_nat (seq 0 129))) as HF.
  { apply List.Forall_forall. intros k (n & <- & Hn)%in_map_iff. apply in_seq in Hn.
    do 129 (destruct n as [|n]; [vm_compute; repeat split; try discriminate; repeat constructor; discriminate|]).
    lia. }
  intros k Hk. rewrite List.Forall_forall in HF. apply HF, in_map_iff.
  exists (Z.to_nat k). split; [lia | apply in_seq; lia].
Qed.

(** The text of an address parses back to that address. *)
Lemma parse_addr_text a : wf_addr a -> parse_pattern (addr_text a) = Some a.
Proof.
  intros Ha. destruct (addr_text_spec a Ha) as (t & _ & -> & Hne & _ & H47 & H91 & Hfam & _ & Hg).
  pose proof (wf_addr_shift_range a Ha) as Hs.
  destruct (dec_small_facts _ Hs) as (_ & _ & Hdig & Hval).
  unfold parse_pattern.
  assert (strip_brackets (t ++ 47 :: dec (mask_shift a)) = Some (t ++ 47 :: dec (mask_shift a), None)) as ->.
  { destruct t as [|x t]; [done|]. cbn [app strip_brackets].
    destruct (decide (x = 91)) as [->|Hx]; [done|].
    clear -Hx. repeat (destruct x as [|x|x]; try done). }
  rewrite str_split_at_app by done. rewrite parse_with_mask_eq, Hfam. cbn [default].
  rewrite Hdig, Hval. replace (u8 (mask_shift a)) with (mask_shift a) by (symmetry; apply Z.mod_small; lia).
  pose proof (wa_shift a Ha) as Hs'. pose proof (wa_family a Ha) as Hf.
  pose proof (wf_addr_bytes a Ha) as Hok.
  rewrite (wa_bits a Ha) in Hs'. cbn. replace (mask_shift a <=? _) with true by lia.
  rewrite Hg. cbn [fmap option_fmap option_map andb]. f_equal.
  apply wf_addr_ext; try done.
  - apply wf_make_addr; try done; lia.
  - intros j Hj. cbn [mask_shift make_addr] in Hj. rewrite make_addr_bit by (done || lia).
    replace (j <? mask_shift a) with true by lia. cbn.
    unfold addr_bit, ztake. rewrite !nth_lookup, lookup_take_lt; [done|].
    assert (0 <= j / 8 < addr_byte_count a); [|lia].
    destruct (family_counts _ Hf) as (Hb & _). rewrite <- (wa_bytes a Ha) in Hb.
    split; [apply Z.div_pos; lia | apply Z.div_lt_upper_bound; lia].
Qed.

Lemma addr_text_nonul a : wf_addr a -> nonul (addr_text a) /\ addr_text a <> [] /\ zlen (addr_text a) < 260.
Proof.
  intros Ha. destruct (addr_text_spec a Ha) as (t & _ & -> & Hne & Hn & _ & _ & _ & Hl & _).
  destruct (dec_small_facts _ (wf_addr_shift_range a Ha)) as (Hd & Hl' & _).
  split_and!; [|by destruct t | rewrite zlen_app, zlen_cons; lia].
  apply nonul_app. split; [done|]. constructor; done.
Qed.

Lemma to_string_appends a :
  alloc_enough -> wf_addr a -> appends (fun s => addrmask_to_string s a) (addr_text a).
Proof.
  intros Ha Hw. destruct (addr_text_spec a Hw) as (t & Et & -> & _).
  pose proof (wf_addr_shift_range a Hw) as Hs.
  assert (appends ((fun s => string_concat s t) ;;; (fun s => string_putc s 47) ;;;
                   (fun s => string_putint s (mask_shift a))) (t ++ [47] ++ dec (mask_shift a))) as Hap.
  { repeat apply appends_then; [by apply concat_appends | by apply putc_appends |].
    apply putint_appends; [done | lia]. }
  intros s Hgs Hl. destruct (Hap s Hgs Hl) as (s' & E & Hr). exists s'. split; [|done].
  unfold addrmask_to_string. rewrite Et. rewrite <- E. unfold str_then.
  destruct (string_concat s t) as [[[] s1]| |]; cbn; try done.
  destruct (string_putc s1 47) as [[[] s2]| |]; cbn; try done.
  by destruct (string_putint s2 (mask_shift a)) as [[[] s3]| |].
Qed.

End Functions.
