(* ===== verification/NumericHost.v ===== *)
(** * A concrete resolver

    Numeric host texts read and written by Rocq functions: four decimal bytes
    joined by dots, and eight groups of four hexadecimal digits joined by
    colons.  It satisfies the laws of [ResolverOk], so the theorems that assume
    them apply to it. *)

From S2P Require Import Prelude CLib CString StrBuf AddrMask.

(** ** Bytes and groups as text *)

Definition hexd (d : Z) : char := if d <? 10 then 48 + d else 87 + d.
Definition hex2 (b : Z) : text := [hexd (b / 16); hexd (b mod 16)].

Definition byte_of_dec (t : text) : option Z :=
  if str_alldig t && (0 <=? atoi t) && (atoi t <? 256) then Some (atoi t) else None.
Definition hexv (c : char) : option Z :=
  if digit_val c <? 16 then Some (digit_val c) else None.
Definition bytes_of_hex4 (t : text) : option (list Z) :=
  match t with
  | [a; b; c; d] =>
      a ← hexv a; b ← hexv b; c ← hexv c; d ← hexv d;
      Some [16 * a + b; 16 * c + d]
  | _ => None
  end.

Definition text_of_v4 (bs : list Z) : text := join 46 (map dec bs).
Fixpoint groups_of (bs : list Z) : list text :=
  match bs with
  | a :: b :: bs => (hex2 a ++ hex2 b) :: groups_of bs
  | _ => []
  end.
Definition text_of_v6 (bs : list Z) : text := join 58 (groups_of bs).

Definition v4_of_text (t : text) : option (list Z) :=
  match split_on 46 t with
  | [_; _; _; _] as parts => mapM byte_of_dec parts
  | _ => None
  end.
Definition v6_of_text (t : text) : option (list Z) :=
  match split_on 58 t with
  | [_; _; _; _; _; _; _; _] as parts => @concat Z <$> mapM bytes_of_hex4 parts
  | _ => None
  end.

#[export] Instance numeric_host : Resolver := {
  getaddrinfo f t := if f =? AF_INET6 then v6_of_text t else v4_of_text t;
  inet_ntop f bs := Some (if f =? AF_INET6 then text_of_v6 bs else text_of_v4 bs)
}.

(** ** The laws *)

(** Facts about all bytes, by evaluation. *)
Lemma all_bytes (P : Z -> Prop) `{Hdec : forall b, Decision (P b)} :
  forallb (fun n => bool_decide (P (Z.of_nat n))) (seq 0 256) = true ->
  forall b, is_byte b -> P b.
Proof.
  intros H b Hb. rewrite forallb_forall in H. unfold is_byte in Hb.
  specialize (H (Z.to_nat b)). rewrite Z2Nat.id in H by lia.
  apply (bool_decide_eq_true_1 _), H, in_seq. lia.
Qed.

Lemma dec_byte : forall b, is_byte b ->
  byte_of_dec (dec b) = Some b /\ 46 ∉ dec b /\ 47 ∉ dec b /\ 58 ∉ dec b /\
  0 ∉ dec b /\ 91 ∉ dec b /\ dec b <> [] /\ zlen (dec b) <= 3.
Proof. refine (all_bytes _ _). by vm_compute. Qed.

Lemma hex2_byte : forall b, is_byte b ->
  (a ← hexv (hexd (b / 16)); (d ← hexv (hexd (b mod 16)); Some (16 * a + d))) = Some b.
Proof. refine (all_bytes _ _). by vm_compute. Qed.

Lemma hex2_chars : forall b, is_byte b ->
  47 ∉ hex2 b /\ 58 ∉ hex2 b /\ 0 ∉ hex2 b /\ 91 ∉ hex2 b /\ zlen (hex2 b) = 2.
Proof. refine (all_bytes _ _). by vm_compute. Qed.

Lemma byte_of_dec_range t b : byte_of_dec t = Some b -> is_byte b.
Proof.
  unfold byte_of_dec, is_byte. destruct (str_alldig t); [|done]. cbn [andb].
  destruct ((0 <=? atoi t) && (atoi t <? 256)) eqn:E; [|done]. intros [= <-]. lia.
Qed.

Lemma hexv_range c v : hexv c = Some v -> 0 <= v < 16.
Proof.
  unfold hexv. destruct (digit_val c <? 16) eqn:E; [|done]. intros [= <-].
  unfold digit_val, isdigit, islower, isupper in *. repeat case_match; lia.
Qed.

Lemma bytes_of_hex4_range t bs :
  bytes_of_hex4 t = Some bs -> zlen bs = 2 /\ Forall is_byte bs.
Proof.
  unfold bytes_of_hex4. destruct t as [|a [|b [|c [|d [|]]]]]; try done. intros H.
  apply bind_Some in H as (a' & Ha%hexv_range & H). apply bind_Some in H as (b' & Hb%hexv_range & H).
  apply bind_Some in H as (c' & Hc%hexv_range & H). apply bind_Some in H as (d' & Hd%hexv_range & H).
  injection H as <-. split; [done|]. repeat constructor; unfold is_byte; lia.
Qed.

Lemma v4_of_text_ok t bs : v4_of_text t = Some bs -> zlen bs = 4 /\ Forall is_byte bs.
Proof.
  unfold v4_of_text. destruct (split_on 46 t) as [|a [|b [|c [|d [|]]]]]; try done. intros H.
  apply mapM_Some in H as HF. split.
  - apply Forall2_length in HF. cbn in HF. unfold zlen. by rewrite <- HF.
  - eapply Forall2_Forall_r; [exact HF|]. apply Forall_forall. intros x _ y. apply byte_of_dec_range.
Qed.

Lemma concat_pairs (bss : list (list Z)) :
  Forall (fun bs => zlen bs = 2 /\ Forall is_byte bs) bss ->
  zlen (concat bss) = 2 * zlen bss /\ Forall is_byte (concat bss).
Proof.
  induction 1 as [|bs bss [Hl Hb] _ [IHl IHb]]; [split; [done | constructor]|].
  cbn [concat]. split; [rewrite zlen_app, zlen_cons; lia | by apply Forall_app].
Qed.

Lemma v6_of_text_ok t bs : v6_of_text t = Some bs -> zlen bs = 16 /\ Forall is_byte bs.
Proof.
  unfold v6_of_text.
  destruct (split_on 58 t) as [|p0 [|p1 [|p2 [|p3 [|p4 [|p5 [|p6 [|p7 [|]]]]]]]]]; try done.
  intros (bss & H & ->)%fmap_Some. apply mapM_Some in H as HF.
  assert (zlen bss = 8) as Hl by (apply Forall2_length in HF; cbn in HF; unfold zlen; lia).
  destruct (concat_pairs bss) as [Hc Hb]; [|split; [lia | done]].
  eapply Forall2_Forall_r; [exact HF|]. apply Forall_forall. intros x _ y. apply bytes_of_hex4_range.
Qed.

Lemma bytes4 (bs : list Z) : zlen bs = 4 -> exists a b c d, bs = [a; b; c; d].
Proof.
  unfold zlen. intros H.
  do 4 (destruct bs as [|? bs]; [cbn in H; lia|]). destruct bs; [eauto|]. cbn in H. lia.
Qed.

Lemma bytes16 (bs : list Z) : zlen bs = 16 -> exists a b c d e f g h i j k l m n o p,
  bs = [a; b; c; d; e; f; g; h; i; j; k; l; m; n; o; p].
Proof.
  unfold zlen. intros H.
  do 16 (destruct bs as [|? bs]; [cbn in H; lia|]). destruct bs; [eauto 20|]. cbn in H. lia.
Qed.

Ltac split_bytes :=
  repeat match goal with
  | H : Forall is_byte (_ :: _) |- _ => apply list.Forall_cons in H as [? H]
  end.

Lemma text_of_v4_parse bs : zlen bs = 4 -> Forall is_byte bs -> v4_of_text (text_of_v4 bs) = Some bs.
Proof.
  intros (a & b & c & d & ->)%bytes4 HF. split_bytes.
  unfold v4_of_text, text_of_v4. rewrite split_join; [|done|].
  - cbn [map mapM]. by rewrite !(fun x H => proj1 (dec_byte x H)).
  - repeat constructor; by apply dec_byte.
Qed.

Lemma bytes_of_hex2 a b : is_byte a -> is_byte b -> bytes_of_hex4 (hex2 a ++ hex2 b) = Some [a; b].
Proof.
  intros Ha%hex2_byte Hb%hex2_byte. cbn [hex2 app bytes_of_hex4].
  apply bind_Some in Ha as (a1 & -> & Ha). apply bind_Some in Ha as (a2 & -> & Ha).
  apply bind_Some in Hb as (b1 & -> & Hb). apply bind_Some in Hb as (b2 & -> & Hb).
  cbn. by injection Ha as ->; injection Hb as ->.
Qed.

Lemma text_of_v6_parse bs : zlen bs = 16 -> Forall is_byte bs -> v6_of_text (text_of_v6 bs) = Some bs.
Proof.
  intros (a & b & c & d & e & f & g & h & i & j & k & l & m & n & o & p & ->)%bytes16 HF. split_bytes.
  unfold v6_of_text, text_of_v6. cbn [groups_of]. rewrite split_join; [|done|].
  - cbn [mapM]. by rewrite !bytes_of_hex2.
  - repeat constructor; (intros [Hi|Hi]%elem_of_app; revert Hi; by apply hex2_chars).
Qed.

Lemma join_elem c (parts : list text) x : x ∈ join c parts -> x = c \/ exists p, p ∈ parts /\ x ∈ p.
Proof.
  induction parts as [|p [|q parts] IH]; cbn [join]; [set_solver..|].
  intros [Hx|[->|Hx]%elem_of_cons]%elem_of_app; [set_solver | by left | set_solver].
Qed.

(** A text whose characters are all in [P] and differ from [c]. *)
Lemma not_in_join c (parts : list text) x : x <> c -> (forall p, p ∈ parts -> x ∉ p) -> x ∉ join c parts.
Proof. intros Hx Hp [?|(p & Hin & Hxp)]%join_elem; [done | by apply (Hp p)]. Qed.

Lemma nonul_not_in (t : text) : 0 ∉ t -> nonul t.
Proof. intros H. apply list.Forall_forall. by intros x Hx ->. Qed.

Lemma not_head (t : text) x : x ∉ t -> t !! 0%nat <> Some x.
Proof. intros H E. apply H. by eapply list_elem_of_lookup_2. Qed.

Lemma text_of_v4_text bs : zlen bs = 4 -> Forall is_byte bs ->
  let t := text_of_v4 bs in
  t <> [] /\ nonul t /\ 47 ∉ t /\ t !! 0%nat <> Some 91 /\ zlen t < 255 /\ 58 ∉ t.
Proof.
  intros (a & b & c & d & ->)%bytes4 HF. split_bytes. cbn zeta.
  assert (forall x, x <> 46 -> x ∉ dec a -> x ∉ dec b -> x ∉ dec c -> x ∉ dec d ->
            x ∉ text_of_v4 [a; b; c; d]) as Hnot.
  { intros x ? ? ? ? ?. apply not_in_join; [done|]. intros q Hq. cbn in Hq. set_solver. }
  split_and!.
  - cbn [text_of_v4 map join]. destruct (dec a) eqn:E; [|done]. by destruct (dec_byte a) as (_&_&_&_&_&_&?&_).
  - apply nonul_not_in, Hnot; try done; by apply dec_byte.
  - apply Hnot; try done; by apply dec_byte.
  - apply not_head, Hnot; try done; by apply dec_byte.
  - cbn [text_of_v4 map join]. rewrite !zlen_app, !zlen_cons, !zlen_app, !zlen_cons, !zlen_app, !zlen_cons.
    pose proof (fun x H => proj2 (proj2 (proj2 (proj2 (proj2 (proj2 (proj2 (dec_byte x H)))))))) as Hd.
    pose proof (Hd a ltac:(done)). pose proof (Hd b ltac:(done)).
    pose proof (Hd c ltac:(done)). pose proof (Hd d ltac:(done)). lia.
  - apply Hnot; try done; by apply dec_byte.
Qed.

Lemma groups_elem bs q x : q ∈ groups_of bs -> x ∈ q -> exists y, y ∈ bs /\ x ∈ hex2 y.
Proof.
  remember (length bs) as n eqn:En. revert bs En.
  induction n as [n IH] using lt_wf_ind. intros bs -> Hq Hx.
  destruct bs as [|a [|b bs]]; cbn [groups_of] in Hq; [by apply not_elem_of_nil in Hq..|].
  apply elem_of_cons in Hq as [->|Hq].
  - apply elem_of_app in Hx as [Hx|Hx]; [exists a | exists b]; split; set_solver.
  - destruct (IH (length bs) ltac:(cbn; lia) bs eq_refl Hq Hx) as (y & Hy & Hxy).
    exists y. split; [set_solver | done].
Qed.

Lemma text_of_v6_text bs : zlen bs = 16 -> Forall is_byte bs ->
  let t := text_of_v6 bs in
  t <> [] /\ nonul t /\ 47 ∉ t /\ t !! 0%nat <> Some 91 /\ zlen t < 255 /\ 58 ∈ t.
Proof.
  intros (a & b & c & d & e & f & g & h & i & j & k & l & m & n & o & p & ->)%bytes16 HF. split_bytes.
  cbn zeta. set (bs := [a; b; c; d; e; f; g; h; i; j; k; l; m; n; o; p]).
  assert (forall x, x <> 58 -> (forall y, y ∈ bs -> x ∉ hex2 y) -> x ∉ text_of_v6 bs) as Hnot.
  { intros x ? Hy. apply not_in_join; [done|]. intros q Hq Hx.
    destruct (groups_elem bs q x Hq Hx) as (y & Hyb & Hxy). by apply (Hy y). }
  assert (forall y, y ∈ bs -> is_byte y) as Hb.
  { intros y Hy. unfold bs in Hy. repeat (apply elem_of_cons in Hy as [->|Hy]; [done|]). by apply elem_of_nil in Hy. }
  split_and!; try done.
  - apply nonul_not_in, Hnot; [done|]. intros y Hy. by apply hex2_chars, Hb.
  - apply Hnot; [done|]. intros y Hy. by apply hex2_chars, Hb.
  - apply not_head, Hnot; [done|]. intros y Hy. by apply hex2_chars, Hb.
  - unfold text_of_v6, bs. cbn. do 4 (apply elem_of_cons; right). apply elem_of_cons. by left.
Qed.

#[export] Instance numeric_host_ok : ResolverOk numeric_host.
Proof.
  split; cbn [getaddrinfo inet_ntop numeric_host].
  - intros f t bs [->| ->]; cbn; [apply v4_of_text_ok | apply v6_of_text_ok].
  - eauto.
  - intros f bs t [->| ->] [Hl Hb] [= <-]; cbn; [by apply text_of_v4_parse | by apply text_of_v6_parse].
  - intros f bs t [->| ->] [Hl Hb] [= <-]; cbn.
    + destruct (text_of_v4_text bs Hl Hb) as (?&?&?&?&?&?). by split_and!.
    + destruct (text_of_v6_text bs Hl Hb) as (?&?&?&?&?&?). by split_and!.
Qed.
