(* ===== verification/AddrMaskProps.v ===== *)
(** * Theorems about addrmask.c

    The claims the rest of the program relies on: what is parsed is well formed,
    texts and addresses correspond, the whitelist decision is subnet
    containment in the first matching entry, and the two verifiers decide what
    their names say. *)

From S2P Require Import Prelude CLib CString StrBuf AddrMask NumericHost.

Section Theorems.
Context `{Allocator} `{ResolverOk}.

(** C32. Whatever text is parsed, whether memory is scarce or not, a success of
    [addrmask_parse] is a well-formed address: a known family with its counts,
    a mask of exactly [mask_shift] leading ones, no host bit set in the network
    address, zeroed array tails. *)
Theorem addrmask_parse_wf t a : addrmask_parse t = Ret (Some a) -> wf_addr a.
Proof.
  intros (p & E)%addrmask_parse_pattern. by eapply parse_pattern_wf.
Qed.

(** C18. The text [addrmask_to_string] appends for a well-formed address is
    parsed back by [addrmask_parse] to exactly that address. *)
Theorem addrmask_to_string_parse a target :
  alloc_enough -> wf_addr a -> good_str target -> s_length target + 260 < str_limit ->
  exists target' t,
    addrmask_to_string target a = Ret (true, target') /\
    content target' = content target ++ t /\
    addrmask_parse t = Ret (Some a).
Proof.
  intros Ha Hw Hg Hl. destruct (addr_text_nonul a Hw) as (Hn & Hne & Hlen).
  destruct (to_string_appends a Ha Hw target Hg) as (s' & E & _ & Hc & _); [lia|].
  exists s', (addr_text a). split_and!; [done..|].
  rewrite addrmask_parse_eq; try done; [by rewrite parse_addr_text|].
  unfold str_limit in *. lia.
Qed.

(** C17. [addrmask_match] on a list of well-formed entries: the entry it returns
    is the first one whose prefix contains the address, and it is not narrower
    than the subnet asked for, so the whole subnet lies in it. NULL for a single
    host means that no entry contains the host. *)
Theorem addrmask_match_spec matches t info :
  Forall wf_addr matches -> matches <> [] -> addrmask_parse t = Ret (Some info) ->
  (forall e, addrmask_match matches (Some t) = Ret (Some e) ->
     exists before after, matches = before ++ e :: after /\
       Forall (fun b => ~ contains b info) before /\
       contains e info /\ mask_shift e <= mask_shift info) /\
  (addrmask_match matches (Some t) = Ret None -> mask_shift info = addr_bit_count info ->
     Forall (fun e => ~ contains e info) matches).
Proof.
  intros HF Hne Hp. assert (wf_addr info) as Hi.
  { apply addrmask_parse_pattern in Hp as [p E]. by eapply parse_pattern_wf. }
  assert (addrmask_match matches (Some t) = Ret (match_list matches info)) as ->.
  { unfold addrmask_match. rewrite Hp. by destruct matches. }
  rewrite match_list_first. clear Hne Hp.
  split.
  - intros e E. injection E as E.
    destruct (List.find _ matches) as [e'|] eqn:Ef; [|done]. case_bool; [done|]. injection E as <-.
    revert Ef. induction HF as [|x l Hx HF IH]; cbn; [done|].
    destruct (entry_contains info x) eqn:Ex.
    + intros [= ->]. exists [], l. split_and!; [done | constructor | by apply entry_contains_spec | lia].
    + intros Ef. destruct (IH Ef) as (b & a & -> & Hb & Hc). exists (x :: b), a.
      split_and!; [done | | apply Hc | lia]. constructor; [|done].
      rewrite <- entry_contains_spec by done. by rewrite Ex.
  - intros E Hhost. injection E as E. apply list.Forall_forall. intros e He Hc.
    rewrite list.Forall_forall in HF. rewrite <- entry_contains_spec in Hc by auto.
    destruct (List.find _ matches) as [e'|] eqn:Ef.
    + case_bool; [|done]. apply List.find_some in Ef as [He' Hc'].
      apply list_elem_of_In in He'. apply entry_contains_spec in Hc' as [Hf _]; [|done | auto].
      pose proof (wa_shift e' (HF e' He')). rewrite (wa_bits e' (HF e' He')), Hf in *.
      rewrite (wa_bits info Hi) in *. lia.
    + apply list_elem_of_In in He. pose proof (List.find_none _ _ Ef e He). congruence.
Qed.

(** The test of [addrmask_verify_ip] for a single host. *)
Lemma host_test a :
  wf_addr a ->
  (if (addr_family a =? AF_INET) && (mask_shift a =? 32) then true
   else if (addr_family a =? AF_INET6) && (mask_shift a =? 128) then true else false) =
  (mask_shift a =? addr_bit_count a).
Proof using Type.
  intros Hw. rewrite (wa_bits a Hw). destruct (wa_family a Hw) as [-> | ->].
  - change (CIDR_MATCH_ADDR_BIT_COUNT AF_INET) with 32. by destruct (mask_shift a =? 32).
  - change (CIDR_MATCH_ADDR_BIT_COUNT AF_INET6) with 128. by destruct (mask_shift a =? 128).
Qed.

(** [addrmask_verify_ip] and [addrmask_verify_subnet] always return, given
    memory, on a text without NUL: the first accepts exactly the texts of a
    single host, the second any address or subnet, both of the asked family
    ([AF_UNSPEC]: of either). *)
Lemma addrmask_verify_spec t family :
  alloc_enough -> nonul t -> zlen t < str_limit ->
  exists ip subnet,
    addrmask_verify_ip (Some t) family = Ret ip /\
    addrmask_verify_subnet (Some t) family = Ret subnet /\
    (subnet = true <-> t <> [] /\ exists a, addrmask_parse t = Ret (Some a) /\
       (family = AF_UNSPEC \/ family = addr_family a)) /\
    (ip = true <-> subnet = true /\ exists a, addrmask_parse t = Ret (Some a) /\
       mask_shift a = addr_bit_count a).
Proof.
  intros Ha Hn Hl. unfold addrmask_verify_ip, addrmask_verify_subnet.
  destruct (str_is_empty (Some t)) eqn:Et.
  { apply str_is_empty_Some in Et as ->. exists false, false. split_and!; try done; split; try done; by intros []. }
  assert (t <> []) as Hne by (intros ->; done).
  change (default [] (Some t)) with t. rewrite addrmask_init_eq, addrmask_parse_eq by done. cbn [mbind outcome_bind].
  destruct (parse_pattern t) as [a|] eqn:Ep.
  2: { exists false, false. split_and!; try done; split; try done; intros (? & ? & ?); naive_solver. }
  pose proof (parse_pattern_wf _ _ Ep) as Hw. do 2 eexists. split_and!; [done..| |].
  - unfold AF_INET, AF_INET6, AF_UNSPEC in *. split.
    + intros E. split; [done|]. exists a. split; [done|]. pose proof (wa_family a Hw) as Hfam.
      unfold is_family, AF_INET, AF_INET6 in Hfam. repeat case_match; try done; lia.
    + intros (_ & b & [= <-] & Hor). pose proof (wa_family a Hw) as Hfam.
      unfold is_family, AF_INET, AF_INET6 in Hfam. repeat case_match; try done; lia.
  - pose proof (wa_bits a Hw) as Hbits. pose proof (wa_family a Hw) as Hfam. split.
    + rewrite host_test by done. case_bool; [by eauto | done].
    + intros (E & b & [= <-] & Hs). rewrite host_test by done. by rewrite Hs, Z.eqb_refl.
Qed.

(** C33. A mask length is reduced modulo 256 before it is compared with the
    address size: adding any multiple of 256 to the length of an address's text
    gives the same address, so such texts are accepted instead of refused. *)
Theorem addrmask_parse_mask_wraps a t k :
  alloc_enough -> wf_addr a ->
  inet_ntop (addr_family a) (ztake (addr_byte_count a) (net_bytes a)) = Some t ->
  0 <= k < 2 ^ 22 ->
  addrmask_parse (t ++ 47 :: dec (mask_shift a + 256 * k)) = Ret (Some a).
Proof.
  intros Ha Hw Et Hk. destruct (addr_text_spec a Hw) as (t' & Et' & Etext & Hne & Hn & H47 & H91 & Hfam & Hlen & Hg).
  rewrite Et' in Et. injection Et as ->.
  pose proof (wf_addr_shift_range a Hw) as Hs. set (n := mask_shift a + 256 * k).
  assert (0 <= n < 2 ^ 31) as Hnr by lia.
  assert (dec n = dec_nat n) as Hd by (unfold dec; by replace (n <? 0) with false by lia).
  assert (nonul (dec n)) as Hdn.
  { rewrite Hd. eapply list.Forall_impl; [apply dec_nat_isdigit; lia|]. cbn. unfold isdigit. intros; lia. }
  rewrite addrmask_parse_eq; try done.
  - rewrite <- (parse_addr_text a Hw), Etext. f_equal.
    assert (forall m, strip_brackets (t ++ 47 :: m) = Some (t ++ 47 :: m, None)) as Hsb.
    { intros m. destruct t as [|x t]; [done|]. cbn [app strip_brackets].
      destruct (decide (x = 91)) as [->|Hx]; [done|]. clear -Hx. repeat (destruct x as [|x|x]; try done). }
    unfold parse_pattern. rewrite !Hsb, !str_split_at_app by done. rewrite !parse_with_mask_eq.
    assert (str_alldig (dec n) = true) as ->.
    { apply str_alldig_spec. rewrite Hd. split; [apply dec_nat_nonempty | apply dec_nat_isdigit; lia]. }
    destruct (dec_small_facts _ Hs) as (_ & _ & -> & ->). rewrite Hd, atoi_dec by done.
    assert (u8 n = u8 (mask_shift a)) as ->; [|done].
    unfold u8, n. change (2 ^ 8) with 256. rewrite (Z.mul_comm 256). apply Z.mod_add. lia.
  - apply nonul_app. split; [done|]. constructor; done.
  - by destruct t.
  - rewrite zlen_app, zlen_cons. pose proof (dec_length n ltac:(lia)). unfold str_limit. lia.
Qed.

End Theorems.

(** ** Witnesses *)

Definition net_10_8 : addr_info := make_addr AF_INET [10; 0; 0; 0] 8.
Definition net_10_1_16 : addr_info := make_addr AF_INET [10; 1; 0; 0] 16.

Lemma wf_net_10_8 : wf_addr net_10_8.
Proof. apply wf_make_addr; [by left | split; [done | repeat constructor; done] | done]. Qed.
Lemma wf_net_10_1_16 : wf_addr net_10_1_16.
Proof. apply wf_make_addr; [by left | split; [done | repeat constructor; done] | done]. Qed.

Lemma addrmask_parse_wf_witness :
  exists a, @addrmask_parse roomy numeric_host (c_lit "10.255.0.1/8") = Ret (Some a) /\ wf_addr a.
Proof.
  eexists. split; [vm_compute; reflexivity|].
  apply (@addrmask_parse_wf roomy numeric_host _ (c_lit "10.255.0.1/8")). vm_compute. reflexivity.
Defined.

Lemma addrmask_to_string_parse_witness :
  exists target' t,
    @addrmask_to_string roomy numeric_host (string_lazyinit 16) net_10_8 = Ret (true, target') /\
    content target' = content (string_lazyinit 16) ++ t /\
    @addrmask_parse roomy numeric_host t = Ret (Some net_10_8).
Proof.
  apply (@addrmask_to_string_parse roomy numeric_host _).
  - apply roomy_enough.
  - apply wf_net_10_8.
  - split; [apply wf_lazyinit; done | done | done].
  - reflexivity.
Defined.

Lemma addrmask_match_spec_witness :
  exists info e before after,
    @addrmask_parse roomy numeric_host (c_lit "10.1.2.0/24") = Ret (Some info) /\
    [net_10_1_16; net_10_8] = before ++ e :: after /\ contains e info.
Proof.
  eexists. destruct (@addrmask_match_spec roomy numeric_host _ [net_10_1_16; net_10_8]
    (c_lit "10.1.2.0/24") (make_addr AF_INET [10; 1; 2; 0] 24)) as [Hm _].
  - constructor; [apply wf_net_10_1_16 | constructor; [apply wf_net_10_8 | constructor]].
  - done.
  - vm_compute. reflexivity.
  - destruct (Hm net_10_1_16) as (b & a & E & _ & Hc & _); [vm_compute; reflexivity|].
    exists net_10_1_16, b, a. split; [|split; [exact E | exact Hc]]. vm_compute. reflexivity.
Defined.

Lemma addrmask_verify_spec_witness :
  exists ip subnet,
    @addrmask_verify_ip roomy numeric_host (Some (c_lit "10.1.2.0/24")) AF_INET = Ret ip /\
    @addrmask_verify_subnet roomy numeric_host (Some (c_lit "10.1.2.0/24")) AF_INET = Ret subnet.
Proof.
  destruct (@addrmask_verify_spec roomy numeric_host _ (c_lit "10.1.2.0/24") AF_INET)
    as (ip & subnet & Hi & Hs & _).
  - apply roomy_enough.
  - repeat constructor; done.
  - reflexivity.
  - eauto.
Defined.

(** 10.0.0.0/264 is read as 10.0.0.0/8. *)
Lemma addrmask_parse_mask_wraps_witness :
  @addrmask_parse roomy numeric_host (c_lit "10.0.0.0/264") = Ret (Some net_10_8).
Proof.
  apply (@addrmask_parse_mask_wraps roomy numeric_host _ net_10_8 (c_lit "10.0.0.0") 1).
  - apply roomy_enough.
  - apply wf_net_10_8.
  - vm_compute. reflexivity.
  - done.
Defined.

Definition net_10_0_16 : addr_info := make_addr AF_INET [10; 0; 0; 0] 16.

(** The list search stops at the first entry that contains the address even
    when that entry is narrower than the subnet asked for: 10.0.0.0/12 is refused
    by the list 10.0.0.0/16, 10.0.0.0/8 and accepted by the same list in the
    other order, although 10.0.0.0/8 contains the subnet in both. *)
Example addrmask_match_order :
  @addrmask_match roomy numeric_host [net_10_0_16; net_10_8] (Some (c_lit "10.0.0.0/12")) = Ret None /\
  @addrmask_match roomy numeric_host [net_10_8; net_10_0_16] (Some (c_lit "10.0.0.0/12")) =
    Ret (Some net_10_8).
Proof. split; vm_compute; reflexivity. Qed.
