(* ===== verification/Ar.v ===== *)
(** * In-memory ar archives: ar.c

    The archive is a buffer; [pos] and [len] walk over its bytes, so the state
    of the loop is the list of the bytes from [pos] on, whose length is [len].
    [archive_of] is the reference: the bytes the ar format gives to a list of
    members. *)

From S2P Require Import Prelude CLib CString StrBuf.

(** ** ar.h *)

Definition ARMAG : text := c_lit "!<arch>\n".
Definition SARMAG : Z := 8.
Definition ARFMAG : text := c_lit "`\n".

Record ar_hdr := mkhdr {
  ar_name : list char;   (** 16 *)
  ar_date : list char;   (** 12 *)
  ar_uid : list char;    (** 6 *)
  ar_gid : list char;    (** 6 *)
  ar_mode : list char;   (** 8 *)
  ar_size : list char;   (** 10 *)
  ar_fmag : list char    (** 2 *)
}.

Definition sizeof_ar_hdr : Z := 60.

(** The [struct ar_hdr] at [pos]: the fields at their offsets. *)
Definition hdr_at (pos : list char) : ar_hdr :=
  mkhdr (ztake 16 pos) (ztake 12 (zdrop 16 pos)) (ztake 6 (zdrop 28 pos)) (ztake 6 (zdrop 34 pos))
        (ztake 8 (zdrop 40 pos)) (ztake 10 (zdrop 48 pos)) (ztake 2 (zdrop 58 pos)).

Definition ar_parseheaderlength (inh : list char) : Z :=
  if bool_decide (0 ∈ inh) then -1
  else if 15 <? zlen inh then -1
  else
    let lintbuf := take_until (fun c => c =? 32) (inh ++ [32]) in
    let '(r, endp) := strtol lintbuf 10 in
    if r <? 0 then -1
    else match endp with [] => r | _ => -1 end.

(** The result [-1] of the first two tests is [true] in a [bool] function.  An
    empty name makes the last test read [lintbuf[-1]]. *)
Definition ar_compare_name (inh : list char) (searchname : text) : outcome bool :=
  if bool_decide (0 ∈ inh) then Ret true
  else if 32 <? zlen inh then Ret true
  else
    let lintbuf := take_until (fun c => c =? 32) (inh ++ [32]) in
    if strlen lintbuf =? 0 then Undef
    else
      let last := strlen lintbuf - 1 in
      let lintbuf := if nth (Z.to_nat last) lintbuf 0 =? 47 then ztake last lintbuf else lintbuf in
      Ret (strcmp lintbuf searchname =? 0).

Definition ar_is_ar_file (archive : strbuf) : bool :=
  if s_length archive <? SARMAG then false
  else if negb (strncmp (default [] (string_get archive)) ARMAG (zlen ARMAG) =? 0) then false
  else true.

Section Extract.
Context `{Allocator}.

(** The [for (;;)] loop.  Every turn that goes on consumes a header. *)
Fixpoint ar_loop (fuel : nat) (pos : list char) (membername : text) (result : strbuf)
  : outcome (bool * strbuf) :=
  match fuel with
  | O => Undef
  | S fuel' =>
      if zlen pos <? sizeof_ar_hdr then Ret (false, result)
      else
        let arh := hdr_at pos in
        let pos := zdrop sizeof_ar_hdr pos in
        let len := zlen pos in
        if negb (bool_decide (ar_fmag arh = ARFMAG)) then Ret (false, result)
        else
          let memberlen := ar_parseheaderlength (ar_size arh) in
          if memberlen <? 0 then Ret (false, result)
          else if len <? memberlen + Z.land memberlen 1 then Ret (false, result)
          else
            found ← ar_compare_name (ar_name arh) membername;
            if found : bool then
              '(ok, result) ← string_concatb result pos memberlen;
              Ret (ok, result)
            else
              let pos := zdrop (memberlen + Z.land memberlen 1) pos in
              let len := len - (memberlen + Z.land memberlen 1) in
              if len =? 0 then Ret (true, result)
              else if len <? 0 then Ret (false, result)
              else ar_loop fuel' pos membername result
  end.

Definition ar_extract (archive : strbuf) (membername : text) (result : strbuf)
  : outcome (bool * strbuf) :=
  let result := string_free result in
  let len := s_length archive in
  if len <? SARMAG then Ret (false, result)
  else
    let pos := ztake len (default [] (string_get archive)) in
    if negb (strncmp pos ARMAG (zlen ARMAG) =? 0) then Ret (false, result)
    else ar_loop (S (length pos)) (zdrop (zlen ARMAG) pos) membername result.

End Extract.

(** ** The format *)

(** A field: its text padded with spaces. *)
Definition field (n : Z) (t : text) : list char := t ++ zrep (n - zlen t) 32.

(** A name as archivers write it, with or without the closing slash. *)
Record member := mkmember {
  m_name : text;
  m_slash : bool;
  m_date : text; m_uid : text; m_gid : text; m_mode : text;
  m_data : list char
}.

Definition member_bytes (m : member) : list char :=
  field 16 (m_name m ++ if m_slash m then [47] else []) ++
  field 12 (m_date m) ++ field 6 (m_uid m) ++ field 6 (m_gid m) ++ field 8 (m_mode m) ++
  field 10 (dec (zlen (m_data m))) ++ ARFMAG ++
  m_data m ++ (if Z.odd (zlen (m_data m)) then [10] else []).

Definition archive_of (ms : list member) : list char := ARMAG ++ concat (map member_bytes ms).

(** The names the format can hold and the reader can tell apart. *)
Record member_ok (m : member) : Prop := {
  mo_name : m_name m <> [];
  mo_chars : Forall (fun c => c <> 0 /\ c <> 32) (m_name m);
  mo_slash : m_slash m = false -> forall k, m_name m <> k ++ [47];
  mo_len : zlen (m_name m) + (if m_slash m then 1 else 0) <= 16;
  mo_fields : zlen (m_date m) <= 12 /\ zlen (m_uid m) <= 6 /\ zlen (m_gid m) <= 6 /\
              zlen (m_mode m) <= 8;
  mo_size : zlen (m_data m) < 10 ^ 10
}.

(** The data of the first member of that name, nothing when there is none. *)
Fixpoint member_data (ms : list member) (name : text) : list char :=
  match ms with
  | [] => []
  | m :: ms => if bool_decide (m_name m = name) then m_data m else member_data ms name
  end.

(** ** Reading one header *)

Lemma take_until_app p s t c :
  Forall (fun c => p c = false) s -> p c = true -> take_until p (s ++ c :: t) = s.
Proof.
  intros Hs Hc. induction Hs as [|x s Hx Hs IH]; cbn [take_until app]; [by rewrite Hc|].
  by rewrite Hx, IH.
Qed.

Lemma zlen_field n t : zlen t <= n -> zlen (field n t) = n.
Proof. unfold field. zlia. Qed.

Lemma field_cons n t : exists k, field n t ++ [32] = t ++ 32 :: k.
Proof.
  unfold field, zrep. exists (replicate (Z.to_nat (n - zlen t)) 32).
  by rewrite <- app_assoc, <- replicate_cons_app.
Qed.

Lemma field_no_nul n t : 0 ∉ t -> 0 ∉ field n t.
Proof.
  unfold field. intros Ht [Hi|Hi]%elem_of_app; [done|].
  apply elem_of_replicate in Hi as [? _]. done.
Qed.

(** The size field of a member reads back. *)
Lemma parse_size_field n :
  0 <= n < 10 ^ 10 -> ar_parseheaderlength (field 10 (dec n)) = n.
Proof.
  intros Hn. rewrite dec_eq by lia. pose proof (dec_nat_length 9 n Hn) as Hl.
  unfold ar_parseheaderlength.
  rewrite bool_decide_false by (apply field_no_nul, dec_nat_not_in; done || lia).
  rewrite zlen_field by lia. change (15 <? 10) with false. cbn iota.
  destruct (field_cons 10 (dec_nat n)) as [k ->].
  rewrite take_until_app; [| |done].
  - rewrite <- (app_nil_r (dec_nat n)), strtol_dec; [| unfold long_max; lia | done].
    by replace (n <? 0) with false by lia.
  - eapply list.Forall_impl; [apply dec_nat_isdigit; lia|]. cbn. unfold isdigit. intros; lia.
Qed.

Lemma compare_name_field m name :
  member_ok m ->
  ar_compare_name (field 16 (m_name m ++ if m_slash m then [47] else [])) name =
    Ret (bool_decide (m_name m = name)).
Proof.
  intros Hm. unfold ar_compare_name. set (t := m_name m ++ if m_slash m then [47] else []).
  pose proof (mo_name m Hm) as Hne. pose proof (mo_chars m Hm) as Hc.
  assert (Forall (fun c => c <> 0 /\ c <> 32) t) as Ht.
  { unfold t. apply Forall_app; split; [done|]. destruct (m_slash m); repeat constructor; lia. }
  assert (zlen t = zlen (m_name m) + if m_slash m then 1 else 0) as Hlt
    by (unfold t; rewrite zlen_app; by destruct (m_slash m)).
  pose proof (mo_len m Hm) as Hl.
  rewrite bool_decide_false.
  2: { apply field_no_nul. intros H0. rewrite list.Forall_forall in Ht. by destruct (Ht 0 H0). }
  rewrite zlen_field by lia. change (32 <? 16) with false. cbn iota.
  destruct (field_cons 16 t) as [k ->]. rewrite take_until_app; [| |done].
  2: { eapply list.Forall_impl; [exact Ht|]. cbn. intros; lia. }
  assert (0 < zlen (m_name m)) as Hpos by (destruct (m_name m); [done | zlia]).
  unfold strlen. replace (zlen t =? 0) with false by (destruct (m_slash m); lia).
  f_equal. rewrite <- strcmp_eqb. f_equal. f_equal.
  unfold t in *. destruct (m_slash m) eqn:Es.
  - replace (nth _ _ 0) with 47.
    + change (47 =? 47) with true. cbn iota. rewrite Hlt. rewrite ztake_app_le by lia.
      apply ztake_all. lia.
    + rewrite Hlt, app_nth2 by zlia. by replace (Z.to_nat _ - length (m_name m))%nat with 0%nat by zlia.
  - rewrite app_nil_r in *. pose proof (mo_slash m Hm Es) as Hlast.
    destruct (exists_last Hne) as (k' & c & Ek). specialize (Hlast k'). rewrite Ek in *.
    rewrite zlen_app, app_nth2 by zlia. change (zlen [c]) with 1.
    replace (Z.to_nat _ - length k')%nat with 0%nat by zlia. cbn [nth].
    case_bool; [by subst | done].
Qed.

(** ** The loop on a well-formed archive *)

(** Skipping whole fields. *)
Lemma zdrop_app_add n a (l k : list Z) :
  zlen l = a -> 0 <= n -> zdrop (a + n) (l ++ k) = zdrop n k.
Proof. intros <- Hn. rewrite zdrop_app_ge by lia. f_equal. lia. Qed.

Lemma hdr_at_fields f1 f2 f3 f4 f5 f6 f7 rest :
  zlen f1 = 16 -> zlen f2 = 12 -> zlen f3 = 6 -> zlen f4 = 6 -> zlen f5 = 8 ->
  zlen f6 = 10 -> zlen f7 = 2 ->
  let pos := f1 ++ f2 ++ f3 ++ f4 ++ f5 ++ f6 ++ f7 ++ rest in
  hdr_at pos = mkhdr f1 f2 f3 f4 f5 f6 f7 /\ zdrop sizeof_ar_hdr pos = rest.
Proof.
  intros H1 H2 H3 H4 H5 H6 H7. cbn zeta. unfold hdr_at, sizeof_ar_hdr.
  change 28 with (16 + 12). change 34 with (16 + (12 + 6)). change 40 with (16 + (12 + (6 + 6))).
  change 48 with (16 + (12 + (6 + (6 + 8)))). change 58 with (16 + (12 + (6 + (6 + (8 + 10))))).
  change 60 with (16 + (12 + (6 + (6 + (8 + (10 + 2)))))).
  replace (zdrop 16) with (@zdrop Z (16 + 0)) by done.
  rewrite !zdrop_app_add by (done || lia).
  rewrite zdrop_0. rewrite (zdrop_app_eq 12), (zdrop_app_eq 6), (zdrop_app_eq 6), (zdrop_app_eq 8),
    (zdrop_app_eq 10), (zdrop_app_eq 2) by done.
  by rewrite !(ztake_app_eq 16), !(ztake_app_eq 12), !(ztake_app_eq 6), !(ztake_app_eq 8),
    !(ztake_app_eq 10), !(ztake_app_eq 2) by done.
Qed.

Definition padding (m : member) : list char := if Z.odd (zlen (m_data m)) then [10] else [].

Lemma hdr_member m rest :
  member_ok m ->
  exists arh, hdr_at (member_bytes m ++ rest) = arh /\
    ar_name arh = field 16 (m_name m ++ if m_slash m then [47] else []) /\
    ar_size arh = field 10 (dec (zlen (m_data m))) /\ ar_fmag arh = ARFMAG /\
    zdrop sizeof_ar_hdr (member_bytes m ++ rest) = m_data m ++ padding m ++ rest.
Proof.
  intros Hm. pose proof (mo_len m Hm). pose proof (mo_fields m Hm) as (? & ? & ? & ?).
  pose proof (mo_size m Hm) as Hs. pose proof (zlen_nonneg (m_data m)).
  unfold member_bytes. rewrite <- !app_assoc. fold (padding m).
  edestruct hdr_at_fields as [-> ->]; [..|eexists; split_and!; try reflexivity]; try done;
    try (apply zlen_field; try done).
  - rewrite zlen_app. destruct (m_slash m); zlia.
  - rewrite dec_eq by lia. by apply (dec_nat_length 9).
Qed.

Lemma land_1 n : Z.land n 1 = if Z.odd n then 1 else 0.
Proof. change 1 with (Z.ones 1). rewrite Z.land_ones by lia. apply Zmod_odd. Qed.

Section Loop.
Context `{Allocator}.

Lemma zlen_member_bytes m : member_ok m -> 60 <= zlen (member_bytes m).
Proof using Type.
  intros Hm. destruct (hdr_member m [] Hm) as (_ & _ & _ & _ & _ & E).
  pose proof (zlen_nonneg (member_bytes m)).
  rewrite app_nil_r in E. destruct (Z.le_gt_cases 60 (zlen (member_bytes m))) as [|Hlt]; [done|].
  exfalso. pose proof (mo_len m Hm) as Hl. pose proof (mo_fields m Hm) as (? & ? & ? & ?).
  revert Hlt. unfold member_bytes. rewrite !zlen_app.
  pose proof (mo_size m Hm) as Hs. pose proof (zlen_nonneg (m_data m)).
  rewrite !zlen_field; try done; try (change (zlen ARFMAG) with 2; zlia).
  - rewrite dec_eq by lia. by apply (dec_nat_length 9).
  - rewrite zlen_app. destruct (m_slash m); zlia.
Qed.

(** One turn on a header with a readable size, whatever its other fields hold. *)
Lemma ar_loop_turn fuel nf f size rest name result :
  zlen nf = 16 -> zlen f = 32 -> 0 <= size < 10 ^ 10 ->
  size + (if Z.odd size then 1 else 0) <= zlen rest ->
  ar_loop (S fuel) (nf ++ f ++ field 10 (dec size) ++ ARFMAG ++ rest) name result =
    (found ← ar_compare_name nf name;
     if found : bool then string_concatb result rest size
     else
       let step := size + (if Z.odd size then 1 else 0) in
       if zlen rest - step =? 0 then Ret (true, result)
       else if zlen rest - step <? 0 then Ret (false, result)
       else ar_loop fuel (zdrop step rest) name result).
Proof using Type.
  intros Hn Hf Hs Hrest.
  assert (exists f2 f3 f4 f5, f = f2 ++ f3 ++ f4 ++ f5 /\ zlen f2 = 12 /\ zlen f3 = 6 /\
            zlen f4 = 6 /\ zlen f5 = 8) as (f2 & f3 & f4 & f5 & -> & ? & ? & ? & ?).
  { exists (ztake 12 f), (ztake 6 (zdrop 12 f)), (ztake 6 (zdrop 18 f)), (zdrop 24 f).
    split_and!; try zlia. rewrite <- (ztake_zdrop 12 f) at 1. f_equal.
    rewrite <- (ztake_zdrop 6 (zdrop 12 f)) at 1. f_equal. rewrite zdrop_zdrop by lia.
    change (12 + 6) with 18. rewrite <- (ztake_zdrop 6 (zdrop 18 f)) at 1. f_equal.
    by rewrite zdrop_zdrop by lia. }
  assert (zlen (field 10 (dec size)) = 10) as Hfs.
  { apply zlen_field. rewrite dec_eq by lia. by apply (dec_nat_length 9). }
  rewrite <- !app_assoc.
  destruct (hdr_at_fields nf f2 f3 f4 f5 (field 10 (dec size)) ARFMAG rest) as [Eh Er]; try done.
  set (bytes := nf ++ f2 ++ _) in *.
  assert (zlen bytes = 60 + zlen rest) as Hlen.
  { unfold bytes. rewrite !zlen_app, Hfs. change (zlen ARFMAG) with 2. lia. }
  clearbody bytes. pose proof (zlen_nonneg rest).
  cbn [ar_loop]. rewrite Eh, Er. cbn [ar_fmag ar_size ar_name].
  rewrite bool_decide_true by done. cbn [negb]. rewrite parse_size_field by done.
  rewrite land_1. unfold sizeof_ar_hdr. replace (zlen bytes <? 60) with false by lia.
  replace (size <? 0) with false by lia. replace (zlen rest <? _) with false by lia.
  destruct (ar_compare_name nf name) as [[]| |]; cbn [mbind outcome_bind]; try done.
  by destruct (string_concatb result rest size) as [[ok r]| |].
Qed.

(** One turn on the bytes of a member. *)
Lemma ar_loop_member fuel m rest name result :
  member_ok m ->
  ar_loop (S fuel) (member_bytes m ++ rest) name result =
    if bool_decide (m_name m = name) then
      string_concatb result (m_data m ++ padding m ++ rest) (zlen (m_data m))
    else if zlen rest =? 0 then Ret (true, result)
    else ar_loop fuel rest name result.
Proof using Type.
  intros Hm. pose proof (zlen_member_bytes m Hm). cbn [ar_loop].
  replace (zlen (member_bytes m ++ rest) <? sizeof_ar_hdr) with false
    by (rewrite zlen_app; unfold sizeof_ar_hdr; pose proof (zlen_nonneg rest); lia).
  destruct (hdr_member m rest Hm) as (arh & -> & -> & -> & -> & ->).
  rewrite bool_decide_true by done. cbn [negb].
  pose proof (mo_size m Hm). pose proof (zlen_nonneg (m_data m)).
  rewrite parse_size_field by lia. replace (zlen (m_data m) <? 0) with false by lia.
  rewrite land_1. fold (padding m).
  assert (zlen (padding m) = if Z.odd (zlen (m_data m)) then 1 else 0) as Hp
    by (unfold padding; by destruct (Z.odd _)).
  rewrite <- Hp. pose proof (zlen_nonneg rest).
  replace (zlen (m_data m ++ padding m ++ rest) <? zlen (m_data m) + zlen (padding m)) with false
    by (rewrite !zlen_app; lia).
  rewrite compare_name_field by done. cbn [mbind outcome_bind].
  case_bool_decide.
  - by destruct (string_concatb _ _ _) as [[ok r]| |].
  - replace (zlen (m_data m ++ padding m ++ rest) - _) with (zlen rest) by (rewrite !zlen_app; lia).
    rewrite zdrop_app_add, zdrop_app_eq by (done || apply zlen_nonneg).
    by replace (zlen rest <? 0) with false by lia.
Qed.

(** The loop on a list of members, the first of which exists. *)
Lemma ar_loop_members fuel ms name result :
  alloc_enough -> good_str result -> content result = [] ->
  ms <> [] -> Forall member_ok ms -> (length ms <= fuel)%nat ->
  zlen (concat (map member_bytes ms)) < str_limit ->
  exists result', ar_loop fuel (concat (map member_bytes ms)) name result = Ret (true, result') /\
    good_str result' /\ content result' = member_data ms name.
Proof using Type.
  intros Ha Hr Hc Hne HF. assert (s_length result = 0) as Hl0
    by (rewrite <- (zlen_content result (good_wf _ Hr)), Hc; done).
  revert fuel Hne; induction HF as [|m ms Hm HF IH]; intros fuel Hne Hfuel Hl; [done|]. clear Hne.
  destruct fuel as [|fuel]; [cbn in Hfuel; lia|]. cbn [map concat] in *.
  rewrite ar_loop_member by done. rewrite zlen_app in Hl. cbn [member_data].
  pose proof (zlen_member_bytes m Hm). pose proof (zlen_nonneg (concat (map member_bytes ms))).
  case_bool_decide.
  - assert (zlen (m_data m) < str_limit) as Hd.
    { destruct (hdr_member m [] Hm) as (_ & _ & _ & _ & _ & E). apply (f_equal zlen) in E.
      rewrite !app_nil_r, zlen_zdrop, zlen_app in E by (unfold sizeof_ar_hdr; lia).
      unfold sizeof_ar_hdr in E. pose proof (zlen_nonneg (padding m)). lia. }
    destruct (concatb_appends (m_data m ++ padding m ++ concat (map member_bytes ms))
                (zlen (m_data m)) Ha) with (s := result) as (r' & E & Hg & Hc' & _).
    + rewrite zlen_app. pose proof (zlen_nonneg (m_data m)).
      pose proof (zlen_nonneg (padding m ++ concat (map member_bytes ms))). lia.
    + done.
    + rewrite ztake_app_eq by done. lia.
    + exists r'. split_and!; [done..|]. rewrite Hc', Hc, ztake_app_eq by done. done.
  - destruct ms as [|m' ms].
    + exists result. done.
    + replace (zlen _ =? 0) with false.
      * apply IH; [done | cbn in *; lia | lia].
      * inversion HF as [|? ? Hm' _]; subst. pose proof (zlen_member_bytes m' Hm').
        cbn [map concat]. rewrite zlen_app. pose proof (zlen_nonneg (concat (map member_bytes ms))). lia.
Qed.

End Loop.

(** ** Any bytes at all *)

(** No name field behind which a header magic stands begins with a space. *)
Definition no_blank_name (pos : list char) : Prop :=
  forall n, 0 <= n -> sizeof_ar_hdr <= zlen (zdrop n pos) ->
  ar_fmag (hdr_at (zdrop n pos)) = ARFMAG -> zdrop n pos !! 0%nat <> Some 32.

Lemma no_blank_zdrop k pos : 0 <= k -> no_blank_name pos -> no_blank_name (zdrop k pos).
Proof.
  intros Hk Hb n Hn. rewrite zdrop_zdrop by done. apply Hb. lia.
Qed.

Lemma compare_name_total inh name :
  inh <> [] -> inh !! 0%nat <> Some 32 -> exists b, ar_compare_name inh name = Ret b.
Proof.
  intros Hne H32. unfold ar_compare_name. case_bool_decide; [eauto|].
  destruct (32 <? zlen inh); [eauto|]. destruct inh as [|c inh]; [done|].
  cbn [take_until app]. destruct (Z.eqb_spec c 32) as [->|]; [done|].
  replace (strlen _ =? 0) with false; [eauto|].
  unfold strlen. rewrite zlen_cons.
  pose proof (zlen_nonneg (take_until (fun c => c =? 32) (inh ++ [32]))). lia.
Qed.

Lemma compare_name_blank name : ar_compare_name (zrep 16 32) name = Undef.
Proof. reflexivity. Qed.

Lemma compare_name_nul inh name : 0 ∈ inh -> ar_compare_name inh name = Ret true.
Proof. intros H. unfold ar_compare_name. by rewrite bool_decide_true. Qed.

Section Safety.
Context `{Allocator}.

Definition infix_of (l pos : list char) : Prop := exists a b, pos = a ++ l ++ b.

Lemma infix_nil pos : infix_of [] pos.
Proof using Type. by exists [], pos. Qed.

Lemma infix_zdrop n l pos : infix_of l (zdrop n pos) -> infix_of l pos.
Proof using Type.
  intros (a & b & E). exists (ztake n pos ++ a), b. by rewrite <- app_assoc, <- E, ztake_zdrop.
Qed.

Lemma infix_ztake n pos : infix_of (ztake n pos) pos.
Proof using Type. exists [], (zdrop n pos). by rewrite ztake_zdrop. Qed.

(** The loop returns, and what it extracted is a part of the archive. *)
Lemma ar_loop_safe fuel pos name result :
  alloc_enough -> good_str result -> content result = [] -> no_blank_name pos ->
  (length pos < fuel)%nat -> zlen pos < str_limit ->
  exists ok r', ar_loop fuel pos name result = Ret (ok, r') /\ good_str r' /\
    infix_of (content r') pos.
Proof using Type.
  intros Ha Hr Hc. assert (s_length result = 0) as Hl0
    by (rewrite <- (zlen_content result (good_wf _ Hr)), Hc; done).
  assert (forall p, infix_of (content result) p) as Hnil by (intros; rewrite Hc; apply infix_nil).
  revert pos; induction fuel as [|fuel IH]; intros pos Hb Hf Hl; [lia|]. cbn [ar_loop].
  unfold sizeof_ar_hdr in *. destruct (Z.ltb_spec (zlen pos) 60); [eauto 6|].
  case_bool_decide as Hmag; cbn [negb]; [|eauto 6].
  set (n := ar_parseheaderlength _). destruct (Z.ltb_spec n 0); [eauto 6|].
  rewrite land_1. set (p := if Z.odd n then 1 else 0).
  assert (0 <= p) by (unfold p; destruct (Z.odd n); lia).
  assert (zlen (zdrop 60 pos) = zlen pos - 60) as Hz by (rewrite zlen_zdrop; lia).
  destruct (Z.ltb_spec (zlen (zdrop 60 pos)) (n + p)); [eauto 6|].
  destruct (compare_name_total (ar_name (hdr_at pos)) name) as [found ->].
  { cbn. intros E. apply (f_equal zlen) in E. revert E. zlia. }
  { specialize (Hb 0 ltac:(lia)). rewrite zdrop_0 in Hb. unfold ar_name, hdr_at, ztake.
    rewrite lookup_take_lt by lia. apply Hb; unfold sizeof_ar_hdr; done || lia. }
  cbn [mbind outcome_bind]. destruct found.
  - destruct (concatb_appends (zdrop 60 pos) n Ha) with (s := result) as (r' & E & Hg & Hc' & _);
      [lia | done | rewrite zlen_ztake; lia |].
    rewrite E. cbn. exists true, r'. split_and!; try done. rewrite Hc', Hc. cbn.
    apply (infix_zdrop 60), infix_ztake.
  - rewrite zdrop_zdrop by lia. case_bool; [eauto 6|]. case_bool; [lia|].
    destruct (IH (zdrop (60 + (n + p)) pos)) as (ok & r' & E & Hg & Hi).
    + apply no_blank_zdrop; [lia | done].
    + unfold zdrop. rewrite length_drop. zlia.
    + rewrite zlen_zdrop; lia.
    + exists ok, r'. split_and!; try done. by eapply infix_zdrop.
Qed.

(** The entry of [ar_extract]: the magic, then the loop. *)
Lemma ar_extract_magic archive bytes name result :
  content archive = ARMAG ++ bytes -> wf_str archive ->
  ar_extract archive name result =
    ar_loop (S (S (S (S (S (S (S (S (S (length bytes)))))))))) bytes name (string_free result).
Proof using Type.
  intros Hc Hw. unfold ar_extract. pose proof (zlen_content archive Hw) as Hl.
  rewrite Hc, zlen_app in Hl. change (zlen ARMAG) with 8 in *. pose proof (zlen_nonneg bytes).
  unfold SARMAG. replace (s_length archive <? 8) with false by lia.
  change (ztake (s_length archive) (default [] (string_get archive))) with (content archive).
  rewrite Hc. replace (strncmp (ARMAG ++ bytes) ARMAG 8) with 0; [reflexivity|].
  symmetry. apply (ncmp_with_prefix _ ARMAG).
Qed.

Lemma good_free s : good_str s -> good_str (string_free s) /\ content (string_free s) = [].
Proof using Type.
  intros [Hw Hg Hs]. pose proof (wf_free s Hw). unfold string_free, content in *.
  destruct (s_s s) eqn:E.
  - split; [|done]. split; cbn; unfold str_limit in *; [done | lia..].
  - split; [by split|]. rewrite E. cbn. unfold id. by rewrite ztake_all by (pose proof (wf_length s Hw); zlia).
Qed.

End Safety.
