(* ===== verification/ArProps.v ===== *)
(** * Theorems about ar.c *)

From S2P Require Import Prelude CLib CString StrBuf Ar.

Section Theorems.
Context `{Allocator}.

(** C19. Extraction from an archive that [archive_of] wrote returns true and the
    data of the first member of the name asked for.  When there is no such
    member it returns true as well, with an empty result, where main.c tests
    for a failure. *)
Theorem ar_extract_archive ms name archive result :
  alloc_enough -> ms <> [] -> Forall member_ok ms -> zlen (archive_of ms) < str_limit ->
  wf_str archive -> content archive = archive_of ms -> good_str result ->
  exists result', ar_extract archive name result = Ret (true, result') /\
    good_str result' /\ content result' = member_data ms name.
Proof.
  intros Ha Hne HF Hl Hw Hc Hr. destruct (good_free result Hr) as [Hg Hc0].
  rewrite (ar_extract_magic archive _ name result Hc Hw).
  unfold archive_of in Hl. rewrite zlen_app in Hl. change (zlen ARMAG) with 8 in Hl.
  apply ar_loop_members; try done; [|lia].
  enough (length ms <= length (concat (map member_bytes ms)))%nat by lia.
  clear -HF. induction HF as [|m ms Hm HF IH]; [done|]. cbn [map concat length].
  rewrite length_app. pose proof (zlen_member_bytes m Hm). zlia.
Qed.

(** C20. On a buffer below 4 GiB in which nothing that has the magic of a member
    header has a name field that begins with a space, and while memory is
    granted, [ar_extract] ends without leaving the buffer, whatever else the
    bytes are, and what it delivers is a contiguous part of the archive.  The
    proviso is needed: a blank name field makes [ar_compare_name] read in front
    of its buffer. *)
Theorem ar_extract_safe name archive result :
  alloc_enough -> good_str archive -> s_length archive < str_limit -> good_str result ->
  no_blank_name (zdrop SARMAG (content archive)) ->
  exists ok result', ar_extract archive name result = Ret (ok, result') /\
    good_str result' /\ infix_of (content result') (content archive).
Proof.
  intros Ha Hg Hl Hr Hb. destruct (good_free result Hr) as [Hrg Hc0].
  pose proof (zlen_content archive (good_wf _ Hg)) as Hlen.
  unfold ar_extract. unfold SARMAG in *. destruct (Z.ltb_spec (s_length archive) 8); [by exists false, (string_free result); rewrite Hc0; split_and!; try apply infix_nil|].
  change (ztake (s_length archive) (default [] (string_get archive))) with (content archive).
  case_bool; cbn [negb]; [|by exists false, (string_free result); rewrite Hc0; split_and!; try apply infix_nil].
  destruct (ar_loop_safe (S (length (content archive))) (zdrop 8 (content archive)) name (string_free result))
    as (ok & r' & E & Hgr & Hi); try done.
  - unfold zdrop. rewrite length_drop. lia.
  - rewrite zlen_zdrop; lia.
  - change (zlen ARMAG) with 8. exists ok, r'. split_and!; try done. by eapply infix_zdrop.
Qed.

(** C37. A member whose name field holds a NUL byte is taken for any member asked
    for: the error result of [ar_compare_name] counts as a match.  A member
    whose name field is blank makes it read in front of its buffer. *)
Theorem ar_extract_bad_names f name_field size archive bytes rest name result :
  alloc_enough -> wf_str archive -> good_str result -> 0 <= size < 10 ^ 10 -> zlen name_field = 16 ->
  zlen f = 32 -> size + (if Z.odd size then 1 else 0) <= zlen rest -> size < str_limit ->
  bytes = name_field ++ f ++ field 10 (dec size) ++ ARFMAG ++ rest ->
  content archive = ARMAG ++ bytes ->
  (0 ∈ name_field -> exists result', ar_extract archive name result = Ret (true, result') /\
     content result' = ztake size rest) /\
  (name_field = zrep 16 32 -> ar_extract archive name result = Undef).
Proof.
  intros Ha Hw Hr Hs Hn Hf Hrest Hlim Hb Hc. destruct (good_free result Hr) as [Hg Hc0].
  assert (s_length (string_free result) = 0) as Hl0
    by (rewrite <- (zlen_content _ (good_wf _ Hg)), Hc0; done).
  rewrite (ar_extract_magic archive _ name result Hc Hw).
  rewrite Hb, ar_loop_turn by done.
  split.
  - intros Hz0. rewrite compare_name_nul by done. cbn [mbind outcome_bind].
    destruct (concatb_appends rest size Ha) with (s := string_free result) as (r' & E & Hg' & Hc' & _);
      [destruct (Z.odd size); lia | done | rewrite zlen_ztake by (destruct (Z.odd size); lia); lia |].
    rewrite E. cbn. exists r'. by rewrite Hc', Hc0.
  - intros ->. by rewrite compare_name_blank.
Qed.

End Theorems.

(** ** Witnesses *)

Definition member_version : member :=
  mkmember (c_lit "chaosvpn-version") false (c_lit "0") (c_lit "0") (c_lit "0") (c_lit "100644") (c_lit "3").
Definition member_clear : member :=
  mkmember (c_lit "cleartext") true (c_lit "0") (c_lit "0") (c_lit "0") (c_lit "100644") (c_lit "[a]\n").

(** A buffer holding the given bytes. *)
Definition buf_of (bs : list char) : strbuf := mkstr (zlen bs) (zlen bs) 8192 (Some bs).

Lemma wf_buf_of bs : zlen bs <= 2 ^ 32 -> wf_str (buf_of bs).
Proof. intros Hl. pose proof (zlen_nonneg bs). split; cbn; unfold size_max; lia || done. Qed.

Lemma good_buf_of bs : zlen bs <= 2 ^ 32 -> good_str (buf_of bs).
Proof. intros Hl. split; [by apply wf_buf_of | done | cbn; unfold str_limit; lia]. Qed.

Lemma content_buf_of bs : content (buf_of bs) = bs.
Proof. unfold content, buf_of; cbn. unfold id. by apply ztake_all. Qed.

Lemma member_version_ok : member_ok member_version.
Proof.
  split; try done.
  - repeat constructor; done.
  - intros _ k E. apply (f_equal (fun l => List.last l 0)) in E. rewrite List.last_last in E. done.
Qed.
Lemma member_clear_ok : member_ok member_clear.
Proof. split; try done. repeat constructor; done. Qed.

Lemma ar_extract_archive_witness :
  exists result', @ar_extract roomy (buf_of (archive_of [member_version; member_clear]))
      (c_lit "cleartext") (string_lazyinit 512) = Ret (true, result') /\
    good_str result' /\ content result' = c_lit "[a]\n".
Proof.
  apply (@ar_extract_archive roomy [member_version; member_clear] (c_lit "cleartext")).
  - apply roomy_enough.
  - done.
  - constructor; [apply member_version_ok | constructor; [apply member_clear_ok | constructor]].
  - vm_compute. reflexivity.
  - apply wf_buf_of. vm_compute. discriminate.
  - apply content_buf_of.
  - split; [apply wf_lazyinit; done | done | done].
Defined.

Lemma ar_extract_safe_witness :
  exists ok result', @ar_extract roomy (buf_of (c_lit "!<arch>\nchaos")) (c_lit "rsa") (string_lazyinit 512)
      = Ret (ok, result') /\ good_str result' /\
    infix_of (content result') (content (buf_of (c_lit "!<arch>\nchaos"))).
Proof.
  apply (@ar_extract_safe roomy (c_lit "rsa")).
  - apply roomy_enough.
  - apply good_buf_of. vm_compute. discriminate.
  - reflexivity.
  - split; [apply wf_lazyinit; done | done | done].
  - intros n Hn Hl. exfalso. revert Hl. rewrite content_buf_of. vm_compute (zdrop SARMAG _).
    unfold zlen, zdrop. rewrite length_drop. cbn. unfold sizeof_ar_hdr. lia.
Defined.

Lemma ar_extract_bad_names_witness :
  (exists result', @ar_extract roomy
      (buf_of (ARMAG ++ zrep 16 0 ++ zrep 32 32 ++ field 10 (dec 2) ++ ARFMAG ++ c_lit "hi"))
      (c_lit "signature") (string_lazyinit 512) = Ret (true, result') /\
      content result' = c_lit "hi") /\
  @ar_extract roomy
      (buf_of (ARMAG ++ zrep 16 32 ++ zrep 32 32 ++ field 10 (dec 2) ++ ARFMAG ++ c_lit "hi"))
      (c_lit "signature") (string_lazyinit 512) = Undef.
Proof.
  split.
  - apply (@ar_extract_bad_names roomy (zrep 32 32) (zrep 16 0) 2 _ (zrep 16 0 ++ zrep 32 32 ++ field 10 (dec 2) ++ ARFMAG ++ c_lit "hi") (c_lit "hi"));
      try apply roomy_enough; try reflexivity; try lia; try done.
    vm_compute. apply list_elem_of_here.
  - apply (@ar_extract_bad_names roomy (zrep 32 32) (zrep 16 32) 2 _ (zrep 16 32 ++ zrep 32 32 ++ field 10 (dec 2) ++ ARFMAG ++ c_lit "hi") (c_lit "hi"));
      try apply roomy_enough; try reflexivity; try lia; try done.
Defined.
