(* ===== verification/PeerParser.v ===== *)
(** * The peer configuration parser: parser.c

    The static variables [my_config], [done_unknown_warnings] and
    [parse_key_mode], the list of peers under construction and the heap of peer
    records are one state.  [my_config] and the list hold locations, so a record
    changed through [my_config] is changed in the list, and a freed record is a
    location without a record.  Log output is kept for the one message the
    parser takes care not to repeat. *)

From S2P Require Import Prelude CLib CString StrBuf AddrMask.

Definition TINC_DEFAULT_PORT : Z := 665.

Record peer_config := mkpeer {
  pc_name : cptr;
  pc_gatewayhost : cptr;
  pc_owner : cptr;
  pc_network : list cptr;
  pc_network6 : list cptr;
  pc_route_network : list cptr;
  pc_route_network6 : list cptr;
  pc_hidden : bool;
  pc_silent : bool;
  pc_port : Z;
  pc_key : cptr;
  pc_ed25519publickey : cptr;
  pc_cipher : cptr;
  pc_compression : cptr;
  pc_digest : cptr;
  pc_primary : bool;
  pc_use_tcp_only : bool;
  pc_indirectdata : bool
}.

(** Assignments to the fields. *)
Section Setters.
Variable p : peer_config.
Definition set_gatewayhost v := let '(mkpeer a b c d e f g h i j k l m n o q r s) := p in mkpeer a v c d e f g h i j k l m n o q r s.
Definition set_owner v := let '(mkpeer a b c d e f g h i j k l m n o q r s) := p in mkpeer a b v d e f g h i j k l m n o q r s.
Definition set_network v := let '(mkpeer a b c d e f g h i j k l m n o q r s) := p in mkpeer a b c v e f g h i j k l m n o q r s.
Definition set_network6 v := let '(mkpeer a b c d e f g h i j k l m n o q r s) := p in mkpeer a b c d v f g h i j k l m n o q r s.
Definition set_route_network v := let '(mkpeer a b c d e f g h i j k l m n o q r s) := p in mkpeer a b c d e v g h i j k l m n o q r s.
Definition set_route_network6 v := let '(mkpeer a b c d e f g h i j k l m n o q r s) := p in mkpeer a b c d e f v h i j k l m n o q r s.
Definition set_hidden v := let '(mkpeer a b c d e f g h i j k l m n o q r s) := p in mkpeer a b c d e f g v i j k l m n o q r s.
Definition set_silent v := let '(mkpeer a b c d e f g h i j k l m n o q r s) := p in mkpeer a b c d e f g h v j k l m n o q r s.
Definition set_port v := let '(mkpeer a b c d e f g h i j k l m n o q r s) := p in mkpeer a b c d e f g h i v k l m n o q r s.
Definition set_key v := let '(mkpeer a b c d e f g h i j k l m n o q r s) := p in mkpeer a b c d e f g h i j v l m n o q r s.
Definition set_ed25519publickey v := let '(mkpeer a b c d e f g h i j k l m n o q r s) := p in mkpeer a b c d e f g h i j k v m n o q r s.
Definition set_cipher v := let '(mkpeer a b c d e f g h i j k l m n o q r s) := p in mkpeer a b c d e f g h i j k l v n o q r s.
Definition set_compression v := let '(mkpeer a b c d e f g h i j k l m n o q r s) := p in mkpeer a b c d e f g h i j k l m v o q r s.
Definition set_digest v := let '(mkpeer a b c d e f g h i j k l m n o q r s) := p in mkpeer a b c d e f g h i j k l m n v q r s.
Definition set_primary v := let '(mkpeer a b c d e f g h i j k l m n o q r s) := p in mkpeer a b c d e f g h i j k l m n o v r s.
Definition set_use_tcp_only v := let '(mkpeer a b c d e f g h i j k l m n o q r s) := p in mkpeer a b c d e f g h i j k l m n o q v s.
Definition set_indirectdata v := let '(mkpeer a b c d e f g h i j k l m n o q r s) := p in mkpeer a b c d e f g h i j k l m n o q r v.
End Setters.

Record parser := mkparser {
  p_my_config : option nat;
  p_warnings : list cptr;            (** done_unknown_warnings *)
  p_key_mode : bool;
  p_list : list (option nat);        (** the [peer_config] pointers of configlist *)
  p_heap : gmap nat peer_config;
  p_log : list text                  (** the lines reported as unknown *)
}.

Definition set_my_config (st : parser) v : parser :=
  mkparser v (p_warnings st) (p_key_mode st) (p_list st) (p_heap st) (p_log st).
Definition set_key_mode (st : parser) v : parser :=
  mkparser (p_my_config st) (p_warnings st) v (p_list st) (p_heap st) (p_log st).
Definition set_list (st : parser) v : parser :=
  mkparser (p_my_config st) (p_warnings st) (p_key_mode st) v (p_heap st) (p_log st).
Definition set_heap (st : parser) v : parser :=
  mkparser (p_my_config st) (p_warnings st) (p_key_mode st) (p_list st) v (p_log st).
Definition add_warning (st : parser) v : parser :=
  mkparser (p_my_config st) (p_warnings st ++ [v]) (p_key_mode st) (p_list st) (p_heap st) (p_log st).
Definition add_log (st : parser) v : parser :=
  mkparser (p_my_config st) (p_warnings st) (p_key_mode st) (p_list st) (p_heap st) (p_log st ++ [v]).

Definition sizeof_peer_config : Z := 144.
Definition sizeof_peer_config_list : Z := 24.
Definition sizeof_string_list : Z := 24.

Section Parser.
Context `{Allocator} `{Resolver}.

Definition strdup (t : text) : cptr := if alloc_ok (zlen t + 1) then Some t else None.

(** [Some rest] is the pointer behind the keyword. *)
Definition parser_check_configitem (line config : text) : cptr :=
  let len := strlen config in
  if strncasecmp line config len =? 0 then Some (zdrop len line) else None.

(** [None]: [malloc] failed and NULL is returned. *)
Definition parser_stringlist (item : text) : option cptr :=
  if alloc_ok sizeof_string_list then Some (strdup item) else None.

(** [list_add_tail (parser_stringlist (item), list)] on the texts of the list. *)
Definition add_item (l : list cptr) (item : text) : outcome (list cptr) :=
  match parser_stringlist item with
  | Some i => Ret (l ++ [i])
  | None => Undef
  end.

Definition parser_extend_key (line : text) (p : peer_config) : outcome peer_config :=
  match pc_key p with
  | None => Undef
  | Some key =>
      if alloc_ok (strlen key + strlen line + 2)
      then Ret (set_key p (Some (key ++ line ++ [10])))
      else Exit 1
  end.

(** A location above all those in use. *)
Definition new_loc (heap : gmap nat peer_config) : nat :=
  map_fold (fun l _ n => Nat.max (S l) n) 0%nat heap.

Definition parser_create_config (name : text) (st : parser) : bool * parser :=
  if alloc_ok sizeof_peer_config then
    let loc := new_loc (p_heap st) in
    (true, set_heap (set_my_config st (Some loc)) (<[loc :=
      mkpeer (strdup name) (strdup []) (strdup []) [] [] [] [] false false TINC_DEFAULT_PORT
        (strdup []) (strdup []) (strdup []) (strdup []) (strdup []) false false false]> (p_heap st)))
  else (false, set_my_config st None).

Definition parser_replace_item (newitem : text) : cptr := strdup newitem.

(** The loop over the labels reported so far; a label that could not be
    stored is a NULL text. *)
Fixpoint warned (label : text) (l : list cptr) : outcome bool :=
  match l with
  | [] => Ret false
  | Some t :: l => if strcasecmp label t =? 0 then Ret true else warned label l
  | None :: _ => Undef
  end.

(** [strtok_r] has cut [line] at its first label when the message is written. *)
Definition parser_warn_unknown (line : text) (st : parser) : outcome parser :=
  match strtok_r line 61 with
  | None => Ret (add_log st line)
  | Some (label, _) =>
      known ← warned label (p_warnings st);
      if known : bool then Ret st
      else
        match parser_stringlist label with
        | None => Undef
        | Some i =>
            let cut := take_until (fun c => c =? 61) (skip_while (fun c => c =? 61) line) in
            let shown := take (length line - length (skip_while (fun c => c =? 61) line)) line ++ cut in
            Ret (add_log (add_warning st i) shown)
        end
  end.

(** A statement about [my_config->...]. *)
Definition with_config (st : parser) (f : peer_config -> outcome peer_config)
  : outcome (bool * parser) :=
  match p_my_config st with
  | None => Undef
  | Some loc =>
      match p_heap st !! loc with
      | None => Undef
      | Some p => p' ← f p; Ret (true, set_heap st (<[loc := p']> (p_heap st)))
      end
  end.

(** [free (my_config); my_config = NULL]. *)
Definition free_my_config (st : parser) : parser :=
  match p_my_config st with
  | None => st
  | Some loc => set_my_config (set_heap st (delete loc (p_heap st))) None
  end.

Definition parse_header (line : text) (st : parser) : outcome (bool * parser) :=
  let len := strlen line in
  let st := set_key_mode st false in
  if negb (alloc_ok (len - 1)) then Ret (false, free_my_config st)
  else
    let item := ztake (len - 2) (zdrop 1 line) in
    if negb (alloc_ok sizeof_peer_config_list) then Ret (false, free_my_config st)
    else
      let '(_, st) := parser_create_config item st in
      Ret (true, set_list st (p_list st ++ [p_my_config st])).

(** [item] is a subnet of the family: add it, else only a message. *)
Definition parse_network (family : Z) (item : text) (get : peer_config -> list cptr)
    (set : peer_config -> list cptr -> peer_config) (st : parser) : outcome (bool * parser) :=
  ok ← addrmask_verify_subnet (Some item) family;
  if ok : bool then with_config st (fun p => l ← add_item (get p) item; Ret (set p l))
  else Ret (true, st).

Definition parse_port (item : text) (p : peer_config) : peer_config :=
  let longport := strtoul item 0 in
  if negb (longport =? ulong_max) then set_port p (u16 longport) else p.

Definition parser_parse_line (line : text) (st : parser) : outcome (bool * parser) :=
  let line := str_trim line in
  let len := strlen line in
  let text_item (set : peer_config -> cptr -> peer_config) (item : text) :=
    with_config st (fun p => Ret (set p (parser_replace_item item))) in
  let bool_item (set : peer_config -> bool -> peer_config) (item : text) :=
    with_config st (fun p => Ret (set p (str_is_true (Some item) false))) in
  if (nth 0 line 0 =? 91) && (nth (Z.to_nat (len - 1)) line 0 =? 93) then parse_header line st
  else match p_my_config st with
  | None => Ret (true, st)
  | Some _ =>
  match parser_check_configitem line (c_lit "gatewayhost=") with
  | Some item => text_item set_gatewayhost item | None =>
  match parser_check_configitem line (c_lit "owner=") with
  | Some item => text_item set_owner item | None =>
  match parser_check_configitem line (c_lit "use-tcp-only=") with
  | Some item => bool_item set_use_tcp_only item | None =>
  match parser_check_configitem line (c_lit "network=") with
  | Some item => parse_network AF_INET item pc_network set_network st | None =>
  match parser_check_configitem line (c_lit "network6=") with
  | Some item => parse_network AF_INET6 item pc_network6 set_network6 st | None =>
  match parser_check_configitem line (c_lit "route_network=") with
  | Some item => parse_network AF_INET item pc_route_network set_route_network st | None =>
  match parser_check_configitem line (c_lit "route_network6=") with
  | Some item => parse_network AF_INET6 item pc_route_network6 set_route_network6 st | None =>
  match parser_check_configitem line (c_lit "hidden=") with
  | Some item => bool_item set_hidden item | None =>
  match parser_check_configitem line (c_lit "silent=") with
  | Some item => bool_item set_silent item | None =>
  match parser_check_configitem line (c_lit "port=") with
  | Some item => with_config st (fun p => Ret (parse_port item p)) | None =>
  match parser_check_configitem line (c_lit "indirectdata=") with
  | Some item => bool_item set_indirectdata item | None =>
  match parser_check_configitem line (c_lit "cipher=") with
  | Some item => text_item set_cipher item | None =>
  match parser_check_configitem line (c_lit "compression=") with
  | Some item => text_item set_compression item | None =>
  match parser_check_configitem line (c_lit "digest=") with
  | Some item => text_item set_digest item | None =>
  match parser_check_configitem line (c_lit "primary=") with
  | Some item => bool_item set_primary item | None =>
  match parser_check_configitem line (c_lit "ed25519publickey=") with
  | Some item => text_item set_ed25519publickey item | None =>
  match parser_check_configitem line (c_lit "pingtest=") with
  | Some _ => Ret (true, st) | None =>
  match parser_check_configitem line (c_lit "-----BEGIN RSA PUBLIC KEY-----") with
  | Some _ =>
      '(ok, st) ← with_config st (fun p =>
        if alloc_ok (len + 2) then Ret (set_key p (Some (line ++ [10]))) else Undef);
      Ret (ok, set_key_mode st true)
  | None =>
  match parser_check_configitem line (c_lit "-----END RSA PUBLIC KEY-----") with
  | Some _ =>
      '(ok, st) ← with_config st (parser_extend_key line);
      Ret (ok, set_key_mode st false)
  | None =>
      if p_key_mode st then with_config st (parser_extend_key line)
      else st ← parser_warn_unknown line st; Ret (true, st)
  end end end end end end end end end end end end end end end end end end end end.

(** The loop over the tokens; each turn consumes a character of the data. *)
Fixpoint parse_loop (fuel : nat) (data : text) (st : parser) : outcome (bool * parser) :=
  match fuel with
  | O => Undef
  | S fuel' =>
      match strtok_r data 10 with
      | None => Ret (true, st)
      | Some (token, rest) =>
          if negb (strncmp token (c_lit "#") 1 =? 0) then
            '(ok, st) ← parser_parse_line token st;
            if negb ok then Ret (false, st) else parse_loop fuel' rest st
          else parse_loop fuel' rest st
      end
  end.

(** [config_list] and the heap are the caller's; [done_unknown_warnings] is
    emptied again at the end. *)
Definition parser_parse_config (data : text) (config_list : list (option nat))
    (heap : gmap nat peer_config) : outcome (bool * parser) :=
  if alloc_ok (zlen data + 1) then
    '(ok, st) ← parse_loop (S (length data)) data (mkparser None [] false config_list heap []);
    Ret (ok, mkparser (p_my_config st) [] (p_key_mode st) (p_list st) (p_heap st) (p_log st))
  else Undef.

(** [parser_free_config]: freeing a location twice, or the fields behind a NULL
    pointer, is undefined. *)
Fixpoint parser_free_config (config_list : list (option nat)) (heap : gmap nat peer_config)
  : outcome (gmap nat peer_config) :=
  match config_list with
  | [] => Ret heap
  | None :: _ => Undef
  | Some loc :: l =>
      match heap !! loc with
      | None => Undef
      | Some _ => parser_free_config l (delete loc heap)
      end
  end.

End Parser.

(** The peers a list of pointers stands for, when none dangles. *)
Definition peers_of (heap : gmap nat peer_config) (l : list (option nat)) : option (list peer_config) :=
  mapM (fun o => loc ← o; heap !! loc) l.
