(* ===== verification/PeerSpec.v ===== *)
(** * What parser.c computes

    [spec_parse] is the parser as a function from text to peers: a table of
    items instead of a chain of tests, values instead of records in a heap, no
    allocation.  The refinement lemmas show that, given memory, the code returns
    true and leaves exactly these peers and these messages. *)

From S2P Require Import Prelude CLib CString StrBuf AddrMask PeerParser.

Section Spec.
Context `{Allocator} `{Resolver}.

Definition is_subnet (family : Z) (t : text) : bool :=
  match addrmask_verify_subnet (Some t) family with Ret b => b | _ => false end.

Definition text_entry (k : text) (set : peer_config -> cptr -> peer_config)
  : text * (text -> peer_config -> peer_config) := (k, fun t p => set p (Some t)).
Definition bool_entry (k : text) (set : peer_config -> bool -> peer_config)
  : text * (text -> peer_config -> peer_config) := (k, fun t p => set p (str_is_true (Some t) false)).
Definition subnet_entry (k : text) (f : Z) (get : peer_config -> list cptr)
    (set : peer_config -> list cptr -> peer_config) : text * (text -> peer_config -> peer_config) :=
  (k, fun t p => if is_subnet f t then set p (get p ++ [Some t]) else p).

Definition items : list (text * (text -> peer_config -> peer_config)) :=
  [ text_entry (c_lit "gatewayhost=") set_gatewayhost;
    text_entry (c_lit "owner=") set_owner;
    bool_entry (c_lit "use-tcp-only=") set_use_tcp_only;
    subnet_entry (c_lit "network=") AF_INET pc_network set_network;
    subnet_entry (c_lit "network6=") AF_INET6 pc_network6 set_network6;
    subnet_entry (c_lit "route_network=") AF_INET pc_route_network set_route_network;
    subnet_entry (c_lit "route_network6=") AF_INET6 pc_route_network6 set_route_network6;
    bool_entry (c_lit "hidden=") set_hidden;
    bool_entry (c_lit "silent=") set_silent;
    (c_lit "port=", parse_port);
    bool_entry (c_lit "indirectdata=") set_indirectdata;
    text_entry (c_lit "cipher=") set_cipher;
    text_entry (c_lit "compression=") set_compression;
    text_entry (c_lit "digest=") set_digest;
    bool_entry (c_lit "primary=") set_primary;
    text_entry (c_lit "ed25519publickey=") set_ed25519publickey;
    (c_lit "pingtest=", fun _ p => p) ].

Definition key_begin : text := c_lit "-----BEGIN RSA PUBLIC KEY-----".
Definition key_end : text := c_lit "-----END RSA PUBLIC KEY-----".

(** The first item whose keyword the line starts with. *)
Fixpoint find_item (l : list (text * (text -> peer_config -> peer_config))) (line : text)
  : option (peer_config -> peer_config) :=
  match l with
  | [] => None
  | (k, f) :: l =>
      match parser_check_configitem line k with
      | Some item => Some (f item)
      | None => find_item l line
      end
  end.

(** The peers seen so far, the current one first; whether a key is being read;
    the labels and lines reported. *)
Record spec_state := mkspec {
  sp_peers : list peer_config;
  sp_key : bool;
  sp_warned : list text;
  sp_log : list text
}.

Definition new_peer (name : text) : peer_config :=
  mkpeer (Some name) (Some []) (Some []) [] [] [] [] false false TINC_DEFAULT_PORT
    (Some []) (Some []) (Some []) (Some []) (Some []) false false false.

Definition extend_key (line : text) (p : peer_config) : peer_config :=
  set_key p (Some (default [] (pc_key p) ++ line ++ [10])).

Definition is_header (line : text) : bool :=
  (nth 0 line 0 =? 91) && (nth (Z.to_nat (strlen line - 1)) line 0 =? 93).

Definition same_label (a b : text) : bool := strcasecmp a b =? 0.

(** The part of the line that is shown when its label is reported. *)
Definition shown_line (line : text) : text :=
  take (length line - length (skip_while (fun c => c =? 61) line)) line ++
  take_until (fun c => c =? 61) (skip_while (fun c => c =? 61) line).

Definition spec_unknown (line : text) (s : spec_state) : spec_state :=
  match strtok_r line 61 with
  | None => mkspec (sp_peers s) (sp_key s) (sp_warned s) (sp_log s ++ [line])
  | Some (label, _) =>
      if existsb (same_label label) (sp_warned s) then s
      else mkspec (sp_peers s) (sp_key s) (sp_warned s ++ [label]) (sp_log s ++ [shown_line line])
  end.

Definition spec_line (line : text) (s : spec_state) : spec_state :=
  let line := str_trim line in
  if is_header line then
    mkspec (new_peer (ztake (strlen line - 2) (zdrop 1 line)) :: sp_peers s) false (sp_warned s) (sp_log s)
  else match sp_peers s with
  | [] => s
  | p :: ps =>
      let keep key p := mkspec (p :: ps) key (sp_warned s) (sp_log s) in
      match find_item items line with
      | Some f => keep (sp_key s) (f p)
      | None =>
          if parser_check_configitem line key_begin then keep true (set_key p (Some (line ++ [10])))
          else if parser_check_configitem line key_end then keep false (extend_key line p)
          else if sp_key s then keep true (extend_key line p)
          else spec_unknown line s
      end
  end.

(** The lines that are not empty and do not start with #. *)
Definition config_lines (data : text) : list text :=
  List.filter (fun l => match l with [] => false | c :: _ => negb (c =? 35) end) (split_on 10 data).

Definition spec_start : spec_state := mkspec [] false [] [].

Definition spec_run (lines : list text) (s : spec_state) : spec_state :=
  foldl (fun s l => spec_line l s) s lines.

Definition spec_parse (data : text) : list peer_config * list text :=
  let s := spec_run (config_lines data) spec_start in (rev (sp_peers s), sp_log s).

(** ** Refinement *)

(** The keys are short enough to be extended by [room] more characters. *)
Definition key_room (room : Z) (p : peer_config) : Prop :=
  exists k, pc_key p = Some k /\ zlen k + room < str_limit.

Record refines (room : Z) (st : parser) (s : spec_state) : Prop := {
  rf_locs : exists locs, p_list st = map Some (rev locs) /\ NoDup locs /\
    Forall2 (fun l p => p_heap st !! l = Some p) locs (sp_peers s) /\
    p_my_config st = List.hd_error locs;
  rf_keys : Forall (key_room room) (sp_peers s);
  rf_mode : p_key_mode st = sp_key s;
  rf_warned : p_warnings st = map Some (sp_warned s);
  rf_log : p_log st = sp_log s
}.

End Spec.

(** *** Memory and records *)

Lemma new_loc_above heap l p : heap !! l = Some p -> (l < new_loc heap)%nat.
Proof.
  unfold new_loc. revert l p. apply (map_fold_weak_ind (fun n m => forall l p, m !! l = Some p -> (l < n)%nat)).
  - intros l p Hl. by rewrite lookup_empty in Hl.
  - intros i x m n Hi IH l p Hl. destruct (decide (i = l)) as [->|Hne]; [lia|].
    rewrite lookup_insert_ne in Hl by done. specialize (IH _ _ Hl). lia.
Qed.

Lemma new_loc_fresh heap : heap !! new_loc heap = None.
Proof.
  destruct (heap !! new_loc heap) eqn:E; [|done]. apply new_loc_above in E. lia.
Qed.

Lemma lookup_insert_other (heap : gmap nat peer_config) locs l p ps :
  l ∉ locs -> Forall2 (fun l p => heap !! l = Some p) locs ps ->
  Forall2 (fun l' p => <[l:=p]> heap !! l' = Some p) [] [] /\
  Forall2 (fun l' q => <[l:=p]> heap !! l' = Some q) locs ps.
Proof.
  intros Hl HF. split; [constructor|]. induction HF as [|l' q locs ps Hq HF IH]; [constructor|].
  constructor; [rewrite lookup_insert_ne by set_solver; done | apply IH; set_solver].
Qed.

Lemma key_room_le room room' p : room' <= room -> key_room room p -> key_room room' p.
Proof. intros Hle (k & E & Hk). exists k. split; [done | lia]. Qed.

Lemma key_room_same room p p' : pc_key p' = pc_key p -> key_room room p -> key_room room p'.
Proof. unfold key_room. by intros ->. Qed.

Lemma refines_le room room' st s : room' <= room -> refines room st s -> refines room' st s.
Proof.
  intros Hle [Hl Hk Hm Hw Hg]. split; try done.
  eapply list.Forall_impl; [exact Hk|]. intros p. by apply key_room_le.
Qed.

(** The current record is changed in the list and in the specification alike. *)
Lemma with_config_refines room room' st s p ps f p' :
  refines room st s -> sp_peers s = p :: ps -> f p = Ret p' ->
  room' <= room -> key_room room' p' ->
  exists st', with_config st f = Ret (true, st') /\
    refines room' st' (mkspec (p' :: ps) (sp_key s) (sp_warned s) (sp_log s)).
Proof.
  intros [(locs & El & Hnd & HF & Hc) Hk Hm Hw Hg] Ep Ef Hle Hroom. rewrite Ep in *.
  inversion HF as [|l p0 locs' ps0 Hl HF']; subst. cbn in Hc.
  unfold with_config. rewrite Hc, Hl, Ef. cbn [mbind outcome_bind].
  eexists. split; [reflexivity|]. apply list.NoDup_cons in Hnd as [Hnin Hnd].
  split; cbn; try done.
  - exists (l :: locs'). split_and!; try done; [by apply list.NoDup_cons|].
    constructor; [by rewrite lookup_insert_eq|].
    by apply lookup_insert_other.
  - apply list.Forall_cons in Hk as [_ Hk]. constructor; [done|].
    eapply list.Forall_impl; [exact Hk|]. intros q. by apply key_room_le.
Qed.

Section Refine.
Context `{Allocator} `{ResolverOk}.
Hypothesis Hmem : alloc_enough.

Lemma alloc_small n : 0 <= n <= 3 * str_limit -> alloc_ok n = true.
Proof using Hmem. intros Hn. by apply Hmem. Qed.

Lemma strdup_ok t : zlen t < str_limit -> strdup t = Some t.
Proof using Hmem.
  intros Ht. unfold strdup. rewrite alloc_small; [done|].
  pose proof (zlen_nonneg t). unfold str_limit in *. lia.
Qed.

Lemma add_item_ok l t : zlen t < str_limit -> add_item l t = Ret (l ++ [Some t]).
Proof using Hmem.
  intros Ht. unfold add_item, parser_stringlist. rewrite strdup_ok by done.
  by rewrite alloc_small.
Qed.

Lemma check_item_le line k item :
  parser_check_configitem line k = Some item -> zlen item <= zlen line /\ (nonul line -> nonul item).
Proof using Type.
  unfold parser_check_configitem. case_bool; [|done]. intros [= <-]. split; [zlia|].
  apply Forall_drop.
Qed.

Lemma is_subnet_ok t f :
  nonul t -> zlen t < str_limit ->
  addrmask_verify_subnet (Some t) f = Ret (is_subnet f t).
Proof using Hmem.
  intros Hn Hl. unfold is_subnet, addrmask_verify_subnet.
  destruct (str_is_empty (Some t)) eqn:Et; [done|].
  change (default [] (Some t)) with t.
  rewrite addrmask_init_eq; try done; [|intros ->; done]. cbn [mbind outcome_bind].
  by destruct (parse_pattern t).
Qed.

Lemma header_refines room st s line :
  refines room st s -> zlen line < str_limit -> room < str_limit -> 2 <= zlen line ->
  exists st', parse_header line st = Ret (true, st') /\
    refines room st' (mkspec (new_peer (ztake (strlen line - 2) (zdrop 1 line)) :: sp_peers s)
                             false (sp_warned s) (sp_log s)).
Proof using Hmem.
  intros [(locs & El & Hnd & HF & Hc) Hk Hm Hw Hg] Hl Hroom Hlen. unfold parse_header, strlen.
  assert (str_limit = 2 ^ 32) as Hlim by done.
  rewrite !alloc_small by (unfold sizeof_peer_config_list; lia). cbn [negb].
  unfold parser_create_config. rewrite alloc_small by (unfold sizeof_peer_config; lia). cbn.
  eexists. split; [reflexivity|].
  assert (forall l, l ∈ locs -> (l < new_loc (p_heap st))%nat) as Hlt.
  { intros l Hin. apply list_elem_of_lookup in Hin as [i Hi].
    destruct (Forall2_lookup_l _ _ _ _ _ HF Hi) as (q & _ & Hq). by eapply new_loc_above. }
  assert (new_loc (p_heap st) ∉ locs) as Hnin by (intros Hin; apply Hlt in Hin; lia).
  rewrite !strdup_ok by zlia.
  split; cbn; try done.
  - exists (new_loc (p_heap st) :: locs). split_and!.
    + cbn [rev]. by rewrite El, map_app.
    + by apply list.NoDup_cons.
    + constructor; [by rewrite lookup_insert_eq | by apply lookup_insert_other].
    + done.
  - constructor; [|done]. exists []. split; [done | change (zlen []) with 0; lia].
Qed.

Lemma extend_key_refines room room' st s p ps line :
  refines room st s -> sp_peers s = p :: ps -> 0 <= room' -> room' + zlen line + 1 <= room ->
  room < str_limit ->
  exists st', with_config st (parser_extend_key line) = Ret (true, st') /\
    refines room' st' (mkspec (extend_key line p :: ps) (sp_key s) (sp_warned s) (sp_log s)).
Proof using Hmem.
  intros Hr Ep Hpos Hle Hlim. pose proof (rf_keys _ _ _ Hr) as Hk. rewrite Ep in Hk.
  apply list.Forall_cons in Hk as [(k & Ek & Hkl) _]. pose proof (zlen_nonneg line).
  eapply with_config_refines; try done; [|lia|].
  - unfold parser_extend_key, extend_key. rewrite Ek.
    rewrite alloc_small; [done|]. unfold strlen. pose proof (zlen_nonneg k). unfold str_limit in *. lia.
  - exists (k ++ line ++ [10]). split; [unfold extend_key; rewrite Ek; by destruct p|].
    rewrite !zlen_app. change (zlen [10]) with 1. lia.
Qed.

Lemma warned_spec label l : warned label (map Some l) = Ret (existsb (same_label label) l).
Proof using Type.
  induction l as [|t l IH]; cbn [warned map existsb]; [done|]. unfold same_label at 1.
  by destruct (strcasecmp label t =? 0).
Qed.

Lemma strtok_r_token s c t r : strtok_r s c = Some (t, r) -> zlen t <= zlen s /\ zlen r <= zlen s.
Proof using Type.
  unfold strtok_r. destruct (skip_while_suffix (fun x => x =? c) s) as (k & E & _).
  apply (f_equal zlen) in E. rewrite zlen_app in E. pose proof (zlen_nonneg k).
  destruct (skip_while _ s) as [|x u] eqn:Eu; [done|].
  destruct (strchr (x :: u) c) as [[b f]|] eqn:Ec.
  - intros [= <- <-]. pose proof (strchr_rest_length _ _ _ _ Ec).
    pose proof (zlen_nonneg b). pose proof (zlen_nonneg f). split; zlia.
  - intros [= <- <-]. pose proof (zlen_nonneg (x :: u)). rewrite zlen_nil. lia.
Qed.

Lemma unknown_refines room st s line :
  refines room st s -> zlen line < str_limit ->
  exists st', parser_warn_unknown line st = Ret st' /\ refines room st' (spec_unknown line s).
Proof using Hmem.
  intros [(locs & El & Hnd & HF & Hc) Hk Hm Hw Hg] Hl. unfold parser_warn_unknown, spec_unknown.
  destruct (strtok_r line 61) as [[label r]|] eqn:Et.
  - rewrite Hw, warned_spec. cbn [mbind outcome_bind].
    destruct (existsb _ _).
    + eexists. split; [reflexivity|]. split; eauto 6.
    + unfold parser_stringlist. rewrite alloc_small by done.
      apply strtok_r_token in Et as [Hlab _]. rewrite strdup_ok by lia.
      eexists. split; [reflexivity|]. split; cbn; eauto 6.
      * by rewrite Hw, map_app.
      * by rewrite Hg.
  - eexists. split; [reflexivity|]. split; cbn; eauto 6. by rewrite Hg.
Qed.

(** A line item that does not touch the key. *)
Lemma item_refines room room' st s p ps f p' :
  refines room st s -> sp_peers s = p :: ps -> f p = Ret p' -> pc_key p' = pc_key p ->
  0 <= room' <= room ->
  exists st', with_config st f = Ret (true, st') /\
    refines room' st' (mkspec (p' :: ps) (sp_key s) (sp_warned s) (sp_log s)).
Proof using Type.
  intros Hr Ep Ef Hkey Hle. eapply with_config_refines; try done; [lia|].
  pose proof (rf_keys _ _ _ Hr) as Hk. rewrite Ep in Hk. apply list.Forall_cons in Hk as [Hk _].
  apply (key_room_same _ p); [done|]. apply (key_room_le room); [lia | done].
Qed.

Lemma network_refines room room' st s p ps f item get set :
  refines room st s -> sp_peers s = p :: ps -> nonul item -> zlen item < str_limit ->
  (forall v, pc_key (set p v) = pc_key p) -> 0 <= room' <= room ->
  exists st', parse_network f item get set st = Ret (true, st') /\
    refines room' st' (mkspec ((if is_subnet f item then set p (get p ++ [Some item]) else p) :: ps)
                              (sp_key s) (sp_warned s) (sp_log s)).
Proof using Hmem.
  intros Hr Ep Hn Hl Hkey Hle. unfold parse_network. rewrite is_subnet_ok by done.
  cbn [mbind outcome_bind]. destruct (is_subnet f item).
  - eapply item_refines; try done. by rewrite add_item_ok.
  - eexists. split; [reflexivity|]. destruct s; cbn in *; subst.
    apply (refines_le room); [lia | done].
Qed.

Lemma set_mode_refines room st s key :
  refines room st s ->
  refines room (set_key_mode st key) (mkspec (sp_peers s) key (sp_warned s) (sp_log s)).
Proof using Type. intros []. by split. Qed.

Lemma trim_le s : zlen (str_trim s) <= zlen s /\ (nonul s -> nonul (str_trim s)).
Proof using Type.
  destruct (str_trim_spec s) as (l & r & E & _). set (t := str_trim s) in *. clearbody t. subst.
  rewrite !zlen_app. pose proof (zlen_nonneg l). pose proof (zlen_nonneg r).
  split; [lia|]. by intros (_ & [? _]%nonul_app)%nonul_app.
Qed.

Lemma is_header_length line : is_header line = true -> 2 <= zlen line.
Proof using Type.
  unfold is_header, strlen. destruct line as [|a [|b line]]; [done| |].
  { change (nth (Z.to_nat (zlen [a] - 1)) [a] 0) with a. change (nth 0 [a] 0) with a.
    intros. exfalso. lia. }
  intros _. rewrite !zlen_cons. pose proof (zlen_nonneg line). lia.
Qed.

Ltac refine_item :=
  match goal with
  | |- context [with_config _ _] => eapply item_refines
  | |- context [parse_network _ _ _ _ _] => eapply network_refines
  end.

(** One line of the code is one line of the specification. *)
Lemma line_refines room room' st s line :
  refines room st s -> nonul line -> 0 <= room' -> room' + zlen line + 1 <= room ->
  room < str_limit ->
  exists st', parser_parse_line line st = Ret (true, st') /\ refines room' st' (spec_line line s).
Proof using Hmem.
  intros Hr Hn Hpos Hle Hlim. unfold parser_parse_line, spec_line.
  destruct (trim_le line) as [Htl Htn]. specialize (Htn Hn).
  set (t := str_trim line) in *. clearbody t. pose proof (zlen_nonneg t).
  fold (is_header t). destruct (is_header t) eqn:Eh.
  { apply header_refines; try lia; [by apply (refines_le room); [lia|] | by apply is_header_length]. }
  pose proof (rf_locs _ _ _ Hr) as (locs & _ & _ & HF & Hc).
  destruct (sp_peers s) as [|p ps] eqn:Ep.
  { inversion HF; subst. cbn in Hc. rewrite Hc. eexists. split; [reflexivity|].
    apply (refines_le room); [lia | done]. }
  destruct locs as [|loc locs]; [by inversion HF|]. cbn in Hc. rewrite Hc. clear HF Hc loc locs.
  unfold items, text_entry, bool_entry, subnet_entry, key_begin, key_end. cbn [find_item].
  assert (forall k i, parser_check_configitem t k = Some i -> nonul i /\ zlen i < str_limit) as Hitem.
  { intros k i [Hi Hni]%check_item_le. split; [by apply Hni | lia]. }
  unfold parser_replace_item.
  repeat match goal with
  | |- context [match parser_check_configitem t ?k with _ => _ end] =>
      let E := fresh "E" in let i := fresh "i" in
      destruct (parser_check_configitem t k) as [i|] eqn:E;
      [ try solve [ destruct (Hitem _ _ E) as [? ?];
          refine_item; try done; try lia; [by rewrite strdup_ok by done | by destruct p] ];
        try solve [ destruct (Hitem _ _ E) as [? ?];
          refine_item; try done; try lia; by destruct p ] | ]
  end.
  - eapply item_refines; try done; [|lia]. unfold parse_port. case_bool; by destruct p.
  - eexists. split; [reflexivity|]. destruct s; cbn in *; subst.
    apply (refines_le room); [lia | done].
  - destruct (with_config_refines room room' st s p ps
      (fun p => if alloc_ok (strlen t + 2) then Ret (set_key p (Some (t ++ [10]))) else Undef)
      (set_key p (Some (t ++ [10])))) as (st' & -> & Hr'); try done; try lia.
    + unfold strlen, str_limit in *. by rewrite alloc_small by (unfold str_limit; lia).
    + exists (t ++ [10]). split; [by destruct p|]. rewrite zlen_app. change (zlen [10]) with 1. lia.
    + eexists. split; [reflexivity|]. exact (set_mode_refines _ _ _ _ Hr').
  - destruct (extend_key_refines room room' st s p ps t) as (st' & -> & Hr'); try done; try lia.
    eexists. split; [reflexivity|]. exact (set_mode_refines _ _ _ _ Hr').
  - rewrite (rf_mode _ _ _ Hr). destruct (sp_key s) eqn:Ek.
    + destruct (extend_key_refines room room' st s p ps t) as (st' & -> & Hr'); try done; try lia.
      eexists. split; [reflexivity|]. by rewrite Ek in Hr'.
    + destruct (unknown_refines room' st s t) as (st' & -> & Hr'); [|lia|].
      * apply (refines_le room); [lia | done].
      * eexists. by split.
Qed.

(** *** The lines of the data *)

Definition is_config_line (l : text) : bool :=
  match l with [] => false | c :: _ => negb (c =? 35) end.

Lemma config_lines_cons l data :
  10 ∉ l -> config_lines (l ++ 10 :: data) =
    (if is_config_line l then [l] else []) ++ config_lines data.
Proof using Type.
  intros Hl. unfold config_lines. rewrite split_on_app by done. cbn [List.filter].
  fold (is_config_line l). by destruct (is_config_line l).
Qed.

Lemma config_lines_last l : 10 ∉ l -> config_lines l = if is_config_line l then [l] else [].
Proof using Type.
  intros Hl. unfold config_lines. rewrite split_on_none by done. cbn [List.filter].
  fold (is_config_line l). by destruct (is_config_line l).
Qed.

Lemma config_lines_skip data : config_lines data = config_lines (skip_while (fun x => x =? 10) data).
Proof using Type.
  induction data as [|x data IH]; cbn [skip_while]; [done|]. case_bool; [|done].
  subst. rewrite <- IH. by apply (config_lines_cons []), not_elem_of_nil.
Qed.

(** What one [strtok_r] call takes off the data. *)
Lemma strtok_r_lines data :
  match strtok_r data 10 with
  | None => config_lines data = []
  | Some (t, r) =>
      config_lines data = (if is_config_line t then [t] else []) ++ config_lines r /\
      t <> [] /\ zlen t + zlen r <= zlen data /\
      (nonul data -> nonul t /\ nonul r)
  end.
Proof using Type.
  rewrite config_lines_skip. unfold strtok_r.
  destruct (skip_while_suffix (fun x => x =? 10) data) as (k & E & _).
  pose proof (skip_while_head (fun x => x =? 10) data) as Hx.
  assert (zlen (skip_while (fun x => x =? 10) data) <= zlen data) as Hl
    by (rewrite E at 2; rewrite zlen_app; pose proof (zlen_nonneg k); lia).
  assert (nonul data -> nonul (skip_while (fun x => x =? 10) data)) as Hn
    by (rewrite E at 1; by intros [_ ?]%nonul_app).
  destruct (skip_while _ data) as [|x u] eqn:Eu; [done|].
  destruct (strchr (x :: u) 10) as [[b f]|] eqn:Ec.
  - apply strchr_Some in Ec as (Ebf & Hb & r & ->). change (drop 1 (10 :: r)) with r. rewrite Ebf in *.
    split_and!.
    + by apply config_lines_cons.
    + intros ->. injection Ebf as -> _. specialize (Hx _ _ eq_refl). done.
    + rewrite zlen_app, zlen_cons in Hl. lia.
    + intros Hd. apply Hn, nonul_app in Hd as [? Hr]. split; [done|]. by apply list.Forall_cons in Hr as [_ ?].
  - apply strchr_None in Ec. rewrite app_nil_r, config_lines_last by done.
    split; [done|]. split; [done|]. split; [change (zlen (@nil Z)) with 0; lia|].
    intros Hd. split; [by apply Hn | constructor].
Qed.

Lemma hash_test t : t <> [] -> negb (strncmp t (c_lit "#") 1 =? 0) = is_config_line t.
Proof using Type.
  destruct t as [|c t]; [done|]. intros _.
  change (strncmp (c :: t) (c_lit "#") 1)
    with (if c =? 35 then ncmp_with (fun c => c) t [] 0 else if c <? 35 then -1 else 1).
  cbn [is_config_line]. destruct (c =? 35); [by destruct t|]. by destruct (c <? 35).
Qed.

Lemma loop_refines fuel data st s room :
  refines room st s -> nonul data -> (length data < fuel)%nat ->
  2 * zlen data <= room -> room < str_limit ->
  exists st', parse_loop fuel data st = Ret (true, st') /\
    refines 0 st' (spec_run (config_lines data) s).
Proof using Hmem.
  revert data st s room; induction fuel as [|fuel IH]; intros data st s room Hr Hn Hf Hroom Hlim; [lia|].
  cbn [parse_loop]. pose proof (strtok_r_lines data) as Ht. pose proof (zlen_nonneg data).
  destruct (strtok_r data 10) as [[t r]|].
  - destruct Ht as (-> & Hne & Hlen & Hnul). destruct (Hnul Hn) as [Hnt Hnr].
    assert (0 < zlen t) by (destruct t; [done | zlia]). pose proof (zlen_nonneg r).
    assert (length r < fuel)%nat by zlia.
    rewrite hash_test by done. destruct (is_config_line t).
    + destruct (line_refines room (2 * zlen r) st s t) as (st' & -> & Hr'); try done; try lia.
      cbn [mbind outcome_bind negb app]. unfold spec_run. cbn [foldl].
      eapply IH; try done; lia.
    + cbn [app]. by eapply (IH r st s room); try lia.
  - rewrite Ht. eexists. split; [reflexivity|]. apply (refines_le room); [lia | done].
Qed.

(** *** The whole call *)

Lemma refines_start room heap :
  refines room (mkparser None [] false [] heap []) spec_start.
Proof using Type.
  split; cbn; try done. exists []. split_and!; try done. constructor.
Qed.

Lemma peers_of_rev heap locs ps :
  Forall2 (fun l p => heap !! l = Some p) locs ps ->
  peers_of heap (map Some (rev locs)) = Some (rev ps).
Proof using Type.
  intros HF. unfold peers_of. apply mapM_Some. induction HF as [|l p locs ps Hl HF IH]; cbn [rev map].
  - constructor.
  - rewrite map_app. apply Forall2_app; [done|]. by repeat constructor.
Qed.

Lemma refines_peers room st s :
  refines room st s -> peers_of (p_heap st) (p_list st) = Some (rev (sp_peers s)).
Proof using Type.
  intros [(locs & El & _ & HF & _) _ _ _ _]. rewrite El. by apply peers_of_rev.
Qed.

Lemma parse_config_spec data heap :
  nonul data -> 2 * zlen data < str_limit ->
  exists st, parser_parse_config data [] heap = Ret (true, st) /\
    peers_of (p_heap st) (p_list st) = Some (fst (spec_parse data)) /\
    p_log st = snd (spec_parse data) /\
    exists locs, p_list st = map Some locs /\ NoDup locs.
Proof using Hmem.
  intros Hn Hl. unfold parser_parse_config. pose proof (zlen_nonneg data).
  rewrite alloc_small by (unfold str_limit in *; lia).
  destruct (loop_refines (S (length data)) data _ spec_start (2 * zlen data)
    (refines_start _ heap)) as (st & -> & Hr); try done; try lia.
  cbn [mbind outcome_bind]. eexists. split; [reflexivity|]. cbn. unfold spec_parse. cbn.
  split_and!.
  - by eapply refines_peers.
  - by eapply rf_log.
  - destruct (rf_locs _ _ _ Hr) as (locs & El & Hnd & _). exists (rev locs). split; [done|].
    apply NoDup_ListNoDup. apply List.NoDup_rev. by apply NoDup_ListNoDup.
Qed.

End Refine.
