(* ===== verification/PeerInv.v ===== *)
(** * Invariants of parser.c

    What every peer record satisfies, and why no label is reported twice, on the
    specification of PeerSpec. *)

From S2P Require Import Prelude CLib CString StrBuf AddrMask PeerParser PeerSpec.

(** ** Messages *)

(** The label of a line, as it is compared. *)
Definition label_of (line : text) : option text := map tolower ∘ fst <$> strtok_r line 61.

Definition labels_once (s : spec_state) : Prop :=
  NoDup (omap label_of (sp_log s)) /\ omap label_of (sp_log s) = map (map tolower) (sp_warned s).

Lemma skip_while_split p (s : text) :
  take (length s - length (skip_while p s)) s ++ skip_while p s = s /\
  Forall (fun c => p c = true) (take (length s - length (skip_while p s)) s).
Proof.
  destruct (skip_while_suffix p s) as (k & E & Hk). set (u := skip_while p s) in *. clearbody u.
  subst. rewrite length_app. replace (length k + length u - length u)%nat with (length k) by lia.
  by rewrite take_app_length.
Qed.

Lemma take_until_strchr (s : text) c :
  take_until (fun x => x =? c) s = match strchr s c with Some (b, _) => b | None => s end /\
  c ∉ take_until (fun x => x =? c) s.
Proof.
  induction s as [|x s [IH IHn]]; cbn [take_until strchr]; [split; [done | apply not_elem_of_nil]|].
  destruct (Z.eqb_spec x c); [split; [done | apply not_elem_of_nil]|].
  rewrite IH in *. destruct (strchr s c) as [[b f]|]; (split; [done | set_solver]).
Qed.

(** The reported line has the label of the line it was cut from. *)
Lemma label_of_shown line label r :
  strtok_r line 61 = Some (label, r) -> label_of (shown_line line) = Some (map tolower label).
Proof.
  unfold label_of, shown_line, strtok_r. intros E.
  destruct (skip_while_split (fun x => x =? 61) line) as [_ Hsp].
  pose proof (skip_while_head (fun x => x =? 61) line) as Hh.
  destruct (skip_while _ line) as [|x u] eqn:Eu; [done|]. specialize (Hh _ _ eq_refl).
  destruct (take_until_strchr (x :: u) 61) as [Et Hn].
  assert (take_until (fun c => c =? 61) (x :: u) = label) as El.
  { rewrite Et. destruct (strchr (x :: u) 61) as [[b f]|]; by injection E as <- _. }
  rewrite El in *. rewrite skip_while_app by done.
  assert (label <> []) as Hne. { rewrite <- El. cbn [take_until]. by rewrite Hh. }
  destruct label as [|c label]; [done|]. rewrite skip_while_stop by (apply Z.eqb_neq; set_solver).
  rewrite (proj2 (strchr_None (c :: label) 61)) by done. done.
Qed.

Lemma same_label_spec a b : same_label a b = true <-> map tolower a = map tolower b.
Proof. unfold same_label. by rewrite Z.eqb_eq, strcasecmp_eq. Qed.

(** ** The invariant of a peer *)

Section Invariant.
Context `{Allocator} `{ResolverOk}.

Definition subnets_ok (f : Z) (l : list cptr) : Prop :=
  Forall (fun o => exists t, o = Some t /\ is_subnet f t = true) l.

Record wf_peer (p : peer_config) : Prop := {
  wp_name : is_Some (pc_name p);
  wp_gatewayhost : is_Some (pc_gatewayhost p);
  wp_owner : is_Some (pc_owner p);
  wp_key : is_Some (pc_key p);
  wp_ed25519 : is_Some (pc_ed25519publickey p);
  wp_cipher : is_Some (pc_cipher p);
  wp_compression : is_Some (pc_compression p);
  wp_digest : is_Some (pc_digest p);
  wp_port : 0 <= pc_port p < 2 ^ 16;
  wp_network : subnets_ok AF_INET (pc_network p);
  wp_network6 : subnets_ok AF_INET6 (pc_network6 p);
  wp_route_network : subnets_ok AF_INET (pc_route_network p);
  wp_route_network6 : subnets_ok AF_INET6 (pc_route_network6 p)
}.

Lemma wf_new_peer name : wf_peer (new_peer name).
Proof using Type. split; cbn; try (by eexists); try apply list.Forall_nil; done. Qed.

Lemma subnets_ok_snoc f l t : subnets_ok f l -> is_subnet f t = true -> subnets_ok f (l ++ [Some t]).
Proof using Type. intros Hl Ht. apply Forall_app; split; [done|]. repeat constructor. eauto. Qed.

Lemma u16_range z : 0 <= u16 z < 2 ^ 16.
Proof using Type. apply Z.mod_pos_bound. lia. Qed.

(** Every entry of the table keeps the invariant. *)
Lemma items_wf : Forall (fun e => forall t p, wf_peer p -> wf_peer (snd e t p)) items.
Proof using Type.
  unfold items, text_entry, bool_entry, subnet_entry.
  repeat (apply list.Forall_cons; split; [cbn [snd]; intros t p Hp|]); try apply list.Forall_nil;
    try done;
    try (destruct p, Hp; split; cbn in *; by eauto);
    try (destruct (is_subnet _ t) eqn:E; [|done];
         destruct p, Hp; split; cbn in *; by eauto using subnets_ok_snoc).
  unfold parse_port. destruct (_ =? _); cbn [negb]; [done|].
  destruct p, Hp; split; cbn in *; eauto using u16_range.
Qed.

Lemma find_item_wf l line f :
  Forall (fun e => forall t p, wf_peer p -> wf_peer (snd e t p)) l ->
  find_item l line = Some f -> forall p, wf_peer p -> wf_peer (f p).
Proof using Type.
  induction 1 as [|[k g] l Hg _ IH]; cbn [find_item]; [done|].
  destruct (parser_check_configitem line k); [|done]. intros [= <-] p. apply Hg.
Qed.

Lemma wf_set_key p k : wf_peer p -> wf_peer (set_key p (Some k)).
Proof using Type. intros Hp. destruct p, Hp; split; cbn in *; eauto. Qed.

Lemma spec_unknown_peers line s : sp_peers (spec_unknown line s) = sp_peers s.
Proof using Type.
  unfold spec_unknown. destruct (strtok_r line 61) as [[label r]|]; [|done]. by destruct (existsb _ _).
Qed.

Lemma spec_line_wf line s : Forall wf_peer (sp_peers s) -> Forall wf_peer (sp_peers (spec_line line s)).
Proof using Type.
  intros HF. unfold spec_line. destruct (is_header _).
  { constructor; [apply wf_new_peer | done]. }
  destruct (sp_peers s) as [|p ps] eqn:Ep; [by rewrite Ep|].
  pose proof HF as [Hp Hps]%list.Forall_cons.
  destruct (find_item items _) as [f|] eqn:Ef.
  { constructor; [|done]. eapply find_item_wf; [apply items_wf | done..]. }
  destruct (parser_check_configitem _ key_begin); [constructor; [by apply wf_set_key | done]|].
  destruct (parser_check_configitem _ key_end); [constructor; [by apply wf_set_key | done]|].
  destruct (sp_key s); [constructor; [by apply wf_set_key | done]|].
  by rewrite spec_unknown_peers, Ep.
Qed.

Lemma spec_run_wf lines s :
  Forall wf_peer (sp_peers s) -> Forall wf_peer (sp_peers (spec_run lines s)).
Proof using Type.
  revert s; induction lines as [|l lines IH]; intros s HF; [done|].
  cbn. apply IH. by apply spec_line_wf.
Qed.

Lemma spec_line_labels line s : labels_once s -> labels_once (spec_line line s).
Proof using Type.
  intros [Hnd Hw]. unfold spec_line. destruct (is_header _); [done|].
  destruct (sp_peers s) as [|p ps]; [done|]. destruct (find_item items _); [done|].
  destruct (parser_check_configitem _ key_begin); [done|].
  destruct (parser_check_configitem _ key_end); [done|]. destruct (sp_key s); [done|].
  unfold spec_unknown. destruct (strtok_r (str_trim line) 61) as [[label r]|] eqn:Et.
  - destruct (existsb _ _) eqn:Ee; [done|]. unfold labels_once; cbn [sp_log sp_warned].
    assert (omap label_of (sp_log s ++ [shown_line (str_trim line)]) =
            omap label_of (sp_log s) ++ [map tolower label]) as ->.
    { rewrite omap_app. f_equal. cbn. by rewrite (label_of_shown _ _ _ Et). }
    rewrite map_app, Hw. split; [|done]. rewrite <- Hw. apply list.NoDup_app. split_and!; [done | |].
    + intros x Hx Hin. apply list_elem_of_singleton in Hin as ->. rewrite Hw in Hx.
      apply list_elem_of_In, in_map_iff in Hx as (t & Ht & Hin).
      assert (existsb (same_label label) (sp_warned s) = true); [|congruence].
      apply existsb_exists. exists t. split; [done|]. by apply same_label_spec.
    + apply list.NoDup_singleton.
  - unfold labels_once; cbn [sp_log sp_warned]. rewrite omap_app. cbn. unfold label_of at 2 4. rewrite Et. cbn.
    by rewrite app_nil_r.
Qed.

Lemma spec_run_labels lines s : labels_once s -> labels_once (spec_run lines s).
Proof using Type.
  revert s; induction lines as [|l lines IH]; intros s Hs; [done|].
  cbn. apply IH. by apply spec_line_labels.
Qed.

End Invariant.
