(* ===== verification/PeerPrint.v ===== *)
(** * A printer of peer configurations

    [print_config] writes peers in the format parser.c reads: a header line per
    node and a line per item, the key as it is.  On printable peers
    [spec_parse] inverts it. *)

From S2P Require Import Prelude CLib CString StrBuf StrNatCmp AddrMask PeerParser PeerSpec.

Definition bool_text (b : bool) : text := if b then c_lit "1" else c_lit "0".

(** The lines of a key: first and last line, and what is between them. *)
Definition key_lines (body : list text) : list text := key_begin :: body ++ [key_end].


Definition print_items (p : peer_config) : list text :=
  [ c_lit "gatewayhost=" ++ txt (pc_gatewayhost p);
    c_lit "owner=" ++ txt (pc_owner p);
    c_lit "use-tcp-only=" ++ bool_text (pc_use_tcp_only p) ] ++
  map (fun o => c_lit "network=" ++ txt o) (pc_network p) ++
  map (fun o => c_lit "network6=" ++ txt o) (pc_network6 p) ++
  map (fun o => c_lit "route_network=" ++ txt o) (pc_route_network p) ++
  map (fun o => c_lit "route_network6=" ++ txt o) (pc_route_network6 p) ++
  [ c_lit "hidden=" ++ bool_text (pc_hidden p);
    c_lit "silent=" ++ bool_text (pc_silent p);
    c_lit "port=" ++ dec (pc_port p);
    c_lit "indirectdata=" ++ bool_text (pc_indirectdata p);
    c_lit "cipher=" ++ txt (pc_cipher p);
    c_lit "compression=" ++ txt (pc_compression p);
    c_lit "digest=" ++ txt (pc_digest p);
    c_lit "primary=" ++ bool_text (pc_primary p);
    c_lit "ed25519publickey=" ++ txt (pc_ed25519publickey p) ].

(** [body]: the lines between the first and the last of the key, [None] for a
    peer without one. *)
Definition print_peer (p : peer_config) (body : option (list text)) : list text :=
  (91 :: txt (pc_name p) ++ [93]) :: print_items p ++
  match body with Some b => key_lines b | None => [] end.

Definition print_config (ps : list (peer_config * option (list text))) : text :=
  unlines (concat (map (fun '(p, b) => print_peer p b) ps)).

Section Print.
Context `{Allocator} `{Resolver}.

(** A value that stands at the end of a line and comes back from it. *)
Definition value_ok (o : cptr) : Prop :=
  exists t, o = Some t /\ nonul t /\ 10 ∉ t /\ ~ ends_with_space t.

Definition subnet_value (f : Z) (o : cptr) : Prop :=
  value_ok o /\ is_subnet f (txt o) = true.

(** A line of a key: not empty, nothing the parser takes for something else. *)
Record key_line (l : text) : Prop := {
  kl_chars : nonul l /\ 10 ∉ l;
  kl_trim : ~ starts_with_space l /\ ~ ends_with_space l;
  kl_start : is_config_line l = true /\ is_header l = false;
  kl_items : find_item items l = None /\
             parser_check_configitem l key_begin = None /\ parser_check_configitem l key_end = None
}.

Record printable (p : peer_config) (body : option (list text)) : Prop := {
  pr_name : exists t, pc_name p = Some t /\ nonul t /\ 10 ∉ t;
  pr_texts : Forall value_ok [pc_gatewayhost p; pc_owner p; pc_cipher p; pc_compression p;
                              pc_digest p; pc_ed25519publickey p];
  pr_port : 0 <= pc_port p < 2 ^ 16;
  pr_network : Forall (subnet_value AF_INET) (pc_network p);
  pr_network6 : Forall (subnet_value AF_INET6) (pc_network6 p);
  pr_route_network : Forall (subnet_value AF_INET) (pc_route_network p);
  pr_route_network6 : Forall (subnet_value AF_INET6) (pc_route_network6 p);
  pr_body : Forall key_line (default [] body);
  pr_key : pc_key p = Some (match body with Some b => unlines (key_lines b) | None => [] end)
}.

(** ** Lines *)

Definition plain_line (l : text) : Prop := 10 ∉ l /\ is_config_line l = true.

Lemma config_lines_unlines ls : Forall plain_line ls -> config_lines (unlines ls) = ls.
Proof using Type.
  induction 1 as [|l ls [Hn Hc] _ IH]; [done|]. unfold unlines in *. cbn [map concat].
  rewrite <- app_assoc. cbn [app]. rewrite config_lines_cons, Hc, IH by done. done.
Qed.

(** A keyword, as all of them are: no space at either end, no [, no #. *)
Definition keyword (k : text) : Prop :=
  ~ starts_with_space k /\ ~ ends_with_space k /\ 10 ∉ k /\ nonul k /\
  exists c k', k = c :: k' /\ c <> 91 /\ c <> 35.

Lemma ends_with_space_app k t : t <> [] -> ends_with_space (k ++ t) -> ends_with_space t.
Proof using Type.
  intros Hne (l & c & E & Hc). destruct (exists_last Hne) as (t' & d & ->).
  rewrite app_assoc in E. apply app_inj_tail in E as [_ ->]. by exists t', c.
Qed.

Lemma trim_keyword k t : keyword k -> ~ ends_with_space t -> str_trim (k ++ t) = k ++ t.
Proof using Type.
  intros (Hs & He & _ & _ & c & k' & -> & _) Ht. apply str_trim_id.
  - intros (d & r & E & Hd). apply Hs. injection E as -> _. exists d, k'. done.
  - destruct t as [|x t]; [by rewrite app_nil_r|].
    intros Hx. by apply Ht, (ends_with_space_app (c :: k')).
Qed.

Lemma keyword_not_header k t : keyword k -> is_header (k ++ t) = false.
Proof using Type.
  intros (_ & _ & _ & _ & c & k' & -> & Hc & _). unfold is_header. cbn [app nth].
  by replace (c =? 91) with false by lia.
Qed.

Lemma keyword_plain k t : keyword k -> 10 ∉ t -> plain_line (k ++ t).
Proof using Type.
  intros (_ & _ & Hk & _ & c & k' & -> & _ & Hc) Ht. split; [set_solver|].
  cbn. by replace (c =? 35) with false by lia.
Qed.

(** ** What each line does *)

Definition with_peer (s : spec_state) (p : peer_config) : spec_state :=
  match sp_peers s with
  | [] => s
  | _ :: ps => mkspec (p :: ps) (sp_key s) (sp_warned s) (sp_log s)
  end.

(** An item line applies the item's function to the current peer. *)
Lemma spec_item k f t p ps key w l :
  keyword k -> ~ ends_with_space t -> find_item items (k ++ t) = Some (f t) ->
  spec_line (k ++ t) (mkspec (p :: ps) key w l) = mkspec (f t p :: ps) key w l.
Proof using Type.
  intros Hk Ht Hf. unfold spec_line. rewrite trim_keyword by done.
  rewrite keyword_not_header by done. cbn [sp_peers]. by rewrite Hf.
Qed.

(** A run of lines of one subnet item. *)
Lemma spec_subnets k fam get set ls p ps key w l :
  keyword k ->
  (forall t, find_item items (k ++ t) =
     Some (fun p => if is_subnet fam t then set p (get p ++ [Some t]) else p)) ->
  (forall p v, get (set p v) = v) -> (forall p v u, set (set p v) u = set p u) ->
  (set p (get p) = p) ->
  Forall (subnet_value fam) ls ->
  spec_run (map (fun o => k ++ txt o) ls) (mkspec (p :: ps) key w l) =
    mkspec (set p (get p ++ ls) :: ps) key w l.
Proof using Type.
  intros Hk Hf Hgs Hss Hid HF. revert p Hid.
  induction HF as [|o ls [(t & -> & Hn & H10 & Hend) Hsub] _ IH]; intros p Hid.
  - cbn. by rewrite app_nil_r, Hid.
  - cbn [map]. unfold spec_run in *. cbn [foldl]. change (txt (Some t)) with t in *.
    rewrite (spec_item k (fun t p => if is_subnet fam t then set p (get p ++ [Some t]) else p) t)
      by (done || apply Hf).
    rewrite Hsub, IH by (by rewrite Hgs, Hss). by rewrite Hgs, Hss, <- app_assoc.
Qed.

Lemma spec_header name s :
  spec_line (91 :: name ++ [93]) s =
    mkspec (new_peer name :: sp_peers s) false (sp_warned s) (sp_log s).
Proof using Type.
  unfold spec_line. rewrite str_trim_id.
  - assert (is_header (91 :: name ++ [93]) = true) as ->.
    { unfold is_header, strlen. rewrite zlen_cons, zlen_app. change (zlen [93]) with 1.
      cbn [nth]. replace (Z.to_nat _) with (S (length name)) by zlia. cbn [nth].
      by rewrite app_nth2, Nat.sub_diag by lia. }
    unfold strlen. rewrite zlen_cons, zlen_app. change (zlen [93]) with 1.
    replace (1 + (zlen name + 1) - 2) with (zlen name) by lia.
    change (zdrop 1 (91 :: name ++ [93])) with (name ++ [93]). by rewrite ztake_app_eq.
  - by apply not_starts_with_space.
  - intros (k & c & E & Hc). rewrite app_comm_cons in E. apply app_inj_tail in E as [_ <-]. done.
Qed.

(** Nothing happens in front of the first header. *)
Lemma spec_line_start l : is_header (str_trim l) = false -> spec_line l spec_start = spec_start.
Proof using Type. intros Hh. unfold spec_line. by rewrite Hh. Qed.

Lemma spec_parse_preamble pre rest :
  Forall (fun l => 10 ∉ l /\ is_header (str_trim l) = false) pre ->
  spec_parse (unlines pre ++ rest) = spec_parse rest.
Proof using Type.
  intros HF. unfold spec_parse.
  assert (spec_run (config_lines (unlines pre ++ rest)) spec_start =
          spec_run (config_lines rest) spec_start) as ->; [|done].
  induction HF as [|l pre [Hn Hh] _ IH]; [done|]. unfold unlines in *. cbn [map concat].
  rewrite <- !app_assoc. cbn [app]. rewrite config_lines_cons by done.
  destruct (is_config_line l); cbn [app]; [|done].
  unfold spec_run in *. cbn [foldl]. by rewrite spec_line_start.
Qed.

(** Keywords, by evaluation. *)
Definition is_keyword (k : text) : bool :=
  forallb (fun x => negb (isspace x) && negb (x =? 0)) k &&
  match k with c :: _ => negb (c =? 91) && negb (c =? 35) | [] => false end.

Lemma keyword_intro k : is_keyword k = true -> keyword k.
Proof using Type.
  unfold is_keyword. intros [Hf Hc]%andb_true_iff. rewrite forallb_forall in Hf.
  assert (forall x, x ∈ k -> isspace x = false /\ x <> 0) as Hx.
  { intros x Hin. apply list_elem_of_In in Hin. specialize (Hf x Hin). split; [|lia].
    by destruct (isspace x). }
  split_and!.
  - intros (c & r & -> & Hs). destruct (Hx c); [set_solver | congruence].
  - intros (r & c & -> & Hs). destruct (Hx c); [set_solver | congruence].
  - intros Hin. by destruct (Hx _ Hin).
  - apply list.Forall_forall. intros x Hin. by apply Hx.
  - destruct k as [|c k]; [done|]. exists c, k. split_and!; [done | lia..].
Qed.

Lemma value_bool b : str_is_true (Some (bool_text b)) false = b /\ ~ ends_with_space (bool_text b).
Proof using Type.
  destruct b; (split; [reflexivity|]).
  - intros ([|? []] & c & E & Hc); [by injection E as <- | done | done].
  - intros ([|? []] & c & E & Hc); [by injection E as <- | done | done].
Qed.

Lemma dec_no_trailing_space n : 0 <= n -> ~ ends_with_space (dec n) /\ 10 ∉ dec n.
Proof using Type.
  intros Hn. unfold dec. replace (n <? 0) with false by lia.
  pose proof (dec_nat_isdigit n Hn) as Hd. rewrite list.Forall_forall in Hd. split.
  - intros (k & c & E & Hc). specialize (Hd c). rewrite E in Hd.
    assert (isdigit c = true) as Hd' by (apply Hd; set_solver).
    unfold isspace, isdigit in *. lia.
  - intros Hin. by specialize (Hd _ Hin).
Qed.

(** [strtoul] with base 0 on a decimal without leading zero. *)
Lemma strtoul_dec n : 0 <= n -> n < ulong_max -> strtoul (dec n) 0 = n.
Proof using Type.
  intros Hn Hmax. unfold dec. replace (n <? 0) with false by lia. unfold strtoul.
  assert (scan_int 0 (dec_nat n) = scan_int 10 (dec_nat n)) as ->.
  { destruct (decide (n = 0)) as [->|Hnz]; [reflexivity|].
    assert (Hcur : forall c ds, dec_nat n = c :: ds -> c <> 48 /\ isdigit c = true).
    { intros c ds E. split.
      - pose proof (StrNatCmp.dec_nat_cur n ltac:(lia)) as Hc. by rewrite E in Hc.
      - pose proof (dec_nat_isdigit n Hn) as Hd. rewrite E in Hd. by apply list.Forall_cons in Hd as [? _]. }
    destruct (dec_nat n) as [|c ds] eqn:E; [done|]. destruct (Hcur c ds eq_refl) as [Hc Hdig].
    unfold scan_int. cbn [skip_while]. unfold isdigit in Hdig.
    replace (isspace c) with false by (unfold isspace; lia).
    cbn [scan_sign]. replace (c =? 45) with false by lia. replace (c =? 43) with false by lia.
    unfold scan_base. cbn [Z.eqb]. replace (c =? 48) with false by lia. cbn [andb].
    destruct ds as [|x [|h ds]]; done. }
  rewrite <- (app_nil_r (dec_nat n)), scan_int_dec by done.
  replace (ulong_max <? n) with false by lia. done.
Qed.

(** The key's own lines are nothing else. *)
Lemma key_begin_line :
  str_trim key_begin = key_begin /\ is_header key_begin = false /\ find_item items key_begin = None /\
  parser_check_configitem key_begin key_begin = Some [].
Proof using Type. split_and!; vm_compute; reflexivity. Qed.

Lemma key_end_line :
  str_trim key_end = key_end /\ is_header key_end = false /\ find_item items key_end = None /\
  parser_check_configitem key_end key_begin = None /\ parser_check_configitem key_end key_end = Some [].
Proof using Type. split_and!; vm_compute; reflexivity. Qed.

Lemma set_key_key q k k' : set_key (set_key q k) k' = set_key q k'.
Proof using Type. by destruct q. Qed.

Lemma pc_key_set q k : pc_key (set_key q k) = k.
Proof using Type. by destruct q. Qed.

Lemma spec_key_begin q ps w l :
  spec_line key_begin (mkspec (q :: ps) false w l) =
    mkspec (set_key q (Some (key_begin ++ [10])) :: ps) true w l.
Proof using Type.
  destruct key_begin_line as (E1 & E2 & E3 & E4). unfold spec_line. rewrite E1, E2.
  cbn [sp_peers]. by rewrite E3, E4.
Qed.

Lemma spec_key_body x q k ps w l :
  key_line x ->
  spec_line x (mkspec (set_key q (Some k) :: ps) true w l) =
    mkspec (set_key q (Some (k ++ x ++ [10])) :: ps) true w l.
Proof using Type.
  intros [_ [Ht1 Ht2] [_ Hh] [Hi [Hb He]]]. unfold spec_line.
  rewrite (str_trim_id x) by done. rewrite Hh. cbn [sp_peers]. rewrite Hi, Hb, He. cbn [sp_key].
  unfold extend_key. by rewrite set_key_key, pc_key_set.
Qed.

Lemma spec_key_end q k ps w l :
  spec_line key_end (mkspec (set_key q (Some k) :: ps) true w l) =
    mkspec (set_key q (Some (k ++ key_end ++ [10])) :: ps) false w l.
Proof using Type.
  destruct key_end_line as (E1 & E2 & E3 & E4 & E5). unfold spec_line. rewrite E1, E2.
  cbn [sp_peers]. rewrite E3, E4, E5. unfold extend_key. by rewrite set_key_key, pc_key_set.
Qed.

#[local] Opaque spec_line.

Lemma spec_key_bodies b k q ps w l :
  Forall key_line b ->
  spec_run b (mkspec (set_key q (Some k) :: ps) true w l) =
    mkspec (set_key q (Some (k ++ unlines b)) :: ps) true w l.
Proof using Type.
  intros HF. revert k. induction HF as [|x b Hx _ IH]; intros k; unfold spec_run in *; cbn [foldl].
  - by rewrite app_nil_r.
  - rewrite spec_key_body, IH by done. unfold unlines. cbn [map concat]. by rewrite <- !app_assoc.
Qed.

Lemma spec_run_app a b s : spec_run (a ++ b) s = spec_run b (spec_run a s).
Proof using Type. apply foldl_app. Qed.

(** The key of a peer. *)
Lemma spec_key_lines b p ps w l :
  Forall key_line b ->
  spec_run (key_lines b) (mkspec (p :: ps) false w l) =
    mkspec (set_key p (Some (unlines (key_lines b))) :: ps) false w l.
Proof using Type.
  intros HF. unfold key_lines.
  change (key_begin :: b ++ [key_end]) with ([key_begin] ++ b ++ [key_end]). rewrite !spec_run_app.
  change (spec_run [key_begin] ?s) with (spec_line key_begin s).
  rewrite spec_key_begin, spec_key_bodies by done.
  change (spec_run [key_end] ?s) with (spec_line key_end s). rewrite spec_key_end.
  unfold unlines. cbn [map concat app]. rewrite map_app, concat_app. cbn [map concat].
  by rewrite app_nil_r, <- !app_assoc.
Qed.

Lemma spec_step k f t rest p ps key w l :
  keyword k -> ~ ends_with_space t -> find_item items (k ++ t) = Some (f t) ->
  spec_run ((k ++ t) :: rest) (mkspec (p :: ps) key w l) =
    spec_run rest (mkspec (f t p :: ps) key w l).
Proof using Type. intros. unfold spec_run. cbn [foldl]. by rewrite (spec_item k f). Qed.

Lemma spec_bool_step k (f : text -> peer_config -> peer_config)
    (set : peer_config -> bool -> peer_config) b rest p ps key w l :
  keyword k -> (forall t, find_item items (k ++ t) = Some (fun p => set p (str_is_true (Some t) false))) ->
  spec_run ((k ++ bool_text b) :: rest) (mkspec (p :: ps) key w l) =
    spec_run rest (mkspec (set p b :: ps) key w l).
Proof using Type.
  intros Hk Hf. destruct (value_bool b) as [Hv He].
  rewrite (spec_step k (fun t p => set p (str_is_true (Some t) false))) by (done || apply Hf).
  by rewrite Hv.
Qed.

Ltac keyword_tac := apply keyword_intro; reflexivity.
Ltac peer_cbn := cbn [set_gatewayhost set_owner set_network set_network6 set_route_network
  set_route_network6 set_hidden set_silent set_port set_key set_ed25519publickey set_cipher
  set_compression set_digest set_primary set_use_tcp_only set_indirectdata
  pc_network pc_network6 pc_route_network pc_route_network6].
Ltac text_step k set :=
  rewrite (spec_step k (fun t p => set p (Some t))); [peer_cbn | keyword_tac | done | reflexivity].
Ltac bool_step k set :=
  rewrite (spec_bool_step k (fun _ p => p) set); [peer_cbn | keyword_tac | intros; reflexivity].
Ltac subnet_step k f get set :=
  rewrite (spec_subnets k f get set);
  [peer_cbn; rewrite app_nil_l | keyword_tac | intros; reflexivity | by intros [] | by intros [] | done | done].

(** Reading the lines of a printable peer adds that peer. *)
Lemma spec_print_peer p body s :
  printable p body ->
  spec_run (print_peer p body) s =
    mkspec (p :: sp_peers s) false (sp_warned s) (sp_log s).
Proof using Type.
  intros Hp. unfold print_peer.
  destruct (pr_name p body Hp) as (name & En & _). rewrite En. change (txt (Some name)) with name.
  change (spec_run ((91 :: name ++ [93]) :: ?x) s) with (spec_run x (spec_line (91 :: name ++ [93]) s)).
  rewrite spec_header. generalize (sp_peers s) (sp_warned s) (sp_log s). clear s. intros ps w l.
  pose proof (pr_texts p body Hp) as Ht. pose proof (pr_port p body Hp) as Hport.
  pose proof (pr_network p body Hp) as N1. pose proof (pr_network6 p body Hp) as N2.
  pose proof (pr_route_network p body Hp) as N3. pose proof (pr_route_network6 p body Hp) as N4.
  pose proof (pr_body p body Hp) as Hb. pose proof (pr_key p body Hp) as Hk. clear Hp.
  destruct p as [pname gw ow n1 n2 n3 n4 hid sil port key ed ci co di pri tcp ind]. cbn [pc_name pc_gatewayhost pc_owner pc_network pc_network6 pc_route_network pc_route_network6 pc_hidden pc_silent pc_port pc_key pc_ed25519publickey pc_cipher pc_compression pc_digest pc_primary pc_use_tcp_only pc_indirectdata] in *.
  subst pname key.
  repeat (apply list.Forall_cons in Ht as [(? & -> & _ & _ & ?) Ht]).
  unfold print_items. cbn [pc_name pc_gatewayhost pc_owner pc_network pc_network6 pc_route_network pc_route_network6 pc_hidden pc_silent pc_port pc_key pc_ed25519publickey pc_cipher pc_compression pc_digest pc_primary pc_use_tcp_only pc_indirectdata].
  rewrite !spec_run_app. unfold new_peer.
  text_step (c_lit "gatewayhost=") set_gatewayhost.
  text_step (c_lit "owner=") set_owner.
  bool_step (c_lit "use-tcp-only=") set_use_tcp_only.
  change (spec_run [] ?s) with s.
  subnet_step (c_lit "network=") AF_INET pc_network set_network.
  subnet_step (c_lit "network6=") AF_INET6 pc_network6 set_network6.
  subnet_step (c_lit "route_network=") AF_INET pc_route_network set_route_network.
  subnet_step (c_lit "route_network6=") AF_INET6 pc_route_network6 set_route_network6.
  bool_step (c_lit "hidden=") set_hidden.
  bool_step (c_lit "silent=") set_silent.
  destruct (dec_no_trailing_space port) as [? _]; [lia|].
  rewrite (spec_step (c_lit "port=") parse_port); [|keyword_tac | done | reflexivity].
  unfold parse_port at 1. rewrite strtoul_dec by (unfold ulong_max; lia).
  replace (port =? ulong_max) with false by (unfold ulong_max; lia). cbn [negb].
  replace (u16 port) with port by (symmetry; apply Z.mod_small; lia). peer_cbn.
  bool_step (c_lit "indirectdata=") set_indirectdata.
  text_step (c_lit "cipher=") set_cipher.
  text_step (c_lit "compression=") set_compression.
  text_step (c_lit "digest=") set_digest.
  bool_step (c_lit "primary=") set_primary.
  text_step (c_lit "ed25519publickey=") set_ed25519publickey.
  change (spec_run [] ?s) with s.
  destruct body as [b|]; [by rewrite spec_key_lines | done].
Qed.

Lemma bool_text_plain b : 10 ∉ bool_text b.
Proof using Type. by destruct b; apply (bool_decide_eq_false_1 _); vm_compute. Qed.

Lemma subnets_plain k f l :
  keyword k -> Forall (subnet_value f) l -> Forall plain_line (map (fun o => k ++ txt o) l).
Proof using Type.
  intros Hk HF. apply Forall_map. eapply list.Forall_impl; [exact HF|].
  intros o [(t & -> & _ & H10 & _) _]. by apply keyword_plain.
Qed.

Lemma print_peer_plain p body : printable p body -> Forall plain_line (print_peer p body).
Proof using Type.
  intros Hp. unfold print_peer. destruct (pr_name p body Hp) as (name & -> & _ & Hn).
  destruct (dec_no_trailing_space (pc_port p)) as [_ Hport]; [destruct (pr_port p body Hp); lia|].
  assert (forall o, o ∈ [pc_gatewayhost p; pc_owner p; pc_cipher p; pc_compression p;
                         pc_digest p; pc_ed25519publickey p] -> 10 ∉ txt o) as Ht.
  { intros o Ho. pose proof (pr_texts p body Hp) as HF. rewrite list.Forall_forall in HF.
    by destruct (HF o Ho) as (t & -> & _ & ? & _). }
  apply list.Forall_cons. split.
  { split; [|done]. change (txt (Some name)) with name. rewrite elem_of_cons, elem_of_app, list_elem_of_singleton.
    by intros [?|[?|?]]. }
  apply Forall_app. split.
  - unfold print_items. repeat (apply Forall_app; split);
      try (eapply subnets_plain; [keyword_tac | first [apply (pr_network _ _ Hp) | apply (pr_network6 _ _ Hp)
             | apply (pr_route_network _ _ Hp) | apply (pr_route_network6 _ _ Hp)]]);
      repeat (apply list.Forall_cons; split); try (by apply list.Forall_nil);
      (apply keyword_plain; [keyword_tac | first [apply bool_text_plain | exact Hport | apply Ht; set_solver]]).
  - destruct body as [b|]; [|constructor]. unfold key_lines. apply list.Forall_cons. split.
    { by split; [apply (bool_decide_eq_false_1 _); vm_compute|]. }
    apply Forall_app. split.
    + eapply list.Forall_impl; [exact (pr_body p (Some b) Hp)|]. intros l [[_ H10] _ [Hc _] _]. by split.
    + apply list.Forall_cons. split; [|constructor].
      by split; [apply (bool_decide_eq_false_1 _); vm_compute|].
Qed.

(** Reading what was printed gives the peers back, and reports nothing. *)
Lemma spec_print_config ps :
  Forall (fun pb => printable (fst pb) (snd pb)) ps ->
  spec_parse (print_config ps) = (map fst ps, []).
Proof using Type.
  intros HF. unfold spec_parse, print_config. rewrite config_lines_unlines.
  - assert (forall s, spec_run (concat (map (fun '(p, b) => print_peer p b) ps)) s =
      match ps with [] => s | _ => mkspec (rev (map fst ps) ++ sp_peers s) false (sp_warned s) (sp_log s) end) as ->.
    { induction HF as [|[p b] ps Hp HF IH]; intros s; [done|]. cbn [map concat].
      rewrite spec_run_app, spec_print_peer, IH by done.
      destruct ps as [|q ps]; [done|]. cbn [sp_peers sp_warned sp_log fst map rev].
      by rewrite <- !app_assoc. }
    destruct ps as [|q ps]; [done|]. cbn [sp_peers sp_log spec_start].
    by rewrite app_nil_r, rev_involutive.
  - apply Forall_concat, Forall_map. eapply list.Forall_impl; [exact HF|].
    intros [p b] Hp. by apply print_peer_plain.
Qed.

End Print.
