(* ===== verification/PeerProps.v ===== *)
(** * Theorems about parser.c

    The refinement of the specification, the invariant of the peers, the round
    trip with a printer of peer configurations, the messages, and what the
    parser does with a port that does not fit and when memory runs out. *)

From S2P Require Import Prelude CLib CString StrBuf StrNatCmp AddrMask NumericHost PeerParser PeerSpec PeerInv PeerPrint.

Section Theorems.
Context `{Allocator} `{ResolverOk}.

(** C4. [parser_parse_config] implements its specification: on any text without
    NUL it ends, returns true, leaves a list of distinct live records that are
    exactly the peers [spec_parse] computes, and reports exactly the lines it
    reports. *)
Theorem parser_parse_config_refines data heap :
  alloc_enough -> nonul data -> 2 * zlen data < str_limit ->
  exists st, parser_parse_config data [] heap = Ret (true, st) /\
    peers_of (p_heap st) (p_list st) = Some (fst (spec_parse data)) /\
    p_log st = snd (spec_parse data) /\
    exists locs, p_list st = map Some locs /\ NoDup locs.
Proof. intros. by apply parse_config_spec. Qed.

(** C7. Reading back a printed configuration: the peers that come out are the
    peers that were printed, in order, and nothing is reported. *)
Theorem parser_print_parse ps heap :
  alloc_enough -> Forall (fun pb => printable (fst pb) (snd pb)) ps ->
  nonul (print_config ps) -> 2 * zlen (print_config ps) < str_limit ->
  exists st, parser_parse_config (print_config ps) [] heap = Ret (true, st) /\
    peers_of (p_heap st) (p_list st) = Some (map fst ps) /\ p_log st = [].
Proof.
  intros Ha HF Hn Hl. destruct (parse_config_spec Ha _ heap Hn Hl) as (st & E & Hp & Hlog & _).
  exists st. by rewrite spec_print_config in Hp, Hlog.
Qed.

(** C11. Whatever text is parsed, every peer is well formed: its texts are set,
    its port is a 16-bit number and each of its networks is a subnet of the
    right family that [addrmask_verify_subnet] accepted. *)
Theorem parser_peers_wf data heap :
  alloc_enough -> nonul data -> 2 * zlen data < str_limit ->
  exists st ps, parser_parse_config data [] heap = Ret (true, st) /\
    peers_of (p_heap st) (p_list st) = Some ps /\ Forall wf_peer ps.
Proof.
  intros Ha Hn Hl. destruct (parse_config_spec Ha data heap Hn Hl) as (st & E & Hp & _).
  exists st, (fst (spec_parse data)). split_and!; try done.
  apply Forall_rev. apply spec_run_wf. constructor.
Qed.

(** C36. No label is reported twice in one run, in whatever case it is written. *)
Theorem parser_warns_once data heap :
  alloc_enough -> nonul data -> 2 * zlen data < str_limit ->
  exists st, parser_parse_config data [] heap = Ret (true, st) /\
    NoDup (omap label_of (p_log st)).
Proof.
  intros Ha Hn Hl. destruct (parse_config_spec Ha data heap Hn Hl) as (st & E & _ & Hlog & _).
  exists st. split; [done|]. rewrite Hlog.
  apply (spec_run_labels (config_lines data) spec_start). split; [constructor | done].
Qed.

(** Lines in front of the first header do not count, whatever they are:
    a run on the whole text and a run on the rest leave the same peers and
    report the same lines. *)
Lemma parser_ignores_preamble pre rest heap :
  alloc_enough -> Forall (fun l => 10 ∉ l /\ is_header (str_trim l) = false) pre ->
  nonul (unlines pre ++ rest) -> 2 * zlen (unlines pre ++ rest) < str_limit ->
  exists st st', parser_parse_config (unlines pre ++ rest) [] heap = Ret (true, st) /\
    parser_parse_config rest [] heap = Ret (true, st') /\
    peers_of (p_heap st) (p_list st) = peers_of (p_heap st') (p_list st') /\ p_log st = p_log st'.
Proof.
  intros Ha HF Hn Hl. destruct (parse_config_spec Ha _ heap Hn Hl) as (st & E & Hp & Hlog & _).
  apply nonul_app in Hn as [_ Hn]. rewrite zlen_app in Hl. pose proof (zlen_nonneg (unlines pre)).
  destruct (parse_config_spec Ha rest heap Hn ltac:(lia)) as (st' & E' & Hp' & Hlog' & _).
  exists st, st'. split_and!; try done; rewrite ?Hp, ?Hp', ?Hlog, ?Hlog';
    by rewrite spec_parse_preamble.
Qed.

(** The port of a port line is reduced modulo 65536: every number from 0 to
    2^64 - 2 is accepted, where only the lowest 65536 are ports. *)
Lemma parser_port_wraps name n heap :
  alloc_enough -> nonul name -> 10 ∉ name -> 2 * zlen name + 100 < str_limit -> 0 <= n < 2 ^ 64 - 1 ->
  exists st, parser_parse_config (unlines [91 :: name ++ [93]; c_lit "port=" ++ dec n]) [] heap = Ret (true, st) /\
    peers_of (p_heap st) (p_list st) = Some [set_port (new_peer name) (n mod 2 ^ 16)].
Proof.
  intros Ha Hn H10 Hl Hr. set (data := unlines _).
  destruct (dec_no_trailing_space n) as [Hd1 Hd2]; [lia|].
  assert (nonul data /\ 2 * zlen data < str_limit) as [Hnul Hlen].
  { pose proof (dec_nat_length 19 n ltac:(lia)).
    unfold data, unlines. rewrite dec_eq by lia. cbn [map concat]. rewrite app_nil_r. split.
    - apply nonul_app; split.
      + apply (nonul_app (91 :: _)). split; [|by repeat constructor].
        constructor; [done|]. apply nonul_app. split; [done | by repeat constructor].
      + repeat (apply nonul_app; split); try by repeat constructor.
        eapply list.Forall_impl; [apply dec_nat_isdigit; lia|]. unfold isdigit. cbn. intros; lia.
    - rewrite !zlen_app, zlen_cons, zlen_app. change (zlen [93]) with 1. change (zlen [10]) with 1.
      change (zlen (c_lit "port=")) with 5. lia. }
  destruct (parse_config_spec Ha data heap Hnul Hlen) as (st & E & Hp & _).
  exists st. split; [done|]. rewrite Hp. f_equal. unfold spec_parse, data. rewrite config_lines_unlines.
  - change (spec_run [?a; ?b] spec_start) with (spec_run [b] (spec_line a spec_start)).
    rewrite spec_header.
    rewrite <- (app_nil_r [c_lit "port=" ++ dec n]). cbn [app].
    rewrite (spec_step (c_lit "port=") parse_port); [|apply keyword_intro; reflexivity | done | reflexivity].
    unfold parse_port. rewrite strtoul_dec by (unfold ulong_max; lia).
    replace (n =? ulong_max) with false by (unfold ulong_max; lia). done.
  - repeat constructor.
    + rewrite elem_of_cons, elem_of_app, list_elem_of_singleton. by intros [?|[?|?]].
    + by apply (keyword_plain (c_lit "port=")); [apply keyword_intro|].
Qed.

End Theorems.

(** ** Witnesses *)

Definition sample_peer : peer_config :=
  mkpeer (Some (c_lit "kiste")) (Some (c_lit "vpn.example.org")) (Some (c_lit "Jane D."))
    [Some (c_lit "10.100.1.0/24")] [] [] [] false true 4711 (Some (unlines (key_lines [c_lit "MIIBCgKCAQEA1"])))
    (Some []) (Some (c_lit "blowfish")) (Some []) (Some (c_lit "sha1")) false false true.

Lemma no_spaces (t : text) : forallb (fun c => negb (isspace c)) t = true ->
  ~ starts_with_space t /\ ~ ends_with_space t.
Proof.
  rewrite forallb_forall. intros H. split.
  - intros (c & r & -> & Hc). specialize (H c ltac:(by left)). by rewrite Hc in H.
  - intros (k & c & -> & Hc). specialize (H c). rewrite Hc in H. discriminate H. apply in_app_iff. right. by left.
Qed.

Lemma sample_peer_printable :
  @printable roomy numeric_host sample_peer (Some [c_lit "MIIBCgKCAQEA1"]).
Proof.
  assert (forall t, forallb (fun c => negb (c =? 10) && negb (c =? 0)) t = true -> nonul t /\ 10 ∉ t) as Hch.
  { intros t H. rewrite forallb_forall in H. split.
    - apply List.Forall_forall. intros c Hc. specialize (H c Hc). lia.
    - intros Hin. apply list_elem_of_In in Hin. by specialize (H _ Hin). }
  assert (forall t, forallb (fun c => negb (c =? 10) && negb (c =? 0)) t = true ->
            isspace (List.last t 0) = false -> value_ok (Some t)) as Hv.
  { intros t Ht Hlast. exists t. destruct (Hch t Ht). split_and!; try done.
    intros (k & c & -> & Hc). rewrite List.last_last in Hlast. congruence. }
  split.
  - eexists. split; [reflexivity|]. by apply Hch.
  - repeat (apply list.Forall_cons; split; [by apply Hv|]). by apply list.Forall_nil.
  - done.
  - apply list.Forall_cons; split; [split; [by apply Hv | by vm_compute]|]. by apply list.Forall_nil.
  - by apply list.Forall_nil.
  - by apply list.Forall_nil.
  - by apply list.Forall_nil.
  - apply list.Forall_cons; split; [|by apply list.Forall_nil].
    split; [by apply Hch | by apply no_spaces | done | by vm_compute].
  - reflexivity.
Qed.

Definition sample_text : text :=
  c_lit "# comment\nstray=1\n[kiste]\nport=4711\nnetwork=10.100.1.0/24\nnetwork=nonsense\ncolour=blue\nColour=red\n".

Lemma sample_text_ok : nonul sample_text /\ 2 * zlen sample_text < str_limit.
Proof. split; [apply (bool_decide_eq_true_1 _); vm_compute; reflexivity | done]. Qed.

Lemma parser_parse_config_refines_witness :
  exists st, @parser_parse_config roomy numeric_host sample_text [] ∅ = Ret (true, st) /\
    peers_of (p_heap st) (p_list st) =
      Some [set_network (set_port (new_peer (c_lit "kiste")) 4711) [Some (c_lit "10.100.1.0/24")]] /\
    p_log st = [c_lit "colour"].
Proof.
  destruct (@parser_parse_config_refines roomy numeric_host sample_text ∅) as (st & E & Hp & Hl & _).
  - apply roomy_enough.
  - apply sample_text_ok.
  - apply sample_text_ok.
  - exists st. split; [exact E|]. split; [rewrite Hp | rewrite Hl]; vm_compute; reflexivity.
Defined.

Lemma parser_print_parse_witness :
  exists st, @parser_parse_config roomy numeric_host
      (print_config [(sample_peer, Some [c_lit "MIIBCgKCAQEA1"])]) [] ∅ = Ret (true, st) /\
    peers_of (p_heap st) (p_list st) = Some [sample_peer] /\ p_log st = [].
Proof.
  apply (@parser_print_parse roomy numeric_host [(sample_peer, Some [c_lit "MIIBCgKCAQEA1"])]).
  - apply roomy_enough.
  - apply list.Forall_cons. split; [apply sample_peer_printable | by apply list.Forall_nil].
  - apply (bool_decide_eq_true_1 _). vm_compute. reflexivity.
  - reflexivity.
Defined.

Lemma parser_peers_wf_witness :
  exists st ps, @parser_parse_config roomy numeric_host sample_text [] ∅ = Ret (true, st) /\
    peers_of (p_heap st) (p_list st) = Some ps /\ Forall (@wf_peer roomy numeric_host) ps.
Proof.
  apply (@parser_peers_wf roomy numeric_host sample_text ∅);
    [apply roomy_enough | apply sample_text_ok | apply sample_text_ok].
Defined.

Lemma parser_warns_once_witness :
  exists st, @parser_parse_config roomy numeric_host sample_text [] ∅ = Ret (true, st) /\
    NoDup (omap label_of (p_log st)).
Proof.
  apply (@parser_warns_once roomy numeric_host sample_text ∅);
    [apply roomy_enough | apply sample_text_ok | apply sample_text_ok].
Defined.

Lemma parser_ignores_preamble_witness :
  exists st st', @parser_parse_config roomy numeric_host (unlines [c_lit "stray=1"] ++ c_lit "[a]\n") [] ∅ = Ret (true, st) /\
    @parser_parse_config roomy numeric_host (c_lit "[a]\n") [] ∅ = Ret (true, st') /\
    peers_of (p_heap st) (p_list st) = peers_of (p_heap st') (p_list st') /\ p_log st = p_log st'.
Proof.
  apply (@parser_ignores_preamble roomy numeric_host [c_lit "stray=1"] (c_lit "[a]\n") ∅).
  - apply roomy_enough.
  - apply list.Forall_cons. split; [|by apply list.Forall_nil].
    split; [apply (bool_decide_eq_true_1 _); vm_compute; reflexivity | reflexivity].
  - apply (bool_decide_eq_true_1 _). vm_compute. reflexivity.
  - reflexivity.
Defined.

Lemma parser_port_wraps_witness :
  exists st, @parser_parse_config roomy numeric_host (c_lit "[a]\nport=65537\n") [] ∅ = Ret (true, st) /\
    peers_of (p_heap st) (p_list st) = Some [set_port (new_peer (c_lit "a")) 1].
Proof.
  apply (@parser_port_wraps roomy numeric_host (c_lit "a") 65537 ∅).
  - apply roomy_enough.
  - by repeat constructor.
  - apply (bool_decide_eq_true_1 _). vm_compute. reflexivity.
  - reflexivity.
  - lia.
Defined.

(** When the name of a node cannot be stored, the record of the node before
    it is freed but stays in the list: the call returns false and leaves a
    dangling pointer, and freeing the list, as a caller does that gives up, is
    undefined behaviour. *)
Lemma parser_oom_dangling :
  let no_long_names : Allocator := {| alloc_ok := fun n => negb (n =? 19); byte_before := None |} in
  exists st, @parser_parse_config no_long_names numeric_host (c_lit "[a]\n[a-much-longer-name]\n") [] ∅
      = Ret (false, st) /\
    peers_of (p_heap st) (p_list st) = None /\ parser_free_config (p_list st) (p_heap st) = Undef.
Proof. eexists. split; [vm_compute; reflexivity|]. split; vm_compute; reflexivity. Qed.
