(* ===== verification/Config.v ===== *)
(** * The configuration: struct config and config_alloc

    The record every other component reads.  [cf_peer_config] is the list of the
    [peer_config] pointers and [cf_my_peer] one such pointer: both are locations
    of the peer heap of [PeerParser].  A settings list that was never set is
    [None], the NULL pointer. *)

From S2P Require Import Prelude CLib CString StrBuf AddrMask PeerParser.

Inductive settings_entry :=
| LIST_STRING (s : cptr)
| LIST_INTEGER (i : Z).

Record config := mkconfig {
  cf_pidfile : cptr;
  cf_peerid : cptr;
  cf_vpn_ip : cptr;
  cf_vpn_ip6 : cptr;
  cf_networkname : cptr;
  cf_my_ip : cptr;
  cf_my_addressfamily : cptr;
  cf_tincd_bin : cptr;
  cf_tincd_version : cptr;
  cf_tincctl_bin : cptr;
  cf_tincd_debuglevel : Z;
  cf_tincd_restart_delay : Z;
  cf_routemetric : cptr;
  cf_routeadd : cptr;
  cf_routeadd6 : cptr;
  cf_routedel : cptr;
  cf_routedel6 : cptr;
  cf_postup : cptr;
  cf_ifconfig : cptr;
  cf_ifconfig6 : cptr;
  cf_master_url : cptr;
  cf_base_path : cptr;
  cf_tincd_pidfile : cptr;
  cf_masterdata_signkey : cptr;
  cf_tincd_graphdumpfile : cptr;
  cf_tmpconffile : cptr;
  cf_tincd_device : cptr;
  cf_tincd_interface : cptr;
  cf_tincd_user : cptr;
  cf_tincd_raw_config : cptr;
  cf_privkey : strbuf;
  cf_ed25519publickey : strbuf;
  cf_exclude : option (list settings_entry);
  cf_my_peer : option nat;
  cf_peer_config : list (option nat);
  cf_ifmodifiedsince : Z;
  cf_update_interval : Z;
  cf_use_dynamic_routes : bool;
  cf_connect_only_to_primary_nodes : bool;
  cf_run_ifdown : bool;
  cf_localdiscovery : bool;
  cf_mergeroutes_supernet_raw : option (list settings_entry);
  cf_mergeroutes_supernet : list addr_info;
  cf_ignore_subnets_raw : option (list settings_entry);
  cf_ignore_subnets : list addr_info;
  cf_whitelist_subnets_raw : option (list settings_entry);
  cf_whitelist_subnets : list addr_info;
  cf_password : cptr;
  cf_vpn_netmask : cptr;
  cf_configfile : cptr;
  cf_daemonmode : bool;
  cf_oneshot : bool;
  cf_tincd_uid : Z;
  cf_tincd_gid : Z
}.

(** Assignments to the fields. *)
Section Setters.
Variable c : config.
Definition cset_pidfile v := let '(mkconfig a1 a2 a3 a4 a5 a6 a7 a8 b1 b2 b3 b4 b5 b6 b7 b8 c1 c2 c3 c4 c5 c6 c7 c8 d1 d2 d3 d4 d5 d6 d7 d8 e1 e2 e3 e4 e5 e6 e7 e8 f1 f2 f3 f4 f5 f6 f7 f8 g1 g2 g3 g4 g5 g6) := c in
  mkconfig v a2 a3 a4 a5 a6 a7 a8 b1 b2 b3 b4 b5 b6 b7 b8 c1 c2 c3 c4 c5 c6 c7 c8 d1 d2 d3 d4 d5 d6 d7 d8 e1 e2 e3 e4 e5 e6 e7 e8 f1 f2 f3 f4 f5 f6 f7 f8 g1 g2 g3 g4 g5 g6.
Definition cset_peerid v := let '(mkconfig a1 a2 a3 a4 a5 a6 a7 a8 b1 b2 b3 b4 b5 b6 b7 b8 c1 c2 c3 c4 c5 c6 c7 c8 d1 d2 d3 d4 d5 d6 d7 d8 e1 e2 e3 e4 e5 e6 e7 e8 f1 f2 f3 f4 f5 f6 f7 f8 g1 g2 g3 g4 g5 g6) := c in
  mkconfig a1 v a3 a4 a5 a6 a7 a8 b1 b2 b3 b4 b5 b6 b7 b8 c1 c2 c3 c4 c5 c6 c7 c8 d1 d2 d3 d4 d5 d6 d7 d8 e1 e2 e3 e4 e5 e6 e7 e8 f1 f2 f3 f4 f5 f6 f7 f8 g1 g2 g3 g4 g5 g6.
Definition cset_vpn_ip v := let '(mkconfig a1 a2 a3 a4 a5 a6 a7 a8 b1 b2 b3 b4 b5 b6 b7 b8 c1 c2 c3 c4 c5 c6 c7 c8 d1 d2 d3 d4 d5 d6 d7 d8 e1 e2 e3 e4 e5 e6 e7 e8 f1 f2 f3 f4 f5 f6 f7 f8 g1 g2 g3 g4 g5 g6) := c in
  mkconfig a1 a2 v a4 a5 a6 a7 a8 b1 b2 b3 b4 b5 b6 b7 b8 c1 c2 c3 c4 c5 c6 c7 c8 d1 d2 d3 d4 d5 d6 d7 d8 e1 e2 e3 e4 e5 e6 e7 e8 f1 f2 f3 f4 f5 f6 f7 f8 g1 g2 g3 g4 g5 g6.
Definition cset_vpn_ip6 v := let '(mkconfig a1 a2 a3 a4 a5 a6 a7 a8 b1 b2 b3 b4 b5 b6 b7 b8 c1 c2 c3 c4 c5 c6 c7 c8 d1 d2 d3 d4 d5 d6 d7 d8 e1 e2 e3 e4 e5 e6 e7 e8 f1 f2 f3 f4 f5 f6 f7 f8 g1 g2 g3 g4 g5 g6) := c in
  mkconfig a1 a2 a3 v a5 a6 a7 a8 b1 b2 b3 b4 b5 b6 b7 b8 c1 c2 c3 c4 c5 c6 c7 c8 d1 d2 d3 d4 d5 d6 d7 d8 e1 e2 e3 e4 e5 e6 e7 e8 f1 f2 f3 f4 f5 f6 f7 f8 g1 g2 g3 g4 g5 g6.
Definition cset_networkname v := let '(mkconfig a1 a2 a3 a4 a5 a6 a7 a8 b1 b2 b3 b4 b5 b6 b7 b8 c1 c2 c3 c4 c5 c6 c7 c8 d1 d2 d3 d4 d5 d6 d7 d8 e1 e2 e3 e4 e5 e6 e7 e8 f1 f2 f3 f4 f5 f6 f7 f8 g1 g2 g3 g4 g5 g6) := c in
  mkconfig a1 a2 a3 a4 v a6 a7 a8 b1 b2 b3 b4 b5 b6 b7 b8 c1 c2 c3 c4 c5 c6 c7 c8 d1 d2 d3 d4 d5 d6 d7 d8 e1 e2 e3 e4 e5 e6 e7 e8 f1 f2 f3 f4 f5 f6 f7 f8 g1 g2 g3 g4 g5 g6.
Definition cset_my_ip v := let '(mkconfig a1 a2 a3 a4 a5 a6 a7 a8 b1 b2 b3 b4 b5 b6 b7 b8 c1 c2 c3 c4 c5 c6 c7 c8 d1 d2 d3 d4 d5 d6 d7 d8 e1 e2 e3 e4 e5 e6 e7 e8 f1 f2 f3 f4 f5 f6 f7 f8 g1 g2 g3 g4 g5 g6) := c in
  mkconfig a1 a2 a3 a4 a5 v a7 a8 b1 b2 b3 b4 b5 b6 b7 b8 c1 c2 c3 c4 c5 c6 c7 c8 d1 d2 d3 d4 d5 d6 d7 d8 e1 e2 e3 e4 e5 e6 e7 e8 f1 f2 f3 f4 f5 f6 f7 f8 g1 g2 g3 g4 g5 g6.
Definition cset_my_addressfamily v := let '(mkconfig a1 a2 a3 a4 a5 a6 a7 a8 b1 b2 b3 b4 b5 b6 b7 b8 c1 c2 c3 c4 c5 c6 c7 c8 d1 d2 d3 d4 d5 d6 d7 d8 e1 e2 e3 e4 e5 e6 e7 e8 f1 f2 f3 f4 f5 f6 f7 f8 g1 g2 g3 g4 g5 g6) := c in
  mkconfig a1 a2 a3 a4 a5 a6 v a8 b1 b2 b3 b4 b5 b6 b7 b8 c1 c2 c3 c4 c5 c6 c7 c8 d1 d2 d3 d4 d5 d6 d7 d8 e1 e2 e3 e4 e5 e6 e7 e8 f1 f2 f3 f4 f5 f6 f7 f8 g1 g2 g3 g4 g5 g6.
Definition cset_tincd_bin v := let '(mkconfig a1 a2 a3 a4 a5 a6 a7 a8 b1 b2 b3 b4 b5 b6 b7 b8 c1 c2 c3 c4 c5 c6 c7 c8 d1 d2 d3 d4 d5 d6 d7 d8 e1 e2 e3 e4 e5 e6 e7 e8 f1 f2 f3 f4 f5 f6 f7 f8 g1 g2 g3 g4 g5 g6) := c in
  mkconfig a1 a2 a3 a4 a5 a6 a7 v b1 b2 b3 b4 b5 b6 b7 b8 c1 c2 c3 c4 c5 c6 c7 c8 d1 d2 d3 d4 d5 d6 d7 d8 e1 e2 e3 e4 e5 e6 e7 e8 f1 f2 f3 f4 f5 f6 f7 f8 g1 g2 g3 g4 g5 g6.
Definition cset_tincd_version v := let '(mkconfig a1 a2 a3 a4 a5 a6 a7 a8 b1 b2 b3 b4 b5 b6 b7 b8 c1 c2 c3 c4 c5 c6 c7 c8 d1 d2 d3 d4 d5 d6 d7 d8 e1 e2 e3 e4 e5 e6 e7 e8 f1 f2 f3 f4 f5 f6 f7 f8 g1 g2 g3 g4 g5 g6) := c in
  mkconfig a1 a2 a3 a4 a5 a6 a7 a8 v b2 b3 b4 b5 b6 b7 b8 c1 c2 c3 c4 c5 c6 c7 c8 d1 d2 d3 d4 d5 d6 d7 d8 e1 e2 e3 e4 e5 e6 e7 e8 f1 f2 f3 f4 f5 f6 f7 f8 g1 g2 g3 g4 g5 g6.
Definition cset_tincctl_bin v := let '(mkconfig a1 a2 a3 a4 a5 a6 a7 a8 b1 b2 b3 b4 b5 b6 b7 b8 c1 c2 c3 c4 c5 c6 c7 c8 d1 d2 d3 d4 d5 d6 d7 d8 e1 e2 e3 e4 e5 e6 e7 e8 f1 f2 f3 f4 f5 f6 f7 f8 g1 g2 g3 g4 g5 g6) := c in
  mkconfig a1 a2 a3 a4 a5 a6 a7 a8 b1 v b3 b4 b5 b6 b7 b8 c1 c2 c3 c4 c5 c6 c7 c8 d1 d2 d3 d4 d5 d6 d7 d8 e1 e2 e3 e4 e5 e6 e7 e8 f1 f2 f3 f4 f5 f6 f7 f8 g1 g2 g3 g4 g5 g6.
Definition cset_tincd_debuglevel v := let '(mkconfig a1 a2 a3 a4 a5 a6 a7 a8 b1 b2 b3 b4 b5 b6 b7 b8 c1 c2 c3 c4 c5 c6 c7 c8 d1 d2 d3 d4 d5 d6 d7 d8 e1 e2 e3 e4 e5 e6 e7 e8 f1 f2 f3 f4 f5 f6 f7 f8 g1 g2 g3 g4 g5 g6) := c in
  mkconfig a1 a2 a3 a4 a5 a6 a7 a8 b1 b2 v b4 b5 b6 b7 b8 c1 c2 c3 c4 c5 c6 c7 c8 d1 d2 d3 d4 d5 d6 d7 d8 e1 e2 e3 e4 e5 e6 e7 e8 f1 f2 f3 f4 f5 f6 f7 f8 g1 g2 g3 g4 g5 g6.
Definition cset_tincd_restart_delay v := let '(mkconfig a1 a2 a3 a4 a5 a6 a7 a8 b1 b2 b3 b4 b5 b6 b7 b8 c1 c2 c3 c4 c5 c6 c7 c8 d1 d2 d3 d4 d5 d6 d7 d8 e1 e2 e3 e4 e5 e6 e7 e8 f1 f2 f3 f4 f5 f6 f7 f8 g1 g2 g3 g4 g5 g6) := c in
  mkconfig a1 a2 a3 a4 a5 a6 a7 a8 b1 b2 b3 v b5 b6 b7 b8 c1 c2 c3 c4 c5 c6 c7 c8 d1 d2 d3 d4 d5 d6 d7 d8 e1 e2 e3 e4 e5 e6 e7 e8 f1 f2 f3 f4 f5 f6 f7 f8 g1 g2 g3 g4 g5 g6.
Definition cset_routemetric v := let '(mkconfig a1 a2 a3 a4 a5 a6 a7 a8 b1 b2 b3 b4 b5 b6 b7 b8 c1 c2 c3 c4 c5 c6 c7 c8 d1 d2 d3 d4 d5 d6 d7 d8 e1 e2 e3 e4 e5 e6 e7 e8 f1 f2 f3 f4 f5 f6 f7 f8 g1 g2 g3 g4 g5 g6) := c in
  mkconfig a1 a2 a3 a4 a5 a6 a7 a8 b1 b2 b3 b4 v b6 b7 b8 c1 c2 c3 c4 c5 c6 c7 c8 d1 d2 d3 d4 d5 d6 d7 d8 e1 e2 e3 e4 e5 e6 e7 e8 f1 f2 f3 f4 f5 f6 f7 f8 g1 g2 g3 g4 g5 g6.
Definition cset_routeadd v := let '(mkconfig a1 a2 a3 a4 a5 a6 a7 a8 b1 b2 b3 b4 b5 b6 b7 b8 c1 c2 c3 c4 c5 c6 c7 c8 d1 d2 d3 d4 d5 d6 d7 d8 e1 e2 e3 e4 e5 e6 e7 e8 f1 f2 f3 f4 f5 f6 f7 f8 g1 g2 g3 g4 g5 g6) := c in
  mkconfig a1 a2 a3 a4 a5 a6 a7 a8 b1 b2 b3 b4 b5 v b7 b8 c1 c2 c3 c4 c5 c6 c7 c8 d1 d2 d3 d4 d5 d6 d7 d8 e1 e2 e3 e4 e5 e6 e7 e8 f1 f2 f3 f4 f5 f6 f7 f8 g1 g2 g3 g4 g5 g6.
Definition cset_routeadd6 v := let '(mkconfig a1 a2 a3 a4 a5 a6 a7 a8 b1 b2 b3 b4 b5 b6 b7 b8 c1 c2 c3 c4 c5 c6 c7 c8 d1 d2 d3 d4 d5 d6 d7 d8 e1 e2 e3 e4 e5 e6 e7 e8 f1 f2 f3 f4 f5 f6 f7 f8 g1 g2 g3 g4 g5 g6) := c in
  mkconfig a1 a2 a3 a4 a5 a6 a7 a8 b1 b2 b3 b4 b5 b6 v b8 c1 c2 c3 c4 c5 c6 c7 c8 d1 d2 d3 d4 d5 d6 d7 d8 e1 e2 e3 e4 e5 e6 e7 e8 f1 f2 f3 f4 f5 f6 f7 f8 g1 g2 g3 g4 g5 g6.
Definition cset_routedel v := let '(mkconfig a1 a2 a3 a4 a5 a6 a7 a8 b1 b2 b3 b4 b5 b6 b7 b8 c1 c2 c3 c4 c5 c6 c7 c8 d1 d2 d3 d4 d5 d6 d7 d8 e1 e2 e3 e4 e5 e6 e7 e8 f1 f2 f3 f4 f5 f6 f7 f8 g1 g2 g3 g4 g5 g6) := c in
  mkconfig a1 a2 a3 a4 a5 a6 a7 a8 b1 b2 b3 b4 b5 b6 b7 v c1 c2 c3 c4 c5 c6 c7 c8 d1 d2 d3 d4 d5 d6 d7 d8 e1 e2 e3 e4 e5 e6 e7 e8 f1 f2 f3 f4 f5 f6 f7 f8 g1 g2 g3 g4 g5 g6.
Definition cset_routedel6 v := let '(mkconfig a1 a2 a3 a4 a5 a6 a7 a8 b1 b2 b3 b4 b5 b6 b7 b8 c1 c2 c3 c4 c5 c6 c7 c8 d1 d2 d3 d4 d5 d6 d7 d8 e1 e2 e3 e4 e5 e6 e7 e8 f1 f2 f3 f4 f5 f6 f7 f8 g1 g2 g3 g4 g5 g6) := c in
  mkconfig a1 a2 a3 a4 a5 a6 a7 a8 b1 b2 b3 b4 b5 b6 b7 b8 v c2 c3 c4 c5 c6 c7 c8 d1 d2 d3 d4 d5 d6 d7 d8 e1 e2 e3 e4 e5 e6 e7 e8 f1 f2 f3 f4 f5 f6 f7 f8 g1 g2 g3 g4 g5 g6.
Definition cset_postup v := let '(mkconfig a1 a2 a3 a4 a5 a6 a7 a8 b1 b2 b3 b4 b5 b6 b7 b8 c1 c2 c3 c4 c5 c6 c7 c8 d1 d2 d3 d4 d5 d6 d7 d8 e1 e2 e3 e4 e5 e6 e7 e8 f1 f2 f3 f4 f5 f6 f7 f8 g1 g2 g3 g4 g5 g6) := c in
  mkconfig a1 a2 a3 a4 a5 a6 a7 a8 b1 b2 b3 b4 b5 b6 b7 b8 c1 v c3 c4 c5 c6 c7 c8 d1 d2 d3 d4 d5 d6 d7 d8 e1 e2 e3 e4 e5 e6 e7 e8 f1 f2 f3 f4 f5 f6 f7 f8 g1 g2 g3 g4 g5 g6.
Definition cset_ifconfig v := let '(mkconfig a1 a2 a3 a4 a5 a6 a7 a8 b1 b2 b3 b4 b5 b6 b7 b8 c1 c2 c3 c4 c5 c6 c7 c8 d1 d2 d3 d4 d5 d6 d7 d8 e1 e2 e3 e4 e5 e6 e7 e8 f1 f2 f3 f4 f5 f6 f7 f8 g1 g2 g3 g4 g5 g6) := c in
  mkconfig a1 a2 a3 a4 a5 a6 a7 a8 b1 b2 b3 b4 b5 b6 b7 b8 c1 c2 v c4 c5 c6 c7 c8 d1 d2 d3 d4 d5 d6 d7 d8 e1 e2 e3 e4 e5 e6 e7 e8 f1 f2 f3 f4 f5 f6 f7 f8 g1 g2 g3 g4 g5 g6.
Definition cset_ifconfig6 v := let '(mkconfig a1 a2 a3 a4 a5 a6 a7 a8 b1 b2 b3 b4 b5 b6 b7 b8 c1 c2 c3 c4 c5 c6 c7 c8 d1 d2 d3 d4 d5 d6 d7 d8 e1 e2 e3 e4 e5 e6 e7 e8 f1 f2 f3 f4 f5 f6 f7 f8 g1 g2 g3 g4 g5 g6) := c in
  mkconfig a1 a2 a3 a4 a5 a6 a7 a8 b1 b2 b3 b4 b5 b6 b7 b8 c1 c2 c3 v c5 c6 c7 c8 d1 d2 d3 d4 d5 d6 d7 d8 e1 e2 e3 e4 e5 e6 e7 e8 f1 f2 f3 f4 f5 f6 f7 f8 g1 g2 g3 g4 g5 g6.
Definition cset_master_url v := let '(mkconfig a1 a2 a3 a4 a5 a6 a7 a8 b1 b2 b3 b4 b5 b6 b7 b8 c1 c2 c3 c4 c5 c6 c7 c8 d1 d2 d3 d4 d5 d6 d7 d8 e1 e2 e3 e4 e5 e6 e7 e8 f1 f2 f3 f4 f5 f6 f7 f8 g1 g2 g3 g4 g5 g6) := c in
  mkconfig a1 a2 a3 a4 a5 a6 a7 a8 b1 b2 b3 b4 b5 b6 b7 b8 c1 c2 c3 c4 v c6 c7 c8 d1 d2 d3 d4 d5 d6 d7 d8 e1 e2 e3 e4 e5 e6 e7 e8 f1 f2 f3 f4 f5 f6 f7 f8 g1 g2 g3 g4 g5 g6.
Definition cset_base_path v := let '(mkconfig a1 a2 a3 a4 a5 a6 a7 a8 b1 b2 b3 b4 b5 b6 b7 b8 c1 c2 c3 c4 c5 c6 c7 c8 d1 d2 d3 d4 d5 d6 d7 d8 e1 e2 e3 e4 e5 e6 e7 e8 f1 f2 f3 f4 f5 f6 f7 f8 g1 g2 g3 g4 g5 g6) := c in
  mkconfig a1 a2 a3 a4 a5 a6 a7 a8 b1 b2 b3 b4 b5 b6 b7 b8 c1 c2 c3 c4 c5 v c7 c8 d1 d2 d3 d4 d5 d6 d7 d8 e1 e2 e3 e4 e5 e6 e7 e8 f1 f2 f3 f4 f5 f6 f7 f8 g1 g2 g3 g4 g5 g6.
Definition cset_tincd_pidfile v := let '(mkconfig a1 a2 a3 a4 a5 a6 a7 a8 b1 b2 b3 b4 b5 b6 b7 b8 c1 c2 c3 c4 c5 c6 c7 c8 d1 d2 d3 d4 d5 d6 d7 d8 e1 e2 e3 e4 e5 e6 e7 e8 f1 f2 f3 f4 f5 f6 f7 f8 g1 g2 g3 g4 g5 g6) := c in
  mkconfig a1 a2 a3 a4 a5 a6 a7 a8 b1 b2 b3 b4 b5 b6 b7 b8 c1 c2 c3 c4 c5 c6 v c8 d1 d2 d3 d4 d5 d6 d7 d8 e1 e2 e3 e4 e5 e6 e7 e8 f1 f2 f3 f4 f5 f6 f7 f8 g1 g2 g3 g4 g5 g6.
Definition cset_masterdata_signkey v := let '(mkconfig a1 a2 a3 a4 a5 a6 a7 a8 b1 b2 b3 b4 b5 b6 b7 b8 c1 c2 c3 c4 c5 c6 c7 c8 d1 d2 d3 d4 d5 d6 d7 d8 e1 e2 e3 e4 e5 e6 e7 e8 f1 f2 f3 f4 f5 f6 f7 f8 g1 g2 g3 g4 g5 g6) := c in
  mkconfig a1 a2 a3 a4 a5 a6 a7 a8 b1 b2 b3 b4 b5 b6 b7 b8 c1 c2 c3 c4 c5 c6 c7 v d1 d2 d3 d4 d5 d6 d7 d8 e1 e2 e3 e4 e5 e6 e7 e8 f1 f2 f3 f4 f5 f6 f7 f8 g1 g2 g3 g4 g5 g6.
Definition cset_tincd_graphdumpfile v := let '(mkconfig a1 a2 a3 a4 a5 a6 a7 a8 b1 b2 b3 b4 b5 b6 b7 b8 c1 c2 c3 c4 c5 c6 c7 c8 d1 d2 d3 d4 d5 d6 d7 d8 e1 e2 e3 e4 e5 e6 e7 e8 f1 f2 f3 f4 f5 f6 f7 f8 g1 g2 g3 g4 g5 g6) := c in
  mkconfig a1 a2 a3 a4 a5 a6 a7 a8 b1 b2 b3 b4 b5 b6 b7 b8 c1 c2 c3 c4 c5 c6 c7 c8 v d2 d3 d4 d5 d6 d7 d8 e1 e2 e3 e4 e5 e6 e7 e8 f1 f2 f3 f4 f5 f6 f7 f8 g1 g2 g3 g4 g5 g6.
Definition cset_tmpconffile v := let '(mkconfig a1 a2 a3 a4 a5 a6 a7 a8 b1 b2 b3 b4 b5 b6 b7 b8 c1 c2 c3 c4 c5 c6 c7 c8 d1 d2 d3 d4 d5 d6 d7 d8 e1 e2 e3 e4 e5 e6 e7 e8 f1 f2 f3 f4 f5 f6 f7 f8 g1 g2 g3 g4 g5 g6) := c in
  mkconfig a1 a2 a3 a4 a5 a6 a7 a8 b1 b2 b3 b4 b5 b6 b7 b8 c1 c2 c3 c4 c5 c6 c7 c8 d1 v d3 d4 d5 d6 d7 d8 e1 e2 e3 e4 e5 e6 e7 e8 f1 f2 f3 f4 f5 f6 f7 f8 g1 g2 g3 g4 g5 g6.
Definition cset_tincd_device v := let '(mkconfig a1 a2 a3 a4 a5 a6 a7 a8 b1 b2 b3 b4 b5 b6 b7 b8 c1 c2 c3 c4 c5 c6 c7 c8 d1 d2 d3 d4 d5 d6 d7 d8 e1 e2 e3 e4 e5 e6 e7 e8 f1 f2 f3 f4 f5 f6 f7 f8 g1 g2 g3 g4 g5 g6) := c in
  mkconfig a1 a2 a3 a4 a5 a6 a7 a8 b1 b2 b3 b4 b5 b6 b7 b8 c1 c2 c3 c4 c5 c6 c7 c8 d1 d2 v d4 d5 d6 d7 d8 e1 e2 e3 e4 e5 e6 e7 e8 f1 f2 f3 f4 f5 f6 f7 f8 g1 g2 g3 g4 g5 g6.
Definition cset_tincd_interface v := let '(mkconfig a1 a2 a3 a4 a5 a6 a7 a8 b1 b2 b3 b4 b5 b6 b7 b8 c1 c2 c3 c4 c5 c6 c7 c8 d1 d2 d3 d4 d5 d6 d7 d8 e1 e2 e3 e4 e5 e6 e7 e8 f1 f2 f3 f4 f5 f6 f7 f8 g1 g2 g3 g4 g5 g6) := c in
  mkconfig a1 a2 a3 a4 a5 a6 a7 a8 b1 b2 b3 b4 b5 b6 b7 b8 c1 c2 c3 c4 c5 c6 c7 c8 d1 d2 d3 v d5 d6 d7 d8 e1 e2 e3 e4 e5 e6 e7 e8 f1 f2 f3 f4 f5 f6 f7 f8 g1 g2 g3 g4 g5 g6.
Definition cset_tincd_user v := let '(mkconfig a1 a2 a3 a4 a5 a6 a7 a8 b1 b2 b3 b4 b5 b6 b7 b8 c1 c2 c3 c4 c5 c6 c7 c8 d1 d2 d3 d4 d5 d6 d7 d8 e1 e2 e3 e4 e5 e6 e7 e8 f1 f2 f3 f4 f5 f6 f7 f8 g1 g2 g3 g4 g5 g6) := c in
  mkconfig a1 a2 a3 a4 a5 a6 a7 a8 b1 b2 b3 b4 b5 b6 b7 b8 c1 c2 c3 c4 c5 c6 c7 c8 d1 d2 d3 d4 v d6 d7 d8 e1 e2 e3 e4 e5 e6 e7 e8 f1 f2 f3 f4 f5 f6 f7 f8 g1 g2 g3 g4 g5 g6.
Definition cset_tincd_raw_config v := let '(mkconfig a1 a2 a3 a4 a5 a6 a7 a8 b1 b2 b3 b4 b5 b6 b7 b8 c1 c2 c3 c4 c5 c6 c7 c8 d1 d2 d3 d4 d5 d6 d7 d8 e1 e2 e3 e4 e5 e6 e7 e8 f1 f2 f3 f4 f5 f6 f7 f8 g1 g2 g3 g4 g5 g6) := c in
  mkconfig a1 a2 a3 a4 a5 a6 a7 a8 b1 b2 b3 b4 b5 b6 b7 b8 c1 c2 c3 c4 c5 c6 c7 c8 d1 d2 d3 d4 d5 v d7 d8 e1 e2 e3 e4 e5 e6 e7 e8 f1 f2 f3 f4 f5 f6 f7 f8 g1 g2 g3 g4 g5 g6.
Definition cset_privkey v := let '(mkconfig a1 a2 a3 a4 a5 a6 a7 a8 b1 b2 b3 b4 b5 b6 b7 b8 c1 c2 c3 c4 c5 c6 c7 c8 d1 d2 d3 d4 d5 d6 d7 d8 e1 e2 e3 e4 e5 e6 e7 e8 f1 f2 f3 f4 f5 f6 f7 f8 g1 g2 g3 g4 g5 g6) := c in
  mkconfig a1 a2 a3 a4 a5 a6 a7 a8 b1 b2 b3 b4 b5 b6 b7 b8 c1 c2 c3 c4 c5 c6 c7 c8 d1 d2 d3 d4 d5 d6 v d8 e1 e2 e3 e4 e5 e6 e7 e8 f1 f2 f3 f4 f5 f6 f7 f8 g1 g2 g3 g4 g5 g6.
Definition cset_ed25519publickey v := let '(mkconfig a1 a2 a3 a4 a5 a6 a7 a8 b1 b2 b3 b4 b5 b6 b7 b8 c1 c2 c3 c4 c5 c6 c7 c8 d1 d2 d3 d4 d5 d6 d7 d8 e1 e2 e3 e4 e5 e6 e7 e8 f1 f2 f3 f4 f5 f6 f7 f8 g1 g2 g3 g4 g5 g6) := c in
  mkconfig a1 a2 a3 a4 a5 a6 a7 a8 b1 b2 b3 b4 b5 b6 b7 b8 c1 c2 c3 c4 c5 c6 c7 c8 d1 d2 d3 d4 d5 d6 d7 v e1 e2 e3 e4 e5 e6 e7 e8 f1 f2 f3 f4 f5 f6 f7 f8 g1 g2 g3 g4 g5 g6.
Definition cset_exclude v := let '(mkconfig a1 a2 a3 a4 a5 a6 a7 a8 b1 b2 b3 b4 b5 b6 b7 b8 c1 c2 c3 c4 c5 c6 c7 c8 d1 d2 d3 d4 d5 d6 d7 d8 e1 e2 e3 e4 e5 e6 e7 e8 f1 f2 f3 f4 f5 f6 f7 f8 g1 g2 g3 g4 g5 g6) := c in
  mkconfig a1 a2 a3 a4 a5 a6 a7 a8 b1 b2 b3 b4 b5 b6 b7 b8 c1 c2 c3 c4 c5 c6 c7 c8 d1 d2 d3 d4 d5 d6 d7 d8 v e2 e3 e4 e5 e6 e7 e8 f1 f2 f3 f4 f5 f6 f7 f8 g1 g2 g3 g4 g5 g6.
Definition cset_my_peer v := let '(mkconfig a1 a2 a3 a4 a5 a6 a7 a8 b1 b2 b3 b4 b5 b6 b7 b8 c1 c2 c3 c4 c5 c6 c7 c8 d1 d2 d3 d4 d5 d6 d7 d8 e1 e2 e3 e4 e5 e6 e7 e8 f1 f2 f3 f4 f5 f6 f7 f8 g1 g2 g3 g4 g5 g6) := c in
  mkconfig a1 a2 a3 a4 a5 a6 a7 a8 b1 b2 b3 b4 b5 b6 b7 b8 c1 c2 c3 c4 c5 c6 c7 c8 d1 d2 d3 d4 d5 d6 d7 d8 e1 v e3 e4 e5 e6 e7 e8 f1 f2 f3 f4 f5 f6 f7 f8 g1 g2 g3 g4 g5 g6.
Definition cset_peer_config v := let '(mkconfig a1 a2 a3 a4 a5 a6 a7 a8 b1 b2 b3 b4 b5 b6 b7 b8 c1 c2 c3 c4 c5 c6 c7 c8 d1 d2 d3 d4 d5 d6 d7 d8 e1 e2 e3 e4 e5 e6 e7 e8 f1 f2 f3 f4 f5 f6 f7 f8 g1 g2 g3 g4 g5 g6) := c in
  mkconfig a1 a2 a3 a4 a5 a6 a7 a8 b1 b2 b3 b4 b5 b6 b7 b8 c1 c2 c3 c4 c5 c6 c7 c8 d1 d2 d3 d4 d5 d6 d7 d8 e1 e2 v e4 e5 e6 e7 e8 f1 f2 f3 f4 f5 f6 f7 f8 g1 g2 g3 g4 g5 g6.
Definition cset_ifmodifiedsince v := let '(mkconfig a1 a2 a3 a4 a5 a6 a7 a8 b1 b2 b3 b4 b5 b6 b7 b8 c1 c2 c3 c4 c5 c6 c7 c8 d1 d2 d3 d4 d5 d6 d7 d8 e1 e2 e3 e4 e5 e6 e7 e8 f1 f2 f3 f4 f5 f6 f7 f8 g1 g2 g3 g4 g5 g6) := c in
  mkconfig a1 a2 a3 a4 a5 a6 a7 a8 b1 b2 b3 b4 b5 b6 b7 b8 c1 c2 c3 c4 c5 c6 c7 c8 d1 d2 d3 d4 d5 d6 d7 d8 e1 e2 e3 v e5 e6 e7 e8 f1 f2 f3 f4 f5 f6 f7 f8 g1 g2 g3 g4 g5 g6.
Definition cset_update_interval v := let '(mkconfig a1 a2 a3 a4 a5 a6 a7 a8 b1 b2 b3 b4 b5 b6 b7 b8 c1 c2 c3 c4 c5 c6 c7 c8 d1 d2 d3 d4 d5 d6 d7 d8 e1 e2 e3 e4 e5 e6 e7 e8 f1 f2 f3 f4 f5 f6 f7 f8 g1 g2 g3 g4 g5 g6) := c in
  mkconfig a1 a2 a3 a4 a5 a6 a7 a8 b1 b2 b3 b4 b5 b6 b7 b8 c1 c2 c3 c4 c5 c6 c7 c8 d1 d2 d3 d4 d5 d6 d7 d8 e1 e2 e3 e4 v e6 e7 e8 f1 f2 f3 f4 f5 f6 f7 f8 g1 g2 g3 g4 g5 g6.
Definition cset_use_dynamic_routes v := let '(mkconfig a1 a2 a3 a4 a5 a6 a7 a8 b1 b2 b3 b4 b5 b6 b7 b8 c1 c2 c3 c4 c5 c6 c7 c8 d1 d2 d3 d4 d5 d6 d7 d8 e1 e2 e3 e4 e5 e6 e7 e8 f1 f2 f3 f4 f5 f6 f7 f8 g1 g2 g3 g4 g5 g6) := c in
  mkconfig a1 a2 a3 a4 a5 a6 a7 a8 b1 b2 b3 b4 b5 b6 b7 b8 c1 c2 c3 c4 c5 c6 c7 c8 d1 d2 d3 d4 d5 d6 d7 d8 e1 e2 e3 e4 e5 v e7 e8 f1 f2 f3 f4 f5 f6 f7 f8 g1 g2 g3 g4 g5 g6.
Definition cset_connect_only_to_primary_nodes v := let '(mkconfig a1 a2 a3 a4 a5 a6 a7 a8 b1 b2 b3 b4 b5 b6 b7 b8 c1 c2 c3 c4 c5 c6 c7 c8 d1 d2 d3 d4 d5 d6 d7 d8 e1 e2 e3 e4 e5 e6 e7 e8 f1 f2 f3 f4 f5 f6 f7 f8 g1 g2 g3 g4 g5 g6) := c in
  mkconfig a1 a2 a3 a4 a5 a6 a7 a8 b1 b2 b3 b4 b5 b6 b7 b8 c1 c2 c3 c4 c5 c6 c7 c8 d1 d2 d3 d4 d5 d6 d7 d8 e1 e2 e3 e4 e5 e6 v e8 f1 f2 f3 f4 f5 f6 f7 f8 g1 g2 g3 g4 g5 g6.
Definition cset_run_ifdown v := let '(mkconfig a1 a2 a3 a4 a5 a6 a7 a8 b1 b2 b3 b4 b5 b6 b7 b8 c1 c2 c3 c4 c5 c6 c7 c8 d1 d2 d3 d4 d5 d6 d7 d8 e1 e2 e3 e4 e5 e6 e7 e8 f1 f2 f3 f4 f5 f6 f7 f8 g1 g2 g3 g4 g5 g6) := c in
  mkconfig a1 a2 a3 a4 a5 a6 a7 a8 b1 b2 b3 b4 b5 b6 b7 b8 c1 c2 c3 c4 c5 c6 c7 c8 d1 d2 d3 d4 d5 d6 d7 d8 e1 e2 e3 e4 e5 e6 e7 v f1 f2 f3 f4 f5 f6 f7 f8 g1 g2 g3 g4 g5 g6.
Definition cset_localdiscovery v := let '(mkconfig a1 a2 a3 a4 a5 a6 a7 a8 b1 b2 b3 b4 b5 b6 b7 b8 c1 c2 c3 c4 c5 c6 c7 c8 d1 d2 d3 d4 d5 d6 d7 d8 e1 e2 e3 e4 e5 e6 e7 e8 f1 f2 f3 f4 f5 f6 f7 f8 g1 g2 g3 g4 g5 g6) := c in
  mkconfig a1 a2 a3 a4 a5 a6 a7 a8 b1 b2 b3 b4 b5 b6 b7 b8 c1 c2 c3 c4 c5 c6 c7 c8 d1 d2 d3 d4 d5 d6 d7 d8 e1 e2 e3 e4 e5 e6 e7 e8 v f2 f3 f4 f5 f6 f7 f8 g1 g2 g3 g4 g5 g6.
Definition cset_mergeroutes_supernet_raw v := let '(mkconfig a1 a2 a3 a4 a5 a6 a7 a8 b1 b2 b3 b4 b5 b6 b7 b8 c1 c2 c3 c4 c5 c6 c7 c8 d1 d2 d3 d4 d5 d6 d7 d8 e1 e2 e3 e4 e5 e6 e7 e8 f1 f2 f3 f4 f5 f6 f7 f8 g1 g2 g3 g4 g5 g6) := c in
  mkconfig a1 a2 a3 a4 a5 a6 a7 a8 b1 b2 b3 b4 b5 b6 b7 b8 c1 c2 c3 c4 c5 c6 c7 c8 d1 d2 d3 d4 d5 d6 d7 d8 e1 e2 e3 e4 e5 e6 e7 e8 f1 v f3 f4 f5 f6 f7 f8 g1 g2 g3 g4 g5 g6.
Definition cset_mergeroutes_supernet v := let '(mkconfig a1 a2 a3 a4 a5 a6 a7 a8 b1 b2 b3 b4 b5 b6 b7 b8 c1 c2 c3 c4 c5 c6 c7 c8 d1 d2 d3 d4 d5 d6 d7 d8 e1 e2 e3 e4 e5 e6 e7 e8 f1 f2 f3 f4 f5 f6 f7 f8 g1 g2 g3 g4 g5 g6) := c in
  mkconfig a1 a2 a3 a4 a5 a6 a7 a8 b1 b2 b3 b4 b5 b6 b7 b8 c1 c2 c3 c4 c5 c6 c7 c8 d1 d2 d3 d4 d5 d6 d7 d8 e1 e2 e3 e4 e5 e6 e7 e8 f1 f2 v f4 f5 f6 f7 f8 g1 g2 g3 g4 g5 g6.
Definition cset_ignore_subnets_raw v := let '(mkconfig a1 a2 a3 a4 a5 a6 a7 a8 b1 b2 b3 b4 b5 b6 b7 b8 c1 c2 c3 c4 c5 c6 c7 c8 d1 d2 d3 d4 d5 d6 d7 d8 e1 e2 e3 e4 e5 e6 e7 e8 f1 f2 f3 f4 f5 f6 f7 f8 g1 g2 g3 g4 g5 g6) := c in
  mkconfig a1 a2 a3 a4 a5 a6 a7 a8 b1 b2 b3 b4 b5 b6 b7 b8 c1 c2 c3 c4 c5 c6 c7 c8 d1 d2 d3 d4 d5 d6 d7 d8 e1 e2 e3 e4 e5 e6 e7 e8 f1 f2 f3 v f5 f6 f7 f8 g1 g2 g3 g4 g5 g6.
Definition cset_ignore_subnets v := let '(mkconfig a1 a2 a3 a4 a5 a6 a7 a8 b1 b2 b3 b4 b5 b6 b7 b8 c1 c2 c3 c4 c5 c6 c7 c8 d1 d2 d3 d4 d5 d6 d7 d8 e1 e2 e3 e4 e5 e6 e7 e8 f1 f2 f3 f4 f5 f6 f7 f8 g1 g2 g3 g4 g5 g6) := c in
  mkconfig a1 a2 a3 a4 a5 a6 a7 a8 b1 b2 b3 b4 b5 b6 b7 b8 c1 c2 c3 c4 c5 c6 c7 c8 d1 d2 d3 d4 d5 d6 d7 d8 e1 e2 e3 e4 e5 e6 e7 e8 f1 f2 f3 f4 v f6 f7 f8 g1 g2 g3 g4 g5 g6.
Definition cset_whitelist_subnets_raw v := let '(mkconfig a1 a2 a3 a4 a5 a6 a7 a8 b1 b2 b3 b4 b5 b6 b7 b8 c1 c2 c3 c4 c5 c6 c7 c8 d1 d2 d3 d4 d5 d6 d7 d8 e1 e2 e3 e4 e5 e6 e7 e8 f1 f2 f3 f4 f5 f6 f7 f8 g1 g2 g3 g4 g5 g6) := c in
  mkconfig a1 a2 a3 a4 a5 a6 a7 a8 b1 b2 b3 b4 b5 b6 b7 b8 c1 c2 c3 c4 c5 c6 c7 c8 d1 d2 d3 d4 d5 d6 d7 d8 e1 e2 e3 e4 e5 e6 e7 e8 f1 f2 f3 f4 f5 v f7 f8 g1 g2 g3 g4 g5 g6.
Definition cset_whitelist_subnets v := let '(mkconfig a1 a2 a3 a4 a5 a6 a7 a8 b1 b2 b3 b4 b5 b6 b7 b8 c1 c2 c3 c4 c5 c6 c7 c8 d1 d2 d3 d4 d5 d6 d7 d8 e1 e2 e3 e4 e5 e6 e7 e8 f1 f2 f3 f4 f5 f6 f7 f8 g1 g2 g3 g4 g5 g6) := c in
  mkconfig a1 a2 a3 a4 a5 a6 a7 a8 b1 b2 b3 b4 b5 b6 b7 b8 c1 c2 c3 c4 c5 c6 c7 c8 d1 d2 d3 d4 d5 d6 d7 d8 e1 e2 e3 e4 e5 e6 e7 e8 f1 f2 f3 f4 f5 f6 v f8 g1 g2 g3 g4 g5 g6.
Definition cset_password v := let '(mkconfig a1 a2 a3 a4 a5 a6 a7 a8 b1 b2 b3 b4 b5 b6 b7 b8 c1 c2 c3 c4 c5 c6 c7 c8 d1 d2 d3 d4 d5 d6 d7 d8 e1 e2 e3 e4 e5 e6 e7 e8 f1 f2 f3 f4 f5 f6 f7 f8 g1 g2 g3 g4 g5 g6) := c in
  mkconfig a1 a2 a3 a4 a5 a6 a7 a8 b1 b2 b3 b4 b5 b6 b7 b8 c1 c2 c3 c4 c5 c6 c7 c8 d1 d2 d3 d4 d5 d6 d7 d8 e1 e2 e3 e4 e5 e6 e7 e8 f1 f2 f3 f4 f5 f6 f7 v g1 g2 g3 g4 g5 g6.
Definition cset_vpn_netmask v := let '(mkconfig a1 a2 a3 a4 a5 a6 a7 a8 b1 b2 b3 b4 b5 b6 b7 b8 c1 c2 c3 c4 c5 c6 c7 c8 d1 d2 d3 d4 d5 d6 d7 d8 e1 e2 e3 e4 e5 e6 e7 e8 f1 f2 f3 f4 f5 f6 f7 f8 g1 g2 g3 g4 g5 g6) := c in
  mkconfig a1 a2 a3 a4 a5 a6 a7 a8 b1 b2 b3 b4 b5 b6 b7 b8 c1 c2 c3 c4 c5 c6 c7 c8 d1 d2 d3 d4 d5 d6 d7 d8 e1 e2 e3 e4 e5 e6 e7 e8 f1 f2 f3 f4 f5 f6 f7 f8 v g2 g3 g4 g5 g6.
Definition cset_configfile v := let '(mkconfig a1 a2 a3 a4 a5 a6 a7 a8 b1 b2 b3 b4 b5 b6 b7 b8 c1 c2 c3 c4 c5 c6 c7 c8 d1 d2 d3 d4 d5 d6 d7 d8 e1 e2 e3 e4 e5 e6 e7 e8 f1 f2 f3 f4 f5 f6 f7 f8 g1 g2 g3 g4 g5 g6) := c in
  mkconfig a1 a2 a3 a4 a5 a6 a7 a8 b1 b2 b3 b4 b5 b6 b7 b8 c1 c2 c3 c4 c5 c6 c7 c8 d1 d2 d3 d4 d5 d6 d7 d8 e1 e2 e3 e4 e5 e6 e7 e8 f1 f2 f3 f4 f5 f6 f7 f8 g1 v g3 g4 g5 g6.
Definition cset_daemonmode v := let '(mkconfig a1 a2 a3 a4 a5 a6 a7 a8 b1 b2 b3 b4 b5 b6 b7 b8 c1 c2 c3 c4 c5 c6 c7 c8 d1 d2 d3 d4 d5 d6 d7 d8 e1 e2 e3 e4 e5 e6 e7 e8 f1 f2 f3 f4 f5 f6 f7 f8 g1 g2 g3 g4 g5 g6) := c in
  mkconfig a1 a2 a3 a4 a5 a6 a7 a8 b1 b2 b3 b4 b5 b6 b7 b8 c1 c2 c3 c4 c5 c6 c7 c8 d1 d2 d3 d4 d5 d6 d7 d8 e1 e2 e3 e4 e5 e6 e7 e8 f1 f2 f3 f4 f5 f6 f7 f8 g1 g2 v g4 g5 g6.
Definition cset_oneshot v := let '(mkconfig a1 a2 a3 a4 a5 a6 a7 a8 b1 b2 b3 b4 b5 b6 b7 b8 c1 c2 c3 c4 c5 c6 c7 c8 d1 d2 d3 d4 d5 d6 d7 d8 e1 e2 e3 e4 e5 e6 e7 e8 f1 f2 f3 f4 f5 f6 f7 f8 g1 g2 g3 g4 g5 g6) := c in
  mkconfig a1 a2 a3 a4 a5 a6 a7 a8 b1 b2 b3 b4 b5 b6 b7 b8 c1 c2 c3 c4 c5 c6 c7 c8 d1 d2 d3 d4 d5 d6 d7 d8 e1 e2 e3 e4 e5 e6 e7 e8 f1 f2 f3 f4 f5 f6 f7 f8 g1 g2 g3 v g5 g6.
Definition cset_tincd_uid v := let '(mkconfig a1 a2 a3 a4 a5 a6 a7 a8 b1 b2 b3 b4 b5 b6 b7 b8 c1 c2 c3 c4 c5 c6 c7 c8 d1 d2 d3 d4 d5 d6 d7 d8 e1 e2 e3 e4 e5 e6 e7 e8 f1 f2 f3 f4 f5 f6 f7 f8 g1 g2 g3 g4 g5 g6) := c in
  mkconfig a1 a2 a3 a4 a5 a6 a7 a8 b1 b2 b3 b4 b5 b6 b7 b8 c1 c2 c3 c4 c5 c6 c7 c8 d1 d2 d3 d4 d5 d6 d7 d8 e1 e2 e3 e4 e5 e6 e7 e8 f1 f2 f3 f4 f5 f6 f7 f8 g1 g2 g3 g4 v g6.
Definition cset_tincd_gid v := let '(mkconfig a1 a2 a3 a4 a5 a6 a7 a8 b1 b2 b3 b4 b5 b6 b7 b8 c1 c2 c3 c4 c5 c6 c7 c8 d1 d2 d3 d4 d5 d6 d7 d8 e1 e2 e3 e4 e5 e6 e7 e8 f1 f2 f3 f4 f5 f6 f7 f8 g1 g2 g3 g4 g5 g6) := c in
  mkconfig a1 a2 a3 a4 a5 a6 a7 a8 b1 b2 b3 b4 b5 b6 b7 b8 c1 c2 c3 c4 c5 c6 c7 c8 d1 d2 d3 d4 d5 d6 d7 d8 e1 e2 e3 e4 e5 e6 e7 e8 f1 f2 f3 f4 f5 f6 f7 f8 g1 g2 g3 g4 g5 v.
End Setters.

(** Projections of assignments are computed, and nothing else. *)
Ltac cfg_simpl :=
  cbn [cf_pidfile cf_peerid cf_vpn_ip cf_vpn_ip6 cf_networkname cf_my_ip cf_my_addressfamily cf_tincd_bin
    cf_tincd_version cf_tincctl_bin cf_tincd_debuglevel cf_tincd_restart_delay cf_routemetric cf_routeadd
    cf_routeadd6 cf_routedel cf_routedel6 cf_postup cf_ifconfig cf_ifconfig6 cf_master_url cf_base_path
    cf_tincd_pidfile cf_masterdata_signkey cf_tincd_graphdumpfile cf_tmpconffile cf_tincd_device
    cf_tincd_interface cf_tincd_user cf_tincd_raw_config cf_privkey cf_ed25519publickey cf_exclude cf_my_peer
    cf_peer_config cf_ifmodifiedsince cf_update_interval cf_use_dynamic_routes
    cf_connect_only_to_primary_nodes cf_run_ifdown cf_localdiscovery cf_mergeroutes_supernet_raw
    cf_mergeroutes_supernet cf_ignore_subnets_raw cf_ignore_subnets cf_whitelist_subnets_raw
    cf_whitelist_subnets cf_password cf_vpn_netmask cf_configfile cf_daemonmode cf_oneshot cf_tincd_uid
    cf_tincd_gid
    cset_pidfile cset_peerid cset_vpn_ip cset_vpn_ip6 cset_networkname cset_my_ip cset_my_addressfamily
    cset_tincd_bin cset_tincd_version cset_tincctl_bin cset_tincd_debuglevel cset_tincd_restart_delay
    cset_routemetric cset_routeadd cset_routeadd6 cset_routedel cset_routedel6 cset_postup cset_ifconfig
    cset_ifconfig6 cset_master_url cset_base_path cset_tincd_pidfile cset_masterdata_signkey
    cset_tincd_graphdumpfile cset_tmpconffile cset_tincd_device cset_tincd_interface cset_tincd_user
    cset_tincd_raw_config cset_privkey cset_ed25519publickey cset_exclude cset_my_peer cset_peer_config
    cset_ifmodifiedsince cset_update_interval cset_use_dynamic_routes cset_connect_only_to_primary_nodes
    cset_run_ifdown cset_localdiscovery cset_mergeroutes_supernet_raw cset_mergeroutes_supernet
    cset_ignore_subnets_raw cset_ignore_subnets cset_whitelist_subnets_raw cset_whitelist_subnets
    cset_password cset_vpn_netmask cset_configfile cset_daemonmode cset_oneshot cset_tincd_uid
    cset_tincd_gid].
Ltac cfg_simpl_in H :=
  cbn [cf_pidfile cf_peerid cf_vpn_ip cf_vpn_ip6 cf_networkname cf_my_ip cf_my_addressfamily cf_tincd_bin
    cf_tincd_version cf_tincctl_bin cf_tincd_debuglevel cf_tincd_restart_delay cf_routemetric cf_routeadd
    cf_routeadd6 cf_routedel cf_routedel6 cf_postup cf_ifconfig cf_ifconfig6 cf_master_url cf_base_path
    cf_tincd_pidfile cf_masterdata_signkey cf_tincd_graphdumpfile cf_tmpconffile cf_tincd_device
    cf_tincd_interface cf_tincd_user cf_tincd_raw_config cf_privkey cf_ed25519publickey cf_exclude cf_my_peer
    cf_peer_config cf_ifmodifiedsince cf_update_interval cf_use_dynamic_routes
    cf_connect_only_to_primary_nodes cf_run_ifdown cf_localdiscovery cf_mergeroutes_supernet_raw
    cf_mergeroutes_supernet cf_ignore_subnets_raw cf_ignore_subnets cf_whitelist_subnets_raw
    cf_whitelist_subnets cf_password cf_vpn_netmask cf_configfile cf_daemonmode cf_oneshot cf_tincd_uid
    cf_tincd_gid
    cset_pidfile cset_peerid cset_vpn_ip cset_vpn_ip6 cset_networkname cset_my_ip cset_my_addressfamily
    cset_tincd_bin cset_tincd_version cset_tincctl_bin cset_tincd_debuglevel cset_tincd_restart_delay
    cset_routemetric cset_routeadd cset_routeadd6 cset_routedel cset_routedel6 cset_postup cset_ifconfig
    cset_ifconfig6 cset_master_url cset_base_path cset_tincd_pidfile cset_masterdata_signkey
    cset_tincd_graphdumpfile cset_tmpconffile cset_tincd_device cset_tincd_interface cset_tincd_user
    cset_tincd_raw_config cset_privkey cset_ed25519publickey cset_exclude cset_my_peer cset_peer_config
    cset_ifmodifiedsince cset_update_interval cset_use_dynamic_routes cset_connect_only_to_primary_nodes
    cset_run_ifdown cset_localdiscovery cset_mergeroutes_supernet_raw cset_mergeroutes_supernet
    cset_ignore_subnets_raw cset_ignore_subnets cset_whitelist_subnets_raw cset_whitelist_subnets
    cset_password cset_vpn_netmask cset_configfile cset_daemonmode cset_oneshot cset_tincd_uid cset_tincd_gid]
    in H.

Definition TINCDIR : text := c_lit "/etc/tinc".

Definition sizeof_config : Z := 432.

Section Alloc.
Context `{Allocator}.

(** The record is zeroed; what is not assigned below keeps that value. *)
Definition config_defaults : config := {|
      cf_pidfile := None; cf_peerid := None; cf_vpn_ip := None; cf_vpn_ip6 := None;
      cf_networkname := None; cf_my_ip := None; cf_my_addressfamily := None;
      cf_tincd_bin := strdup (c_lit "tincd"); cf_tincd_version := None; cf_tincctl_bin := None;
      cf_tincd_debuglevel := 3; cf_tincd_restart_delay := 20; cf_routemetric := strdup (c_lit "0");
      cf_routeadd := None; cf_routeadd6 := None; cf_routedel := None; cf_routedel6 := None;
      cf_postup := None; cf_ifconfig := None; cf_ifconfig6 := None;
      cf_master_url := strdup (c_lit "https://www.vpn.hamburg.ccc.de/tinc-chaosvpn.txt");
      cf_base_path := None; cf_tincd_pidfile := None; cf_masterdata_signkey := None;
      cf_tincd_graphdumpfile := None; cf_tmpconffile := None; cf_tincd_device := None;
      cf_tincd_interface := None; cf_tincd_user := None; cf_tincd_raw_config := None;
      cf_privkey := string_lazyinit 2048; cf_ed25519publickey := string_lazyinit 1024;
      cf_exclude := None; cf_my_peer := None; cf_peer_config := []; cf_ifmodifiedsince := 0;
      cf_update_interval := 0; cf_use_dynamic_routes := false;
      cf_connect_only_to_primary_nodes := true; cf_run_ifdown := false; cf_localdiscovery := true;
      cf_mergeroutes_supernet_raw := None; cf_mergeroutes_supernet := [];
      cf_ignore_subnets_raw := None; cf_ignore_subnets := [];
      cf_whitelist_subnets_raw := None; cf_whitelist_subnets := [];
      cf_password := None; cf_vpn_netmask := None;
      cf_configfile := strdup (TINCDIR ++ c_lit "/chaosvpn.conf");
      cf_daemonmode := false; cf_oneshot := false; cf_tincd_uid := 0; cf_tincd_gid := 0
    |}.

Definition config_alloc : option config :=
  if alloc_ok sizeof_config then Some config_defaults else None.

End Alloc.

(** ** Pointers as C reads them *)

(** [cptr] as the argument of a function of the C library that reads it. *)
Definition deref (p : cptr) : outcome text :=
  match p with Some t => Ret t | None => Undef end.

(** The string entries of a settings list are there: no [strdup] for them was refused. *)
Definition entry_set (e : settings_entry) : Prop := e <> LIST_STRING None.
Definition settings_set (l : option (list settings_entry)) : Prop := Forall entry_set (default [] l).

(** [strcmp (a, b) == 0] *)
Definition ptr_eq (a b : cptr) : outcome bool :=
  match a, b with Some a, Some b => Ret (strcmp a b =? 0) | _, _ => Undef end.

(** [i->peer_config] *)
Definition peer_at (heap : gmap nat peer_config) (o : option nat) : outcome peer_config :=
  match o with
  | Some loc => match heap !! loc with Some p => Ret p | None => Undef end
  | None => Undef
  end.
