(* ===== verification/World.v ===== *)
(** * The operating system

    What the program asks of the system and what the system answers.  An
    execution is the list of the requests made so far; the answer to a request
    is a function of that history ([Environment]), so every behaviour of the
    system, other processes included, is an instance.  [io] is the monad of the
    functions that make requests. *)

From S2P Require Import Prelude CLib.

(** ** Requests *)

Inductive event : Type :=
| EMkdir (path : text) (mode : Z)
| EOpenWrite (path : text) (mode : Z)      (** [O_CREAT | O_WRONLY | O_TRUNC] *)
| EOpenCopy (path : text) (mode : Z)       (** [O_CREAT | O_WRONLY] *)
| EWrite (path : text) (data : list char)
| EReadFile (path : text)
| EOpenRead (path : text)                  (** [O_RDONLY] *)
| ERead (path : text) (size : Z)
| EPopen (cmd : text)
| ESystem (cmd : text)
| EStat (path : text)
| EAccess (path : text)
| EUnlink (path : text)
| ESymlink (target path : text)
| EChdir (path : text)
| EGetcwd
| EOpendir (path : text)
| EUtimes (path : text)
| ETime
| EKill (pid signal : Z)
| ESleep (seconds : Z)
| ESignals                                 (** the signal flags are looked at *)
| ESignalIgnore (signal : Z)
| EFork
| EPipe
| ESetsid
| EExec (path : text) (args : list cptr)
| EWaitpid (pid : Z)
| EGetpid
| EGetuid
| ESetgid (gid : Z)
| ESetuid (uid : Z)
| EOpenExcl (path : text) (mode : Z)       (** [O_CREAT | O_EXCL] *)
| EChmod (path : text) (mode : Z)
| EMknod (path : text) (mode dev : Z)
| EGetpwnam (name : text)
| EGetaddrinfo (host port : text)
| EConnect (host port : text)
| ESend (data : list char)
| ERecv (size : Z)
| EWorkerReady                             (** the byte the worker writes at its start *)
| EHandler (command : Z).                  (** a byte written to the worker *)

Definition trace : Type := list event.

(** ** Answers *)

Inductive file_kind := KDir | KReg | KOther.
Record stat_result := mkstat { st_kind : file_kind; st_mode : Z; st_size : Z }.

Definition SIGHUP : Z := 1.
Definition SIGINT : Z := 2.
Definition SIGKILL : Z := 9.
Definition SIGTERM : Z := 15.
Definition SIGCHLD : Z := 17.

Definition NOERR : Z := 0.
Definition ENOENT : Z := 2.
Definition ERANGE : Z := 34.
Definition ESRCH : Z := 3.

Class Environment := {
  (** [errno], 0 for success *)
  os_mkdir : trace -> text -> Z -> Z;
  (** whether [open] gives a descriptor *)
  os_open : trace -> text -> bool;
  (** the result of [write] *)
  os_write : trace -> text -> list char -> Z;
  (** the chunks [fread] delivers and the final [ferror]; [None]: no [FILE] *)
  os_read_file : trace -> text -> option (list (list char) * bool);
  (** whether [open] gives a descriptor to read from, and what [read] delivers
      there; [None]: -1 *)
  os_open_read : trace -> text -> bool;
  os_read : trace -> text -> Z -> option (list char);
  os_popen : trace -> text -> option (list (list char));
  os_system : trace -> text -> Z;
  os_stat : trace -> text -> option stat_result;
  os_access : trace -> text -> bool;
  os_unlink : trace -> text -> bool;
  os_symlink : trace -> text -> text -> bool;
  os_chdir : trace -> text -> bool;
  (** the working directory, or [errno] *)
  os_getcwd : trace -> text + Z;
  (** the names [readdir] gives; [None]: [opendir] failed *)
  os_opendir : trace -> text -> option (list text);
  os_utimes : trace -> text -> bool;
  os_time : trace -> Z;
  (** [errno] of [kill], 0 for success *)
  os_kill : trace -> Z -> Z -> Z;
  (** the result of [fork] *)
  os_fork : trace -> Z;
  (** the two descriptors *)
  os_pipe : trace -> option (Z * Z);
  (** the signals handled since the flags were looked at before, in order *)
  os_signals : trace -> list Z;
  os_setsid : trace -> Z;
  os_exec : trace -> text -> bool;
  (** the result and the status *)
  os_waitpid : trace -> Z -> Z * Z;
  os_getpid : trace -> Z;
  os_getuid : trace -> Z;
  os_setgid : trace -> Z -> bool;
  os_setuid : trace -> Z -> bool;
  os_open_excl : trace -> text -> bool;
  os_chmod : trace -> text -> bool;
  os_mknod : trace -> text -> bool;
  (** user and group id *)
  os_getpwnam : trace -> text -> option (Z * Z);
  os_worker_ready : trace -> bool;
  (** whether the byte for the worker could be written *)
  os_handler : trace -> Z -> bool
}.

(** The network: whether a name resolves and one of its addresses accepts a
    connection, the result of [send], and the bytes [recv] delivers ([None]: -1). *)
Class Network := {
  net_getaddrinfo : trace -> text -> text -> bool;
  net_connect : trace -> text -> text -> bool;
  net_send : trace -> list char -> Z;
  net_recv : trace -> Z -> option (list char)
}.

(** ** The monad *)

Definition io (A : Type) : Type := trace -> outcome_with trace (A * trace).

#[export] Instance io_ret : MRet io := fun _ a t => Ret (a, t).
#[export] Instance io_bind : MBind io := fun _ _ f m t =>
  match m t with
  | Ret (a, t') => f a t'
  | Exits n t' => Exits n t'
  | Undef => Undef
  end.

(** A computation that makes no request. *)
Definition lift {A} (m : outcome A) : io A := fun t =>
  match m with Ret a => Ret (a, t) | Exit n => Exits n t | Undef => Undef end.

(** A request: the event is recorded, the answer is a function of what went
    before. *)
Definition request {A} (e : event) (answer : trace -> A) : io A := fun t =>
  Ret (answer t, t ++ [e]).

Definition io_exit {A} (n : Z) : io A := fun t => Exits n t.

Section Calls.
Context `{Environment}.

Definition sys_mkdir (p : text) (mode : Z) : io Z := request (EMkdir p mode) (fun t => os_mkdir t p mode).
Definition sys_open_write (p : text) (mode : Z) : io bool := request (EOpenWrite p mode) (fun t => os_open t p).
Definition sys_open_copy (p : text) (mode : Z) : io bool := request (EOpenCopy p mode) (fun t => os_open t p).
Definition sys_write (p : text) (d : list char) : io Z := request (EWrite p d) (fun t => os_write t p d).
Definition sys_read_file (p : text) := request (EReadFile p) (fun t => os_read_file t p).
Definition sys_open_read (p : text) : io bool := request (EOpenRead p) (fun t => os_open_read t p).
Definition sys_read (p : text) (n : Z) := request (ERead p n) (fun t => os_read t p n).
Definition sys_popen (c : text) := request (EPopen c) (fun t => os_popen t c).
Definition sys_system (c : text) : io Z := request (ESystem c) (fun t => os_system t c).
Definition sys_stat (p : text) := request (EStat p) (fun t => os_stat t p).
Definition sys_access (p : text) : io bool := request (EAccess p) (fun t => os_access t p).
Definition sys_unlink (p : text) : io bool := request (EUnlink p) (fun t => os_unlink t p).
Definition sys_symlink (a p : text) : io bool := request (ESymlink a p) (fun t => os_symlink t a p).
Definition sys_chdir (p : text) : io bool := request (EChdir p) (fun t => os_chdir t p).
Definition sys_getcwd := request EGetcwd os_getcwd.
Definition sys_opendir (p : text) := request (EOpendir p) (fun t => os_opendir t p).
Definition sys_utimes (p : text) : io bool := request (EUtimes p) (fun t => os_utimes t p).
Definition sys_time : io Z := request ETime os_time.
Definition sys_kill (pid sig : Z) : io Z := request (EKill pid sig) (fun t => os_kill t pid sig).
Definition sys_sleep (n : Z) : io unit := request (ESleep n) (fun _ => tt).
Definition sys_fork : io Z := request EFork os_fork.
Definition sys_pipe := request EPipe os_pipe.
Definition sys_signals := request ESignals os_signals.
Definition sys_setsid : io Z := request ESetsid os_setsid.
Definition sys_exec (p : text) (a : list cptr) : io bool := request (EExec p a) (fun t => os_exec t p).
Definition sys_waitpid (pid : Z) := request (EWaitpid pid) (fun t => os_waitpid t pid).
Definition sys_getpid : io Z := request EGetpid os_getpid.
Definition sys_getuid : io Z := request EGetuid os_getuid.
Definition sys_setgid (g : Z) : io bool := request (ESetgid g) (fun t => os_setgid t g).
Definition sys_setuid (u : Z) : io bool := request (ESetuid u) (fun t => os_setuid t u).
Definition sys_open_excl (p : text) (m : Z) : io bool := request (EOpenExcl p m) (fun t => os_open_excl t p).
Definition sys_chmod (p : text) (m : Z) : io bool := request (EChmod p m) (fun t => os_chmod t p).
Definition sys_mknod (p : text) (m d : Z) : io bool := request (EMknod p m d) (fun t => os_mknod t p).
Definition sys_getpwnam (n : text) := request (EGetpwnam n) (fun t => os_getpwnam t n).
Definition sys_signal_ignore (sig : Z) : io unit := request (ESignalIgnore sig) (fun _ => tt).
Definition sys_worker_ready : io bool := request EWorkerReady os_worker_ready.
Definition sys_handler (command : Z) : io bool := request (EHandler command) (fun t => os_handler t command).

End Calls.

(** ** Reasoning

    [runs m t P]: started after the history [t], [m] returns, and [P] holds of
    its result and of the requests it made. *)

Definition runs {A} (m : io A) (t : trace) (P : A -> trace -> Prop) : Prop :=
  exists a new, m t = Ret (a, t ++ new) /\ P a new.

Lemma runs_ret {A} (a : A) t (P : A -> trace -> Prop) : P a [] -> runs (mret a) t P.
Proof. intros H. exists a, []. by rewrite app_nil_r. Qed.

Lemma runs_bind {A B} (m : io A) (f : A -> io B) t (P : A -> trace -> Prop) (Q : B -> trace -> Prop) :
  runs m t P ->
  (forall a n1, P a n1 -> runs (f a) (t ++ n1) (fun b n2 => Q b (n1 ++ n2))) ->
  runs (m ≫= f) t Q.
Proof.
  intros (a & n1 & E & HP) Hf. destruct (Hf a n1 HP) as (b & n2 & E2 & HQ).
  exists b, (n1 ++ n2). split; [|done]. unfold mbind, io_bind. rewrite E, E2. by rewrite app_assoc.
Qed.

Lemma runs_request {A} e (answer : trace -> A) t (P : A -> trace -> Prop) :
  P (answer t) [e] -> runs (request e answer) t P.
Proof. intros H. by exists (answer t), [e]. Qed.

Lemma runs_lift {A} (m : outcome A) t (P : A -> trace -> Prop) a :
  m = Ret a -> P a [] -> runs (lift m) t P.
Proof. intros -> H. exists a, []. by rewrite app_nil_r. Qed.

(** Steps of a computation: a request and a function that returns. *)
Lemma runs_request_bind {A B} e (answer : trace -> A) (f : A -> io B) t (Q : B -> trace -> Prop) :
  runs (f (answer t)) (t ++ [e]) (fun b n => Q b (e :: n)) -> runs (request e answer ≫= f) t Q.
Proof.
  intros (b & n & E & HQ). exists b, (e :: n). split; [|done].
  unfold mbind, io_bind, request. by rewrite E, <- app_assoc.
Qed.

Lemma runs_lift_bind {A B} (m : outcome A) (f : A -> io B) t (Q : B -> trace -> Prop) a :
  m = Ret a -> runs (f a) t Q -> runs (lift m ≫= f) t Q.
Proof. intros -> (b & n & E & HQ). exists b, n. done. Qed.

Lemma runs_weaken {A} (m : io A) t (P Q : A -> trace -> Prop) :
  (forall a n, P a n -> Q a n) -> runs m t P -> runs m t Q.
Proof. intros HPQ (a & n & E & HP). exists a, n. eauto. Qed.

(** [ask] makes the request the computation starts with; [calc E] evaluates the
    function it starts with by the equation [E]. *)
Ltac ask := apply runs_request_bind; cbn beta iota.
Ltac calc E := eapply runs_lift_bind; [exact E|]; cbn beta iota; cbn [negb].

(** [partial m t P]: if [m] returns, [P] holds; it may also exit. *)
Definition partial {A} (m : io A) (t : trace) (P : A -> trace -> Prop) : Prop :=
  forall a t', m t = Ret (a, t') -> exists new, t' = t ++ new /\ P a new.

Lemma partial_bind {A B} (m : io A) (f : A -> io B) t (P : A -> trace -> Prop) (Q : B -> trace -> Prop) :
  partial m t P ->
  (forall a n1, P a n1 -> partial (f a) (t ++ n1) (fun b n2 => Q b (n1 ++ n2))) ->
  partial (m ≫= f) t Q.
Proof.
  intros Hm Hf b t' E. unfold mbind, io_bind in E.
  destruct (m t) as [[a t1]| |] eqn:Em; try done.
  destruct (Hm _ _ Em) as (n1 & -> & HP). destruct (Hf a n1 HP _ _ E) as (n2 & -> & HQ).
  exists (n1 ++ n2). split; [by rewrite app_assoc | done].
Qed.

(** [returns m P]: whatever happens, a result of [m] satisfies [P]. *)
Definition returns {A} (m : io A) (P : A -> Prop) : Prop := forall t a t', m t = Ret (a, t') -> P a.

Lemma returns_ret {A} (a : A) (P : A -> Prop) : P a -> returns (mret a) P.
Proof. intros Hp t b t' [= <- <-]. done. Qed.

Lemma returns_bind {A B} (m : io A) (f : A -> io B) (P : B -> Prop) :
  (forall a, returns (f a) P) -> returns (m ≫= f) P.
Proof.
  intros Hf t b t' E. unfold mbind, io_bind in E. destruct (m t) as [[a t1]| |] eqn:Em; try done.
  by eapply Hf.
Qed.

(** Inversion of executions that return. *)
Lemma io_bind_inv {A B} (m : io A) (f : A -> io B) t b t' :
  (m ≫= f) t = Ret (b, t') -> exists a t1, m t = Ret (a, t1) /\ f a t1 = Ret (b, t').
Proof.
  unfold mbind, io_bind. destruct (m t) as [[a t1]| |] eqn:E; try done. intros Hf. by exists a, t1.
Qed.

Lemma io_lift_inv {A} (m : outcome A) t a t' : lift m t = Ret (a, t') -> m = Ret a /\ t' = t.
Proof. unfold lift. destruct m as [|? []|]; try done. by intros [= -> ->]. Qed.

Lemma io_ret_inv {A} (a b : A) t t' : mret (M := io) a t = Ret (b, t') -> b = a /\ t' = t.
Proof. by intros [= -> ->]. Qed.

Lemma io_request_inv {A} e (answer : trace -> A) t a t' :
  request e answer t = Ret (a, t') -> a = answer t /\ t' = t ++ [e].
Proof. by intros [= -> ->]. Qed.

(** Follows an execution that returned: binds, pairs and tests in the order of
    the code; the computations of [outcome] in it are left as equations. *)
Ltac unwind_io H :=
  repeat (cbv beta in H; lazymatch type of H with
  | io_exit _ _ = Ret _ => discriminate H
  | lift Undef _ = Ret _ => discriminate H
  | mbind _ _ _ = Ret _ =>
      let E := fresh "E" in
      apply io_bind_inv in H as (? & ? & E & H);
      try (apply io_lift_inv in E as [E ->])
  | (match ?b with _ => _ end) _ = Ret _ =>
      let E := fresh "E" in first [is_var b; destruct b | destruct b eqn:E]
  end).

(** What [m] has asked of the system when it returns or ends the program. *)
Inductive asks {A} (m : io A) (t : trace) : trace -> Prop :=
| asks_returns a t' : m t = Ret (a, t') -> asks m t t'
| asks_exits n t' : m t = Exits n t' -> asks m t t'.

Lemma io_bind_exits {A B} (m : io A) (f : A -> io B) t n t' :
  (m ≫= f) t = Exits n t' -> m t = Exits n t' \/ exists a t1, m t = Ret (a, t1) /\ f a t1 = Exits n t'.
Proof.
  unfold mbind, io_bind. destruct (m t) as [[a t1]|k t1|] eqn:E; try done; intros Ef; [right; by exists a, t1 | left; congruence].
Qed.

Lemma asks_bind {A B} (m : io A) (f : A -> io B) t t' :
  asks (m ≫= f) t t' ->
  (exists n, m t = Exits n t') \/ exists a t1, m t = Ret (a, t1) /\ asks (f a) t1 t'.
Proof.
  intros [b t1 E|n t1 E]; unfold mbind, io_bind in E; destruct (m t) as [[a t2]|n' t2|] eqn:Em; try done.
  - right. exists a, t2. split; [done | by eapply asks_returns].
  - right. exists a, t2. split; [done | by eapply asks_exits].
  - left. injection E as -> ->. by exists n.
Qed.

Lemma asks_lift {A} (m : outcome A) t t' : asks (lift m) t t' -> t' = t.
Proof. intros [a t1 E|n t1 E]; unfold lift in E; destruct m as [|? []|]; congruence. Qed.

Lemma asks_ret {A} (a : A) t t' : asks (mret (M := io) a) t t' -> t' = t.
Proof. by intros [b t1 [= -> ->]|n t1 E]. Qed.

Lemma asks_exit {A} n t t' : asks (@io_exit A n) t t' -> t' = t.
Proof. by intros [b t1 E|m t1 [= -> ->]]. Qed.

Lemma asks_request {A} e (answer : trace -> A) t t' : asks (request e answer) t t' -> t' = t ++ [e].
Proof. intros [b t1 E|n t1 E]; [by apply io_request_inv in E as [_ ->] | done]. Qed.

(** [emits P m]: every request [m] makes satisfies [P], also when it ends the
    program. *)
Definition emits {A} (P : event -> Prop) (m : io A) : Prop :=
  forall t t', asks m t t' -> exists new, t' = t ++ new /\ Forall P new.

Create HintDb emits discriminated.

Lemma emits_run {A} P (m : io A) t a t' :
  emits P m -> m t = Ret (a, t') -> exists new, t' = t ++ new /\ Forall P new.
Proof. intros Hm E. eapply Hm, asks_returns, E. Qed.

Lemma emits_exits {A} P (m : io A) t n t' :
  emits P m -> m t = Exits n t' -> exists new, t' = t ++ new /\ Forall P new.
Proof. intros Hm E. eapply Hm, asks_exits, E. Qed.

Lemma emits_ret {A} P (a : A) : emits P (mret a).
Proof. intros t t' ->%asks_ret. exists []. by rewrite app_nil_r. Qed.

Lemma emits_lift {A} P (m : outcome A) : emits P (lift m).
Proof. intros t t' ->%asks_lift. exists []. by rewrite app_nil_r. Qed.

Lemma emits_exit {A} P n : emits P (@io_exit A n).
Proof. intros t t' ->%asks_exit. exists []. by rewrite app_nil_r. Qed.

Lemma emits_request {A} (P : event -> Prop) e (answer : trace -> A) : P e -> emits P (request e answer).
Proof. intros He t t' ->%asks_request. exists [e]. split; [done|]. by constructor. Qed.

Lemma emits_bind {A B} P (m : io A) (f : A -> io B) :
  emits P m -> (forall a, emits P (f a)) -> emits P (m ≫= f).
Proof.
  intros Hm Hf t t' [(n & E)|(a & t1 & E1 & E2)]%asks_bind; [by eapply emits_exits|].
  destruct (emits_run _ _ _ _ _ Hm E1) as (n1 & -> & H1). destruct (Hf _ _ _ E2) as (n2 & -> & H2).
  exists (n1 ++ n2). split; [by rewrite app_assoc | by apply Forall_app].
Qed.

Lemma emits_weaken {A} (P Q : event -> Prop) (m : io A) :
  (forall e, P e -> Q e) -> emits P m -> emits Q m.
Proof.
  intros HPQ Hm t t' E. destruct (Hm _ _ E) as (n & -> & Hn). exists n. split; [done|].
  by eapply list.Forall_impl.
Qed.

#[export] Hint Resolve emits_ret emits_lift emits_exit : emits.

(** Goes through the code: binds, pairs and tests; requests and calls are left
    to the hints. *)
Ltac emits_tac :=
  repeat lazymatch goal with
  | |- emits _ (mbind _ _) => apply emits_bind; [|intros ?]
  | |- emits _ (match ?b with _ => _ end) => destruct b
  | |- emits _ (let '(_, _) := ?p in _) => destruct p
  | |- emits _ (request _ _) => apply emits_request
  | |- forall _, _ => intros ?
  | |- emits _ _ => solve [auto 2 with emits]
  end.

(** An environment in which every request is granted, for concrete runs: the
    clock, the signals, the files, the outputs of commands, the kinds of the directory
    entries and the directories are given. *)
Definition granting_at (clock : trace -> Z) (signals : trace -> list Z) (files : text -> option (list char)) (commands : text -> option (list char))
    (kinds : text -> option file_kind) (dirs : text -> option (list text)) : Environment := {|
  os_mkdir := fun _ _ _ => 0;
  os_open := fun _ _ => true;
  os_write := fun _ _ d => zlen d;
  os_read_file := fun _ p => option_map (fun d => ([d], false)) (files p);
  os_open_read := fun _ p => match files p with Some _ => true | None => false end;
  os_read := fun _ p n => option_map (ztake n) (files p);
  os_popen := fun _ c => option_map (fun d => [d]) (commands c);
  os_system := fun _ _ => 0;
  os_stat := fun _ p => option_map (fun k => mkstat k 420 0) (kinds p);
  os_access := fun _ _ => true;
  os_unlink := fun _ _ => true;
  os_symlink := fun _ _ _ => true;
  os_chdir := fun _ _ => true;
  os_getcwd := fun _ => inl [47];
  os_opendir := fun _ p => dirs p;
  os_utimes := fun _ _ => true;
  os_time := clock;
  os_kill := fun _ _ _ => ESRCH;
  os_fork := fun _ => 77;
  os_pipe := fun _ => Some (7, 8);
  os_signals := signals;
  os_setsid := fun _ => 78;
  os_exec := fun _ _ => true;
  os_waitpid := fun _ p => (p, 0);
  os_getpid := fun _ => 4242;
  os_getuid := fun _ => 0;
  os_setgid := fun _ _ => true;
  os_setuid := fun _ _ => true;
  os_open_excl := fun _ _ => true;
  os_chmod := fun _ _ => true;
  os_mknod := fun _ _ => true;
  os_getpwnam := fun _ _ => Some (100, 100);
  os_worker_ready := fun _ => true;
  os_handler := fun _ _ => true
|}.

(** A minute for every request, and no signal. *)
Definition granting := granting_at (fun t => 1000 + 60 * zlen t) (fun _ => []).
