(* ===== verification/Fs.v ===== *)
(** * Files: fs.c

    Creating directories, writing and reading whole files, running a command
    for its output, emptying a directory.  The recursive directory
    copy is in FsCopy.v. *)

From S2P Require Import Prelude CLib CString StrBuf World.

Section Fs.
Context `{Allocator} `{Environment}.

(** The [for] loop: the last position of a slash, 0 when there is none. *)
Fixpoint last_slash (path : text) (i pos : Z) : Z :=
  match path with
  | [] => pos
  | c :: path => last_slash path (i + 1) (if c =? 47 then i else pos)
  end.

(** The result and what the caller's buffer reads afterwards. *)
Fixpoint fs_mkdir_p (fuel : nat) (path : text) (mode : Z) : io (Z * text) :=
  match fuel with
  | O => lift Undef
  | S fuel' =>
      errno ← sys_mkdir path mode;
      let err := if errno =? 0 then 0 else -1 in
      if negb (err =? NOERR) && (errno =? ENOENT) then
        let pos := last_slash path 0 0 in
        if pos =? 0 then mret (-1, path)
        else
          '(err, parent) ← fs_mkdir_p fuel' (ztake pos path) mode;
          if negb (err =? NOERR) then mret (err, parent)
          else
            errno ← sys_mkdir path mode;
            mret (if errno =? 0 then 0 else -1, path)
      else mret (err, path)
  end.

(** [s->s[s->length - 1]] *)
Definition last_char (s : strbuf) : outcome char :=
  match s_s s with
  | None => Undef
  | Some b =>
      let i := u64 (s_length s - 1) in
      if zlen b <=? i then Undef else Ret (nth (Z.to_nat i) b 0)
  end.

Definition fs_ensure_suffix (s : strbuf) : outcome (bool * strbuf) :=
  c ← last_char s;
  if c =? 47 then Ret (true, s)
  else
    '(ok, s) ← string_putc s 47;
    if negb ok then Ret (false, s) else string_ensurez s.

(** [getcwd (buf, size)] *)
Definition getcwd (size : Z) : io (text + Z) :=
  r ← sys_getcwd;
  mret (match r with inl p => if zlen p <? size then inl p else inr ERANGE | inr e => inr e end).

Definition cwd_append (s : strbuf) (p : text) : outcome (bool * strbuf) :=
  '(ok, s) ← string_concat s p;
  if negb ok then Ret (false, s)
  else
    c ← last_char s;
    if c =? 47 then Ret (true, s) else string_putc s 47.

(** The loop over buffer sizes: [bta] is 4096 times a number from 1 to 15. *)
Fixpoint cwd_loop (turns : nat) (bta : Z) (s : strbuf) : io (bool * strbuf) :=
  match turns with
  | O => mret (true, s)
  | S turns =>
      if negb (alloc_ok bta) then mret (false, s)
      else
        r ← getcwd bta;
        match r with
        | inl p => lift (cwd_append s p)
        | inr e => if negb (e =? ERANGE) then mret (false, s) else cwd_loop turns (bta + 4096) s
        end
  end.

Definition fs_get_cwd (s : strbuf) : io (bool * strbuf) :=
  r ← getcwd 256;
  match r with
  | inl p => lift (cwd_append s p)
  | inr e => if negb (e =? ERANGE) then mret (false, s) else cwd_loop 15 4096 s
  end.

(** [cnt] is the object the pointer points into, [len] of its bytes are written. *)
Definition fs_writecontents (fn : text) (cnt : list char) (len mode : Z) : io bool :=
  if zlen cnt <? len then lift Undef
  else
    fh ← sys_open_write fn mode;
    if negb fh then mret false
    else
      bw ← sys_write fn (ztake len cnt);
      mret (if negb (len =? u64 bw) then false else true).

Definition fs_writecontents_safe (dir fn : text) (cnt : list char) (len mode : Z) : io bool :=
  let dlen := u32 (strlen dir + 1) in
  let reqlen := u32 (dlen + strlen fn + 1) in
  let len := u64 (s32 len) in
  if negb (alloc_ok reqlen) then mret true
  else if reqlen <? strlen dir + 1 + strlen fn + 1 then lift Undef
  else
    let buf := dir ++ 47 :: map (fun c => if c =? 47 then 95 else c) fn in
    fs_writecontents buf cnt len mode.

(** The [fread] loop: every chunk is appended. *)
Fixpoint read_chunks (chunks : list (list char)) (buffer : strbuf) : outcome (bool * strbuf) :=
  match chunks with
  | [] => Ret (true, buffer)
  | c :: chunks =>
      '(ok, buffer) ← string_concatb buffer c (zlen c);
      if ok : bool then read_chunks chunks buffer else Ret (false, buffer)
  end.

Definition fs_read_file (buffer : strbuf) (fname : text) : io (bool * strbuf) :=
  fp ← sys_read_file fname;
  match fp with
  | None => mret (false, buffer)
  | Some (chunks, ferror) =>
      '(ok, buffer) ← lift (read_chunks chunks buffer);
      mret (if ok : bool then negb ferror else false, buffer)
  end.

Definition fs_read_fd (buffer : strbuf) (chunks : list (list char)) : outcome (bool * strbuf) :=
  read_chunks chunks buffer.

Definition fs_backticks_exec (cmd : text) (outputbuffer : strbuf) : io (bool * strbuf) :=
  pfd ← sys_popen cmd;
  match pfd with
  | None => mret (false, outputbuffer)
  | Some chunks => lift (fs_read_fd outputbuffer chunks)
  end.

(** [.] and [..] *)
Definition is_dot_entry (name : text) : bool :=
  bool_decide (name = [46]) || bool_decide (name = [46; 46]).

(** The [readdir] loop of [fs_empty_dir]. *)
Fixpoint empty_loop (names : list text) (dst : strbuf) : io (bool * strbuf) :=
  match names with
  | [] => mret (true, dst)
  | name :: names =>
      st ← sys_stat name;
      match st with
      | None => empty_loop names dst
      | Some st =>
          if is_dot_entry name then empty_loop names dst
          else match st_kind st with
          | KReg =>
              let dstdirlen := s_length dst in
              '(ok, dst) ← lift (string_concat dst name);
              if negb ok then mret (false, dst)
              else
                path ← lift (cstr_of dst);
                _ ← sys_unlink path;
                empty_loop names (mkstr dstdirlen (s_size dst) (s_growby dst) (s_s dst))
          | _ => empty_loop names dst
          end
      end
  end.

(** [bail_out]: back to the old directory. *)
Definition back_to (curwd : strbuf) (retval : bool) : io bool :=
  '(ok, curwd) ← lift (string_ensurez curwd);
  if negb ok then mret retval
  else p ← lift (cstr_of curwd); _ ← sys_chdir p; mret retval.

Definition fs_empty_dir (dest : text) : io bool :=
  let '(_, dst) := string_init 512 512 in
  let '(_, curwd) := string_init 512 512 in
  '(ok, curwd) ← fs_get_cwd curwd;
  if negb ok then mret false
  else
    let bail_out := back_to curwd in
    '(ok, dst) ← (if negb (nth 0 dest 0 =? 47) then fs_get_cwd dst else mret (true, dst));
    if negb ok then bail_out false
    else
      '(ok, dst) ← lift (string_concat dst dest);
      if negb ok then bail_out false
      else
        '(ok, dst) ← lift (string_ensurez dst);
        if negb ok then bail_out false
        else
          p ← lift (cstr_of dst);
          st ← sys_stat p;
          match st with
          | None => bail_out true
          | Some st =>
              match st_kind st with
              | KDir =>
                  '(ok, dst) ← lift (fs_ensure_suffix dst);
                  if negb ok then bail_out false
                  else
                    p ← lift (cstr_of dst);
                    ok ← sys_chdir p;
                    if negb ok then bail_out false
                    else
                      dir ← sys_opendir p;
                      match dir with
                      | None => bail_out false
                      | Some names =>
                          '(retval, _) ← empty_loop names dst;
                          bail_out retval
                      end
              | _ => bail_out false
              end
          end.

End Fs.
