(* ===== verification/FsProps.v ===== *)
(** * Theorems about fs.c *)

From S2P Require Import Prelude CLib CString StrBuf World Fs.

(** What the system guarantees of the names it gives: file names are not empty,
    hold no NUL and no slash and have at most 255 characters; the working
    directory has a path, of less than 4096 characters. *)
Class EnvironmentOk (E : Environment) : Prop := {
  opendir_names t p l : os_opendir t p = Some l ->
    Forall (fun n => n <> [] /\ nonul n /\ 47 ∉ n /\ zlen n < 256) l;
  getcwd_path t : match os_getcwd t with
    | inl p => nonul p /\ zlen p < 4096 /\ p <> []
    | inr e => e <> ERANGE
    end;
  write_range t p d : -1 <= os_write t p d <= zlen d
}.

(** ** Lemmas *)

Section Mkdir.
Context `{Allocator} `{Environment}.

Lemma last_slash_range path i pos :
  0 <= pos -> 0 <= i -> pos <= i -> 
  let r := last_slash path i pos in
  0 <= r /\ (r = pos \/ i <= r < i + zlen path).
Proof using Type.
  revert i pos; induction path as [|c path IH]; intros i pos Hp Hi Hle; cbn [last_slash]; [lia|].
  rewrite zlen_cons. pose proof (zlen_nonneg path).
  destruct (IH (i + 1) (if c =? 47 then i else pos)) as (? & ?);
    try (destruct (c =? 47); lia).
Qed.

(** [fs_mkdir_p] ends; the directories it asks for are prefixes of the path;
    0 means that the last request was for the path itself and was granted. *)
Lemma mkdir_p_runs fuel path mode t :
  (length path < fuel)%nat ->
  runs (fs_mkdir_p fuel path mode) t (fun r new =>
    (fst r = 0 \/ fst r = -1) /\
    Forall (fun e => exists q, e = EMkdir q mode /\ q `prefix_of` path) new /\
    (fst r = 0 -> snd r = path /\ exists before, new = before ++ [EMkdir path mode] /\
       os_mkdir (t ++ before) path mode = 0) /\
    snd r `prefix_of` path /\ (os_mkdir t path mode <> ENOENT -> snd r = path)).
Proof using Type.
  revert path t; induction fuel as [|fuel IH]; intros path t Hf; [lia|]. cbn [fs_mkdir_p].
  ask. unfold NOERR.
  assert (Forall (fun e => exists q, e = EMkdir q mode /\ q `prefix_of` path) [EMkdir path mode]) as Hself
    by (repeat constructor; eauto).
  destruct (Z.eqb_spec (os_mkdir t path mode) 0) as [E|E]; cbn [negb Z.eqb andb].
  { apply runs_ret. cbn [fst snd]. split_and!; [by left | done | | done | done].
    intros _. split; [done|]. exists []. by rewrite app_nil_r. }
  destruct (Z.eqb_spec (os_mkdir t path mode) ENOENT).
  2: { apply runs_ret. cbn. split_and!; [by right | done | done | done | done]. }
  pose proof (last_slash_range path 0 0 ltac:(lia) ltac:(lia) ltac:(lia)) as Hr. cbn zeta in Hr.
  set (pos := last_slash path 0 0) in *. destruct (Z.eqb_spec pos 0).
  { apply runs_ret. cbn. split_and!; [by right | done | done | done | done]. }
  assert (ztake pos path `prefix_of` path) as Hpre by (exists (zdrop pos path); by rewrite ztake_zdrop).
  eapply runs_bind; [apply IH; rewrite <- (Nat2Z.id (length _)); fold (zlen (ztake pos path));
    rewrite zlen_ztake; zlia|].
  intros [err parent] n1 (Herr & Hn1 & _ & Hpar & _). cbn [fst snd] in Herr, Hpar.
  assert (Forall (fun e => exists q, e = EMkdir q mode /\ q `prefix_of` path) n1) as Hn1'.
  { eapply list.Forall_impl; [exact Hn1|]. intros ev (q & -> & Hq). exists q. split; [done|]. by etrans. }
  destruct (Z.eqb_spec err 0); cbn [negb].
  2: { apply runs_ret. cbn [fst snd]. rewrite app_nil_r. split_and!; [done | | done | by etrans | done].
       by apply (Forall_app _ [_]). }
  ask. apply runs_ret. cbn [fst snd]. split_and!; [| | | done | done].
  - destruct (_ =? 0); auto.
  - apply (Forall_app _ [_]). split; [done|]. by apply Forall_app.
  - destruct (Z.eqb_spec (os_mkdir ((t ++ [EMkdir path mode]) ++ n1) path mode) 0); [|done].
    intros _. split; [done|]. exists ([EMkdir path mode] ++ n1). split; [by rewrite <- app_assoc|].
    by rewrite app_assoc.
Qed.

End Mkdir.

(** *** Writing *)

Section Write.
Context `{Allocator} `{Environment}.

(** What [fs_writecontents] asks for, and when it returns true. *)
Lemma writecontents_runs fn cnt len mode t :
  0 <= len <= zlen cnt -> len < 2 ^ 63 -> (forall t p d, -1 <= os_write t p d <= zlen d) ->
  runs (fs_writecontents fn cnt len mode) t (fun ok new =>
    if os_open t fn then
      new = [EOpenWrite fn mode; EWrite fn (ztake len cnt)] /\
      ok = (os_write (t ++ [EOpenWrite fn mode]) fn (ztake len cnt) =? len)
    else new = [EOpenWrite fn mode] /\ ok = false).
Proof using Type.
  intros Hlen Hmax Hw. unfold fs_writecontents. replace (zlen cnt <? len) with false by lia.
  ask. destruct (os_open t fn); cbn [negb]; [|by apply runs_ret].
  ask. apply runs_ret. cbn. split; [done|].
  specialize (Hw (t ++ [EOpenWrite fn mode]) fn (ztake len cnt)).
  rewrite zlen_ztake in Hw by lia. set (w := os_write _ _ _) in *. clearbody w.
  destruct (Z.eqb_spec w len) as [->|Hne].
  - rewrite u64_small by lia. by rewrite Z.eqb_refl.
  - replace (len =? u64 w) with false; [done|]. symmetry. apply Z.eqb_neq. intros E.
    destruct (decide (w = -1)) as [->|].
    + change (u64 (-1)) with (2 ^ 64 - 1) in E. lia.
    + rewrite u64_small in E by lia. lia.
Qed.

Definition safe_name (fn : text) : text := map (fun c => if c =? 47 then 95 else c) fn.

Lemma safe_name_no_slash fn : 47 ∉ safe_name fn.
Proof using Type.
  intros Hin. apply list_elem_of_In, in_map_iff in Hin as (c & Hc & _). destruct (Z.eqb_spec c 47); lia.
Qed.

Lemma writecontents_safe_eq dir fn cnt len mode :
  alloc_ok (strlen dir + strlen fn + 2) = true -> zlen dir + zlen fn + 2 < 2 ^ 32 -> 0 <= len < 2 ^ 31 ->
  fs_writecontents_safe dir fn cnt len mode =
    fs_writecontents (dir ++ 47 :: safe_name fn) cnt len mode.
Proof using Type.
  intros Ha Hl Hlen. unfold fs_writecontents_safe, u32, strlen in *.
  pose proof (zlen_nonneg dir). pose proof (zlen_nonneg fn).
  rewrite (Z.mod_small (zlen dir + 1)) by lia. rewrite (Z.mod_small (_ + _ + 1)) by lia.
  replace (zlen dir + 1 + zlen fn + 1) with (zlen dir + zlen fn + 2) by lia. rewrite Ha.
  cbn [negb]. replace (_ <? _) with false by lia.
  replace (u64 (s32 len)) with len; [done|]. unfold s32, u64.
  rewrite (Z.mod_small (len + 2 ^ 31)) by lia. rewrite Z.mod_small; lia.
Qed.

End Write.

(** *** Emptying a directory *)

Section Empty.
Context `{Allocator} `{EnvironmentOk}.
Hypothesis Hmem : alloc_enough.

(** The requests of a run that remove a file satisfy [P]. *)
Definition unlinks_only (P : text -> Prop) (new : trace) : Prop :=
  Forall (fun e => match e with EUnlink p => P p | _ => True end) new.

Lemma unlinks_app P a b : unlinks_only P a -> unlinks_only P b -> unlinks_only P (a ++ b).
Proof using Type. intros. by apply Forall_app. Qed.

Lemma cwd_append_ok s p :
  good_str s -> nonul (content s ++ p) -> s_length s + zlen p + 2 < str_limit -> p <> [] ->
  exists s', cwd_append s p = Ret (true, s') /\ good_str s' /\ nonul (content s') /\
    0 < s_length s' <= s_length s + zlen p + 1.
Proof using Hmem.
  intros Hg Hn Hl Hp. unfold cwd_append.
  destruct (concat_holds Hmem s p Hg Hn) as (s1 & -> & Hh); [lia|]. cbn [mbind outcome_bind negb].
  pose proof (holds_length _ _ Hh) as Hlen. rewrite zlen_app, zlen_content in Hlen by apply Hg.
  assert (0 < zlen p) as Hpp by (destruct p; [done | zlia]).
  destruct Hh as [Hg1 Hc1 Hn1 _]. pose proof (wf_length _ (good_wf _ Hg1)).
  pose proof (wf_buf _ (good_wf _ Hg1)) as Hb. pose proof (wf_length _ (good_wf _ Hg)).
  unfold last_char. destruct (s_s s1) as [b|].
  2: { exfalso. pose proof (wf_length _ (good_wf _ Hg1)). lia. }
  pose proof (good_size _ Hg1). unfold str_limit in *. rewrite u64_small by lia.
  replace (zlen b <=? s_length s1 - 1) with false by lia. cbn [mbind outcome_bind].
  case_bool.
  - exists s1. split_and!; try done; [by rewrite Hc1 | lia..].
  - destruct (putc_appends 47 Hmem s1 Hg1) as (s2 & E2 & Hg2 & Hc2 & _).
    { change (zlen [47]) with 1. unfold str_limit. lia. }
    exists s2. split_and!; try done.
    + rewrite Hc2, Hc1. apply nonul_app. split; [done | by repeat constructor].
    + pose proof (good_length _ _ _ (good_wf _ Hg1) (good_wf _ Hg2) Hc2) as E5. change (zlen [47]) with 1 in E5. lia.
    + pose proof (good_length _ _ _ (good_wf _ Hg1) (good_wf _ Hg2) Hc2) as E5. change (zlen [47]) with 1 in E5. lia.
Qed.


Definition with_slash (p : text) : text := if bool_decide (list.last p = Some 47) then p else p ++ [47].

Lemma last_char_holds s c : good_str s -> content s = c -> c <> [] -> last_char s = Ret (default 0 (list.last c)).
Proof using Type.
  intros Hg <- Hne. pose proof (good_wf _ Hg) as Hw. pose proof (wf_length _ Hw). pose proof (good_size _ Hg).
  pose proof (zlen_content _ Hw) as Hl. pose proof (wf_buf _ Hw) as Hb.
  assert (0 < s_length s) by (destruct (content s); [done | zlia]).
  unfold last_char. destruct (s_s s) as [b|] eqn:Eb; [|lia].
  unfold str_limit in *. rewrite u64_small by lia.
  replace (zlen b <=? s_length s - 1) with false by lia. f_equal.
  rewrite last_lookup. replace (pred (length (content s))) with (Z.to_nat (s_length s - 1)) by zlia.
  by rewrite (content_last s b).
Qed.

Lemma ensure_suffix_holds s c :
  holds s c -> c <> [] -> zlen c + 2 < str_limit ->
  exists s', fs_ensure_suffix s = Ret (true, s') /\ holds s' (with_slash c).
Proof using Hmem.
  intros Hh Hne Hl. pose proof (holds_good _ _ Hh) as Hg. pose proof (holds_content _ _ Hh) as Hc.
  pose proof (holds_length _ _ Hh) as Hlen. unfold fs_ensure_suffix, with_slash.
  rewrite (last_char_holds s c) by done. cbn [mbind outcome_bind].
  destruct (list.last c) as [d|] eqn:El; [|by apply last_None in El]. change (default 0 (Some d)) with d.
  destruct (Z.eqb_spec d 47) as [->|Hd].
  { rewrite bool_decide_true by done. by exists s. }
  rewrite bool_decide_false by congruence.
  destruct (putc_appends 47 Hmem s Hg) as (s2 & -> & Hg2 & Hc2 & _).
  { change (zlen [47]) with 1. lia. }
  cbn [mbind outcome_bind negb].
  assert (s_length s2 = zlen c + 1) as Hl2.
  { rewrite <- (zlen_content s2) by apply Hg2. rewrite Hc2, Hc. zlia. }
  destruct (ensurez_holds Hmem s2) as (s3 & -> & Hh3); try done.
  - rewrite Hc2, Hc. apply nonul_app. split; [apply Hh | by repeat constructor].
  - left. pose proof (zlen_nonneg c). lia.
  - lia.
  - exists s3. split; [done|]. by rewrite Hc2, Hc in Hh3.
Qed.

Lemma getcwd_runs n h :
  runs (getcwd n) h (fun r new => new = [EGetcwd] /\
    match r with
    | inl p => nonul p /\ zlen p < 4096 /\ p <> []
    | inr e => e = ERANGE -> n < 4096
    end).
Proof using All -Hmem.
  unfold getcwd. eapply runs_bind.
  - by apply (runs_request _ _ _ (fun a n => a = os_getcwd h /\ n = [EGetcwd])).
  - intros a n1 (-> & ->). apply runs_ret. split; [by rewrite app_nil_r|].
    pose proof (getcwd_path h) as Hp. destruct (os_getcwd h) as [q|]; [|done].
    destruct (Z.ltb_spec (zlen q) n); [done|]. lia.
Qed.

Lemma get_cwd_runs s t :
  good_str s -> content s = [] ->
  runs (fs_get_cwd s) t (fun r new => unlinks_only (fun _ => False) new /\
    (fst r = true -> good_str (snd r) /\ nonul (content (snd r)) /\ 0 < s_length (snd r) <= 2 ^ 16)).
Proof using All.
  intros Hg Hc. pose proof (zlen_content _ (good_wf _ Hg)) as Hl0. rewrite Hc in Hl0. change (zlen []) with 0 in Hl0.
  assert (forall p h, nonul p /\ zlen p < 4096 /\ p <> [] -> runs (lift (cwd_append s p)) h (fun r new =>
     unlinks_only (fun _ => False) ([EGetcwd] ++ new) /\
    (fst r = true -> good_str (snd r) /\ nonul (content (snd r)) /\ 0 < s_length (snd r) <= 2 ^ 16))) as Happ.
  { intros p h (Hn & Hlp & Hne). destruct (cwd_append_ok s p) as (s' & E1 & Hg' & Hn' & Hl'); try done.
    - by rewrite Hc.
    - unfold str_limit. lia.
    - eapply runs_lift; [exact E1|]. split; [by repeat constructor|]. intros _. cbn [snd].
      split; [done | split; [done | lia]]. }
  unfold fs_get_cwd. eapply runs_bind; [apply getcwd_runs|]. intros [p|e] n1 (-> & Hp); [by apply Happ|].
  destruct (Z.eqb_spec e ERANGE) as [->|]; cbn [negb].
  2: { apply runs_ret. split; [by repeat constructor | done]. }
  cbn [cwd_loop]. destruct (alloc_ok 4096); cbn [negb].
  2: { apply runs_ret. split; [by repeat constructor | done]. }
  eapply runs_bind; [apply getcwd_runs|]. intros [p|e] n1 (-> & Hp2).
  - eapply runs_weaken; [|by apply Happ]. intros r n2 (Hu & Hr). split; [by constructor | done].
  - destruct (Z.eqb_spec e ERANGE) as [->|]; cbn [negb]; [exfalso; specialize (Hp2 eq_refl); lia|].
    apply runs_ret. split; [by repeat constructor | done].
Qed.

Lemma back_to_runs cwd r h :
  good_str cwd -> nonul (content cwd) -> 0 < s_length cwd <= 2 ^ 16 ->
  runs (back_to cwd r) h (fun ok new => ok = r /\ unlinks_only (fun _ => False) new).
Proof using Hmem.
  intros Hgc Hnc Hlc. unfold back_to.
  destruct (ensurez_holds Hmem cwd) as (c2 & E2 & Hh2); [done | done | left; lia | unfold str_limit; lia |].
  calc E2.
  eapply runs_bind; [eapply (runs_lift _ _ (fun a n => n = [])); [by apply holds_cstr | done]|].
  intros p ? ->. ask. apply runs_ret. split; [done|]. by repeat constructor.
Qed.

(** The entry [name] was looked at, and unlinked exactly when it is a regular
    file that is not [.] or [..]. *)
Definition entry_handled (dir : text) (h new : trace) (name : text) : Prop :=
  exists before after, new = before ++ EStat name :: after /\
    match os_stat (h ++ before) name with
    | Some st =>
        match st_kind st with
        | KReg => is_dot_entry name = true \/ exists rest, after = EUnlink (dir ++ name) :: rest
        | _ => True
        end
    | None => True
    end.

Definition good_name (n : text) : Prop := n <> [] /\ nonul n /\ 47 ∉ n /\ zlen n < 256.

Lemma entry_handled_app dir h n1 n2 name :
  entry_handled dir (h ++ n1) n2 name -> entry_handled dir h (n1 ++ n2) name.
Proof using Type.
  intros (b & a & -> & Ha). exists (n1 ++ b), a. rewrite <- app_assoc. split; [done|].
  by rewrite app_assoc.
Qed.

Definition may_unlink (dir : text) (names : list text) (p : text) : Prop :=
  exists n, p = dir ++ n /\ n ∈ names /\ is_dot_entry n = false.

(** What the loop over [names] does after the history [h]. *)
Definition emptying (dir : text) (h : trace) (names : list text) (r : bool * strbuf) (new : trace) : Prop :=
  fst r = true /\ unlinks_only (may_unlink dir names) new /\ Forall (entry_handled dir h new) names.

Lemma emptying_cons dir h name names ev r n2 :
  unlinks_only (may_unlink dir [name]) ev -> entry_handled dir h (ev ++ n2) name ->
  emptying dir (h ++ ev) names r n2 -> emptying dir h (name :: names) r (ev ++ n2).
Proof using Type.
  intros Hev Hname (Hr & Hu & Hall). split; [done|].
  assert (forall ns l, ns ⊆ name :: names -> unlinks_only (may_unlink dir ns) l -> unlinks_only (may_unlink dir (name :: names)) l) as Hmono.
  { intros ns l Hns Hl. eapply list.Forall_impl; [exact Hl|]. intros e. destruct e; try done.
    intros (n & -> & Hin & Hd). exists n. split_and!; [done | by apply Hns | done]. }
  split.
  - apply unlinks_app; [apply (Hmono [name]) | apply (Hmono names)]; try done; clear; set_solver.
  - apply list.Forall_cons. split; [done|]. eapply list.Forall_impl; [exact Hall|]. intros x. apply entry_handled_app.
Qed.

(** The length goes back behind the directory. *)
Lemma back_to_dir dst s1 dir name :
  good_str dst -> content dst = dir -> holds s1 (dir ++ name) ->
  good_str (mkstr (s_length dst) (s_size s1) (s_growby s1) (s_s s1)) /\
  content (mkstr (s_length dst) (s_size s1) (s_growby s1) (s_s s1)) = dir.
Proof using Type.
  intros Hg Hc Hh. assert (s_length dst = zlen dir) as Hlen by (rewrite <- Hc; symmetry; apply zlen_content, Hg).
  pose proof (holds_length _ _ Hh) as Hlen'. rewrite zlen_app in Hlen'.
  pose proof (zlen_nonneg name). pose proof (zlen_nonneg dir). split.
  - destruct (holds_good _ _ Hh) as [Hw Hgr Hsz]. split; cbn; [|done..].
    destruct Hw as [? ? ? Hb]. split; cbn; [|done..]. lia.
  - unfold content at 1; cbn. transitivity (ztake (s_length dst) (content s1)).
    + unfold content. rewrite ztake_ztake. f_equal. lia.
    + rewrite (holds_content _ _ Hh), Hlen. by apply ztake_app_eq.
Qed.

Lemma empty_loop_runs names dst dir h :
  good_str dst -> content dst = dir -> nonul dir -> zlen dir < 2 ^ 20 -> Forall good_name names ->
  runs (empty_loop names dst) h (emptying dir h names).
Proof using Hmem.
  revert dst h; induction names as [|name names IH]; intros dst h Hg Hc Hn Hl Hnames; cbn [empty_loop].
  { apply runs_ret. split; [done|]. split; constructor. }
  apply list.Forall_cons in Hnames as [(Hne & Hnn & Hns & Hnl) Hnames]. ask.
  assert ((match os_stat h name with Some st => st_kind st = KReg -> is_dot_entry name = true | None => True end) ->
    runs (empty_loop names dst) (h ++ [EStat name]) (fun b n2 => emptying dir h (name :: names) b ([EStat name] ++ n2))) as Hgo.
  { intros Hk. eapply runs_weaken; [|by apply IH]. intros r n2. apply emptying_cons; [by repeat constructor|].
    exists [], n2. split; [done|]. rewrite app_nil_r.
    destruct (os_stat h name) as [[[] ? ?]|]; try done. left. by apply Hk. }
  destruct (os_stat h name) as [st|] eqn:Est; [|by apply Hgo].
  destruct (is_dot_entry name) eqn:Ed; [by apply Hgo|].
  destruct (st_kind st) eqn:Ek; [by apply Hgo | | by apply Hgo]. clear Hgo.
  assert (s_length dst = zlen dir) as Hlen by (rewrite <- Hc; symmetry; apply zlen_content, Hg).
  destruct (concat_holds Hmem dst name) as (s1 & E1 & Hh); [done | | unfold str_limit; lia |].
  { rewrite Hc. by apply nonul_app. }
  rewrite Hc in Hh. calc E1. pose proof (holds_cstr _ _ Hh) as Ep. calc Ep. ask.
  destruct (back_to_dir dst s1 dir name Hg Hc Hh) as [Hg1 Hc1]. rewrite <- app_assoc.
  eapply runs_weaken; [|by apply IH].
  intros r n2. apply (emptying_cons dir h name names [EStat name; EUnlink (dir ++ name)]).
  - repeat constructor. exists name. split_and!; [done | by left | done].
  - exists [], (EUnlink (dir ++ name) :: n2). split; [done|]. rewrite app_nil_r, Est, Ek. right. by exists n2.
Qed.

Lemma entry_handled_more dir h new more name :
  entry_handled dir h new name -> entry_handled dir h (new ++ more) name.
Proof using Type.
  intros (b & a & -> & Ha). exists b, (a ++ more). rewrite <- app_assoc. split; [done|].
  destruct (os_stat (h ++ b) name) as [[[] ? ?]|]; try done.
  destruct Ha as [?|(r & ->)]; [by left | right; by exists (r ++ more)].
Qed.

(** What a run of [fs_empty_dir] that returns true has done to [dir]. *)
Definition emptied (dest : text) (t new : trace) : Prop :=
  (exists before after, new = before ++ EStat dest :: after /\ os_stat (t ++ before) dest = None) \/
  (exists before after names, new = before ++ EOpendir (with_slash dest) :: after /\
     os_opendir (t ++ before) (with_slash dest) = Some names /\
     Forall (entry_handled (with_slash dest) (t ++ before ++ [EOpendir (with_slash dest)]) after) names).

Definition unlinks_inside (dest : text) (new : trace) : Prop :=
  unlinks_only (fun p => exists n, p = with_slash dest ++ n /\ good_name n /\ is_dot_entry n = false) new.

Lemma emptied_around dest t n1 n2 n3 : emptied dest (t ++ n1) n2 -> emptied dest t (n1 ++ n2 ++ n3).
Proof using Type.
  intros [(b & a & -> & Hs)|(b & a & l & -> & Ho & Hl)]; [left | right].
  - exists (n1 ++ b), (a ++ n3). rewrite (app_assoc t). split; [|done]. by rewrite <- !app_assoc.
  - exists (n1 ++ b), (a ++ n3), l. rewrite <- !app_assoc in *. split_and!; [done..|].
    eapply list.Forall_impl; [exact Hl|]. intros x. apply entry_handled_more.
Qed.

(** The part of [fs_empty_dir] after the directory name is complete. *)
(** What the loop and the return to the old directory make of the whole. *)
Lemma loop_emptied dest t names r n2 n3 :
  let h := t ++ [EStat dest; EChdir (with_slash dest)] in
  os_opendir h (with_slash dest) = Some names ->
  emptying (with_slash dest) (h ++ [EOpendir (with_slash dest)]) names r n2 ->
  unlinks_only (fun _ => False) n3 ->
  let new := EStat dest :: EChdir (with_slash dest) :: EOpendir (with_slash dest) :: n2 ++ n3 in
  unlinks_inside dest new /\ emptied dest t new.
Proof using All.
  intros h Eo (_ & Hu & Hall) Hu3. pose proof (opendir_names h _ _ Eo) as Hnames. split.
  - repeat (constructor; [done|]). apply unlinks_app.
    + eapply list.Forall_impl; [exact Hu|]. intros e. destruct e; try done.
      intros (n & -> & Hin & Hd). exists n. split_and!; try done.
      rewrite list.Forall_forall in Hnames. by apply Hnames.
    + eapply list.Forall_impl; [exact Hu3|]. by intros [].
  - right. exists [EStat dest; EChdir (with_slash dest)], (n2 ++ n3), names. split_and!; [done | done |].
    eapply list.Forall_impl; [exact Hall|]. intros x Hx. apply entry_handled_more.
    unfold h in Hx. by rewrite <- app_assoc in Hx.
Qed.

Lemma empty_body_runs dest dst t :
  holds dst dest -> dest <> [] -> zlen dest < 2 ^ 16 ->
  forall (bail : bool -> io bool),
  (forall r h, runs (bail r) h (fun ok new => ok = r /\ unlinks_only (fun _ => False) new)) ->
  runs (p ← lift (cstr_of dst);
        st ← sys_stat p;
        match st with
        | None => bail true
        | Some st =>
            match st_kind st with
            | KDir =>
                '(ok, dst) ← lift (fs_ensure_suffix dst);
                if negb ok then bail false
                else
                  p ← lift (cstr_of dst);
                  ok ← sys_chdir p;
                  if negb ok then bail false
                  else
                    dir ← sys_opendir p;
                    match dir with
                    | None => bail false
                    | Some names => '(retval, _) ← empty_loop names dst; bail retval
                    end
            | _ => bail false
            end
        end) t (fun ok new => unlinks_inside dest new /\ (ok = true -> emptied dest t new)).
Proof using All.
  intros Hh Hne Hl bail Hbail.
  assert (forall h n1, unlinks_inside dest n1 -> runs (bail false) h (fun ok n2 =>
            unlinks_inside dest (n1 ++ n2) /\ (ok = true -> emptied dest t (n1 ++ n2)))) as Hno.
  { intros h n1 Hn1. eapply runs_weaken; [|apply Hbail]. intros ok n2 (-> & Hu).
    split; [apply unlinks_app; [done|] | done]. eapply list.Forall_impl; [exact Hu|]. by intros []. }
  pose proof (holds_cstr _ _ Hh) as Ep. calc Ep. ask.
  destruct (os_stat t dest) as [st|] eqn:Est.
  2: { eapply runs_weaken; [|apply Hbail]. intros ok n2 (-> & Hu). split.
       - constructor; [done|]. eapply list.Forall_impl; [exact Hu|]. by intros [].
       - intros _. left. exists [], n2. by rewrite app_nil_r. }
  destruct (st_kind st); [| by apply (Hno _ [EStat dest]); repeat constructor..].
  destruct (ensure_suffix_holds dst dest) as (s' & E1 & Hh'); [done | done | unfold str_limit; lia |].
  calc E1. pose proof (holds_cstr _ _ Hh') as Ep'. calc Ep'. ask.
  destruct (os_chdir _ _); cbn [negb];
    [|apply (Hno _ [EStat dest; EChdir (with_slash dest)]); by repeat constructor].
  ask. rewrite <- (app_assoc t). cbn [app]. set (h := t ++ [EStat dest; EChdir (with_slash dest)]).
  destruct (os_opendir h (with_slash dest)) as [names|] eqn:Eo;
    [|apply (Hno _ [EStat dest; EChdir (with_slash dest); EOpendir (with_slash dest)]); by repeat constructor].
  assert (zlen (with_slash dest) < 2 ^ 20) as Hlw by (unfold with_slash; case_bool_decide; zlia).
  eapply runs_bind; [apply (empty_loop_runs names s' (with_slash dest)); try done; [apply Hh'.. | by eapply opendir_names]|].
  intros [r d] n2 Hem. eapply runs_weaken; [|apply Hbail]. intros ok n3 (-> & Hu3).
  by destruct (loop_emptied dest t names (r, d) n2 n3 Eo Hem Hu3).
Qed.

End Empty.

(** ** The theorems *)

Section Theorems.
Context `{Allocator} `{Environment}.

(** C31. [fs_mkdir_p] ends (its recursion is bounded by the length of the path)
    and gives 0 or -1.  It only ever asks for directories that are prefixes of
    the path, all with the given mode; 0 means that its last request was for the
    whole path and was granted, and then the caller's buffer is as it was. *)
Theorem fs_mkdir_p_correct fuel path mode t :
  (length path < fuel)%nat ->
  runs (fs_mkdir_p fuel path mode) t (fun r new =>
    (fst r = 0 \/ fst r = -1) /\
    Forall (fun e => exists q, e = EMkdir q mode /\ q `prefix_of` path) new /\
    (fst r = 0 -> snd r = path /\ exists before, new = before ++ [EMkdir path mode] /\
       os_mkdir (t ++ before) path mode = 0)).
Proof using Type.
  intros Hf. eapply runs_weaken; [|by apply mkdir_p_runs]. intros r new (? & ? & ? & _). done.
Qed.

(** C30. [fs_writecontents_safe] opens one file for writing, in the given
    directory: whatever the name holds, no slash of it survives, so the file is
    directly inside [dir].  It asks to write exactly the first [len] bytes of the
    contents and returns true exactly when the file was opened and all of them
    were taken.  When its buffer is refused it returns true as well, with nothing
    written. *)
Theorem fs_writecontents_safe_inside dir fn cnt len mode t :
  zlen dir + zlen fn + 2 < 2 ^ 32 -> 0 <= len <= zlen cnt -> len < 2 ^ 31 ->
  (forall t p d, -1 <= os_write t p d <= zlen d) ->
  runs (fs_writecontents_safe dir fn cnt len mode) t (fun ok new =>
    if alloc_ok (zlen dir + zlen fn + 2) then
      exists name, 47 ∉ name /\ length name = length fn /\
      let p := dir ++ 47 :: name in
      if os_open t p then
        new = [EOpenWrite p mode; EWrite p (ztake len cnt)] /\
        ok = (os_write (t ++ [EOpenWrite p mode]) p (ztake len cnt) =? len)
      else new = [EOpenWrite p mode] /\ ok = false
    else ok = true /\ new = []).
Proof using Type.
  intros Hl Hlen Hmax Hw. pose proof (zlen_nonneg dir). pose proof (zlen_nonneg fn).
  destruct (alloc_ok (zlen dir + zlen fn + 2)) eqn:Ha.
  - rewrite writecontents_safe_eq by (done || lia).
    eapply runs_weaken; [|apply writecontents_runs; (done || lia)].
    intros ok new Hr. exists (safe_name fn). split; [apply safe_name_no_slash|].
    split; [unfold safe_name; by rewrite length_map | exact Hr].
  - unfold fs_writecontents_safe, u32, strlen. rewrite (Z.mod_small (zlen dir + 1)) by lia.
    rewrite Z.mod_small by lia. replace (_ + 1 + _ + 1) with (zlen dir + zlen fn + 2) by lia.
    rewrite Ha. cbn [negb]. by apply runs_ret.
Qed.

(** C29. [fs_empty_dir] on an absolute path ends and unlinks nothing but direct
    entries of that directory other than [.] and [..].  When it returns true, the
    directory was absent, or every entry of its listing was examined and those
    that [stat] called regular files, and only those, were unlinked.  The
    call follows symbolic links, so a link to a regular file counts as one and
    is unlinked too, where the comment in front of the function says that it
    does not touch symlinks. *)
Theorem fs_empty_dir_safe dest t :
  alloc_enough -> EnvironmentOk _ -> nth 0 dest 0 = 47 -> nonul dest -> zlen dest < 2 ^ 16 ->
  runs (fs_empty_dir dest) t (fun ok new =>
    unlinks_inside dest new /\ (ok = true -> emptied dest t new)).
Proof using Type.
  intros Hmem Hos Habs Hn Hl. unfold fs_empty_dir.
  destruct (good_init 512 512 Hmem) as (dst & -> & Hg & Hc & Hl0); [unfold str_limit; lia..|].
  eapply runs_bind; [by apply (get_cwd_runs Hmem)|]. intros [ok cwd] n1 (Hu1 & Hcwd). cbn [fst snd] in Hcwd.
  assert (forall P, unlinks_only (fun _ => False) P -> unlinks_inside dest P) as Hinside.
  { intros P Hp. eapply list.Forall_impl; [exact Hp|]. by intros []. }
  destruct ok; cbn [negb].
  2: { apply runs_ret. rewrite app_nil_r. split; [by apply Hinside | done]. }
  destruct (Hcwd eq_refl) as (Hgc & Hnc & Hlc). clear Hcwd.
  rewrite Habs. cbn [negb Z.eqb].
  eapply runs_bind; [apply (runs_ret _ _ (fun a n => a = (true, dst) /\ n = [])); done|].
  intros [? ?] ? (Eq & ->). injection Eq as -> ->. cbn [negb].
  destruct (concat_holds Hmem dst dest) as (d1 & E1 & Hh1); [done | by rewrite Hc | unfold str_limit; lia |].
  rewrite Hc in Hh1. cbn [app] in Hh1. assert (dest <> []) as Hne by by destruct dest.
  pose proof (holds_length _ _ Hh1) as Hl1. assert (0 < zlen dest) by (destruct dest; [done | zlia]).
  calc E1.
  destruct (ensurez_holds Hmem d1) as (d2 & E2 & Hh2); [apply Hh1 | by rewrite (holds_content _ _ Hh1) | left; lia | unfold str_limit; lia |].
  rewrite (holds_content _ _ Hh1) in Hh2.
  calc E2. rewrite app_nil_r.
  eapply runs_weaken; [|apply (empty_body_runs Hmem dest d2 (t ++ n1) Hh2 Hne Hl (back_to cwd))].
  - cbn beta. intros ok n2 (Hu & Hok). split; [by apply unlinks_app; [apply Hinside|]|].
    intros Et. specialize (Hok Et). pose proof (emptied_around dest t n1 n2 [] Hok) as Hem. by rewrite app_nil_r in Hem.
  - intros r h. by apply back_to_runs.
Qed.

End Theorems.

(** ** The theorems at concrete inputs *)

Definition hosts_dir : text := c_lit "/etc/tinc/chaos/hosts".
Definition hosts_env : Environment :=
  granting (fun _ => None) (fun _ => None)
    (fun p => if bool_decide (p = hosts_dir) then Some KDir else if bool_decide (p = c_lit "sub") then Some KDir else Some KReg)
    (fun _ => Some [c_lit "."; c_lit ".."; c_lit "alice"; c_lit "sub"; c_lit "bob"]).

Lemma hosts_env_ok : EnvironmentOk hosts_env.
Proof.
  split.
  - intros t p l [= <-]. repeat constructor; try done; by apply (bool_decide_unpack _).
  - intros t. cbn. repeat constructor; done.
  - intros t p d. cbn. pose proof (zlen_nonneg d). lia.
Qed.

Example fs_mkdir_p_correct_witness :
  runs (@fs_mkdir_p hosts_env 40 hosts_dir 448) [] (fun r new => fst r = 0 \/ fst r = -1).
Proof.
  eapply runs_weaken; [|apply (@fs_mkdir_p_correct hosts_env 40 hosts_dir 448 [])].
  - intros r new Hr. apply Hr.
  - vm_compute. lia.
Defined.

Example fs_writecontents_safe_inside_witness :
  runs (@fs_writecontents_safe roomy hosts_env hosts_dir (c_lit "../x") (c_lit "abc") 3 384) [] (fun ok new =>
    exists name, 47 ∉ name /\ new = [EOpenWrite (hosts_dir ++ 47 :: name) 384; EWrite (hosts_dir ++ 47 :: name) (c_lit "abc")]).
Proof.
  eapply runs_weaken; [|apply (@fs_writecontents_safe_inside roomy hosts_env hosts_dir (c_lit "../x") (c_lit "abc") 3 384 [])].
  - intros r new (name & Hn & _ & E & _). by exists name.
  - by vm_compute.
  - by vm_compute.
  - by vm_compute.
  - intros t p d. cbn. pose proof (zlen_nonneg d). lia.
Defined.

Example fs_empty_dir_safe_witness :
  runs (@fs_empty_dir roomy hosts_env hosts_dir) [] (fun ok new =>
    ok = true /\ unlinks_inside hosts_dir new /\
    List.filter (fun e => match e with EUnlink _ => true | _ => false end) new
      = [EUnlink (c_lit "/etc/tinc/chaos/hosts/alice"); EUnlink (c_lit "/etc/tinc/chaos/hosts/bob")]).
Proof.
  destruct (@fs_empty_dir_safe roomy hosts_env hosts_dir [] roomy_enough hosts_env_ok) as (ok & new & E & Hu & _);
    [by vm_compute | by apply (bool_decide_unpack _); vm_compute | by vm_compute |].
  exists ok, new. split; [done|]. vm_compute in E. injection E as <- <-.
  split; [done|]. split; [exact Hu | by vm_compute].
Defined.
