(* ===== verification/FsCopy.v ===== *)
(** * Copying a directory tree: fs_cp_r, handledir and fs_cp_file of fs.c

    The two path buffers are shared by all levels of the recursion: a level
    appends an entry's name, works, and sets the length back.  Fuel counts the
    depth of the tree in [handledir] and the turns of the loop in [fs_cp_file],
    which in the code are not bounded. *)

From S2P Require Import Prelude CLib CString StrBuf World Fs.

Definition set_length (s : strbuf) (n : Z) : strbuf := mkstr n (s_size s) (s_growby s) (s_s s).

Section Copy.
Context `{Allocator} `{Environment}.

(** The [while] loop.  A failed [read] makes the [write] ask for [SIZE_MAX]
    bytes, which fails as well: both results are -1, and [filesize] grows. *)
Fixpoint cp_loop (fuel : nat) (src dst : text) (filesize : Z) : io bool :=
  match fuel with
  | O => lift Undef
  | S fuel =>
      if filesize <=? 0 then mret true
      else
        r ← sys_read src 65536;
        match r with
        | None => cp_loop fuel src dst (filesize + 1)
        | Some buf =>
            writtenbytes ← sys_write dst buf;
            if negb (writtenbytes =? zlen buf) then mret false
            else cp_loop fuel src dst (filesize - writtenbytes)
        end
  end.

Definition fs_cp_file (fuel : nat) (src dst : text) : io bool :=
  st ← sys_stat src;
  match st with
  | None => mret false
  | Some st =>
      ok ← sys_open_read src;
      if negb ok then mret false
      else
        ok ← sys_open_copy dst (Z.land (st_mode st) 4095);
        if negb ok then mret false
        else cp_loop fuel src dst (st_size st)
  end.

(** Success and the two path buffers. *)
Definition copied : Type := bool * strbuf * strbuf.

(** The [S_ISDIR] branch; [handle] is the recursive call. *)
Definition copy_dir (handle : strbuf -> strbuf -> io copied) (name : text) (src dst : strbuf) : io copied :=
  let srcdirlen := s_length src in
  let dstdirlen := s_length dst in
  '(ok, src) ← lift (string_concat src name);
  if negb ok then mret (false, src, dst)
  else
    '(ok, src) ← lift (fs_ensure_suffix src);
    if negb ok then mret (false, src, dst)
    else
      '(ok, dst) ← lift (string_concat dst name);
      if negb ok then mret (false, src, dst)
      else
        '(ok, dst) ← lift (fs_ensure_suffix dst);
        if negb ok then mret (false, src, dst)
        else
          '(ok, src, dst) ← handle src dst;
          if negb ok then mret (false, src, dst)
          else
            p ← lift (cstr_of dst);
            _ ← sys_utimes p;
            '(_, src) ← lift (string_ensurez (set_length src srcdirlen));
            '(_, dst) ← lift (string_ensurez (set_length dst dstdirlen));
            p ← lift (cstr_of src);
            ok ← sys_chdir p;
            mret (ok, src, dst).

(** The [S_ISREG] branch.  The length goes back, the bytes stay. *)
Definition copy_file (fuel : nat) (name : text) (src dst : strbuf) : io copied :=
  let dstdirlen := s_length dst in
  '(ok, dst) ← lift (string_concat dst name);
  if negb ok then mret (false, src, dst)
  else
    '(ok, dst) ← lift (string_ensurez dst);
    if negb ok then mret (false, src, dst)
    else
      p ← lift (cstr_of dst);
      ok ← fs_cp_file fuel name p;
      if negb ok then mret (false, src, dst)
      else
        p ← lift (cstr_of dst);
        _ ← sys_utimes p;
        mret (true, src, set_length dst dstdirlen).

(** The [readdir] loop. *)
Fixpoint copy_loop (fuel : nat) (handle : strbuf -> strbuf -> io copied) (names : list text)
    (src dst : strbuf) : io copied :=
  match names with
  | [] => mret (true, src, dst)
  | name :: names =>
      st ← sys_stat name;
      match st with
      | None => copy_loop fuel handle names src dst
      | Some st =>
          if is_dot_entry name then copy_loop fuel handle names src dst
          else
            '(ok, src, dst) ←
              (match st_kind st with
               | KDir => copy_dir handle name src dst
               | KReg => copy_file fuel name src dst
               | KOther => mret (true, src, dst)
               end);
            if negb ok then mret (false, src, dst)
            else copy_loop fuel handle names src dst
      end
  end.

Fixpoint handledir (fuel : nat) (src dst : strbuf) : io copied :=
  match fuel with
  | O => lift Undef
  | S fuel =>
      '(ok, src) ← lift (string_ensurez src);
      if negb ok then mret (false, src, dst)
      else
        '(ok, dst) ← lift (string_ensurez dst);
        if negb ok then mret (false, src, dst)
        else
          s ← lift (cstr_of src);
          st ← sys_stat s;
          match st with
          | None => mret (false, src, dst)
          | Some st =>
              d ← lift (cstr_of dst);
              _ ← sys_mkdir d (Z.land (st_mode st) 4095);
              ok ← sys_chdir s;
              if negb ok then mret (false, src, dst)
              else
                dir ← sys_opendir s;
                match dir with
                | None => mret (false, src, dst)
                | Some names => copy_loop fuel (handledir fuel) names src dst
                end
          end
  end.

(** [source] and [destination]: an absolute path as it is, another one behind
    the working directory, and a slash at the end. *)
Definition full_path (p : text) (s : strbuf) : io (bool * strbuf) :=
  '(ok, s) ← (if negb (nth 0 p 0 =? 47) then fs_get_cwd s else mret (true, s));
  if negb ok then mret (false, s)
  else
    '(ok, s) ← lift (string_concat s p);
    if negb ok then mret (false, s) else lift (fs_ensure_suffix s).

Definition fs_cp_r (fuel : nat) (src dest : text) : io bool :=
  let '(_, source) := string_init 512 512 in
  let '(_, destination) := string_init 512 512 in
  let '(_, curwd) := string_init 512 512 in
  '(ok, curwd) ← fs_get_cwd curwd;
  if negb ok then mret false
  else
    '(ok, source) ← full_path src source;
    if negb ok then back_to curwd false
    else
      '(ok, destination) ← full_path dest destination;
      if negb ok then back_to curwd false
      else
        '(retval, _, _) ← handledir fuel source destination;
        back_to curwd retval.

End Copy.
