(* ===== verification/Tinc.v ===== *)
(** * The files of tinc: tinc.c

    The text of each generated file is built by code that only adds to a buffer
    ([str_op]); writing it out is [io].  The macros CONCAT, CONCAT_F, CONCAT_DF
    and CONCAT_YN are functions of the same names. *)

From S2P Require Import Prelude CLib CString StrBuf StrFmt StrNatCmp AddrMask PeerParser Config World Fs.

Definition TINC_DEFAULT_CIPHER : text := c_lit "blowfish".
Definition TINC_DEFAULT_COMPRESSION : text := c_lit "0".
Definition TINC_DEFAULT_DIGEST : text := c_lit "sha1".
Definition COMMENT : text := c_lit "# ".

(** The exit status of a process that a failed [assert] has aborted. *)
Definition abort {A} : outcome A := Exit 134.

Section Text.
Context `{Allocator}.

Definition CONCAT (value : cptr) : str_op := fun buffer =>
  match value with Some t => string_concat buffer t | None => Undef end.

Definition CONCAT_F (format : cptr) (value : arg) : str_op := fun buffer =>
  match format with Some f => string_concat_sprintf buffer f [value] | None => Undef end.

Definition CONCAT_DF (format : cptr) (value : cptr) (default_value : text) : str_op :=
  CONCAT_F format (AStr (if str_is_nonempty value then value else Some default_value)).

Definition CONCAT_YN (format : cptr) (value : bool) : str_op :=
  CONCAT_F format (AStr (Some (if value then c_lit "yes" else c_lit "no"))).

(** A condition that is evaluated when the code gets there. *)
Definition str_cond (b : outcome bool) (f g : str_op) : str_op := fun s =>
  b ← b; if b : bool then f s else g s.

Definition str_if (b : bool) (f : str_op) : str_op := if b then f else str_skip.

(** The loop body that reads a peer through its pointer. *)
Definition on_peer (heap : gmap nat peer_config) (o : option nat) (f : peer_config -> str_op) : str_op :=
  fun s => p ← peer_at heap o; f p s.

(** [str_is_nonempty (string_get (s))] *)
Definition buf_nonempty (s : strbuf) : outcome bool :=
  match string_get s with
  | None => Ret false
  | Some [] => Undef
  | Some (c :: _) => Ret (negb (c =? 0))
  end.

(** [strnatcmp] asserts that its arguments are not NULL. *)
Definition version_gt (version : cptr) (v : text) : outcome bool :=
  match version with
  | None => abort
  | Some version => r ← strnatcmp version v; Ret (0 <? r)
  end.

(** [config->tincd_version && strnatcmp (config->tincd_version, v) > 0] *)
Definition version_known_gt (version : cptr) (v : text) : outcome bool :=
  match version with None => Ret false | Some _ => version_gt version v end.

Fixpoint excluded_loop (l : list settings_entry) (peername : cptr) : outcome bool :=
  match l with
  | [] => Ret false
  | LIST_STRING s :: l =>
      s ← deref s;
      name ← deref peername;
      if strcasecmp s name =? 0 then Ret true else excluded_loop l peername
  | LIST_INTEGER _ :: l => excluded_loop l peername
  end.

Definition tinc_check_if_excluded (config : config) (peername : cptr) : outcome bool :=
  match cf_exclude config with
  | None => Ret false
  | Some l => excluded_loop l peername
  end.

Definition tinc_add_subnet (network : list cptr) : str_op :=
  str_each (fun text => CONCAT_F (Some (c_lit "Subnet=%s\n")) (AStr text)) network.

Definition AUTOGENERATED : text := COMMENT ++ c_lit "this is an autogenerated file - do not edit!\n\n".

Definition tinc_generate_peer_config (config : config) (peer : peer_config) : str_op :=
  CONCAT (Some AUTOGENERATED) ;;;
  str_if (str_is_nonempty (pc_gatewayhost peer) && negb (pc_hidden peer))
    (CONCAT_F (Some (c_lit "Address=%s\n")) (AStr (pc_gatewayhost peer))) ;;;
  CONCAT_DF (Some (c_lit "Cipher=%s\n")) (pc_cipher peer) TINC_DEFAULT_CIPHER ;;;
  CONCAT_DF (Some (c_lit "Compression=%s\n")) (pc_compression peer) TINC_DEFAULT_COMPRESSION ;;;
  CONCAT_DF (Some (c_lit "Digest=%s\n")) (pc_digest peer) TINC_DEFAULT_DIGEST ;;;
  CONCAT_YN (Some (c_lit "IndirectData=%s\n")) (pc_indirectdata peer) ;;;
  CONCAT_F (Some (c_lit "Port=%d\n")) (AInt (pc_port peer)) ;;;
  tinc_add_subnet (pc_network peer) ;;;
  tinc_add_subnet (pc_network6 peer) ;;;
  CONCAT_YN (Some (c_lit "TCPonly=%s\n")) (pc_use_tcp_only peer) ;;;
  CONCAT_F (Some (c_lit "%s\n\n")) (AStr (pc_key peer)) ;;;
  str_cond (version_gt (cf_tincd_version config) (c_lit "1.1"))
    (str_cond (ptr_eq (pc_name peer) (cf_peerid config))
       (str_cond (buf_nonempty (cf_ed25519publickey config))
          ((fun s => k ← cstr_of (cf_ed25519publickey config); CONCAT (Some k) s) ;;;
           CONCAT (Some (c_lit "\n")))
          str_skip)
       (str_if (str_is_nonempty (pc_ed25519publickey peer))
          (CONCAT_F (Some (c_lit "Ed25519PublicKey=%s\n")) (AStr (pc_ed25519publickey peer)))))
    str_skip.


(** *** tinc.conf *)

Definition bind_address (config : config) : bool :=
  match cf_my_ip config with
  | Some ip => negb (str_is_empty (Some ip)) && negb (strcmp ip (c_lit "127.0.0.1") =? 0)
               && negb (strcmp ip (c_lit "0.0.0.0") =? 0)
  | None => false
  end.

(** The body of the loop that writes the ConnectTo lines. *)
Definition connect_to (config : config) (p : peer_config) : str_op :=
  str_cond (ptr_eq (pc_name p) (cf_peerid config)) str_skip
  (str_cond (tinc_check_if_excluded config (pc_name p)) str_skip
  (str_cond (if cf_connect_only_to_primary_nodes config
             then r ← version_known_gt (cf_tincd_version config) (c_lit "1.0.12");
                  Ret (r && negb (pc_primary p))
             else Ret false) str_skip
  (str_if (str_is_nonempty (pc_gatewayhost p) && negb (pc_hidden p))
     (CONCAT_F (Some (c_lit "ConnectTo=%s\n")) (AStr (pc_name p)))))).

Definition config_contents (config : config) (heap : gmap nat peer_config) : str_op :=
  CONCAT (Some AUTOGENERATED) ;;;
  str_if (str_is_nonempty (cf_my_addressfamily config))
    (CONCAT_F (Some (c_lit "AddressFamily=%s\n")) (AStr (cf_my_addressfamily config))) ;;;
  str_if (bind_address config)
    (CONCAT_F (Some (c_lit "BindToAddress=%s\n")) (AStr (cf_my_ip config))) ;;;
  str_if (str_is_nonempty (cf_tincd_interface config))
    (CONCAT_F (Some (c_lit "Interface=%s\n")) (AStr (cf_tincd_interface config))) ;;;
  str_if (str_is_nonempty (cf_tincd_device config))
    (CONCAT_F (Some (c_lit "Device=%s\n")) (AStr (cf_tincd_device config))) ;;;
  CONCAT (Some (c_lit "Mode=router\n")) ;;;
  CONCAT_F (Some (c_lit "Name=%s\n")) (AStr (cf_peerid config)) ;;;
  CONCAT (Some (c_lit "Hostnames=no\n")) ;;;
  CONCAT (Some (c_lit "PingTimeout=60\n")) ;;;
  str_cond (version_known_gt (cf_tincd_version config) (c_lit "1.0.12"))
    (CONCAT (Some (c_lit "StrictSubnets=yes\n")))
    (CONCAT (Some (c_lit "TunnelServer=yes\n"))) ;;;
  str_cond (version_known_gt (cf_tincd_version config) (c_lit "1.0.16"))
    (CONCAT_YN (Some (c_lit "LocalDiscovery=%s\n")) (cf_localdiscovery config)) str_skip ;;;
  str_cond (version_known_gt (cf_tincd_version config) (c_lit "1.0.16"))
    (CONCAT (Some (c_lit "Broadcast=no\n"))) str_skip ;;;
  str_if (str_is_nonempty (cf_tincd_graphdumpfile config))
    (CONCAT_F (Some (c_lit "GraphDumpFile=%s\n")) (AStr (cf_tincd_graphdumpfile config))) ;;;
  str_if (str_is_nonempty (cf_tincd_raw_config config))
    (CONCAT_F (Some (c_lit "%s\n")) (AStr (cf_tincd_raw_config config))) ;;;
  str_cond (me ← peer_at heap (cf_my_peer config); Ret (negb (pc_silent me)))
    (str_each (fun o => on_peer heap o (connect_to config)) (cf_peer_config config))
    str_skip.

(** *** tinc-up and tinc-down *)

Context `{Resolver}.

(** The route command and our address for a family; tinc_write_subnetupdown chooses
    its two commands in the same way (lines 521 to 529). *)
Definition routecmd (config : config) (up : bool) (v4 : bool) : cptr :=
  if v4 then (if up then cf_routeadd config else cf_routedel config)
  else (if up then cf_routeadd6 config else cf_routedel6 config).
Definition vpnip (config : config) (v4 : bool) : cptr :=
  if v4 then cf_vpn_ip config else cf_vpn_ip6 config.

(** The body of the loop over the supernets. *)
Definition supernet_route (config : config) (up : bool) (net : addr_info) : str_op := fun buffer =>
  let v4 := addr_family net =? AF_INET in
  let '(_, outputaddr) := string_init 128 128 in
  if str_is_nonempty (vpnip config v4) && str_is_nonempty (routecmd config up v4) then
    '(ok, outputaddr) ← addrmask_to_string outputaddr net;
    if ok : bool then
      '(_, outputaddr) ← string_ensurez outputaddr;
      addr ← cstr_of outputaddr;
      (CONCAT_F (routecmd config up v4) (AStr (Some addr)) ;;; CONCAT (Some (c_lit "\n"))) buffer
    else Ret (true, buffer)
  else Ret (true, buffer).

(** The body of the loops over [network] and [network6]. *)
Definition subnet_route (config : config) (cmd : cptr) (si : cptr) : str_op := fun buffer =>
  match si with
  | None => Undef
  | Some text =>
      match strdup text with
      | None => Undef
      | Some subnet =>
          let subnet := match strchr subnet 35 with Some (net, _) => net | None => subnet end in
          merge_found ← addrmask_match (cf_mergeroutes_supernet config) (Some subnet);
          ignore_found ← addrmask_match (cf_ignore_subnets config) (Some subnet);
          whitelist_found ← addrmask_match (cf_whitelist_subnets config) (Some subnet);
          (match merge_found, ignore_found, cf_whitelist_subnets config, whitelist_found with
           | Some _, _, _, _ => CONCAT (Some (COMMENT ++ c_lit "*merged* "))
           | None, Some _, _, _ => CONCAT (Some (COMMENT ++ c_lit "*ignored* "))
           | None, None, _ :: _, None => CONCAT (Some (COMMENT ++ c_lit "*not whitelisted, ignored* "))
           | _, _, _, _ => str_skip
           end ;;;
           CONCAT_F cmd (AStr (Some subnet)) ;;;
           CONCAT (Some (c_lit "\n"))) buffer
      end
  end.

Definition peer_routes (config : config) (up : bool) (p : peer_config) : str_op :=
  str_cond (ptr_eq (pc_name p) (cf_peerid config)) str_skip
  (str_cond (tinc_check_if_excluded config (pc_name p))
     (CONCAT_F (Some (COMMENT ++ c_lit "excluded node: %s\n")) (AStr (pc_name p)))
  (CONCAT_F (Some (COMMENT ++ c_lit "node: %s\n")) (AStr (pc_name p)) ;;;
   str_if (str_is_nonempty (cf_vpn_ip config) && str_is_nonempty (routecmd config up true))
     (str_each (subnet_route config (routecmd config up true)) (pc_network p)) ;;;
   str_if (str_is_nonempty (cf_vpn_ip6 config) && str_is_nonempty (routecmd config up false))
     (str_each (subnet_route config (routecmd config up false)) (pc_network6 p)))).

Definition LOCAL_SCRIPT : text := c_lit "[ -x \q$0.local\q ] && \q$0.local\q \q$@\q\n".
Definition SHEBANG : text := c_lit "#!/bin/sh\n".

Definition updown_contents (config : config) (heap : gmap nat peer_config) (up : bool) : str_op :=
  CONCAT (Some SHEBANG) ;;;
  CONCAT (Some AUTOGENERATED) ;;;
  str_if up
    (str_if (str_is_nonempty (cf_ifconfig config) && str_is_nonempty (cf_vpn_ip config))
       (CONCAT_F (Some (c_lit "%s\n")) (AStr (cf_ifconfig config))) ;;;
     str_if (str_is_nonempty (cf_ifconfig6 config) && str_is_nonempty (cf_vpn_ip6 config))
       (CONCAT_F (Some (c_lit "%s\n")) (AStr (cf_ifconfig6 config))) ;;;
     CONCAT (Some (c_lit "\n"))) ;;;
  str_if (negb (bool_decide (cf_mergeroutes_supernet config = [])))
    (CONCAT (Some (COMMENT ++ c_lit "Mergeroute Supernets\n")) ;;;
     str_each (supernet_route config up) (cf_mergeroutes_supernet config) ;;;
     CONCAT (Some (c_lit "\n"))) ;;;
  str_if (negb (cf_use_dynamic_routes config))
    (str_each (fun o => on_peer heap o (peer_routes config up)) (cf_peer_config config)) ;;;
  CONCAT (Some (c_lit "\n")) ;;;
  CONCAT (Some LOCAL_SCRIPT) ;;;
  CONCAT (Some (c_lit "\n")) ;;;
  str_if (up && str_is_nonempty (cf_postup config))
    (CONCAT (cf_postup config) ;;; CONCAT (Some (c_lit "\n"))) ;;;
  CONCAT (Some (c_lit "\nexit 0\n\n")).


(** *** subnet-up and subnet-down *)

Definition LOGGER (up : bool) : text :=
  if up then c_lit "logger -t \qtinc.$NETNAME.subnet-up\q -p daemon.debug \qsubnet-up from $NODE for %s $SUBNET ($REMOTEADDRESS:$REMOTEPORT)%s\q 2>/dev/null\n"
  else c_lit "logger -t \qtinc.$NETNAME.subnet-down\q -p daemon.debug \qsubnet-down from $NODE for %s $SUBNET ($REMOTEADDRESS:$REMOTEPORT)%s\q 2>/dev/null\n".

Definition IF_IPV4 : text :=
  c_lit "if echo \q$SUBNET\q | grep -q -E '^((25[0-5]|(2[0-4]|1{0,1}[0-9]){0,1}[0-9])\\.){3,3}(25[0" ++
  c_lit "-5]|(2[0-4]|1{0,1}[0-9]){0,1}[0-9])(/([0-9]|[12][0-9]|3[012]))?$' ; then\n".

Definition IF_IPV6 : text :=
  c_lit "if echo \q$SUBNET\q | grep -q -E '^(([0-9a-fA-F]{1,4}:){7,7}[0-9a-fA-F]{1,4}|([0-9a-fA-F]{" ++
  c_lit "1,4}:){1,7}:|([0-9a-fA-F]{1,4}:){1,6}:[0-9a-fA-F]{1,4}|([0-9a-fA-F]{1,4}:){1,5}(:[0-9a-fA-" ++
  c_lit "F]{1,4}){1,2}|([0-9a-fA-F]{1,4}:){1,4}(:[0-9a-fA-F]{1,4}){1,3}|([0-9a-fA-F]{1,4}:){1,3}(:[" ++
  c_lit "0-9a-fA-F]{1,4}){1,4}|([0-9a-fA-F]{1,4}:){1,2}(:[0-9a-fA-F]{1,4}){1,5}|[0-9a-fA-F]{1,4}:((" ++
  c_lit ":[0-9a-fA-F]{1,4}){1,6})|:((:[0-9a-fA-F]{1,4}){1,7}|:))/([0-9]{1,2}|1[01][0-9]|12[0-8])$' " ++
  c_lit "; then\n".

Definition log_subnet (logger : text) (family reason : text) : str_op := fun buffer =>
  string_concat_sprintf buffer logger [AStr (Some family); AStr (Some reason)].

(** The part of the script for one address family. *)
Definition family_part (logger test family : text) (vpnip routecmd : cptr) : str_op :=
  if str_is_nonempty vpnip && str_is_nonempty routecmd then
    CONCAT (Some test) ;;;
    CONCAT (Some (c_lit "\t")) ;;;
    log_subnet logger family [] ;;;
    CONCAT (Some (c_lit "\t")) ;;;
    CONCAT_F routecmd (AStr (Some (c_lit "$SUBNET"))) ;;;
    CONCAT (Some (c_lit "\n")) ;;;
    CONCAT (Some (c_lit "\t" ++ LOCAL_SCRIPT)) ;;;
    CONCAT (Some (c_lit "\texit 0\n")) ;;;
    CONCAT (Some (c_lit "fi\n"))
  else
    CONCAT (Some test) ;;;
    CONCAT (Some (c_lit "\t")) ;;;
    log_subnet logger family (c_lit " (disabled)") ;;;
    CONCAT (Some (c_lit "\t" ++ LOCAL_SCRIPT)) ;;;
    CONCAT (Some (c_lit "\texit 0\n")) ;;;
    CONCAT (Some (c_lit "fi\n")).

(** The loop over the excludes, and what follows it. *)
Fixpoint exclude_lines (l : list settings_entry) (haveexcludes : bool) (logger : text) : str_op :=
  match l with
  | [] =>
      str_if haveexcludes
        (CONCAT (Some (c_lit "if [ -n \q$excluded\q ] ; then\n")) ;;;
         CONCAT (Some (c_lit "\t")) ;;;
         log_subnet logger (c_lit "ignore") (c_lit " (excluded)") ;;;
         CONCAT (Some (c_lit "\t" ++ LOCAL_SCRIPT)) ;;;
         CONCAT (Some (c_lit "\texit 0\n")) ;;;
         CONCAT (Some (c_lit "fi\n\n")))
  | LIST_INTEGER _ :: l => exclude_lines l haveexcludes logger
  | LIST_STRING s :: l =>
      str_if (negb haveexcludes)
        (CONCAT (Some (c_lit "\n")) ;;; CONCAT (Some (c_lit "excluded=\q\q\n"))) ;;;
      CONCAT_F (Some (c_lit "[ \q$NODE\q = '%s' ] && excluded=1\n")) (AStr s) ;;;
      exclude_lines l true logger
  end.

Definition subnet_contents (config : config) (up : bool) : str_op :=
  CONCAT (Some SHEBANG) ;;;
  CONCAT (Some AUTOGENERATED) ;;;
  if negb (cf_use_dynamic_routes config) then
    CONCAT (Some LOCAL_SCRIPT) ;;;
    CONCAT (Some (c_lit "exit 0\n\n"))
  else
    CONCAT_F (Some (c_lit "[ \q$NODE\q = '%s' ] && exit 0\n\n")) (AStr (cf_peerid config)) ;;;
    match cf_exclude config with
    | Some l => exclude_lines l false (LOGGER up)
    | None => str_skip
    end ;;;
    family_part (LOGGER up) IF_IPV4 (c_lit "ipv4") (cf_vpn_ip config) (routecmd config up true) ;;;
    family_part (LOGGER up) IF_IPV6 (c_lit "ipv6") (cf_vpn_ip6 config) (routecmd config up false) ;;;
    log_subnet (LOGGER up) (c_lit "unknown") (c_lit " (ignored)") ;;;
    CONCAT (Some LOCAL_SCRIPT) ;;;
    CONCAT (Some (c_lit "exit 0\n\n")).

End Text.

(** ** Writing the files, and what tinc is asked *)

Section Files.
Context `{Allocator} `{Resolver} `{Environment}.

(** [string_concat (buffer, config->base_path); string_concat (buffer, suffix);
    string_ensurez (buffer)] on a fresh buffer: the path.  The results of the
    calls are not looked at. *)
Definition base_file (config : config) (suffix : text) : outcome text :=
  let '(_, path) := string_init 512 512 in
  '(_, path) ← CONCAT (cf_base_path config) path;
  '(_, path) ← string_concat path suffix;
  '(_, path) ← string_ensurez path;
  cstr_of path.

(** [string_length] as the [int] argument of [fs_writecontents_safe]. *)
Fixpoint hosts_loop (config : config) (heap : gmap nat peer_config) (hostfilepath : text)
    (peers : list (option nat)) : io bool :=
  match peers with
  | [] => mret true
  | i :: peers =>
      peer ← lift (peer_at heap i);
      let '(ok, peer_config) := string_init 2048 512 in
      if negb ok then mret false
      else
        '(ok, peer_config) ← lift (tinc_generate_peer_config config peer peer_config);
        if negb ok then mret false
        else
          name ← lift (match pc_name peer with Some name => Ret name | None => Undef end);
          ok ← fs_writecontents_safe hostfilepath name (default [] (string_get peer_config))
                 (s_length peer_config) 384;
          if negb ok then mret false
          else hosts_loop config heap hostfilepath peers
  end.

(** The buffer reads what [fs_mkdir_p] has left of the path. *)
Definition tinc_write_hosts (config : config) (heap : gmap nat peer_config) : io bool :=
  hostfilepath ← lift (base_file config (c_lit "/hosts/"));
  '(_, hostfilepath) ← fs_mkdir_p (S (length hostfilepath)) hostfilepath 448;
  hosts_loop config heap hostfilepath (cf_peer_config config).

(** The contents are built in a fresh buffer and written to one file. *)
Definition write_file (contents : str_op) (path : outcome text) (mode : Z) : io bool :=
  let '(_, buffer) := string_init 8192 2048 in
  '(ok, buffer) ← lift (contents buffer);
  if negb ok then mret false
  else
    path ← lift path;
    fs_writecontents path (default [] (string_get buffer)) (s_length buffer) mode.

Definition tinc_write_config (config : config) (heap : gmap nat peer_config) : io bool :=
  write_file (config_contents config heap) (base_file config (c_lit "/tinc.conf")) 384.

Definition tinc_write_updown (config : config) (heap : gmap nat peer_config) (up : bool) : io bool :=
  write_file (updown_contents config heap up)
    (base_file config (if up then c_lit "/tinc-up" else c_lit "/tinc-down")) 448.

Definition tinc_write_subnetupdown (config : config) (up : bool) : io bool :=
  filepath ← lift (base_file config (if up then c_lit "/subnet-up" else c_lit "/subnet-down"));
  if negb (cf_use_dynamic_routes config) then
    _ ← sys_unlink filepath;
    let '(_, localpath) := string_init 512 512 in
    '(_, localpath) ← lift (string_concat_sprintf localpath (c_lit "%s.local") [AStr (Some filepath)]);
    '(_, localpath) ← lift (string_ensurez localpath);
    localpath ← lift (cstr_of localpath);
    x ← sys_access localpath;
    if x : bool then _ ← sys_symlink localpath filepath; mret true
    else mret true
  else
    let '(_, buffer) := string_init 8192 2048 in
    '(ok, buffer) ← lift (subnet_contents config up buffer);
    if negb ok then mret false
    else
      _ ← sys_unlink filepath;
      fs_writecontents filepath (default [] (string_get buffer)) (s_length buffer) 448.

(** [snprintf (cmd, size, ...)]: the text, cut to the size. *)
Definition snprintf (size : Z) (t : text) : text := ztake (size - 1) t.

Definition tinc_get_version (config : config) : io cptr :=
  let '(_, tincd_output) := string_init 1024 512 in
  bin ← lift (deref (cf_tincd_bin config));
  let cmd := snprintf 1024 (bin ++ c_lit " --version") in
  '(_, tincd_output) ← fs_backticks_exec cmd tincd_output;
  '(_, tincd_output) ← lift (string_ensurez tincd_output);
  out ← lift (cstr_of tincd_output);
  if negb (strncmp out (c_lit "tinc version ") 13 =? 0) then mret None
  else
    let rest := zdrop 13 out in
    let version := match strchr rest 32 with Some (v, _) => v | None => rest end in
    mret (strdup version).

(** The number is stored in a [bool] on its way to [pid]. *)
Definition pid_of_text (pid_text : text) : Z :=
  let res : bool := negb (fst (strtol pid_text 10) =? 0) in
  if res then 1 else 0.

Definition tinc_get_pid (config : config) : io Z :=
  let '(_, pid_text) := string_init 256 128 in
  let finish (pid_text : strbuf) : io Z :=
    '(_, pid_text) ← lift (string_ensurez pid_text);
    t ← lift (cstr_of pid_text);
    if str_is_empty (Some t) then mret 0
    else mret (pid_of_text t) in
  new ← lift (version_known_gt (cf_tincd_version config) (c_lit "1.1"));
  if new : bool then
    if str_is_empty (cf_tincctl_bin config) then mret 0
    else
      ctl ← lift (deref (cf_tincctl_bin config));
      net ← lift (deref (cf_networkname config));
      let cmd := snprintf 1024 (ctl ++ c_lit " --net=" ++ net ++ c_lit " pid 2>/dev/null") in
      '(_, pid_text) ← fs_backticks_exec cmd pid_text;
      finish pid_text
  else
    if str_is_empty (cf_tincd_pidfile config) then mret 0
    else
      file ← lift (deref (cf_tincd_pidfile config));
      '(ok, pid_text) ← fs_read_file pid_text file;
      if negb ok then mret 0
      else finish pid_text.

Definition tinc_invoke_ifdown (config : config) : io bool :=
  if negb (cf_run_ifdown config) then mret true
  else
    filepath ← lift (base_file config (c_lit "/tinc-down"));
    status ← sys_system filepath;
    if status =? -1 then mret false
    else if negb (status =? 0) then mret false
    else mret true.

End Files.
