(* ===== verification/TincSpec.v ===== *)
(** * What the generated files say

    The files of tinc as lists of lines, from the configuration and the peers,
    and the proof that the code of tinc.c builds exactly these texts. *)

From S2P Require Import Prelude CLib CString StrBuf StrFmt StrNatCmp AddrMask PeerParser PeerSpec Config World Fs Tinc.

(** ** The lines *)

Definition HEADER : list text := [c_lit "# this is an autogenerated file - do not edit!"; []].

(** The version is known and greater. *)
Definition newer (version : cptr) (v : text) : bool :=
  match version with
  | Some version => match strnatcmp version v with Ret r => 0 <? r | _ => false end
  | None => false
  end.

Definition same_name (a b : cptr) : bool := bool_decide (txt a = txt b).
Definition yes_no (b : bool) : text := if b then c_lit "yes" else c_lit "no".
Definition or_else (value : cptr) (d : text) : text := if str_is_nonempty value then txt value else d.

(** The address of the peer may be told. *)
Definition visible (p : peer_config) : bool := str_is_nonempty (pc_gatewayhost p) && negb (pc_hidden p).

Definition host_lines (config : config) (p : peer_config) : list text :=
  HEADER ++
  (if visible p then [c_lit "Address=" ++ txt (pc_gatewayhost p)] else []) ++
  [ c_lit "Cipher=" ++ or_else (pc_cipher p) (c_lit "blowfish");
    c_lit "Compression=" ++ or_else (pc_compression p) (c_lit "0");
    c_lit "Digest=" ++ or_else (pc_digest p) (c_lit "sha1");
    c_lit "IndirectData=" ++ yes_no (pc_indirectdata p);
    c_lit "Port=" ++ dec (pc_port p) ] ++
  map (fun n => c_lit "Subnet=" ++ txt n) (pc_network p) ++
  map (fun n => c_lit "Subnet=" ++ txt n) (pc_network6 p) ++
  [ c_lit "TCPonly=" ++ yes_no (pc_use_tcp_only p); txt (pc_key p); [] ] ++
  (if newer (cf_tincd_version config) (c_lit "1.1") then
     if same_name (pc_name p) (cf_peerid config) then
       let key := default [] (string_cstr (cf_ed25519publickey config)) in
       if str_is_nonempty (Some key) then [key] else []
     else if str_is_nonempty (pc_ed25519publickey p)
          then [c_lit "Ed25519PublicKey=" ++ txt (pc_ed25519publickey p)] else []
   else []).

Definition opt_line (key : text) (value : cptr) : list text :=
  if str_is_nonempty value then [key ++ txt value] else [].

Definition excluded (config : config) (p : peer_config) : bool :=
  existsb (fun e => match e with
    | LIST_STRING s => strcasecmp (txt s) (txt (pc_name p)) =? 0
    | LIST_INTEGER _ => false end) (default [] (cf_exclude config)).

Definition is_me (config : config) (p : peer_config) : bool := same_name (pc_name p) (cf_peerid config).

(** The peers we connect to. *)
Definition connects (config : config) (p : peer_config) : bool :=
  negb (is_me config p) && negb (excluded config p) &&
  negb (cf_connect_only_to_primary_nodes config && newer (cf_tincd_version config) (c_lit "1.0.12")
        && negb (pc_primary p)) &&
  visible p.

(** An address to bind to, other than those that stand for any. *)
Definition bind_line (ip : cptr) : list text :=
  match ip with
  | Some ip =>
      if bool_decide (ip ∈ [[]; c_lit "127.0.0.1"; c_lit "0.0.0.0"]) then [] else [c_lit "BindToAddress=" ++ ip]
  | None => []
  end.

Definition conf_lines (config : config) (me : peer_config) (peers : list peer_config) : list text :=
  HEADER ++
  opt_line (c_lit "AddressFamily=") (cf_my_addressfamily config) ++
  bind_line (cf_my_ip config) ++
  opt_line (c_lit "Interface=") (cf_tincd_interface config) ++
  opt_line (c_lit "Device=") (cf_tincd_device config) ++
  [ c_lit "Mode=router"; c_lit "Name=" ++ txt (cf_peerid config); c_lit "Hostnames=no";
    c_lit "PingTimeout=60" ] ++
  (if newer (cf_tincd_version config) (c_lit "1.0.12")
   then [c_lit "StrictSubnets=yes"] else [c_lit "TunnelServer=yes"]) ++
  (if newer (cf_tincd_version config) (c_lit "1.0.16")
   then [c_lit "LocalDiscovery=" ++ yes_no (cf_localdiscovery config); c_lit "Broadcast=no"] else []) ++
  opt_line (c_lit "GraphDumpFile=") (cf_tincd_graphdumpfile config) ++
  opt_line [] (cf_tincd_raw_config config) ++
  (if pc_silent me then []
   else map (fun p => c_lit "ConnectTo=" ++ txt (pc_name p)) (List.filter (connects config) peers)).

(** What a route command with one %s makes of a network. *)
Definition formatted (cmd : cptr) (net : text) : text := default [] (render (txt cmd) [AStr (Some net)]).

Section Routes.
Context `{Resolver}.

(** The network of a subnet text: what stands before a weight. *)
Definition subnet_net (t : text) : text := match strchr t 35 with Some (net, _) => net | None => t end.

Definition found_in (l : list addr_info) (t : text) : bool :=
  match l with
  | [] => false
  | _ => match parse_pattern t with Some a => bool_decide (is_Some (match_list l a)) | None => false end
  end.

(** Why a route is only a comment. *)
Definition inactive (config : config) (t : text) : text :=
  if found_in (cf_mergeroutes_supernet config) t then c_lit "# *merged* "
  else if found_in (cf_ignore_subnets config) t then c_lit "# *ignored* "
  else if negb (bool_decide (cf_whitelist_subnets config = [])) && negb (found_in (cf_whitelist_subnets config) t)
       then c_lit "# *not whitelisted, ignored* "
  else [].

Definition subnet_line (config : config) (cmd : cptr) (t : text) : text :=
  inactive config (subnet_net t) ++ formatted cmd (subnet_net t).

(** The settings that hold the command for a route, and our address, in a family. *)
Definition command_for (config : config) (up v4 : bool) : cptr :=
  if v4 then if up then cf_routeadd config else cf_routedel config
  else if up then cf_routeadd6 config else cf_routedel6 config.
Definition own_address (config : config) (v4 : bool) : cptr :=
  if v4 then cf_vpn_ip config else cf_vpn_ip6 config.

Definition family_routed (config : config) (up v4 : bool) : bool :=
  str_is_nonempty (own_address config v4) && str_is_nonempty (command_for config up v4).

Definition peer_lines (config : config) (up : bool) (p : peer_config) : list text :=
  if is_me config p then []
  else if excluded config p then [c_lit "# excluded node: " ++ txt (pc_name p)]
  else
    [c_lit "# node: " ++ txt (pc_name p)] ++
    (if family_routed config up true
     then map (fun t => subnet_line config (command_for config up true) (txt t)) (pc_network p) else []) ++
    (if family_routed config up false
     then map (fun t => subnet_line config (command_for config up false) (txt t)) (pc_network6 p) else []).

Definition supernet_lines (config : config) (up : bool) (net : addr_info) : list text :=
  let v4 := addr_family net =? AF_INET in
  if family_routed config up v4 then [formatted (command_for config up v4) (addr_text net)] else [].

Definition updown_lines (config : config) (peers : list peer_config) (up : bool) : list text :=
  [c_lit "#!/bin/sh"] ++ HEADER ++
  (if up then
     (if str_is_nonempty (cf_ifconfig config) && str_is_nonempty (cf_vpn_ip config)
      then [txt (cf_ifconfig config)] else []) ++
     (if str_is_nonempty (cf_ifconfig6 config) && str_is_nonempty (cf_vpn_ip6 config)
      then [txt (cf_ifconfig6 config)] else []) ++ [[]]
   else []) ++
  (if negb (bool_decide (cf_mergeroutes_supernet config = [])) then
     [c_lit "# Mergeroute Supernets"] ++
     concat (map (supernet_lines config up) (cf_mergeroutes_supernet config)) ++ [[]]
   else []) ++
  (if negb (cf_use_dynamic_routes config) then concat (map (peer_lines config up) peers) else []) ++
  [[]; c_lit "[ -x \q$0.local\q ] && \q$0.local\q \q$@\q"; []] ++
  (if up && str_is_nonempty (cf_postup config) then [txt (cf_postup config)] else []) ++
  [[]; c_lit "exit 0"; []].

End Routes.

Definition LOCAL_LINE : text := c_lit "[ -x \q$0.local\q ] && \q$0.local\q \q$@\q".

Definition logger_line (up : bool) (family reason : text) : text :=
  (if up then c_lit "logger -t \qtinc.$NETNAME.subnet-up\q -p daemon.debug \qsubnet-up from $NODE for "
   else c_lit "logger -t \qtinc.$NETNAME.subnet-down\q -p daemon.debug \qsubnet-down from $NODE for ") ++
  family ++ c_lit " $SUBNET ($REMOTEADDRESS:$REMOTEPORT)" ++ reason ++ c_lit "\q 2>/dev/null".

Definition tab (l : text) : text := 9 :: l.

(** The names of a settings list. *)
Definition setting_names (l : option (list settings_entry)) : list text :=
  omap (fun e => match e with LIST_STRING s => Some (txt s) | LIST_INTEGER _ => None end) (default [] l).

Definition exclude_part (up : bool) (names : list text) : list text :=
  match names with
  | [] => []
  | _ =>
      [[]; c_lit "excluded=\q\q"] ++
      map (fun n => c_lit "[ \q$NODE\q = '" ++ n ++ c_lit "' ] && excluded=1") names ++
      [c_lit "if [ -n \q$excluded\q ] ; then"; tab (logger_line up (c_lit "ignore") (c_lit " (excluded)"));
       tab LOCAL_LINE; tab (c_lit "exit 0"); c_lit "fi"; []]
  end.

Definition family_lines (up : bool) (test family : text) (routed : bool) (cmd : cptr) : list text :=
  [test; tab (logger_line up family (if routed then [] else c_lit " (disabled)"))] ++
  (if routed then [tab (formatted cmd (c_lit "$SUBNET"))] else []) ++
  [tab LOCAL_LINE; tab (c_lit "exit 0"); c_lit "fi"].

(** A text without its final newline. *)
Definition chop (t : text) : text := take (length t - 1) t.

(** The script in the mode with dynamic routes. *)
Definition subnet_lines (config : config) (up : bool) : list text :=
  [c_lit "#!/bin/sh"] ++ HEADER ++
  [c_lit "[ \q$NODE\q = '" ++ txt (cf_peerid config) ++ c_lit "' ] && exit 0"; []] ++
  exclude_part up (setting_names (cf_exclude config)) ++
  family_lines up (chop IF_IPV4) (c_lit "ipv4") (family_routed config up true) (command_for config up true) ++
  family_lines up (chop IF_IPV6) (c_lit "ipv6") (family_routed config up false) (command_for config up false) ++
  [logger_line up (c_lit "unknown") (c_lit " (ignored)"); LOCAL_LINE; c_lit "exit 0"; []].

(** ** Lemmas on the building blocks *)

Section Blocks.
Context `{Allocator}.
Hypothesis Hmem : alloc_enough.

Lemma concat_text t : appends (CONCAT (Some t)) t.
Proof using Hmem. by apply concat_appends. Qed.

Lemma concat_f f a t : render f [a] = Some t -> arg_ok a -> appends (CONCAT_F (Some f) a) t.
Proof using Hmem. intros Hr Ha. apply sprintf_appends; [done | done | by repeat constructor]. Qed.

Lemma str_if_appends (b : bool) f t : (b = true -> appends f t) -> appends (str_if b f) (if b then t else []).
Proof using Type. destruct b; [by intros Hf; apply Hf | intros _; apply appends_skip]. Qed.

Lemma str_cond_appends b (c : bool) f g t u :
  b = Ret c -> (c = true -> appends f t) -> (c = false -> appends g u) ->
  appends (str_cond b f g) (if c then t else u).
Proof using Type. intros -> Hf Hg. unfold str_cond. cbn. destruct c; [by apply Hf | by apply Hg]. Qed.

Lemma on_peers_appends heap l ps f g :
  peers_of heap l = Some ps -> (forall p, p ∈ ps -> appends (f p) (g p)) ->
  appends (str_each (fun o => on_peer heap o f) l) (concat (map g ps)).
Proof using Type.
  revert ps; induction l as [|o l IH]; intros ps E Hf; cbn [str_each].
  { injection E as <-. apply appends_skip. }
  unfold peers_of in E. cbn in E. destruct o as [loc|]; [|done].
  cbn in E. destruct (heap !! loc) as [p|] eqn:Ep; [|done]. cbn in E.
  destruct (mapM _ l) as [ps'|] eqn:El; [|done]. injection E as <-. cbn [map concat].
  apply appends_then.
  - intros s Hs Hl. unfold on_peer, peer_at. rewrite Ep. apply Hf; [by left | done..].
  - apply IH; [done|]. intros q Hq. apply Hf. by right.
Qed.

(** The same for texts that are lists of lines. *)
Lemma lines_then f g a b :
  appends f (unlines a) -> appends g (unlines b) -> appends (f ;;; g) (unlines (a ++ b)).
Proof using Type. intros. rewrite unlines_app. by apply appends_then. Qed.

Lemma lines_if (b : bool) f ls :
  (b = true -> appends f (unlines ls)) -> appends (str_if b f) (unlines (if b then ls else [])).
Proof using Type. intros. rewrite unlines_if. by apply str_if_appends. Qed.

Lemma lines_cond b (c : bool) f g ls ks :
  b = Ret c -> (c = true -> appends f (unlines ls)) -> (c = false -> appends g (unlines ks)) ->
  appends (str_cond b f g) (unlines (if c then ls else ks)).
Proof using Type. intros. replace (unlines _) with (if c then unlines ls else unlines ks) by by destruct c.
  by apply str_cond_appends. Qed.

Lemma lines_skip : appends str_skip (unlines []).
Proof using Type. apply appends_skip. Qed.

Lemma lines_text t ls : t = unlines ls -> appends (CONCAT (Some t)) (unlines ls).
Proof using Hmem. intros ->. by apply concat_appends. Qed.

Lemma lines_f f v ls x :
  v = Some x -> render f [AStr (Some x)] = Some (unlines ls) ->
  appends (CONCAT_F (Some f) (AStr v)) (unlines ls).
Proof using Hmem. intros -> Hr. apply sprintf_appends; [done | done | by repeat constructor]. Qed.

(** A line [key ++ value]. *)
Lemma lines_kv key f v x :
  v = Some x -> render f [AStr (Some x)] = Some (key ++ x ++ [10]) ->
  appends (CONCAT_F (Some f) (AStr v)) (unlines [key ++ x]).
Proof using Hmem.
  intros. eapply lines_f; [done|]. rewrite unlines_cons. by rewrite <- app_assoc.
Qed.

Lemma nonempty_Some o : str_is_nonempty o = true -> o = Some (txt o).
Proof using Type. by destruct o. Qed.

Lemma concat_f_ptr f o t : o = Some (txt o) -> render f [AStr (Some (txt o))] = Some t ->
  appends (CONCAT_F (Some f) (AStr o)) t.
Proof using Hmem. intros -> Hr. by apply concat_f. Qed.

End Blocks.

(** The version is text. *)
Definition version_ok (config : config) : Prop :=
  match cf_tincd_version config with Some v => cstring v | None => True end.

Lemma newer_known_ok config v : version_ok config -> cstring v ->
  version_known_gt (cf_tincd_version config) v = Ret (newer (cf_tincd_version config) v).
Proof.
  unfold version_ok, version_known_gt, version_gt, newer.
  destruct (cf_tincd_version config) as [w|]; [|done]. intros Hw Hv.
  destruct (loop_ok (S (length w)) false w v) as (r & E & _); try done; [lia|].
  unfold strnatcmp, strnatcmp0. by rewrite E.
Qed.

Ltac const_cstring := apply (bool_decide_unpack _); by vm_compute.

Lemma ptr_eq_ok a b x y : a = Some x -> b = Some y -> ptr_eq a b = Ret (same_name a b).
Proof.
  intros -> ->. unfold ptr_eq, same_name. cbn. by rewrite strcmp_eqb.
Qed.

Lemma excluded_ok config p :
  is_Some (pc_name p) -> settings_set (cf_exclude config) ->
  tinc_check_if_excluded config (pc_name p) = Ret (excluded config p).
Proof.
  intros [n En]. unfold tinc_check_if_excluded, excluded, settings_set. rewrite En.
  destruct (cf_exclude config) as [l|]; [|done].
  change (txt (Some n)) with n. change (default [] (Some l)) with l.
  induction l as [|[[s|]|i] l IH]; intros HF; cbn [excluded_loop existsb]; [done | | |].
  - cbn [deref mbind outcome_bind]. change (txt (Some s)) with s.
    apply list.Forall_cons in HF as [_ HF]. destruct (_ =? 0); [done | by apply IH].
  - apply list.Forall_cons in HF as [He _]. by destruct He.
  - apply list.Forall_cons in HF as [_ HF]. by apply IH.
Qed.

(** ** The host files *)

(** The texts a parsed peer always has (see [wf_peer]). *)
Record peer_texts (p : peer_config) : Prop := {
  pt_name : is_Some (pc_name p);
  pt_key : is_Some (pc_key p);
  pt_network : Forall is_Some (pc_network p);
  pt_network6 : Forall is_Some (pc_network6 p);
  pt_port : 0 <= pc_port p < 2 ^ 16
}.

(** The public key file, when there is one, reads as a C string. *)
Definition key_readable (config : config) : Prop :=
  match s_s (cf_ed25519publickey config) with
  | Some b => exists k, string_cstr (cf_ed25519publickey config) = Some k
  | None => True
  end.

Lemma is_Some_txt o : is_Some o -> o = Some (txt o).
Proof. by intros [? ->]. Qed.

Section HostFiles.
Context `{Allocator}.
Hypothesis Hmem : alloc_enough.

Lemma key_cases s :
  match s_s s with Some b => exists k, string_cstr s = Some k | None => True end ->
  buf_nonempty s = Ret (str_is_nonempty (Some (default [] (string_cstr s)))) /\
  (str_is_nonempty (Some (default [] (string_cstr s))) = true ->
     cstr_of s = Ret (default [] (string_cstr s))).
Proof using Type.
  unfold buf_nonempty, string_get, cstr_of, string_cstr. destruct (s_s s) as [b|]; [|done].
  intros (k & Hk). destruct (strchr b 0) as [[t f]|] eqn:E; [|done]. injection Hk as ->. cbn [default].
  split; [|done]. apply strchr_Some in E as (-> & Ht & rest & ->).
  destruct k as [|c k].
  - done.
  - cbn. destruct (Z.eqb_spec c 0) as [->|]; [|done]. exfalso. apply Ht. by left.
Qed.

Lemma add_subnet_appends l :
  Forall is_Some l ->
  appends (tinc_add_subnet l) (unlines (map (fun n => c_lit "Subnet=" ++ txt n) l)).
Proof using Hmem.
  intros HF. rewrite unlines_map. apply appends_each. intros n Hn.
  rewrite list.Forall_forall in HF. apply (concat_f_ptr Hmem); [by apply is_Some_txt, HF | done].
Qed.

Lemma df_lines key f v d :
  render f [AStr (Some (or_else v d))] = Some (key ++ or_else v d ++ [10]) ->
  appends (CONCAT_DF (Some f) v d) (unlines [key ++ or_else v d]).
Proof using Hmem.
  intros Hr. eapply lines_kv; [done | | done].
  unfold or_else. by destruct v as [[|c v]|].
Qed.

Lemma own_key_lines b k :
  cstr_of b = Ret k ->
  appends ((fun s => k ← cstr_of b; CONCAT (Some k) s) ;;; CONCAT (Some (c_lit "\n"))) (unlines [k]).
Proof using Hmem.
  intros ->. rewrite unlines_cons. apply appends_then; [|by apply (concat_text Hmem [10])].
  by apply concat_text.
Qed.

Lemma generate_appends config p :
  peer_texts p -> version_ok config -> is_Some (cf_tincd_version config) ->
  is_Some (cf_peerid config) -> key_readable config ->
  appends (tinc_generate_peer_config config p) (unlines (host_lines config p)).
Proof using Hmem.
  intros [Hname Hkey Hn Hn6 Hport] Hv [v Ev] Hid Hk. pose proof (key_cases _ Hk) as [Hk1 Hk2].
  assert (version_gt (cf_tincd_version config) (c_lit "1.1")
          = Ret (newer (cf_tincd_version config) (c_lit "1.1"))) as Hgt.
  { rewrite <- newer_known_ok by (done || const_cstring). by rewrite Ev. }
  unfold tinc_generate_peer_config.
  eapply appends_ext.
  - apply lines_then; [by apply (lines_text Hmem _ HEADER)|].
    apply lines_then.
    { apply lines_if. intros Hc. apply andb_true_iff in Hc as [Hc _].
      by apply (lines_kv Hmem (c_lit "Address=")); [apply nonempty_Some|]. }
    apply lines_then; [by apply (df_lines (c_lit "Cipher="))|].
    apply lines_then; [by apply (df_lines (c_lit "Compression="))|].
    apply lines_then; [by apply (df_lines (c_lit "Digest="))|].
    apply lines_then; [by apply (lines_kv Hmem (c_lit "IndirectData=") _ _ (yes_no (pc_indirectdata p)))|].
    apply lines_then.
    { apply (concat_f Hmem _ _ (unlines [c_lit "Port=" ++ dec (pc_port p)])); [|cbn; lia].
      rewrite unlines_cons, <- app_assoc. done. }
    apply lines_then; [by apply add_subnet_appends|].
    apply lines_then; [by apply add_subnet_appends|].
    apply lines_then; [by apply (lines_kv Hmem (c_lit "TCPonly=") _ _ (yes_no (pc_use_tcp_only p)))|].
    apply lines_then.
    { apply (lines_f Hmem _ _ [txt (pc_key p); []] _ (is_Some_txt _ Hkey)). rewrite unlines_cons. done. }
    eapply (lines_cond _ _ _ _ _ _ Hgt); [|intros _; apply lines_skip]. intros _.
    eapply lines_cond; [eapply ptr_eq_ok; by apply is_Some_txt | |].
    + intros _. eapply (lines_cond _ _ _ _ _ _ Hk1); [|intros _; apply lines_skip].
      intros Hne. by apply own_key_lines, Hk2.
    + intros _. apply lines_if. intros Hc.
      by apply (lines_kv Hmem (c_lit "Ed25519PublicKey=")); [apply nonempty_Some|].
  - done.
Qed.
End HostFiles.

(** ** tinc.conf *)

Section Conf.
Context `{Allocator}.
Hypothesis Hmem : alloc_enough.

Lemma opt_lines key f v :
  render f [AStr (Some (txt v))] = Some (key ++ txt v ++ [10]) ->
  appends (str_if (str_is_nonempty v) (CONCAT_F (Some f) (AStr v))) (unlines (opt_line key v)).
Proof using Hmem.
  intros Hr. unfold opt_line. apply lines_if. intros Hc.
  by apply (lines_kv Hmem key _ _ _ (nonempty_Some _ Hc)).
Qed.

Lemma connect_to_appends config p :
  settings_set (cf_exclude config) -> is_Some (pc_name p) -> is_Some (cf_peerid config) -> version_ok config ->
  appends (connect_to config p)
    (if connects config p then (c_lit "ConnectTo=" ++ txt (pc_name p)) ++ [10] else []).
Proof using Hmem.
  intros Hex Hn Hid Hv. unfold connect_to.
  eapply appends_ext.
  - eapply str_cond_appends; [eapply ptr_eq_ok; by apply is_Some_txt | intros _; apply appends_skip |]. intros _.
    eapply str_cond_appends; [by apply excluded_ok | intros _; apply appends_skip |]. intros _.
    eapply (str_cond_appends _ (cf_connect_only_to_primary_nodes config &&
      newer (cf_tincd_version config) (c_lit "1.0.12") && negb (pc_primary p))); [| intros _; apply appends_skip |].
    + destruct (cf_connect_only_to_primary_nodes config); [|done].
      rewrite newer_known_ok by (done || const_cstring). done.
    + intros _. apply str_if_appends. intros _.
      by apply (concat_f_ptr Hmem); [apply is_Some_txt|].
  - unfold connects, is_me, visible.
    destruct (same_name _ _); [done|]. destruct (excluded config p); [done|].
    by destruct (cf_connect_only_to_primary_nodes config && _ && _).
Qed.

Lemma bind_line_if config :
  (if bind_address config then [c_lit "BindToAddress=" ++ txt (cf_my_ip config)] else []) = bind_line (cf_my_ip config).
Proof using Type.
  unfold bind_address, bind_line. destruct (cf_my_ip config) as [ip|]; [|done]. rewrite !strcmp_eqb.
  destruct ip as [|c ip]; [done|]. case_bool_decide as H1; [by rewrite H1|]. case_bool_decide as H2; [by rewrite H2|].
  rewrite bool_decide_eq_false_2; [done|]. rewrite !elem_of_cons, elem_of_nil. by intros [? | [? | [? | ?]]].
Qed.

Lemma config_appends config heap me peers :
  settings_set (cf_exclude config) ->
  peer_at heap (cf_my_peer config) = Ret me -> peers_of heap (cf_peer_config config) = Some peers ->
  Forall (fun p => is_Some (pc_name p)) peers -> is_Some (cf_peerid config) -> version_ok config ->
  appends (config_contents config heap) (unlines (conf_lines config me peers)).
Proof using Hmem.
  intros Hex Hme Hps Hnames Hid Hv. unfold config_contents.
  assert (forall v, cstring v -> version_known_gt (cf_tincd_version config) v
            = Ret (newer (cf_tincd_version config) v)) as Hnew by (intros; by apply newer_known_ok).
  eapply appends_ext.
  - apply lines_then; [by apply (lines_text Hmem _ HEADER)|].
    apply lines_then; [by apply (opt_lines (c_lit "AddressFamily="))|].
    apply lines_then.
    { apply lines_if. intros Hb. apply (lines_kv Hmem (c_lit "BindToAddress=") _ _ (txt (cf_my_ip config))); [|done].
      unfold bind_address in Hb. by destruct (cf_my_ip config). }
    apply lines_then; [by apply (opt_lines (c_lit "Interface="))|].
    apply lines_then; [by apply (opt_lines (c_lit "Device="))|].
    apply lines_then; [by apply (lines_text Hmem _ [c_lit "Mode=router"])|].
    apply lines_then; [by apply (lines_kv Hmem (c_lit "Name=") _ _ _ (is_Some_txt _ Hid))|].
    apply lines_then; [by apply (lines_text Hmem _ [c_lit "Hostnames=no"])|].
    apply lines_then; [by apply (lines_text Hmem _ [c_lit "PingTimeout=60"])|].
    apply lines_then.
    { eapply lines_cond; [apply Hnew; const_cstring | |]; intros _.
      - by apply (lines_text Hmem _ [c_lit "StrictSubnets=yes"]).
      - by apply (lines_text Hmem _ [c_lit "TunnelServer=yes"]). }
    apply lines_then.
    { eapply lines_cond; [apply Hnew; const_cstring | | intros _; apply lines_skip]. intros _.
      by apply (lines_kv Hmem (c_lit "LocalDiscovery=") _ _ (yes_no (cf_localdiscovery config))). }
    apply lines_then.
    { eapply lines_cond; [apply Hnew; const_cstring | | intros _; apply lines_skip]. intros _.
      by apply (lines_text Hmem _ [c_lit "Broadcast=no"]). }
    apply lines_then; [by apply (opt_lines (c_lit "GraphDumpFile="))|].
    apply lines_then; [by apply (opt_lines (@nil Z))|].
    rewrite Hme. cbn [mbind outcome_bind].
    eapply (lines_cond _ (negb (pc_silent me))); [done | | intros _; apply lines_skip]. intros _.
    eapply appends_ext.
    + apply on_peers_appends; [exact Hps|]. intros p Hp. rewrite list.Forall_forall in Hnames.
      apply connect_to_appends; auto.
    + symmetry. apply (unlines_filter (connects config) (fun p => c_lit "ConnectTo=" ++ txt (pc_name p))).
  - unfold conf_lines. rewrite <- bind_line_if. destruct (newer (cf_tincd_version config) (c_lit "1.0.16")), (pc_silent me); done.
Qed.

End Conf.

(** ** tinc-up and tinc-down *)

(** A format that takes at most one text, such as a route command. *)
Definition format_ok (cmd : cptr) : Prop :=
  match cmd with Some f => is_Some (render f [AStr (Some [])]) | None => True end.

Lemma render_any f args args' :
  Forall2 (fun a b => exists x y, a = AStr (Some x) /\ b = AStr (Some y)) args args' ->
  is_Some (render f args) -> is_Some (render f args').
Proof.
  revert args args'. induction f as [f IH] using (induction_ltof1 _ (@length Z)); unfold ltof in IH.
  intros args args' HF. destruct f as [|c f]; [done|]. cbn [render].
  assert (forall k args args', (length k < S (length f))%nat ->
    Forall2 (fun a b => exists x y, a = AStr (Some x) /\ b = AStr (Some y)) args args' ->
    forall p q : text, is_Some (app p <$> render k args) -> is_Some (app q <$> render k args')) as Hk.
  { intros k b b' Hl HF' u v [r Hr]. apply fmap_Some in Hr as (r' & Hr' & _).
    destruct (IH k ltac:(done) b b' HF') as [z Hz]; [by eexists|]. rewrite Hz. by eexists. }
  destruct (c =? 37); [|apply Hk; [lia | done]]. destruct f as [|k f]; [done|].
  destruct (k =? 115).
  - destruct HF as [|a b args args' (x & y & -> & ->) HF]; [done|]. apply Hk; [cbn [length]; lia | done].
  - destruct (k =? 83); [by destruct HF as [|a b args args' (x & y & -> & ->) HF]|].
    destruct (k =? 100); [by destruct HF as [|a b args args' (x & y & -> & ->) HF]|].
    destruct (k =? 37); [|done]. apply Hk; [cbn [length]; lia | done].
Qed.

Lemma formatted_ok cmd net :
  format_ok cmd -> str_is_nonempty cmd = true -> render (txt cmd) [AStr (Some net)] = Some (formatted cmd net).
Proof.
  intros Hf Hc. rewrite (nonempty_Some _ Hc) in *. cbn in Hf. unfold formatted.
  destruct (render_any (txt cmd) [AStr (Some [])] [AStr (Some net)]) as [t Ht]; [repeat constructor; eauto | done |].
  change (txt (Some (txt cmd))) with (txt cmd). by rewrite Ht.
Qed.

Section Updown.
Context `{Allocator} `{ResolverOk}.
Hypothesis Hmem : alloc_enough.

(** A network text the route loops can work on. *)
Definition net_ok (t : text) : Prop := nonul t /\ subnet_net t <> [] /\ zlen t < str_limit.

Record routes_ok (config : config) : Prop := {
  ro_routeadd : format_ok (cf_routeadd config);
  ro_routeadd6 : format_ok (cf_routeadd6 config);
  ro_routedel : format_ok (cf_routedel config);
  ro_routedel6 : format_ok (cf_routedel6 config);
  ro_supernets : Forall wf_addr (cf_mergeroutes_supernet config)
}.

Lemma routecmd_ok config up v4 : routes_ok config -> format_ok (routecmd config up v4).
Proof using Type. intros []. by destruct up, v4. Qed.

Lemma subnet_net_prefix t : exists rest, t = subnet_net t ++ rest.
Proof using Type.
  unfold subnet_net. destruct (strchr t 35) as [[b f]|] eqn:E.
  - apply strchr_Some in E as (-> & _). by exists f.
  - exists []. by rewrite app_nil_r.
Qed.

Lemma match_found l t :
  nonul t -> t <> [] -> zlen t < str_limit ->
  exists r, addrmask_match l (Some t) = Ret r /\ found_in l t = bool_decide (is_Some r).
Proof using Hmem.
  intros Hn Hne Hl. unfold addrmask_match, found_in. destruct l as [|e l].
  { exists None. done. }
  rewrite addrmask_parse_eq by done. cbn [mbind outcome_bind].
  destruct (parse_pattern t) as [a|]; eauto.
Qed.

Lemma subnet_route_appends config cmd t :
  net_ok t -> format_ok cmd -> str_is_nonempty cmd = true ->
  appends (subnet_route config cmd (Some t)) (unlines [subnet_line config cmd t]).
Proof using Hmem.
  intros (Hn & Hne & Hl) Hf Hc. destruct (subnet_net_prefix t) as [rest Et].
  assert (nonul (subnet_net t) /\ zlen (subnet_net t) < str_limit) as [Hn' Hl'].
  { rewrite Et in Hn, Hl. apply nonul_app in Hn as [? _]. pose proof (zlen_nonneg rest). rewrite zlen_app in Hl.
    split; [done | lia]. }
  pose proof (match_found (cf_mergeroutes_supernet config) _ Hn' Hne Hl') as (m & Em & Fm).
  pose proof (match_found (cf_ignore_subnets config) _ Hn' Hne Hl') as (i & Ei & Fi).
  pose proof (match_found (cf_whitelist_subnets config) _ Hn' Hne Hl') as (w & Ew & Fw).
  unfold subnet_line, inactive. rewrite Fm, Fi, Fw.
  intros s Hs Hlim. unfold subnet_route. rewrite (strdup_ok Hmem t) by done.
  fold (subnet_net t). rewrite Em, Ei, Ew. cbn [mbind outcome_bind]. rewrite unlines_cons, <- app_assoc in *.
  revert s Hs Hlim.
  match goal with |- forall s, good_str s -> _ -> exists s', (?f ;;; ?g) s = _ /\ _ =>
    change (appends (f ;;; g) ((if bool_decide (is_Some m) then c_lit "# *merged* " else
      if bool_decide (is_Some i) then c_lit "# *ignored* " else
      if negb (bool_decide (cf_whitelist_subnets config = [])) && negb (bool_decide (is_Some w))
      then c_lit "# *not whitelisted, ignored* " else []) ++ formatted cmd (subnet_net t) ++ [10])) end.
  apply appends_then.
  - destruct m as [m|]; [by apply concat_text|]. destruct i as [i|]; [by apply concat_text|].
    rewrite !bool_decide_false by (by intros []). clear Ew Fw.
    destruct (cf_whitelist_subnets config) as [|e l]; [by apply appends_skip|].
    destruct w as [w|]; [by apply appends_skip | by apply concat_text].
  - apply appends_then; [|by apply (concat_text Hmem [10])].
    rewrite (nonempty_Some _ Hc) at 1. apply (concat_f Hmem); [by apply formatted_ok | done].
Qed.

Lemma supernet_appends config up net :
  wf_addr net -> routes_ok config ->
  appends (supernet_route config up net) (unlines (supernet_lines config up net)).
Proof using All.
  intros Hw Hr. unfold supernet_route, supernet_lines, family_routed.
  set (v4 := addr_family net =? AF_INET).
  destruct (good_init 128 128 Hmem) as (o & -> & Ho & Hoc & Hol); [unfold str_limit; lia..|].
  destruct (_ && _) eqn:Ec; [|apply lines_skip]. apply andb_true_iff in Ec as [_ Hcmd].
  intros s Hs Hlim.
  destruct (addr_text_nonul net Hw) as (Hn & Hne & Hlt).
  destruct (to_string_appends net Hmem Hw o Ho) as (o1 & -> & Ho1 & Hc1 & _); [unfold str_limit; lia|].
  rewrite Hoc in Hc1. cbn [app] in Hc1. cbn [mbind outcome_bind].
  assert (s_length o1 = zlen (addr_text net)) as Hl1 by (rewrite <- Hc1; symmetry; apply zlen_content, Ho1).
  assert (0 < zlen (addr_text net)) by (destruct (addr_text net); [done | zlia]).
  destruct (ensurez_holds Hmem o1) as (o2 & -> & Hh); [done | by rewrite Hc1 | left; lia | unfold str_limit; lia |].
  rewrite Hc1 in Hh. cbn [mbind outcome_bind]. rewrite (holds_cstr _ _ Hh). cbn [mbind outcome_bind].
  revert s Hs Hlim. rewrite unlines_cons. apply appends_then; [|by apply (concat_text Hmem [10])].
  rewrite (nonempty_Some _ Hcmd) at 1.
  apply (concat_f Hmem); [|done]. apply formatted_ok; [by apply routecmd_ok | done].
Qed.

Lemma peer_routes_appends config up p :
  settings_set (cf_exclude config) -> is_Some (pc_name p) -> is_Some (cf_peerid config) -> routes_ok config ->
  Forall (fun o => exists t, o = Some t /\ net_ok t) (pc_network p) ->
  Forall (fun o => exists t, o = Some t /\ net_ok t) (pc_network6 p) ->
  appends (peer_routes config up p) (unlines (peer_lines config up p)).
Proof using Hmem.
  intros Hex Hn Hid Hr Hn4 Hn6. unfold peer_routes, peer_lines.
  eapply lines_cond; [eapply ptr_eq_ok; by apply is_Some_txt | intros _; apply lines_skip |]. intros _.
  eapply lines_cond; [by apply excluded_ok | |]; intros _.
  { by apply (lines_kv Hmem (c_lit "# excluded node: ") _ _ _ (is_Some_txt _ Hn)). }
  apply lines_then; [by apply (lines_kv Hmem (c_lit "# node: ") _ _ _ (is_Some_txt _ Hn))|].
  assert (forall v4 l, Forall (fun o => exists t, o = Some t /\ net_ok t) l ->
    appends (str_if (str_is_nonempty (vpnip config v4) && str_is_nonempty (routecmd config up v4))
               (str_each (subnet_route config (routecmd config up v4)) l))
      (unlines (if family_routed config up v4
                then map (fun t => subnet_line config (routecmd config up v4) (txt t)) l else []))) as Hfam.
  { intros v4 l Hl. apply lines_if. intros Hc. apply andb_true_iff in Hc as [_ Hc].
    rewrite unlines_map. apply appends_each. intros o Ho.
    rewrite list.Forall_forall in Hl. destruct (Hl o Ho) as (t & -> & Ht).
    eapply appends_ext; [apply subnet_route_appends; [done | by apply routecmd_ok | done]|].
    by rewrite unlines_cons. }
  apply lines_then; [by apply (Hfam true) | by apply (Hfam false)].
Qed.

Lemma lines_each {A} (f : A -> str_op) (g : A -> list text) l :
  (forall x, x ∈ l -> appends (f x) (unlines (g x))) ->
  appends (str_each f l) (unlines (concat (map g l))).
Proof using Type.
  intros Hf. eapply appends_ext; [by apply (appends_each f (fun x => unlines (g x)))|].
  induction l as [|x l IH]; [done|]. cbn [map concat]. rewrite unlines_app, <- IH; [done|].
  intros y Hy. apply Hf. by right.
Qed.

Lemma updown_appends config heap up peers :
  settings_set (cf_exclude config) ->
  peers_of heap (cf_peer_config config) = Some peers ->
  Forall (fun p => is_Some (pc_name p) /\
    Forall (fun o => exists t, o = Some t /\ net_ok t) (pc_network p) /\
    Forall (fun o => exists t, o = Some t /\ net_ok t) (pc_network6 p)) peers ->
  is_Some (cf_peerid config) -> routes_ok config ->
  appends (updown_contents config heap up) (unlines (updown_lines config peers up)).
Proof using All.
  intros Hex Hps Hpeers Hid Hr. unfold updown_contents, updown_lines.
  apply (lines_then _ _ [c_lit "#!/bin/sh"]); [by apply lines_text|].
  apply lines_then; [by apply lines_text|].
  apply lines_then.
  { apply lines_if. intros _. apply lines_then.
    { apply lines_if. intros Hc. apply andb_true_iff in Hc as [Hc _].
      by apply (lines_kv Hmem [] _ _ _ (nonempty_Some _ Hc)). }
    apply lines_then; [|by apply (lines_text Hmem _ [[]])].
    apply lines_if. intros Hc. apply andb_true_iff in Hc as [Hc _].
    by apply (lines_kv Hmem [] _ _ _ (nonempty_Some _ Hc)). }
  apply lines_then.
  { apply lines_if. intros _. apply lines_then; [by apply lines_text|].
    apply lines_then; [|by apply (lines_text Hmem _ [[]])].
    apply lines_each. intros net Hnet. apply supernet_appends; [|done].
    pose proof (ro_supernets config Hr) as HF. rewrite list.Forall_forall in HF. by apply HF. }
  apply lines_then.
  { apply lines_if. intros _. eapply appends_ext.
    - apply (on_peers_appends _ _ _ _ (fun p => unlines (peer_lines config up p)) Hps). intros p Hp.
      rewrite list.Forall_forall in Hpeers. destruct (Hpeers p Hp) as (? & ? & ?).
      by apply peer_routes_appends.
    - clear. induction peers as [|p l IH]; [done|]. cbn [map concat]. by rewrite unlines_app, IH. }
  apply (lines_then _ _ [[]]); [by apply lines_text|].
  apply (lines_then _ _ [c_lit "[ -x \q$0.local\q ] && \q$0.local\q \q$@\q"]); [by apply lines_text|].
  apply (lines_then _ _ [[]]); [by apply lines_text|].
  apply lines_then; [|by apply lines_text].
  apply lines_if. intros Hc. apply andb_true_iff in Hc as [_ Hc].
  rewrite (nonempty_Some _ Hc) at 1. rewrite unlines_cons.
  apply appends_then; [by apply concat_text | by apply (concat_text Hmem [10])].
Qed.

End Updown.

(** ** subnet-up and subnet-down *)

Section Subnet.
Context `{Allocator}.
Hypothesis Hmem : alloc_enough.

Lemma log_lines up family reason :
  appends (log_subnet (LOGGER up) family reason) (logger_line up family reason ++ [10]).
Proof using Hmem.
  apply sprintf_appends; [done | | by repeat constructor].
  unfold logger_line. rewrite <- !app_assoc. by destruct up.
Qed.

(** A tab and a line. *)
Lemma tab_lines f t : appends f (t ++ [10]) -> appends (CONCAT (Some (c_lit "\t")) ;;; f) (unlines [tab t]).
Proof using Hmem.
  intros Hf. rewrite unlines_cons. apply (appends_then _ _ [9] (t ++ [10])); [by apply concat_text | done].
Qed.

Lemma str_then_assoc f g h s : ((f ;;; g) ;;; h) s = (f ;;; g ;;; h) s.
Proof using Type. unfold str_then. destruct (f s) as [[[] s']| |]; done. Qed.

Lemma appends_assoc f g h t : appends ((f ;;; g) ;;; h) t -> appends (f ;;; g ;;; h) t.
Proof using Type. intros Hf s Hs Hl. rewrite <- str_then_assoc. by apply Hf. Qed.

Lemma tab_then f t g ls :
  appends f (t ++ [10]) -> appends g (unlines ls) ->
  appends (CONCAT (Some (c_lit "\t")) ;;; f ;;; g) (unlines (tab t :: ls)).
Proof using Hmem.
  intros Hf Hg. apply appends_assoc. apply (lines_then _ _ [tab t]); [by apply tab_lines | done].
Qed.

(** A family of the script, for a test that is one line. *)
Lemma family_appends up test line family vpnip cmd :
  test = line ++ [10] -> format_ok cmd ->
  appends (family_part (LOGGER up) test family vpnip cmd)
    (unlines (family_lines up line family (str_is_nonempty vpnip && str_is_nonempty cmd) cmd)).
Proof using Hmem.
  intros -> Hf. unfold family_part, family_lines. destruct (_ && _) eqn:Ec.
  - apply andb_true_iff in Ec as [_ Hc].
    apply (lines_then _ _ [line]); [by apply lines_text; [|rewrite unlines_cons]|].
    apply tab_then; [apply log_lines|]. apply appends_assoc, appends_assoc.
    apply (lines_then _ _ [tab (formatted cmd (c_lit "$SUBNET"))]).
    { rewrite unlines_cons. apply (appends_then _ _ (tab (formatted cmd (c_lit "$SUBNET"))) [10]);
        [|by apply concat_text].
      apply (appends_then _ _ [9]); [by apply concat_text|].
      rewrite (nonempty_Some _ Hc) at 1. apply (concat_f Hmem); [by apply formatted_ok | done]. }
    apply (lines_then _ _ [tab LOCAL_LINE]); [by apply lines_text|].
    apply (lines_then _ _ [tab (c_lit "exit 0")]); by apply lines_text.
  - apply (lines_then _ _ [line]); [by apply lines_text; [|rewrite unlines_cons]|].
    apply tab_then; [apply log_lines|].
    apply (lines_then _ _ [tab LOCAL_LINE]); [by apply lines_text|].
    apply (lines_then _ _ [tab (c_lit "exit 0")]); by apply lines_text.
Qed.

Lemma exclude_appends up l :
  Forall entry_set l ->
  appends (exclude_lines l false (LOGGER up)) (unlines (exclude_part up (setting_names (Some l)))) /\
  appends (exclude_lines l true (LOGGER up))
    (unlines (map (fun n => c_lit "[ \q$NODE\q = '" ++ n ++ c_lit "' ] && excluded=1") (setting_names (Some l)) ++
      [c_lit "if [ -n \q$excluded\q ] ; then"; tab (logger_line up (c_lit "ignore") (c_lit " (excluded)"));
       tab LOCAL_LINE; tab (c_lit "exit 0"); c_lit "fi"; []])).
Proof using Hmem.
  induction l as [|e l IH]; intros HF;
    [|apply list.Forall_cons in HF as [He HF]; destruct (IH HF) as [IHf IHt]; destruct e as [[s|]|i]; [|by destruct He|]];
    cbn [exclude_lines setting_names default omap list_omap map app].
  - split; [apply lines_skip|]. unfold str_if.
    apply (lines_then _ _ [c_lit "if [ -n \q$excluded\q ] ; then"]); [by apply lines_text|].
    apply tab_then; [apply log_lines|].
    apply (lines_then _ _ [tab LOCAL_LINE]); [by apply lines_text|].
    apply (lines_then _ _ [tab (c_lit "exit 0")]); by apply lines_text.
  - assert (forall s, appends (CONCAT_F (Some (c_lit "[ \q$NODE\q = '%s' ] && excluded=1\n")) (AStr (Some s)))
              (unlines [c_lit "[ \q$NODE\q = '" ++ s ++ c_lit "' ] && excluded=1"])) as Hx.
    { intros x. eapply lines_f; [done | done |]. rewrite unlines_cons, <- !app_assoc. done. }
    split.
    + apply (lines_then _ _ [[]; c_lit "excluded=\q\q"]).
      { apply (lines_then _ _ [[]]); by apply lines_text. }
      apply (lines_then _ _ [_]); [apply Hx | exact IHt].
    + apply (lines_then _ _ []); [apply lines_skip|]. apply (lines_then _ _ [_]); [apply Hx | exact IHt].
  - done.
Qed.

Lemma subnet_appends config up :
  settings_set (cf_exclude config) -> cf_use_dynamic_routes config = true -> is_Some (cf_peerid config) ->
  format_ok (command_for config up true) -> format_ok (command_for config up false) ->
  appends (subnet_contents config up) (unlines (subnet_lines config up)).
Proof using Hmem.
  intros Hex Hd Hid H4 H6. unfold subnet_contents, subnet_lines. rewrite Hd. cbn [negb].
  apply (lines_then _ _ [c_lit "#!/bin/sh"]); [by apply lines_text|].
  apply lines_then; [by apply lines_text|].
  apply lines_then.
  { apply (lines_f Hmem _ _ _ _ (is_Some_txt _ Hid)). rewrite !unlines_cons, <- !app_assoc. done. }
  apply lines_then.
  { unfold settings_set in Hex. destruct (cf_exclude config) as [l|]; [by apply exclude_appends | apply lines_skip]. }
  apply lines_then; [by apply family_appends|].
  apply lines_then; [by apply family_appends|].
  apply (lines_then _ _ [_]).
  { rewrite unlines_cons. apply log_lines. }
  apply (lines_then _ _ [LOCAL_LINE]); by apply lines_text.
Qed.

End Subnet.
