(* ===== verification/TincProps.v ===== *)
(** * Theorems about tinc.c *)

From S2P Require Import Prelude CLib CString StrBuf StrFmt StrNatCmp AddrMask NumericHost PeerParser PeerSpec.
From S2P Require Import Config World Fs FsProps Tinc TincSpec.

(** The base directory is set. *)
Definition base_ok (config : config) (b : text) : Prop :=
  cf_base_path config = Some b /\ b <> [] /\ nonul b /\ zlen b < 2 ^ 16.

(** Writing [data] to [path] in one go: what is asked, and the result. *)
Definition written `{Environment} (path data : text) (mode : Z) (t : trace) (ok : bool) (new : trace) : Prop :=
  if os_open t path then
    new = [EOpenWrite path mode; EWrite path data] /\
    ok = (os_write (t ++ [EOpenWrite path mode]) path data =? zlen data)
  else new = [EOpenWrite path mode] /\ ok = false.

(** The files a run wrote to, and the data. *)
Definition writes_of (new : trace) : list (text * list char) :=
  omap (fun e => match e with EWrite p d => Some (p, d) | _ => None end) new.

Section Files.
Context `{Allocator} `{EnvironmentOk}.
Hypothesis Hmem : alloc_enough.

Lemma base_file_ok config suffix b :
  base_ok config b -> nonul suffix -> 0 < zlen suffix < 2 ^ 8 -> base_file config suffix = Ret (b ++ suffix).
Proof using Hmem.
  intros (Hb & Hne & Hn & Hl) Hsn Hsl. unfold base_file.
  destruct (good_init 512 512 Hmem) as (s & -> & Hg & Hc & Hl0); [unfold str_limit; lia..|].
  unfold CONCAT. rewrite Hb.
  destruct (concat_holds Hmem s b Hg) as (s1 & -> & Hh1); [by rewrite Hc | unfold str_limit; lia |].
  rewrite Hc in Hh1. cbn [app] in Hh1. cbn [mbind outcome_bind].
  pose proof (holds_length _ _ Hh1) as Hl1. pose proof (zlen_nonneg b).
  destruct (concat_holds Hmem s1 suffix) as (s2 & -> & Hh2); [apply Hh1 | | unfold str_limit; lia |].
  { rewrite (holds_content _ _ Hh1). by apply nonul_app. }
  rewrite (holds_content _ _ Hh1) in Hh2. cbn [mbind outcome_bind].
  pose proof (holds_length _ _ Hh2) as Hl2. rewrite zlen_app in Hl2.
  destruct (ensurez_holds Hmem s2) as (s3 & -> & Hh3); [apply Hh2 | | left; lia | unfold str_limit; lia |].
  { rewrite (holds_content _ _ Hh2). by apply Hh2. }
  rewrite (holds_content _ _ Hh2) in Hh3. cbn [mbind outcome_bind]. by apply holds_cstr.
Qed.

(** A buffer as the contents of a file. *)
Lemma buffer_bytes s d : good_str s -> content s = d ->
  0 <= s_length s <= zlen (default [] (string_get s)) /\ s_length s = zlen d /\
  ztake (s_length s) (default [] (string_get s)) = d.
Proof using Type.
  intros Hg <-. pose proof (good_wf _ Hg) as Hw. pose proof (wf_default_buf s Hw). pose proof (wf_length s Hw).
  unfold string_get. rewrite zlen_content by done. split_and!; try done; lia.
Qed.

Lemma writecontents_buffer s d p mode t :
  good_str s -> content s = d -> zlen d < 2 ^ 31 ->
  runs (fs_writecontents p (default [] (string_get s)) (s_length s) mode) t (written p d mode t).
Proof using All -Hmem.
  intros Hg Hc Hl. destruct (buffer_bytes s d Hg Hc) as (Hb & Hlen & Ht).
  eapply runs_weaken; [|apply writecontents_runs; [done | lia | by apply write_range]].
  intros ok new Hr. unfold written. by rewrite Ht, Hlen in Hr.
Qed.

Lemma write_file_runs contents path p d mode t :
  appends contents d -> path = Ret p -> zlen d < 2 ^ 31 ->
  runs (write_file contents path mode) t (written p d mode t).
Proof using All.
  intros Hap -> Hl. unfold write_file.
  destruct (good_init 8192 2048 Hmem) as (s & -> & Hg & Hc & Hl0); [unfold str_limit; lia..|].
  destruct (Hap s Hg) as (s1 & E1 & Hg1 & Hc1 & _); [unfold str_limit; lia|].
  rewrite Hc in Hc1. cbn [app] in Hc1.
  calc E1.
  eapply runs_lift_bind; [done|]. by apply writecontents_buffer.
Qed.

(** *** The host files *)

Definition host_target (dir : text) (p : peer_config) : text := dir ++ 47 :: safe_name (txt (pc_name p)).
Definition host_data (config : config) (p : peer_config) : text := unlines (host_lines config p).

Record host_ok (config : config) (dir : text) (p : peer_config) : Prop := {
  ho_texts : peer_texts p;
  ho_name : zlen dir + zlen (txt (pc_name p)) + 2 < 2 ^ 32;
  ho_data : zlen (host_data config p) < 2 ^ 31
}.

(** What a run over [ps] does: files are opened and written for peers only, in
    order; true means all of them. *)
Definition hosts_written (config : config) (dir : text) (ps : list peer_config) (ok : bool) (new : trace) : Prop :=
  let files := map (fun p => (host_target dir p, host_data config p)) ps in
  writes_of new `prefix_of` files /\ (ok = true -> writes_of new = files) /\
  Forall (fun e => exists p, p ∈ ps /\ (e = EOpenWrite (host_target dir p) 384 \/
                    e = EWrite (host_target dir p) (host_data config p))) new /\
  ((forall h q, os_open h q = true) -> (forall h q d, os_write h q d = zlen d) -> ok = true).

Record hosts_config (config : config) : Prop := {
  hc_version : version_ok config;
  hc_version_known : is_Some (cf_tincd_version config);
  hc_peerid : is_Some (cf_peerid config);
  hc_key : key_readable config
}.

Lemma writes_of_app a b : writes_of (a ++ b) = writes_of a ++ writes_of b.
Proof using Type. unfold writes_of. apply omap_app. Qed.

Lemma host_file_runs config dir p s t :
  host_ok config dir p -> good_str s -> content s = host_data config p ->
  runs (fs_writecontents_safe dir (txt (pc_name p)) (default [] (string_get s)) (s_length s) 384) t
    (written (host_target dir p) (host_data config p) 384 t).
Proof using All.
  intros [Ht Hn Hd] Hg Hc. destruct (buffer_bytes s _ Hg Hc) as (Hb & Hlen & _).
  pose proof (zlen_nonneg dir). pose proof (zlen_nonneg (txt (pc_name p))).
  rewrite writecontents_safe_eq; [by apply writecontents_buffer | | done | lia].
  apply Hmem. unfold strlen, str_limit. lia.
Qed.

Lemma hosts_written_cons config dir p ps ok n1 n2 :
  n1 = [EOpenWrite (host_target dir p) 384; EWrite (host_target dir p) (host_data config p)] ->
  hosts_written config dir ps ok n2 -> hosts_written config dir (p :: ps) ok (n1 ++ n2).
Proof using Type.
  intros -> (Hp & Hok & Hf & Hall). split_and!.
  - cbn [map]. rewrite writes_of_app. by apply (prefix_app [_]).
  - intros E1. cbn [map]. rewrite writes_of_app. by rewrite Hok.
  - apply Forall_app. split.
    + repeat constructor; exists p; (split; [by left | auto]).
    + eapply list.Forall_impl; [exact Hf|]. intros e (q & Hq & He). exists q. split; [by right | done].
  - done.
Qed.

Lemma generate_host_data config p :
  peer_texts p -> hosts_config config -> appends (tinc_generate_peer_config config p) (host_data config p).
Proof using Hmem. intros Hp []. by apply generate_appends. Qed.

#[local] Opaque host_data host_target subnet_lines.

Lemma hosts_loop_runs config heap dir l ps t :
  hosts_config config -> peers_of heap l = Some ps -> Forall (host_ok config dir) ps ->
  runs (hosts_loop config heap dir l) t (hosts_written config dir ps).
Proof using All.
  intros Hc4. revert ps t; induction l as [|o l IH]; intros ps t E1 HF; cbn [hosts_loop].
  { injection E1 as <-. apply runs_ret. split; [apply prefix_nil | split; [done | split; [constructor | done]]]. }
  unfold peers_of in E1. cbn in E1. destruct o as [loc|]; [|done].
  cbn in E1. destruct (heap !! loc) as [p|] eqn:Ep; [|done]. cbn in E1.
  destruct (mapM _ l) as [ps'|] eqn:El; [|done]. injection E1 as <-.
  apply list.Forall_cons in HF as [Hp HF]. pose proof (ho_texts _ _ _ Hp) as Htx.
  assert (peer_at heap (Some loc) = Ret p) as Eat by (unfold peer_at; by rewrite Ep). calc Eat.
  destruct (good_init 2048 512 Hmem) as (s & -> & Hg & Hc & Hl0); [unfold str_limit; lia..|].
  cbn [negb].
  destruct (generate_host_data config p Htx Hc4 s Hg) as (s1 & E2 & Hg1 & Hc1 & _).
  { pose proof (ho_data _ _ _ Hp) as Hd. rewrite Hl0. unfold str_limit. lia. }
  rewrite Hc in Hc1. cbn [app] in Hc1.
  calc E2.
  assert (deref (pc_name p) = Ret (txt (pc_name p))) as En by (by rewrite (is_Some_txt _ (pt_name _ Htx))). calc En.
  eapply runs_bind; [by apply host_file_runs|]. intros ok n1 Hw. unfold written in Hw.
  destruct (os_open t (host_target dir p)) eqn:Eo.
  - destruct Hw as (-> & ->). destruct (Z.eqb_spec (os_write (t ++ [EOpenWrite (host_target dir p) 384])
      (host_target dir p) (host_data config p)) (zlen (host_data config p))); cbn [negb].
    + eapply runs_weaken; [|by apply IH]. intros ok n2 Hr.
      exact (hosts_written_cons config dir p ps' ok _ n2 eq_refl Hr).
    + apply runs_ret. rewrite ?app_nil_r. cbn [app]. split_and!; [| done | |].
      * by eexists.
      * repeat constructor; exists p; (split; [by left | auto]).
      * intros _ Hw. by rewrite Hw in *.
  - destruct Hw as (-> & ->). cbn [negb]. apply runs_ret. rewrite ?app_nil_r. cbn [app]. split_and!.
    + apply prefix_nil.
    + done.
    + repeat constructor. exists p. split; [by left | auto].
    + intros Ho. by rewrite Ho in Eo.
Qed.

End Files.

(** *** Reading back what a command or a file says *)

Lemma read_chunks_appends `{Allocator} chunks :
  alloc_enough -> appends (read_chunks chunks) (@concat Z chunks).
Proof.
  intros Hmem. induction chunks as [|c chunks IH]; cbn [read_chunks concat]; [apply appends_skip|].
  apply (appends_then (fun s => string_concatb s c (zlen c)) (read_chunks chunks) c); [|done].
  eapply appends_ext; [apply concatb_appends; [done | pose proof (zlen_nonneg c); lia]|].
  by apply ztake_all.
Qed.

Section Answers.
Context `{Allocator} `{Environment}.
Hypothesis Hmem : alloc_enough.

Lemma backticks_runs cmd size g t chunks :
  os_popen t cmd = Some chunks -> 0 <= size <= str_limit -> 0 < g <= str_limit ->
  zlen (@concat Z chunks) < str_limit ->
  runs (fs_backticks_exec cmd (snd (string_init size g))) t (fun r new => new = [EPopen cmd] /\
    exists s, r = (true, s) /\ good_str s /\ content s = @concat Z chunks).
Proof using Hmem.
  intros Hp Hs Hg Hl. destruct (good_init size g Hmem Hs Hg) as (s & -> & Hgs & Hc & Hl0). cbn [snd].
  unfold fs_backticks_exec. ask. rewrite Hp.
  destruct (read_chunks_appends chunks Hmem s Hgs) as (s1 & E1 & Hg1 & Hc1 & _); [lia|].
  eapply runs_lift; [exact E1|]. split; [done|]. exists s1. rewrite Hc in Hc1. done.
Qed.

Lemma terminated_cstr s d :
  good_str s -> content s = d -> nonul d -> d <> [] -> zlen d + 1 < str_limit ->
  exists s', string_ensurez s = Ret (true, s') /\ cstr_of s' = Ret d.
Proof using Hmem.
  intros Hg Hc Hn Hne Hl. pose proof (zlen_content _ (good_wf _ Hg)) as Hlen. rewrite Hc in Hlen.
  assert (0 < zlen d) by (destruct d; [done | zlia]).
  destruct (ensurez_holds Hmem s) as (s' & E1 & Hh); [done | by rewrite Hc | left; lia | lia |].
  exists s'. split; [done|]. rewrite Hc in Hh. by apply holds_cstr.
Qed.

Lemma read_file_runs path size g t chunks :
  os_read_file t path = Some (chunks, false) -> 0 <= size <= str_limit -> 0 < g <= str_limit ->
  zlen (@concat Z chunks) < str_limit ->
  runs (fs_read_file (snd (string_init size g)) path) t (fun r new => new = [EReadFile path] /\
    exists s, r = (true, s) /\ good_str s /\ content s = @concat Z chunks).
Proof using Hmem.
  intros Hp Hs Hg Hl. destruct (good_init size g Hmem Hs Hg) as (s & -> & Hgs & Hc & Hl0). cbn [snd].
  unfold fs_read_file. ask. rewrite Hp.
  destruct (read_chunks_appends chunks Hmem s Hgs) as (s1 & E1 & Hg1 & Hc1 & _); [lia|].
  calc E1. apply runs_ret.
  split; [done|]. exists s1. rewrite Hc in Hc1. done.
Qed.

End Answers.

(** ** The theorems *)

Section Theorems.
Context `{Allocator} `{ResolverOk} `{EnvironmentOk}.

(** C21. [tinc_write_config] asks for exactly one file, base/tinc.conf with mode
    0600, writes to it in one go exactly the lines [conf_lines] gives for the
    configuration and the peers, and returns true exactly when all was written. *)
Theorem tinc_write_config_correct config heap me peers b t :
  alloc_enough -> base_ok config b -> settings_set (cf_exclude config) -> version_ok config -> is_Some (cf_peerid config) ->
  peer_at heap (cf_my_peer config) = Ret me -> peers_of heap (cf_peer_config config) = Some peers ->
  Forall (fun p => is_Some (pc_name p)) peers -> zlen (unlines (conf_lines config me peers)) < 2 ^ 31 ->
  runs (tinc_write_config config heap) t
    (written (b ++ c_lit "/tinc.conf") (unlines (conf_lines config me peers)) 384 t).
Proof using H E H1.
  intros Hmem Hb Hex Hv Hid Hme Hps Hn Hl. apply write_file_runs; [done | by apply config_appends | | done].
  by apply base_file_ok; [| | const_cstring |].
Qed.

(** C22. [tinc_write_updown] asks for exactly one file, tinc-up or tinc-down in
    the base directory with mode 0700, and writes exactly the lines [updown_lines]
    gives: the route command of each network of each other node that is not
    excluded, as a comment when the network is merged, ignored or not whitelisted. *)
Theorem tinc_write_updown_correct config heap peers b up t :
  alloc_enough -> base_ok config b -> settings_set (cf_exclude config) -> is_Some (cf_peerid config) -> routes_ok config ->
  peers_of heap (cf_peer_config config) = Some peers ->
  Forall (fun p => is_Some (pc_name p) /\
    Forall (fun o => exists t, o = Some t /\ net_ok t) (pc_network p) /\
    Forall (fun o => exists t, o = Some t /\ net_ok t) (pc_network6 p)) peers ->
  zlen (unlines (updown_lines config peers up)) < 2 ^ 31 ->
  runs (tinc_write_updown config heap up) t
    (written (b ++ (if up then c_lit "/tinc-up" else c_lit "/tinc-down"))
       (unlines (updown_lines config peers up)) 448 t).
Proof using All.
  intros Hmem Hb Hex Hid Hr Hps Hpeers Hl. apply write_file_runs; [done | by apply updown_appends | | done].
  by apply base_file_ok; [| | destruct up; const_cstring | by destruct up].
Qed.

(** The two scripts. *)
Lemma updown_path b up :
  nonul b /\ zlen b < 2 ^ 16 ->
  let suffix := if up : bool then c_lit "/subnet-up" else c_lit "/subnet-down" in
  nonul (b ++ suffix) /\ 0 < zlen (b ++ suffix) < 2 ^ 17 /\ nonul suffix /\ 0 < zlen suffix < 2 ^ 8.
Proof using Type.
  intros [Hn Hl] suffix. assert (nonul suffix /\ 0 < zlen suffix < 2 ^ 8) as [Hs Hz]
    by (unfold suffix; destruct up; (split; [const_cstring | done])).
  pose proof (zlen_nonneg b). rewrite zlen_app. split_and!; [by apply nonul_app | lia | lia | done | lia | lia].
Qed.

(** The name of the local script, as the code puts it together. *)
Lemma local_path path :
  alloc_enough -> nonul path -> 0 < zlen path < 2 ^ 17 ->
  exists s s1 s2, string_init 512 512 = (true, s) /\
    string_concat_sprintf s (c_lit "%s.local") [AStr (Some path)] = Ret (true, s1) /\
    string_ensurez s1 = Ret (true, s2) /\ cstr_of s2 = Ret (path ++ c_lit ".local").
Proof using Type.
  intros Hmem Hpn Hpl. destruct (good_init 512 512 Hmem) as (s & Ei & Hg & Hc & Hl0); [unfold str_limit; lia..|].
  assert (zlen (path ++ c_lit ".local") = zlen path + 6) as Hll by (by rewrite zlen_app).
  destruct (sprintf_appends (c_lit "%s.local") [AStr (Some path)] (path ++ c_lit ".local") Hmem) with (s := s)
    as (s1 & E1 & Hg1 & Hc1 & _); [done | by repeat constructor | done | unfold str_limit; lia |].
  rewrite Hc in Hc1. cbn [app] in Hc1.
  destruct (terminated_cstr Hmem s1 (path ++ c_lit ".local")) as (s2 & E2 & Hcs); try done.
  { apply nonul_app. split; [done | const_cstring]. }
  { intros E0. rewrite E0 in Hll. change (zlen []) with 0 in Hll. lia. }
  { unfold str_limit. lia. }
  by exists s, s1, s2.
Qed.

(** C24. [tinc_write_subnetupdown] without dynamic routes writes no file: it
    removes the old script and, when a .local script is executable, links to it.
    With dynamic routes it removes what is there and writes exactly the lines
    [subnet_lines] gives, with mode 0700. *)
Theorem tinc_write_subnetupdown_correct config b up t :
  alloc_enough -> base_ok config b -> settings_set (cf_exclude config) -> is_Some (cf_peerid config) ->
  format_ok (command_for config up true) -> format_ok (command_for config up false) ->
  zlen (unlines (subnet_lines config up)) < 2 ^ 31 ->
  let path := b ++ (if up then c_lit "/subnet-up" else c_lit "/subnet-down") in
  let localpath := path ++ c_lit ".local" in
  runs (tinc_write_subnetupdown config up) t (fun ok new =>
    if cf_use_dynamic_routes config then
      exists rest, new = EUnlink path :: rest /\
        written path (unlines (subnet_lines config up)) 448 (t ++ [EUnlink path]) ok rest
    else ok = true /\
      new = [EUnlink path; EAccess localpath] ++
            (if os_access (t ++ [EUnlink path]) localpath then [ESymlink localpath path] else [])).
Proof using H E H1.
  intros Hmem Hb Hex Hid H4 H6 Hl path localpath. unfold tinc_write_subnetupdown.
  destruct (updown_path b up (proj2 (proj2 Hb))) as (Hpn & Hpl & Hsn & Hsl). fold path in Hpn, Hpl.
  pose proof (base_file_ok Hmem config _ b Hb Hsn Hsl) as Ep. fold path in Ep. calc Ep.
  clearbody path. clear Ep. destruct (cf_use_dynamic_routes config) eqn:Ed; cbn [negb].
  - destruct (good_init 8192 2048 Hmem) as (s & -> & Hg & Hc & Hl0); [unfold str_limit; lia..|].
    pose proof (subnet_appends Hmem config up Hex Ed Hid H4 H6) as Hap. revert Hap Hl.
    generalize (unlines (subnet_lines config up)) as d. intros d Hap Hl.
    destruct (Hap s Hg) as (s1 & E1 & Hg1 & Hc1 & _); [rewrite Hl0; unfold str_limit; lia|].
    rewrite Hc in Hc1. cbn [app] in Hc1. calc E1. ask.
    eapply runs_weaken; [|by apply (writecontents_buffer s1 d path 448)].
    intros ok new Hw. exists new. split; [done | exact Hw].
  - ask. destruct (local_path path Hmem) as (s & s1 & s2 & -> & E1 & E2 & Hcs); [done..|].
    calc E1. calc E2. calc Hcs. ask. destruct (os_access _ _); [|by apply runs_ret]. ask. by apply runs_ret.
Qed.

(** C23. [tinc_write_hosts] writes one file per peer, in the order of the list,
    all in one directory: the file of a peer is named after it with its slashes
    replaced, and holds exactly its [host_lines].  Only these files are opened;
    true means all of them were written, and when every open and write is granted
    the result is true.  The directory is base/hosts/, unless its creation failed
    on a missing parent: then the path is cut where [fs_mkdir_p] gave up. *)
Theorem tinc_write_hosts_correct config heap peers b t :
  alloc_enough -> base_ok config b -> hosts_config config ->
  peers_of heap (cf_peer_config config) = Some peers ->
  (forall dir, zlen dir <= zlen b + 7 -> Forall (host_ok config dir) peers) ->
  runs (tinc_write_hosts config heap) t (fun ok new =>
    exists dir dirs files, new = dirs ++ files /\ dir `prefix_of` b ++ c_lit "/hosts/" /\
      (os_mkdir t (b ++ c_lit "/hosts/") 448 <> ENOENT -> dir = b ++ c_lit "/hosts/") /\
      Forall (fun e => exists q, e = EMkdir q 448 /\ q `prefix_of` b ++ c_lit "/hosts/") dirs /\
      hosts_written config dir peers ok files).
Proof using H E H1.
  intros Hmem Hb Hc Hps HF. unfold tinc_write_hosts.
  eapply runs_lift_bind; [apply base_file_ok; [done | done | const_cstring | done]|].
  eapply runs_bind; [apply mkdir_p_runs; lia|].
  intros [err dir] dirs (_ & Hdirs & _ & Hpre & Hsame). cbn [snd] in Hpre, Hsame.
  eapply runs_weaken; [|apply (hosts_loop_runs Hmem config heap dir _ peers); [done | done |]].
  - intros ok files Hw. exists dir, dirs, files. done.
  - apply HF. destruct Hpre as [rest Er]. apply (f_equal zlen) in Er. rewrite !zlen_app in Er.
    pose proof (zlen_nonneg rest). change (zlen (c_lit "/hosts/")) with 7 in Er. lia.
Qed.

(** [tinc_get_version] runs the tinc binary with --version once and returns
    the word behind "tinc version " of what it prints, and NULL when the output
    starts differently. *)
Lemma tinc_get_version_correct config bin chunks t :
  alloc_enough -> cf_tincd_bin config = Some bin -> zlen bin < 1000 ->
  let cmd := bin ++ c_lit " --version" in
  let out := @concat Z chunks in
  os_popen t cmd = Some chunks -> nonul out -> out <> [] -> zlen out + 1 < str_limit ->
  runs (tinc_get_version config) t (fun r new => new = [EPopen cmd] /\
    ((exists v rest, out = c_lit "tinc version " ++ v ++ rest /\ 32 ∉ v /\
        (rest = [] \/ exists tail, rest = 32 :: tail) /\ r = Some v) \/
     (~ (exists rest, out = c_lit "tinc version " ++ rest) /\ r = None))).
Proof using H E.
  intros Hmem Hbin Hlb cmd out Hp Hn Hne Hl. unfold tinc_get_version.
  pose proof (backticks_runs Hmem cmd 1024 512 t chunks Hp) as Hr.
  destruct (string_init 1024 512) as [ok0 s0] eqn:Es. cbn [snd] in Hr.
  eapply runs_lift_bind; [by rewrite Hbin|]. cbn beta iota. rewrite ?app_nil_r.
  assert (snprintf 1024 (bin ++ c_lit " --version") = cmd) as ->.
  { unfold snprintf. apply ztake_all. unfold cmd. rewrite zlen_app. change (zlen (c_lit " --version")) with 10. lia. }
  eapply runs_bind; [apply Hr; unfold str_limit, out in *; lia|].
  intros [? ?] ? (-> & s1 & Eq & Hg1 & Hc1). injection Eq as -> ->.
  destruct (terminated_cstr Hmem s1 out) as (s2 & E2 & Hcs); try done.
  calc E2.
  calc Hcs. rewrite ?app_nil_r.
  pose proof (strncmp_prefix out (c_lit "tinc version ")) as Hcmp.
  change (zlen (c_lit "tinc version ")) with 13 in Hcmp.
  destruct (Z.eqb_spec (strncmp out (c_lit "tinc version ") 13) 0) as [Ez|Ez]; cbn [negb].
  2: { apply runs_ret. split; [done|]. right. split; [|done]. intros Hx. by apply Ez, Hcmp. }
  apply runs_ret. split; [done|]. left. apply Hcmp in Ez as [rest Er].
  rewrite Er, zdrop_app_eq by done.
  assert (zlen rest < str_limit) as Hlr.
  { rewrite Er, zlen_app in Hl. change (zlen (c_lit "tinc version ")) with 13 in Hl. lia. }
  destruct (strchr rest 32) as [[v f]|] eqn:Ech.
  - apply strchr_Some in Ech as (-> & Hv & tail & ->). exists v, (32 :: tail).
    split_and!; [done | done | right; by eexists |]. apply (strdup_ok Hmem).
    rewrite zlen_app in Hlr. pose proof (zlen_nonneg (32 :: tail)). lia.
  - apply strchr_None in Ech. exists rest, []. rewrite ?app_nil_r.
    split_and!; [done | done | by left |]. by apply (strdup_ok Hmem).
Qed.

Lemma tinc_get_pid_range config : returns (tinc_get_pid config) (fun pid => pid = 0 \/ pid = 1).
Proof using H E.
  unfold tinc_get_pid. destruct (string_init 256 128) as [ok s].
  assert (forall t, pid_of_text t = 0 \/ pid_of_text t = 1) as Hpid by (intros x; unfold pid_of_text; case_match; auto).
  repeat first [apply returns_bind; intros ? | case_match | apply returns_ret]; auto.
Qed.

(** [tinc_get_pid] never gives another number than 0 and 1, on any system:
    the number it has read is stored in a [bool] first.  A pid file that holds the
    number of a running tincd, any positive one, makes it return 1. *)
Lemma tinc_get_pid_bool config file n rest t :
  alloc_enough -> cf_tincd_version config = None -> cf_tincd_pidfile config = Some file -> file <> [] ->
  0 < n < 2 ^ 31 -> nonul rest -> (forall c r, rest = c :: r -> isdigit c = false) -> zlen rest < 2 ^ 20 ->
  os_read_file t file = Some ([dec_nat n ++ rest], false) ->
  returns (tinc_get_pid config) (fun pid => pid = 0 \/ pid = 1) /\
  runs (tinc_get_pid config) t (fun pid new => pid = 1 /\ new = [EReadFile file]).
Proof using H E.
  intros Hmem Hv Hf Hfne Hn Hrest Hd Hl Hread. split; [apply tinc_get_pid_range|].
  - unfold tinc_get_pid.
    pose proof (read_file_runs Hmem file 256 128 t [dec_nat n ++ rest] Hread) as Hr.
    cbn [concat] in Hr. rewrite app_nil_r in Hr.
    assert (zlen (dec_nat n ++ rest) < 2 ^ 21) as Hll.
    { rewrite zlen_app. pose proof (dec_nat_length 9 n). cbn in *. lia. }
    destruct (string_init 256 128) as [ok s]. cbn [snd] in Hr.
    eapply runs_lift_bind; [by rewrite Hv|]. cbn beta iota. rewrite Hf.
    replace (str_is_empty (Some file)) with false.
    2: { symmetry. apply not_true_is_false. by rewrite str_is_empty_Some. }
    eapply runs_lift_bind; [done|].
    eapply runs_bind; [apply Hr; unfold str_limit in *; lia|].
    intros [? ?] ? (-> & s1 & Eq & Hg1 & Hc1). injection Eq as -> ->. cbn [negb].
    assert (nonul (dec_nat n ++ rest)) as Hn0.
    { apply nonul_app. split; [|done]. apply nonul_not_in, dec_nat_not_in; [lia | done]. }
    assert (dec_nat n ++ rest <> []) as Hne0.
    { intros E0. apply app_eq_nil in E0 as [E0 _]. by apply dec_nat_nonempty in E0. }
    destruct (terminated_cstr Hmem s1 (dec_nat n ++ rest)) as (s2 & E2 & Hcs); try done; [unfold str_limit; lia|].
    calc E2.
    calc Hcs.
    replace (str_is_empty (Some (dec_nat n ++ rest))) with false.
    2: { symmetry. apply not_true_is_false. by rewrite str_is_empty_Some. }
    apply runs_ret. rewrite ?app_nil_r. split; [|done].
    unfold pid_of_text. rewrite strtol_dec by (done || unfold long_max; lia). cbn [fst].
    by replace (n =? 0) with false by lia.
Qed.

End Theorems.

(** ** The theorems at concrete inputs *)

Definition sample_peer (name gateway : text) (net : list cptr) (primary : bool) : peer_config :=
  mkpeer (Some name) (Some gateway) (Some []) net [] [] [] false false 665 (Some (c_lit "KEY\n"))
    (Some []) (Some []) (Some []) (Some []) primary false false.

Definition sample_me : peer_config := sample_peer (c_lit "me") [] [Some (c_lit "172.31.1.0/24")] false.
Definition sample_peers : list peer_config :=
  [sample_me; sample_peer (c_lit "alice") (c_lit "alice.example.org") [Some (c_lit "172.31.2.0/24")] true;
   sample_peer (c_lit "bob/x") [] [Some (c_lit "10.0.0.0/8")] false].
Definition sample_heap : gmap nat peer_config :=
  list_to_map [(0%nat, sample_me); (1%nat, default sample_me (sample_peers !! 1%nat));
               (2%nat, default sample_me (sample_peers !! 2%nat))].

Definition sample_net : addr_info :=
  default (make_addr AF_INET [0; 0; 0; 0] 0) (@parse_pattern numeric_host (c_lit "10.0.0.0/8")).

Definition sample_config : config := Eval vm_compute in
  let c := @config_defaults roomy in
  let c := cset_peerid c (Some (c_lit "me")) in
  let c := cset_base_path c (Some (c_lit "/etc/tinc/chaos")) in
  let c := cset_networkname c (Some (c_lit "chaos")) in
  let c := cset_vpn_ip c (Some (c_lit "172.31.1.1")) in
  let c := cset_routeadd c (Some (c_lit "route add %s dev $INTERFACE")) in
  let c := cset_routedel c (Some (c_lit "route del %s")) in
  let c := cset_ifconfig c (Some (c_lit "ifconfig $INTERFACE")) in
  let c := cset_tincd_version c (Some (c_lit "1.0.36")) in
  let c := cset_ignore_subnets c [sample_net] in
  let c := cset_my_peer c (Some 0%nat) in
  cset_peer_config c [Some 0%nat; Some 1%nat; Some 2%nat].

Definition sample_env : Environment :=
  granting (fun p => if bool_decide (p = c_lit "/var/run/tinc.pid") then Some (c_lit "4711\n") else None)
    (fun c => if bool_decide (c = c_lit "tincd --version") then Some (c_lit "tinc version 1.0.36 (built)\n") else None)
    (fun _ => None) (fun _ => None).

Lemma sample_env_ok : EnvironmentOk sample_env.
Proof.
  split.
  - intros t p l [=].
  - intros t. cbn. repeat constructor; done.
  - intros t p d. cbn. pose proof (zlen_nonneg d). lia.
Qed.

Ltac computed := first [by vm_compute | by apply (bool_decide_unpack _); vm_compute].

Lemma sample_base : base_ok sample_config (c_lit "/etc/tinc/chaos").
Proof. split_and!; [done | done | computed | done]. Qed.

Lemma sample_excludes : settings_set (cf_exclude sample_config).
Proof. constructor. Qed.

Lemma sample_route_formats up v4 : format_ok (command_for sample_config up v4).
Proof. destruct up, v4; vm_compute; eauto. Qed.

Example tinc_write_config_correct_witness :
  runs (@tinc_write_config roomy sample_env sample_config sample_heap) [] (fun ok new => ok = true /\
    new = [EOpenWrite (c_lit "/etc/tinc/chaos/tinc.conf") 384;
           EWrite (c_lit "/etc/tinc/chaos/tinc.conf")
             (AUTOGENERATED ++ c_lit "Mode=router\nName=me\nHostnames=no\nPingTimeout=60\nStrictSubnets=yes\n" ++
              c_lit "LocalDiscovery=yes\nBroadcast=no\nConnectTo=alice\n")]).
Proof.
  destruct (@tinc_write_config_correct roomy sample_env sample_env_ok sample_config sample_heap sample_me
    sample_peers (c_lit "/etc/tinc/chaos") [] roomy_enough sample_base sample_excludes) as (ok & new & E & Hw);
    [computed | by eexists | by vm_compute | by vm_compute | repeat constructor; by eexists | by vm_compute |].
  exists ok, new. split; [exact E|]. destruct Hw as [-> ->]. split; by vm_compute.
Defined.

Lemma sample_routes_ok : @routes_ok sample_config.
Proof. split; try (vm_compute; eauto). Qed.

Lemma sample_peers_nets : Forall (fun p => is_Some (pc_name p) /\
    Forall (fun o => exists t, o = Some t /\ net_ok t) (pc_network p) /\
    Forall (fun o => exists t, o = Some t /\ net_ok t) (pc_network6 p)) sample_peers.
Proof.
  repeat constructor; try (by eexists); (eexists; split; [done|]); (split_and!; [computed | by vm_compute | done]).
Qed.

Example tinc_write_updown_correct_witness :
  runs (@tinc_write_updown roomy numeric_host sample_env sample_config sample_heap true) [] (fun ok new =>
    ok = true /\
    new = [EOpenWrite (c_lit "/etc/tinc/chaos/tinc-up") 448;
           EWrite (c_lit "/etc/tinc/chaos/tinc-up") (unlines (
             [c_lit "#!/bin/sh"] ++ HEADER ++ [c_lit "ifconfig $INTERFACE"; []; c_lit "# node: alice";
              c_lit "route add 172.31.2.0/24 dev $INTERFACE"; c_lit "# node: bob/x";
              c_lit "# *ignored* route add 10.0.0.0/8 dev $INTERFACE"; []; LOCAL_LINE; []; []; c_lit "exit 0"; []]))]).
Proof.
  destruct (@tinc_write_updown_correct roomy numeric_host numeric_host_ok sample_env sample_env_ok sample_config
    sample_heap sample_peers (c_lit "/etc/tinc/chaos") true [] roomy_enough sample_base sample_excludes) as (ok & new & E & Hw);
    [by eexists | exact sample_routes_ok | by vm_compute | exact sample_peers_nets | by vm_compute |].
  exists ok, new. split; [exact E|]. destruct Hw as [-> ->]. split; by vm_compute.
Defined.

Example tinc_write_subnetupdown_correct_witness :
  runs (@tinc_write_subnetupdown roomy sample_env sample_config false) [] (fun ok new =>
    ok = true /\ new = [EUnlink (c_lit "/etc/tinc/chaos/subnet-down");
                        EAccess (c_lit "/etc/tinc/chaos/subnet-down.local");
                        ESymlink (c_lit "/etc/tinc/chaos/subnet-down.local") (c_lit "/etc/tinc/chaos/subnet-down")]).
Proof.
  destruct (@tinc_write_subnetupdown_correct roomy sample_env sample_env_ok sample_config
    (c_lit "/etc/tinc/chaos") false [] roomy_enough sample_base sample_excludes) as (ok & new & E & Hw);
    [by eexists | exact (sample_route_formats false true) | exact (sample_route_formats false false) | by vm_compute |].
  exists ok, new. split; [exact E|]. destruct Hw as [-> ->]. split; by vm_compute.
Defined.

Lemma sample_hosts dir : zlen dir <= 22 -> Forall (host_ok sample_config dir) sample_peers.
Proof.
  intros Hd. assert (forall p, p ∈ sample_peers -> peer_texts p /\ zlen (txt (pc_name p)) <= 5 /\
                       zlen (host_data sample_config p) < 2 ^ 31) as Hp.
  { apply list.Forall_forall. repeat (apply list.Forall_cons; split; [|]); [| | |by apply list.Forall_nil];
      (split; [split; [by eexists | by eexists | | | done] | split; by vm_compute]);
      repeat constructor; by eexists. }
  apply list.Forall_forall. intros p Hin. destruct (Hp p Hin) as (? & ? & ?). split; [done | lia | done].
Qed.

Lemma sample_hosts_config : hosts_config sample_config.
Proof. split; [computed | by eexists | by eexists | done]. Qed.

Example tinc_write_hosts_correct_witness :
  runs (@tinc_write_hosts roomy sample_env sample_config sample_heap) [] (fun ok new => ok = true /\
    map fst (writes_of new) = [c_lit "/etc/tinc/chaos/hosts//me"; c_lit "/etc/tinc/chaos/hosts//alice";
                               c_lit "/etc/tinc/chaos/hosts//bob_x"]).
Proof.
  destruct (@tinc_write_hosts_correct roomy sample_env sample_env_ok sample_config sample_heap sample_peers
    (c_lit "/etc/tinc/chaos") [] roomy_enough sample_base sample_hosts_config) as (ok & new & E & Hw);
    [by vm_compute | exact sample_hosts |].
  exists ok, new. split; [exact E|].
  destruct Hw as (dir & dirs & files & -> & _ & Hdir & Hmk & _ & Hall & _ & Hok).
  rewrite Hdir in * by done. assert (ok = true) as -> by by apply Hok.
  split; [done|]. rewrite writes_of_app, Hall by done.
  replace (writes_of dirs) with (@nil (text * list char)); [by vm_compute|].
  clear -Hmk. induction Hmk as [|e l (q & -> & _) _ IH]; [done | exact IH].
Defined.

Example tinc_get_version_correct_witness :
  runs (@tinc_get_version roomy sample_env sample_config) [] (fun r new => r = Some (c_lit "1.0.36")).
Proof.
  destruct (@tinc_get_version_correct roomy sample_env sample_config (c_lit "tincd")
    [c_lit "tinc version 1.0.36 (built)\n"] [] roomy_enough eq_refl) as (r & new & E & _ & Hr);
    [done | by vm_compute | computed | by vm_compute | by vm_compute |].
  exists r, new. split; [exact E|]. vm_compute in E. by injection E as <- _.
Defined.

Definition pid_config : config := Eval vm_compute in
  cset_tincd_pidfile (cset_tincd_version sample_config None) (Some (c_lit "/var/run/tinc.pid")).

Example tinc_get_pid_bool_witness :
  runs (@tinc_get_pid roomy sample_env pid_config) [] (fun pid new => pid = 1).
Proof.
  destruct (@tinc_get_pid_bool roomy sample_env pid_config (c_lit "/var/run/tinc.pid") 4711 [10] []
    roomy_enough eq_refl eq_refl) as (_ & pid & new & E & Hr & _);
    [done | lia | computed | by intros c r [= <- _] | done | by vm_compute |].
  by exists pid, new.
Defined.
