(* ===== verification/ConfigInit.v ===== *)
(** * Initialising the configuration: config_init of config.c

    The configuration file is read by a parser that flex and bison generate from
    cvconf.l and cvconf.y; here it is the class [ConfigParser], a function from the
    bytes of the file and the record so far to the record, of which ConfigGram.v
    gives the instance.  Everything [config_init]
    does after that is here: the checks, the defaults, the subnet lists, the keys
    and the version.  The Linux branches of the #if lines are modelled. *)

From S2P Require Import Prelude CLib CString StrBuf StrFmt StrNatCmp AddrMask PeerParser Config World Fs Tinc.

Class ConfigParser := {
  (** the settings assigned; it exits on a syntax error *)
  yyparse : list char -> config -> outcome config
}.

Definition S_IXUSR : Z := 64.

Section Init.
Context `{Allocator} `{Resolver} `{Environment} `{ConfigParser}.

(** [addrmask_init] of a pointer that may be NULL: the memory is asked for first. *)
Definition addrmask_init_ptr (addressmask : cptr) : outcome (option addr_info) :=
  match addressmask with
  | Some t => addrmask_init t
  | None => if alloc_ok sizeof_addr_info then Undef else Ret None
  end.

(** The loop over a raw list: [addrlist] is what has been linked so far. *)
Fixpoint raw_subnet_loop (raw : list settings_entry) (addrlist : list addr_info) : outcome (list addr_info) :=
  match raw with
  | [] => Ret addrlist
  | LIST_INTEGER _ :: raw => raw_subnet_loop raw addrlist
  | LIST_STRING s :: raw =>
      current ← addrmask_init_ptr s;
      match current with
      | None => raw_subnet_loop raw addrlist
      | Some current => raw_subnet_loop raw (addrlist ++ [current])
      end
  end.

Definition parse_and_free_raw_subnetlist (raw : option (list settings_entry)) : outcome (list addr_info) :=
  match raw with
  | None => Ret []
  | Some raw => raw_subnet_loop raw []
  end.

(** [$my_ip]: an empty or unspecific address counts as none. *)
Definition normalise_my_ip (config : config) : Config.config :=
  if str_is_empty (cf_my_ip config) ||
     bool_decide (cf_my_ip config = Some (c_lit "0.0.0.0")) ||
     bool_decide (cf_my_ip config = Some (c_lit "127.0.0.1")) ||
     bool_decide (cf_my_ip config = Some (c_lit "::"))
  then cset_my_ip config None else config.

Definition bad_addressfamily (family : cptr) : bool :=
  str_is_nonempty family &&
  negb (bool_decide (family = Some (c_lit "any"))) &&
  negb (bool_decide (family = Some (c_lit "ipv4"))) &&
  negb (bool_decide (family = Some (c_lit "ipv6"))).

(** The parameters required of every configuration. *)
Definition required (config : config) : list cptr :=
  [cf_peerid config; cf_networkname config; cf_vpn_ip config; cf_routeadd config; cf_ifconfig config;
   cf_base_path config; cf_tincd_user config; cf_tincd_bin config].

(** Those required by the routing mode and by ipv6. *)
Definition required_more (config : config) : list cptr :=
  (if cf_use_dynamic_routes config then [cf_routedel config] else []) ++
  (if str_is_nonempty (cf_vpn_ip6 config) then
     [cf_ifconfig6 config; cf_routeadd6 config] ++
     (if cf_use_dynamic_routes config then [cf_routedel6 config] else [])
   else []).

Definition set_tincd_device (config : config) : Config.config :=
  if str_is_empty (cf_tincd_device config)
  then cset_tincd_device config (strdup (c_lit "/dev/net/tun")) else config.

Definition set_tincd_interface (config : config) : Config.config :=
  if str_is_empty (cf_tincd_interface config)
  then cset_tincd_interface config (strdup (snprintf 1024 (txt (cf_networkname config) ++ c_lit "_vpn")))
  else config.

(** The name of tincctl: the directory of tincd, when it has one, and "tinc". *)
Definition tincctl_name (tincd_bin : text) : text :=
  let prefix := match strrchr tincd_bin 47 with
                | Some (before, _) => ztake (1024 - 1) (before ++ [47])
                | None => []
                end in
  prefix ++ snprintf (1024 - zlen prefix) (c_lit "tinc").

(** tincctl, the pid file and the temporary file, when they are not set. *)
Definition set_tincctl (config : config) : outcome Config.config :=
  new ← version_known_gt (cf_tincd_version config) (c_lit "1.1");
  if new : bool then
    match cf_tincctl_bin config with
    | Some _ => Ret config
    | None => bin ← deref (cf_tincd_bin config); Ret (cset_tincctl_bin config (strdup (tincctl_name bin)))
    end
  else Ret (cset_tincctl_bin config None).

Definition set_pidfile (config : config) : Config.config :=
  match cf_tincd_pidfile config with
  | None => cset_tincd_pidfile config
      (strdup (snprintf 1024 (c_lit "/var/run/tinc." ++ txt (cf_networkname config) ++ c_lit ".pid")))
  | Some _ => config
  end.

Definition set_tmpconffile (config : config) : Config.config :=
  match cf_tmpconffile config with
  | None => cset_tmpconffile config (strdup (snprintf 1024 (txt (cf_base_path config) ++ c_lit "/data.sav")))
  | Some _ => config
  end.

(** [string_concat_sprintf (&key_name, "%s/...", config->base_path)] *)
Definition key_path (config : config) (format : text) : outcome (option text) :=
  let '(_, key_name) := string_init 1024 512 in
  '(ok, key_name) ← string_concat_sprintf key_name format [AStr (cf_base_path config)];
  if negb ok then Ret None else p ← cstr_of key_name; Ret (Some p).

(** The subnet lists.  The outer result says whether the list goes with the
    routing mode. *)
Definition init_supernets (config : config) : outcome (bool * Config.config) :=
  l ← parse_and_free_raw_subnetlist (cf_mergeroutes_supernet_raw config);
  let config := cset_mergeroutes_supernet_raw (cset_mergeroutes_supernet config l) None in
  Ret (negb (negb (bool_decide (l = [])) && cf_use_dynamic_routes config), config).

Definition init_ignore (config : config) : outcome (bool * Config.config) :=
  l ← parse_and_free_raw_subnetlist (cf_ignore_subnets_raw config);
  let config := cset_ignore_subnets_raw (cset_ignore_subnets config l) None in
  Ret (negb (negb (bool_decide (l = [])) && cf_use_dynamic_routes config), config).

Definition init_whitelist (config : config) : outcome (bool * Config.config) :=
  l ← parse_and_free_raw_subnetlist (cf_whitelist_subnets_raw config);
  let config := cset_whitelist_subnets_raw (cset_whitelist_subnets config l) None in
  Ret (negb (negb (bool_decide (l = [])) && cf_use_dynamic_routes config), config).

(** The part up to the directory: the settings are checked and completed. *)
Definition init_settings (config : config) : io (bool * Config.config) :=
  let fail : io (bool * Config.config) := mret (false, config) in
  if existsb str_is_empty (required config) then fail
  else
    bin ← lift (deref (cf_tincd_bin config));
    usable ← match strchr bin 47 with
             | None => mret true
             | Some _ => st ← sys_stat bin;
                 mret (match st with Some st => negb (Z.land (st_mode st) S_IXUSR =? 0) | None => false end)
             end;
    if negb usable then fail
    else
      let config := normalise_my_ip config in
      ok ← (if str_is_nonempty (cf_my_ip config) then lift (addrmask_verify_ip (cf_my_ip config) AF_UNSPEC)
            else mret true);
      if negb ok then mret (false, config)
      else if bad_addressfamily (cf_my_addressfamily config) then mret (false, config)
      else
        let config := if str_is_empty (cf_my_addressfamily config)
                      then cset_my_addressfamily config (strdup (c_lit "ipv4")) else config in
        user ← lift (deref (cf_tincd_user config));
        pwentry ← sys_getpwnam user;
        match pwentry with
        | None => mret (false, config)
        | Some (uid, gid) =>
            let config := cset_tincd_gid (cset_tincd_uid config uid) gid in
            ok ← lift (addrmask_verify_ip (cf_vpn_ip config) AF_INET);
            if negb ok then mret (false, config)
            else if bool_decide (cf_vpn_ip config = Some (c_lit "172.31.0.255")) then mret (false, config)
            else
              ok ← (if str_is_nonempty (cf_vpn_ip6 config)
                    then lift (addrmask_verify_ip (cf_vpn_ip6 config) AF_INET6) else mret true);
              if negb ok then mret (false, config)
              else if existsb str_is_empty (required_more config) then mret (false, config)
              else
                '(ok, config) ← lift (init_supernets config);
                if negb ok then mret (false, config)
                else
                  '(ok, config) ← lift (init_ignore config);
                  if negb ok then mret (false, config)
                  else
                    '(ok, config) ← lift (init_whitelist config);
                    if negb ok then mret (false, config)
                    else mret (true, set_tincd_interface (set_tincd_device config))
        end.

(** The rest: the base directory, the keys, the version of tinc and the names
    that depend on it.  [stat] is called before [fs_mkdir_p]; both are. *)
Definition init_files (config : config) : io (bool * Config.config) :=
  base ← lift (deref (cf_base_path config));
  st ← sys_stat base;
  '(err, base) ← fs_mkdir_p (S (length base)) base 448;
  let config := cset_base_path config (Some base) in
  if match st with None => negb (err =? 0) | Some _ => false end then mret (false, config)
  else
    name ← lift (key_path config (c_lit "%s/rsa_key.priv"));
    match name with
    | None => mret (false, config)
    | Some name =>
        '(ok, privkey) ← fs_read_file (string_free (cf_privkey config)) name;
        let config := cset_privkey config privkey in
        if negb ok then mret (false, config)
        else
          name ← lift (key_path config (c_lit "%s/ed25519_key.pub"));
          match name with
          | None => mret (false, config)
          | Some name =>
              '(_, key) ← fs_read_file (string_free (cf_ed25519publickey config)) name;
              let config := cset_ed25519publickey config key in
              version ← tinc_get_version config;
              let config := cset_tincd_version config version in
              config ← lift (set_tincctl config);
              mret (true, set_tmpconffile (set_pidfile config))
          end
    end.

(** When reading the file fails the scanner flex generates ends the program with
    status 2; a mistake in what was read before can end it with 1 earlier. *)
Definition config_init (config : config) : io (bool * Config.config) :=
  file ← lift (deref (cf_configfile config));
  contents ← sys_read_file file;
  match contents with
  | None => mret (false, config)
  | Some (_, true) => io_exit 2
  | Some (chunks, false) =>
      config ← lift (yyparse (@concat Z chunks) config);
      if (cf_update_interval config =? 0) && negb (cf_oneshot config) then io_exit 1
      else if (cf_update_interval config <? 60) && negb (cf_oneshot config) then io_exit 1
      else
        '(ok, config) ← init_settings config;
        if negb ok then mret (false, config) else init_files config
  end.

End Init.
