(* ===== verification/Flex.v ===== *)
(** * The scanners flex generates

    A scanner is a list of rules, each a regular expression with an action.  At
    each point the rule with the longest match is taken, and of those the one
    written first; a character no rule matches is matched by flex's default rule.
    The expressions are those cvconf.l uses: character classes, concatenation,
    [*] and [+].  [longest] computes with derivatives. *)

From S2P Require Import Prelude.

(** A class is a list of ranges, or what is outside of them. *)
Inductive re :=
| Void
| Eps
| Cls (negated : bool) (ranges : list (Z * Z))
| Cat (r s : re)
| Alt (r s : re)
| Star (r : re).

Definition in_ranges (ranges : list (Z * Z)) (c : char) : bool :=
  existsb (fun '(lo, hi) => (lo <=? c) && (c <=? hi)) ranges.

Definition in_class (negated : bool) (ranges : list (Z * Z)) (c : char) : bool :=
  xorb negated (in_ranges ranges c).

(** The characters of [t] as ranges, one character each. *)
Definition among (t : text) : list (Z * Z) := map (fun c => (c, c)) t.

Definition Chr (c : char) : re := Cls false [(c, c)].
Definition Lit (t : text) : re := foldr (fun c r => Cat (Chr c) r) Eps t.
Definition Plus (r : re) : re := Cat r (Star r).

(** The words of an expression. *)
Inductive matches : re -> text -> Prop :=
| matches_eps : matches Eps []
| matches_cls negated ranges c : in_class negated ranges c = true -> matches (Cls negated ranges) [c]
| matches_cat r s u v : matches r u -> matches s v -> matches (Cat r s) (u ++ v)
| matches_alt_l r s u : matches r u -> matches (Alt r s) u
| matches_alt_r r s u : matches s u -> matches (Alt r s) u
| matches_star_nil r : matches (Star r) []
| matches_star_cons r u v : matches r u -> matches (Star r) v -> matches (Star r) (u ++ v).

Fixpoint nullable (r : re) : bool :=
  match r with
  | Void | Cls _ _ => false
  | Eps | Star _ => true
  | Cat r s => nullable r && nullable s
  | Alt r s => nullable r || nullable s
  end.

(** Concatenation and choice, simplified where that is free. *)
Definition cat (r s : re) : re :=
  match r with Void => Void | Eps => s | _ => Cat r s end.
Definition alt (r s : re) : re :=
  match r, s with Void, _ => s | _, Void => r | _, _ => Alt r s end.

(** What may follow the character [c]. *)
Fixpoint deriv (c : char) (r : re) : re :=
  match r with
  | Void | Eps => Void
  | Cls negated ranges => if in_class negated ranges c then Eps else Void
  | Cat r s => alt (cat (deriv c r) s) (if nullable r then deriv c s else Void)
  | Alt r s => alt (deriv c r) (deriv c s)
  | Star r => cat (deriv c r) (Star r)
  end.

(** The length of the longest match at the start of [s]. *)
Fixpoint longest (r : re) (s : text) : option nat :=
  let here := if nullable r then Some 0%nat else None in
  match r, s with
  | Void, _ => None
  | _, [] => here
  | _, c :: s => match longest (deriv c r) s with Some n => Some (S n) | None => here end
  end.

(** The rule taken, and how much it matches. *)
Fixpoint best {A} (rules : list (re * A)) (s : text) : option (nat * A) :=
  match rules with
  | [] => None
  | (r, a) :: rules =>
      match longest r s, best rules s with
      | Some n, Some (m, b) => if (n <? m)%nat then Some (m, b) else Some (n, a)
      | Some n, None => Some (n, a)
      | None, o => o
      end
  end.

(** ** What they compute *)

(** [n] is the length of the longest prefix of [s] that is a word of [r]. *)
Definition longest_match (r : re) (s : text) (n : nat) : Prop :=
  (n <= length s)%nat /\ matches r (take n s) /\
  forall m, (m <= length s)%nat -> matches r (take m s) -> (m <= n)%nat.

(** [a] is the action of the first rule among those with the longest match. *)
Definition munches {A} (rules : list (re * A)) (s : text) (n : nat) (a : A) : Prop :=
  exists before r after, rules = before ++ (r, a) :: after /\
    (n <= length s)%nat /\ matches r (take n s) /\
    (forall r' b m, (r', b) ∈ before -> (m <= length s)%nat -> matches r' (take m s) -> (m < n)%nat) /\
    (forall r' b m, (r', b) ∈ (r, a) :: after -> (m <= length s)%nat -> matches r' (take m s) -> (m <= n)%nat).

Lemma cat_matches r s u : matches (Cat r s) u <-> exists v w, u = v ++ w /\ matches r v /\ matches s w.
Proof.
  split; [inversion 1; eauto|]. intros (v & w & -> & Hv & Hw). by constructor.
Qed.

Lemma nil_split {A} (u v : list A) : u ++ v = [] -> u = [] /\ v = [].
Proof. apply app_nil. Qed.

Lemma nullable_spec r : nullable r = true <-> matches r [].
Proof.
  induction r as [| |n rs|r IHr s IHs|r IHr s IHs|r IHr]; cbn [nullable]; (split; [|intros Hm]); try done.
  - inversion Hm.
  - constructor.
  - inversion Hm.
  - intros [H1 H2]%andb_true_iff. apply (matches_cat _ _ [] []); [by apply IHr | by apply IHs].
  - apply cat_matches in Hm as (u & v & [-> ->]%eq_sym%nil_split & Hu & Hv).
    apply andb_true_iff. split; [by apply IHr | by apply IHs].
  - intros [H1|H1]%orb_true_iff; [apply matches_alt_l; by apply IHr | apply matches_alt_r; by apply IHs].
  - apply orb_true_iff. inversion Hm; subst; [left; by apply IHr | right; by apply IHs].
  - constructor.
Qed.

Lemma void_matches u : ~ matches Void u.
Proof. inversion 1. Qed.

Lemma cat_spec r s u : matches (cat r s) u <-> matches (Cat r s) u.
Proof.
  destruct r; cbn [cat]; try done.
  - split; [by intros []%void_matches|]. inversion 1; subst. by edestruct void_matches.
  - split; [intros Hs; by apply (matches_cat _ _ []); [constructor|]|].
    intros (v & w & -> & Hv & Hw)%cat_matches. by inversion Hv; subst.
Qed.

Lemma alt_matches r s u : matches (Alt r s) u <-> matches r u \/ matches s u.
Proof.
  split; [inversion 1; auto|]. intros [?|?]; [by apply matches_alt_l | by apply matches_alt_r].
Qed.

Lemma alt_spec r s u : matches (alt r s) u <-> matches r u \/ matches s u.
Proof.
  assert (forall q, matches (Alt Void q) u <-> matches q u) as Hl by (intros q; rewrite alt_matches; split; [intros [[]%void_matches|?]; done | by right]).
  assert (forall q, matches (Alt q Void) u <-> matches q u) as Hr by (intros q; rewrite alt_matches; split; [intros [?|[]%void_matches]; done | by left]).
  rewrite <- alt_matches. destruct r, s; cbn [alt]; rewrite ?Hl, ?Hr; done.
Qed.

Lemma star_cons r c u : matches (Star r) (c :: u) ->
  exists v w, u = v ++ w /\ matches r (c :: v) /\ matches (Star r) w.
Proof.
  remember (Star r) as q eqn:Eq. remember (c :: u) as t eqn:Et. intros Hm.
  revert c u Eq Et.
  induction Hm as [| | | | | |r' v w Hv _ Hw IHw]; intros x y Eq Et; try done. injection Eq as ->.
  destruct v as [|d v]; cbn [app] in Et; [by apply IHw|].
  injection Et as -> <-. by exists v, w.
Qed.

Lemma deriv_spec c r u : matches (deriv c r) u <-> matches r (c :: u).
Proof.
  revert u; induction r as [| |n rs|r IHr s IHs|r IHr s IHs|r IHr]; intros u; cbn [deriv].
  - split; inversion 1.
  - split; inversion 1.
  - destruct (in_class n rs c) eqn:E; split; inversion 1; subst; [by constructor | constructor | congruence].
  - rewrite alt_spec, cat_spec. split.
    + intros [Hm|Hm].
      * inversion Hm; subst. apply (matches_cat _ _ (c :: _)); [by apply IHr | done].
      * destruct (nullable r) eqn:En; [|by apply void_matches in Hm].
        apply (matches_cat _ _ []); [by apply nullable_spec | by apply IHs].
    + intros (v & w & E & Hv & Hw)%cat_matches. destruct v as [|d v]; cbn [app] in E.
      * subst w. right. apply nullable_spec in Hv. rewrite Hv. by apply IHs.
      * injection E as -> ->. left. constructor; [by apply IHr | done].
  - by rewrite alt_spec, alt_matches, IHr, IHs.
  - rewrite cat_spec. split.
    + inversion 1; subst. apply (matches_star_cons _ (c :: _)); [by apply IHr | done].
    + intros (v & w & -> & Hv & Hw)%star_cons. constructor; [by apply IHr | done].
Qed.

Lemma longest_eq r s : r <> Void -> longest r s =
  match s with
  | [] => if nullable r then Some 0%nat else None
  | c :: s => match longest (deriv c r) s with Some n => Some (S n) | None => if nullable r then Some 0%nat else None end
  end.
Proof. by destruct r, s. Qed.

(** [longest] finds the longest match, when there is a match. *)
Lemma longest_spec r s :
  match longest r s with
  | Some n => longest_match r s n
  | None => forall m, (m <= length s)%nat -> ~ matches r (take m s)
  end.
Proof.
  revert r; induction s as [|c s IH]; intros r.
  - assert (r = Void \/ r <> Void) as [-> | Hr] by (destruct r; auto); [intros m _; apply void_matches|].
    rewrite longest_eq by done. destruct (nullable r) eqn:En.
    + split_and!; [done | by apply nullable_spec | done].
    + intros m _. rewrite take_nil. intros Hm%nullable_spec. congruence.
  - assert (r = Void \/ r <> Void) as [-> | Hr] by (destruct r; auto); [intros m _; apply void_matches|].
    rewrite longest_eq by done. specialize (IH (deriv c r)). destruct (longest (deriv c r) s) as [n|].
    + destruct IH as (Hn & Hm & Hmax). split_and!; [cbn; lia | by apply deriv_spec |].
      intros [|m] Hl Hm'; [lia|]. apply le_n_S. apply Hmax; [cbn in Hl; lia | by apply deriv_spec].
    + destruct (nullable r) eqn:En.
      * split_and!; [cbn; lia | by apply nullable_spec |].
        intros [|m] Hl Hm'; [done|]. exfalso. apply (IH m); [cbn in Hl; lia | by apply deriv_spec].
      * intros [|m] Hl Hm'; [apply nullable_spec in Hm'; congruence|].
        apply (IH m); [cbn in Hl; lia | by apply deriv_spec].
Qed.

Lemma longest_Some r s n : longest r s = Some n <-> longest_match r s n.
Proof.
  pose proof (longest_spec r s) as Hs. split; [by intros E; rewrite E in Hs|].
  intros (Hn & Hm & Hmax). destruct (longest r s) as [k|].
  - destruct Hs as (Hk & Hmk & Hkmax). f_equal. apply Nat.le_antisymm; auto.
  - by destruct (Hs n).
Qed.

Lemma longest_ge r s m : (m <= length s)%nat -> matches r (take m s) ->
  exists n, longest r s = Some n /\ (m <= n)%nat.
Proof.
  intros Hm Hr. pose proof (longest_spec r s) as Hs. destruct (longest r s) as [n|]; [|by destruct (Hs m)].
  exists n. split; [done|]. by apply Hs.
Qed.

Section Best.
Context {A : Type}.
Implicit Types rules : list (re * A).

Lemma best_None rules s : best rules s = None ->
  forall r a m, (r, a) ∈ rules -> (m <= length s)%nat -> ~ matches r (take m s).
Proof.
  induction rules as [|[r a] rules IH]; intros E r' b m Hin Hm Hr; [by apply elem_of_nil in Hin|].
  cbn [best] in E. destruct (longest r s) as [n|] eqn:El.
  { by destruct (best rules s) as [[k c]|]; [destruct (n <? k)%nat|]. }
  apply elem_of_cons in Hin as [[= -> ->] | Hin]; [|by eapply IH].
  destruct (longest_ge r s m Hm Hr) as (n & En & _). congruence.
Qed.

(** [best] takes the rule a flex scanner takes. *)
Lemma best_munches rules s n a : best rules s = Some (n, a) -> munches rules s n a.
Proof.
  revert n a; induction rules as [|[r b] rules IH]; intros n a E; [done|]. cbn [best] in E.
  destruct (longest r s) as [k|] eqn:El.
  - apply longest_Some in El as (Hk & Hm & Hmax).
    assert (k = n -> b = a -> (forall r' c m, (r', c) ∈ rules -> (m <= length s)%nat -> matches r' (take m s) -> (m <= n)%nat) ->
            munches ((r, b) :: rules) s n a) as Hhere.
    { intros -> -> Hrest. exists [], r, rules. split_and!; [done.. | |].
      - intros ? ? ? Hin. by apply elem_of_nil in Hin.
      - intros r' c m [[= -> ->] | Hin]%elem_of_cons; [apply Hmax | by eapply Hrest]. }
    destruct (best rules s) as [[m c]|] eqn:Eb.
    + destruct (IH m c eq_refl) as (be & q & af & -> & Hms & Hq & Hbe & Haf). destruct (Nat.ltb_spec k m) as [Hlt|Hge].
      * injection E as <- <-. exists ((r, b) :: be), q, af. split_and!; [done.. | | done].
        intros r' d x [[= -> ->] | Hin]%elem_of_cons Hx Hr'; [pose proof (Hmax x Hx Hr'); lia | by eapply Hbe].
      * injection E as <- <-. apply Hhere; [done..|]. intros r' d x [Hin|Hin]%elem_of_app Hx Hr'.
        -- pose proof (Hbe r' d x Hin Hx Hr'). lia.
        -- pose proof (Haf r' d x Hin Hx Hr'). lia.
    + injection E as <- <-. apply Hhere; [done..|]. intros r' d x Hin Hx Hr'.
      by destruct (best_None rules s Eb r' d x Hin Hx).
  - destruct (IH n a E) as (be & q & af & -> & Hms & Hq & Hbe & Haf).
    exists ((r, b) :: be), q, af. split_and!; [done.. | | done].
    intros r' d x [[= -> ->] | Hin]%elem_of_cons Hx Hr'; [|by eapply Hbe].
    destruct (longest_ge r s x Hx Hr') as (? & ? & _). congruence.
Qed.

Lemma best_bound rules s n a : best rules s = Some (n, a) ->
  exists r, (r, a) ∈ rules /\ (n <= length s)%nat /\ matches r (take n s).
Proof.
  intros (be & r & af & -> & Hn & Hr & _)%best_munches. exists r.
  split; [|done]. apply elem_of_app. right. by left.
Qed.

Lemma munches_best rules s n a : munches rules s n a -> best rules s = Some (n, a).
Proof.
  intros (be & q & af & -> & Hn & Hq & Hbe & Haf).
  assert (best ((q, a) :: af) s = Some (n, a)) as Ebest.
  { cbn [best]. assert (longest q s = Some n) as ->.
    { apply longest_Some. split_and!; [done..|]. intros m. apply (Haf q a). by left. }
    destruct (best af s) as [[m b]|] eqn:E; [|done].
    apply best_bound in E as (r & Hin & Hm & Hr). assert (m <= n)%nat as Hmn by (eapply Haf; [by right | done..]).
    by destruct (Nat.ltb_spec n m); [lia|]. }
  induction be as [|[r b] be IH]; [done|]. cbn [best app].
  rewrite IH by (intros r' c m Hin; apply (Hbe r' c); by right).
  destruct (longest r s) as [k|] eqn:El; [|done]. apply longest_Some in El as (Hk & Hr & _).
  assert (k < n)%nat by (apply (Hbe r b); [by left | done..]). by destruct (Nat.ltb_spec k n); [|lia].
Qed.

(** Rules no word of which starts with [c] play no part where [c] is next. *)
Lemma best_app rules rules' s : best rules s = None -> best (rules ++ rules') s = best rules' s.
Proof.
  induction rules as [|[r a] rules IH]; [done|]. cbn [best app].
  destruct (longest r s) as [k|]; [by destruct (best rules s) as [[m b]|]; [destruct (k <? m)%nat|]|].
  intros E. by rewrite IH.
Qed.

End Best.

(** ** Computing with the rest of the input unknown *)

Fixpoint derivs (w : text) (r : re) : re :=
  match w with [] => r | c :: w => derivs w (deriv c r) end.

(** Nothing more can be matched. *)
Definition final (r : re) : bool := match r with Void | Eps => true | _ => false end.

(** After [w] no rule goes on. *)
Definition stops {A} (w : text) (rules : list (re * A)) : bool :=
  forallb (fun '(r, _) => final (derivs w r)) rules.

(** The rule may match something that starts with [c]. *)
Definition loud {A} (c : char) (rule : re * A) : bool :=
  match deriv c (fst rule) with Void => false | _ => true end.

(** No word has one of the characters [sp]; every word starts with [c]. *)
Fixpoint avoids (sp : text) (r : re) : bool :=
  match r with
  | Void | Eps => true
  | Cls negated ranges => forallb (fun x => negb (in_class negated ranges x)) sp
  | Cat r s | Alt r s => avoids sp r && avoids sp s
  | Star r => avoids sp r
  end.

Definition starts_with (c : char) (r : re) : bool :=
  match r with
  | Cls false [(x, y)] | Cat (Cls false [(x, y)]) _ => (x =? c) && (y =? c)
  | _ => false
  end.

Lemma longest_Void s : longest Void s = None.
Proof. by destruct s. Qed.

Lemma longest_Eps s : longest Eps s = Some 0%nat.
Proof. destruct s as [|c s]; [done|]. cbn [longest deriv]. by rewrite longest_Void. Qed.

Lemma longest_final w r s : final (derivs w r) = true -> longest r (w ++ s) = longest r w.
Proof.
  revert r; induction w as [|c w IH]; intros r Hf; cbn [derivs app] in *.
  - by destruct r; rewrite ?longest_Void, ?longest_Eps.
  - assert (r = Void \/ r <> Void) as [-> | Hr] by (destruct r; auto); [by rewrite !longest_Void|].
    rewrite !(longest_eq r) by done. by rewrite IH.
Qed.

Lemma derivs_app w u r : derivs (w ++ u) r = derivs u (derivs w r).
Proof. revert r; induction w as [|c w IH]; intros r; cbn [app derivs]; auto. Qed.

Lemma longest_before w x r s : deriv x (derivs w r) = Void -> longest r (w ++ x :: s) = longest r w.
Proof.
  revert r; induction w as [|c w IH]; intros r Hf; cbn [derivs app] in *;
    (assert (r = Void \/ r <> Void) as [-> | Hr] by (destruct r; auto); [by rewrite !longest_Void|]);
    rewrite !(longest_eq r) by done.
  - by rewrite Hf, longest_Void.
  - by rewrite IH.
Qed.

(** The next character ends every match. *)
Lemma best_next {A} w x (rules : list (re * A)) s :
  (forall r a, (r, a) ∈ rules -> deriv x (derivs w r) = Void) -> best rules (w ++ x :: s) = best rules w.
Proof.
  induction rules as [|[r a] rules IH]; intros Hr; [done|]. cbn [best].
  rewrite longest_before by (eapply Hr; by left). rewrite IH; [done|]. intros r' b Hin. apply (Hr r' b). by right.
Qed.

Lemma best_stops {A} w (rules : list (re * A)) s : stops w rules = true -> best rules (w ++ s) = best rules w.
Proof.
  induction rules as [|[r a] rules IH]; [done|]. unfold stops. cbn [forallb]. intros [Hr Hs]%andb_true_iff.
  cbn [best]. by rewrite longest_final, IH.
Qed.

Lemma longest_quiet {A} c s (r : re) (a : A) :
  loud c (r, a) = false -> longest r (c :: s) = None \/ longest r (c :: s) = Some 0%nat.
Proof.
  unfold loud. cbn [fst]. intros Hq. assert (deriv c r = Void) as Ed by by destruct (deriv c r).
  assert (r = Void \/ r <> Void) as [-> | Hr] by (destruct r; auto); [auto|].
  rewrite longest_eq, Ed, longest_Void by done. destruct (nullable r); auto.
Qed.

(** Only the rules that may match something matter, when one does. *)
Lemma best_loud {A} c s (rules : list (re * A)) n a :
  best (List.filter (loud c) rules) (c :: s) = Some (S n, a) -> best rules (c :: s) = Some (S n, a).
Proof.
  assert (forall rules : list (re * A), match best (List.filter (loud c) rules) (c :: s) with
    | Some (S n, a) => best rules (c :: s) = Some (S n, a)
    | _ => match best rules (c :: s) with Some (S _, _) => False | _ => True end end) as Hsame.
  { clear. induction rules as [|[r b] rules IH]; [done|]. cbn [List.filter].
    destruct (loud c (r, b)) eqn:El; cbn [best].
    - revert IH. generalize (longest r (c :: s)) as k. intros k. generalize (best (List.filter (loud c) rules) (c :: s)) as x.
      generalize (best rules (c :: s)) as y. intros y x.
      destruct x as [[[|m] d]|]; [| intros -> |]; [| destruct k as [[|k]|]; [done | by destruct (S k <? S m)%nat | done] |];
        (destruct y as [[[|m'] d']|]; [| done |]; intros _; by destruct k as [[|k]|]).
    - apply longest_quiet with (s := s) in El. revert IH. generalize (best (List.filter (loud c) rules) (c :: s)) as x.
      generalize (best rules (c :: s)) as y. intros y x.
      destruct El as [-> | ->]; [done|]. destruct x as [[[|m] d]|]; [| by intros -> |];
        (by destruct y as [[[|m'] d']|]). }
  intros E. specialize (Hsame rules). by rewrite E in Hsame.
Qed.

Lemma avoids_spec sp r u : avoids sp r = true -> matches r u -> Forall (fun c => c ∉ sp) u.
Proof.
  intros Ha Hm. induction Hm as [|n rs c Hc|r s u v _ IHu _ IHv|r s u _ IH|r s u _ IH|r|r u v _ IHu _ IHv]; cbn [avoids] in Ha.
  - constructor.
  - apply Forall_singleton. intros Hin. rewrite forallb_forall in Ha. apply list_elem_of_In in Hin.
    specialize (Ha c Hin). by rewrite Hc in Ha.
  - apply andb_true_iff in Ha as [H1 H2]. apply Forall_app. auto.
  - apply andb_true_iff in Ha as [H1 H2]. auto.
  - apply andb_true_iff in Ha as [H1 H2]. auto.
  - constructor.
  - apply Forall_app. auto.
Qed.

Lemma starts_with_spec c r u : starts_with c r = true -> matches r u -> exists v, u = c :: v.
Proof.
  assert (forall x y v, (x =? c) && (y =? c) = true -> matches (Cls false [(x, y)]) v -> v = [c]) as Hc.
  { intros x y v Hxy Hm. apply andb_true_iff in Hxy as [->%Z.eqb_eq ->%Z.eqb_eq].
    inversion Hm as [|? ? d Hd| | | | |]; subst. unfold in_class, in_ranges in Hd. cbn in Hd.
    rewrite orb_false_r in Hd. apply andb_true_iff in Hd as [H1%Z.leb_le H2%Z.leb_le]. f_equal. lia. }
  unfold starts_with. intros Hs Hm. destruct r as [| |n rs|r s|r s|r]; try done.
  - destruct n; [done|]. destruct rs as [|[x y] [|? ?]]; try done. apply Hc in Hm as ->; [by exists [] | done].
  - destruct r as [| |n rs| | |]; try done. destruct n; [done|]. destruct rs as [|[x y] [|? ?]]; try done.
    apply cat_matches in Hm as (v & w & -> & Hv & _). apply Hc in Hv as ->; [by exists w | done].
Qed.

Lemma lit_matches t u : matches (Lit t) u -> u = t.
Proof.
  revert u; induction t as [|c t IH]; intros u Hm; cbn [Lit foldr] in Hm; [by inversion Hm|].
  apply cat_matches in Hm as (v & w & -> & Hv & Hw). rewrite (IH w Hw).
  inversion Hv as [|? ? d Hd| | | | |]; subst. unfold in_class, in_ranges in Hd. cbn in Hd.
  rewrite orb_false_r in Hd. apply andb_true_iff in Hd as [H1%Z.leb_le H2%Z.leb_le]. cbn. f_equal. lia.
Qed.

Lemma derivs_spec w r : nullable (derivs w r) = true <-> matches r w.
Proof.
  revert r; induction w as [|c w IH]; intros r; cbn [derivs]; [apply nullable_spec|].
  by rewrite IH, deriv_spec.
Qed.
