(* ===== verification/ConfigLex.v ===== *)
(** * The words of the configuration file: cvconf.l

    The variables of the configuration, the tokens, the rules with their start
    conditions in the order of the file, and [yylex].  A value of the parser's
    union that is a pointer into the configuration is the name of the variable.
    The start conditions are inclusive ones ([%Start]): a rule without a condition
    is active in all of them.  The value of a FLOATVAL is not modelled, because no
    rule of the grammar that the scanner can reach uses it. *)

From S2P Require Import Prelude CLib CString StrBuf AddrMask PeerParser Config Flex.

(** ** The variables *)

(** KEYWORD_S: the variables of type char* *)
Inductive string_var :=
| S_my_peerid | S_my_vpn_ip | S_my_vpn_ip6 | S_my_password | S_my_ip | S_my_addressfamily | S_networkname |
S_tincd_bin | S_tincctl_bin | S_routeadd | S_routeadd6 | S_routedel | S_routedel6 | S_routemetric | S_postup |
S_ifconfig | S_ifconfig6 | S_master_url | S_masterdata_signkey | S_base | S_pidfile | S_my_vpn_netmask |
S_tmpconffile | S_tincd_graphdumpfile | S_tincd_interface | S_tincd_device | S_tincd_user | S_tincd_raw_config.

(** KEYWORD_I: the integers *)
Inductive int_var :=
| I_tincd_debuglevel | I_tincd_restart_delay | I_update_interval.

(** KEYWORD_B *)
Inductive bool_var :=
| B_use_dynamic_routes | B_connect_only_to_primary_nodes | B_run_ifdown | B_localdiscovery.

(** KEYWORD_L: the lists *)
Inductive list_var :=
| L_exclude | L_mergeroutes_supernet | L_ignore_subnets | L_whitelist_subnets.

#[export] Instance string_var_dec : EqDecision string_var.
Proof. solve_decision. Defined.
#[export] Instance int_var_dec : EqDecision int_var.
Proof. solve_decision. Defined.
#[export] Instance bool_var_dec : EqDecision bool_var.
Proof. solve_decision. Defined.
#[export] Instance list_var_dec : EqDecision list_var.
Proof. solve_decision. Defined.

(** ** Reading and writing through the pointer *)

Definition get_string_var (v : string_var) (c : config) : cptr :=
  match v with
  | S_my_peerid => cf_peerid c
  | S_my_vpn_ip => cf_vpn_ip c
  | S_my_vpn_ip6 => cf_vpn_ip6 c
  | S_my_password => cf_password c
  | S_my_ip => cf_my_ip c
  | S_my_addressfamily => cf_my_addressfamily c
  | S_networkname => cf_networkname c
  | S_tincd_bin => cf_tincd_bin c
  | S_tincctl_bin => cf_tincctl_bin c
  | S_routeadd => cf_routeadd c
  | S_routeadd6 => cf_routeadd6 c
  | S_routedel => cf_routedel c
  | S_routedel6 => cf_routedel6 c
  | S_routemetric => cf_routemetric c
  | S_postup => cf_postup c
  | S_ifconfig => cf_ifconfig c
  | S_ifconfig6 => cf_ifconfig6 c
  | S_master_url => cf_master_url c
  | S_masterdata_signkey => cf_masterdata_signkey c
  | S_base => cf_base_path c
  | S_pidfile => cf_tincd_pidfile c
  | S_my_vpn_netmask => cf_vpn_netmask c
  | S_tmpconffile => cf_tmpconffile c
  | S_tincd_graphdumpfile => cf_tincd_graphdumpfile c
  | S_tincd_interface => cf_tincd_interface c
  | S_tincd_device => cf_tincd_device c
  | S_tincd_user => cf_tincd_user c
  | S_tincd_raw_config => cf_tincd_raw_config c
  end.

Definition set_string_var (v : string_var) (x : cptr) (c : config) : config :=
  match v with
  | S_my_peerid => cset_peerid c x
  | S_my_vpn_ip => cset_vpn_ip c x
  | S_my_vpn_ip6 => cset_vpn_ip6 c x
  | S_my_password => cset_password c x
  | S_my_ip => cset_my_ip c x
  | S_my_addressfamily => cset_my_addressfamily c x
  | S_networkname => cset_networkname c x
  | S_tincd_bin => cset_tincd_bin c x
  | S_tincctl_bin => cset_tincctl_bin c x
  | S_routeadd => cset_routeadd c x
  | S_routeadd6 => cset_routeadd6 c x
  | S_routedel => cset_routedel c x
  | S_routedel6 => cset_routedel6 c x
  | S_routemetric => cset_routemetric c x
  | S_postup => cset_postup c x
  | S_ifconfig => cset_ifconfig c x
  | S_ifconfig6 => cset_ifconfig6 c x
  | S_master_url => cset_master_url c x
  | S_masterdata_signkey => cset_masterdata_signkey c x
  | S_base => cset_base_path c x
  | S_pidfile => cset_tincd_pidfile c x
  | S_my_vpn_netmask => cset_vpn_netmask c x
  | S_tmpconffile => cset_tmpconffile c x
  | S_tincd_graphdumpfile => cset_tincd_graphdumpfile c x
  | S_tincd_interface => cset_tincd_interface c x
  | S_tincd_device => cset_tincd_device c x
  | S_tincd_user => cset_tincd_user c x
  | S_tincd_raw_config => cset_tincd_raw_config c x
  end.

Definition get_int_var (v : int_var) (c : config) : Z :=
  match v with
  | I_tincd_debuglevel => cf_tincd_debuglevel c
  | I_tincd_restart_delay => cf_tincd_restart_delay c
  | I_update_interval => cf_update_interval c
  end.

Definition set_int_var (v : int_var) (x : Z) (c : config) : config :=
  match v with
  | I_tincd_debuglevel => cset_tincd_debuglevel c x
  | I_tincd_restart_delay => cset_tincd_restart_delay c x
  | I_update_interval => cset_update_interval c x
  end.

Definition get_bool_var (v : bool_var) (c : config) : bool :=
  match v with
  | B_use_dynamic_routes => cf_use_dynamic_routes c
  | B_connect_only_to_primary_nodes => cf_connect_only_to_primary_nodes c
  | B_run_ifdown => cf_run_ifdown c
  | B_localdiscovery => cf_localdiscovery c
  end.

Definition set_bool_var (v : bool_var) (x : bool) (c : config) : config :=
  match v with
  | B_use_dynamic_routes => cset_use_dynamic_routes c x
  | B_connect_only_to_primary_nodes => cset_connect_only_to_primary_nodes c x
  | B_run_ifdown => cset_run_ifdown c x
  | B_localdiscovery => cset_localdiscovery c x
  end.

Definition get_list_var (v : list_var) (c : config) : option (list settings_entry) :=
  match v with
  | L_exclude => cf_exclude c
  | L_mergeroutes_supernet => cf_mergeroutes_supernet_raw c
  | L_ignore_subnets => cf_ignore_subnets_raw c
  | L_whitelist_subnets => cf_whitelist_subnets_raw c
  end.

Definition set_list_var (v : list_var) (x : option (list settings_entry)) (c : config) : config :=
  match v with
  | L_exclude => cset_exclude c x
  | L_mergeroutes_supernet => cset_mergeroutes_supernet_raw c x
  | L_ignore_subnets => cset_ignore_subnets_raw c x
  | L_whitelist_subnets => cset_whitelist_subnets_raw c x
  end.

(** ** Tokens and start conditions *)

Inductive token :=
| KEYWORD_S (v : string_var) | KEYWORD_I (v : int_var) | KEYWORD_B (v : bool_var) | KEYWORD_L (v : list_var)
| STRING (s : cptr) | INTVAL (i : Z) | BOOLVAL (b : bool) | YESNOVAL (b : bool) | FLOATVAL
| ASSIGNMENT | SEPARATOR | STRINGMARKER | LISTOPEN | LISTSEP | LISTCLOSE.

#[export] Instance token_dec : EqDecision token.
Proof. solve_decision. Defined.

Inductive start := INITIAL | PV | SS | LL.

#[export] Instance start_dec : EqDecision start.
Proof. solve_decision. Defined.

(** What a rule does: [Tok] returns a token and nothing else; [Echo] is flex's
    default rule. *)
Inductive action :=
| Tok (t : token) | Unknown | Assign | Float | Int | OpenString | CloseString | Dollar | Chars
| OpenList | CloseList | Skip | Echo.

(** ** The rules *)

Definition blank : re := Cls false (among [32; 9]).
Definition digit : re := Cls false [(48, 57)].

(** A word in small or capital letters. *)
Definition nocase (t : text) : re := foldr (fun c r => Cat (Cls false (among [toupper c; c])) r) Eps t.

Definition keyword_rules : list (re * action) :=
  [(Lit (c_lit "$my_peerid"), Tok (KEYWORD_S S_my_peerid));
   (Lit (c_lit "$my_vpn_ip"), Tok (KEYWORD_S S_my_vpn_ip));
   (Lit (c_lit "$my_vpn_ip6"), Tok (KEYWORD_S S_my_vpn_ip6));
   (Lit (c_lit "$my_password"), Tok (KEYWORD_S S_my_password));
   (Lit (c_lit "$my_ip"), Tok (KEYWORD_S S_my_ip));
   (Lit (c_lit "$my_addressfamily"), Tok (KEYWORD_S S_my_addressfamily));
   (Lit (c_lit "$networkname"), Tok (KEYWORD_S S_networkname));
   (Lit (c_lit "$tincd_bin"), Tok (KEYWORD_S S_tincd_bin));
   (Lit (c_lit "$tincctl_bin"), Tok (KEYWORD_S S_tincctl_bin));
   (Lit (c_lit "$routeadd"), Tok (KEYWORD_S S_routeadd));
   (Lit (c_lit "$routeadd6"), Tok (KEYWORD_S S_routeadd6));
   (Lit (c_lit "$routedel"), Tok (KEYWORD_S S_routedel));
   (Lit (c_lit "$routedel6"), Tok (KEYWORD_S S_routedel6));
   (Lit (c_lit "$routemetric"), Tok (KEYWORD_S S_routemetric));
   (Lit (c_lit "$postup"), Tok (KEYWORD_S S_postup));
   (Lit (c_lit "$ifconfig"), Tok (KEYWORD_S S_ifconfig));
   (Lit (c_lit "$ifconfig6"), Tok (KEYWORD_S S_ifconfig6));
   (Lit (c_lit "$master_url"), Tok (KEYWORD_S S_master_url));
   (Lit (c_lit "$masterdata_signkey"), Tok (KEYWORD_S S_masterdata_signkey));
   (Lit (c_lit "$base"), Tok (KEYWORD_S S_base));
   (Lit (c_lit "$pidfile"), Tok (KEYWORD_S S_pidfile));
   (Lit (c_lit "$tincd_debuglevel"), Tok (KEYWORD_I I_tincd_debuglevel));
   (Lit (c_lit "$my_vpn_netmask"), Tok (KEYWORD_S S_my_vpn_netmask));
   (Lit (c_lit "$tmpconffile"), Tok (KEYWORD_S S_tmpconffile));
   (Lit (c_lit "$tincd_restart_delay"), Tok (KEYWORD_I I_tincd_restart_delay));
   (Lit (c_lit "$tincd_graphdumpfile"), Tok (KEYWORD_S S_tincd_graphdumpfile));
   (Lit (c_lit "$tincd_interface"), Tok (KEYWORD_S S_tincd_interface));
   (Lit (c_lit "$tincd_device"), Tok (KEYWORD_S S_tincd_device));
   (Lit (c_lit "$tincd_user"), Tok (KEYWORD_S S_tincd_user));
   (Lit (c_lit "$tincd_raw_config"), Tok (KEYWORD_S S_tincd_raw_config));
   (Lit (c_lit "$update_interval"), Tok (KEYWORD_I I_update_interval));
   (Lit (c_lit "$use_dynamic_routes"), Tok (KEYWORD_B B_use_dynamic_routes));
   (Lit (c_lit "$connect_only_to_primary_nodes"), Tok (KEYWORD_B B_connect_only_to_primary_nodes));
   (Lit (c_lit "$run_ifdown"), Tok (KEYWORD_B B_run_ifdown));
   (Lit (c_lit "$localdiscovery"), Tok (KEYWORD_B B_localdiscovery));
   (Lit (c_lit "@exclude"), Tok (KEYWORD_L L_exclude));
   (Lit (c_lit "@mergeroutes_supernet"), Tok (KEYWORD_L L_mergeroutes_supernet));
   (Lit (c_lit "@ignore_subnets"), Tok (KEYWORD_L L_ignore_subnets));
   (Lit (c_lit "@whitelist_subnets"), Tok (KEYWORD_L L_whitelist_subnets))].

(** [\[@$][_a-z]+]: the backslash makes the bracket a character of its own. *)
Definition unknown_rule : re * action :=
  (Cat (Lit (c_lit "[@$]")) (Plus (Cls false [(95, 95); (97, 122)])), Unknown).

Definition word_rules : list (re * action) :=
  [(nocase (c_lit "yes"), Tok (YESNOVAL true)); (nocase (c_lit "no"), Tok (YESNOVAL false));
   (nocase (c_lit "true"), Tok (BOOLVAL true)); (nocase (c_lit "false"), Tok (BOOLVAL false))].

Definition assign_rule : re * action := (Cat (Star blank) (Cat (Chr 61) (Star blank)), Assign).

Definition float : re := Cat (Star digit) (Cat (Chr 46) (Plus digit)).

(** The rules of one start condition, in their order. *)
Definition pv_rules : list (re * action) :=
  [(float, Float); (Plus digit, Int); (Chr 34, OpenString); (Chr 40, OpenList)].

(** A string is up to the next double quote, backslash or dollar. *)
Definition chars : re := Cls true (among [34; 92; 36]).
Definition ss_rules : list (re * action) :=
  [(Chr 34, CloseString); (Lit (c_lit "\\$"), Dollar); (Star chars, Chars)].

Definition ll_rules : list (re * action) :=
  [(Star blank, Skip); (Chr 44, Tok LISTSEP); (Chr 34, OpenString); (float, Float); (Plus digit, Int); (Chr 41, CloseList)].

Definition last_rules : list (re * action) :=
  [(Chr 59, Tok SEPARATOR); (Cat (Chr 35) (Star (Cls true [(10, 10)])), Skip); (Star blank, Skip); (Chr 10, Skip)].

(** flex's own rule for the characters no other rule matches. *)
Definition default_rule : re * action := (Cls true [], Echo).

Definition state_rules (st : start) : list (re * action) :=
  match st with INITIAL => [] | PV => pv_rules | SS => ss_rules | LL => ll_rules end.

(** What is written before the rules of the start conditions, active in all of them. *)
Definition first_rules : list (re * action) := keyword_rules ++ unknown_rule :: word_rules ++ [assign_rule].

Definition rules (st : start) : list (re * action) :=
  first_rules ++ state_rules st ++ last_rules ++ [default_rule].

(** ** The scanner *)

(** [yy_start], the static variable [stringcaller], and the input not yet read. *)
Record lexer := mklexer { lx_start : start; stringcaller : start; lx_input : list char }.

Section Lex.
Context `{Allocator}.

(** The action for the matched text [yytext]; a token is returned, or scanning
    goes on. *)
Definition act (a : action) (yytext : list char) (lx : lexer) : outcome (option token * lexer) :=
  let '(mklexer st caller input) := lx in
  match a with
  | Tok t => Ret (Some t, lx)
  | Unknown => Exit 1
  | Assign => Ret (Some ASSIGNMENT, mklexer PV caller input)
  | Float => Ret (Some FLOATVAL, lx)
  | Int => Ret (Some (INTVAL (atoi yytext)), lx)
  | OpenString => Ret (Some STRINGMARKER, mklexer SS st input)
  | CloseString => Ret (Some STRINGMARKER, mklexer caller caller input)
  | Dollar => Ret (Some (STRING (strdup [36])), lx)
  | Chars => Ret (Some (STRING (strdup (take_until (fun c => c =? 0) yytext))), lx)
  | OpenList => Ret (Some LISTOPEN, mklexer LL caller input)
  | CloseList => Ret (Some LISTCLOSE, mklexer INITIAL caller input)
  | Skip | Echo => Ret (None, lx)
  end.

(** [None] is the end of the file.  The default rule matches whenever there is
    input (see [default_matches]). *)
Fixpoint lex_loop (fuel : nat) (lx : lexer) : outcome (option token * lexer) :=
  match fuel with
  | O => Undef
  | S fuel =>
      if bool_decide (lx_input lx = []) then Ret (None, lx)
      else
        match best (rules (lx_start lx)) (lx_input lx) with
        | None => Undef
        | Some (n, a) =>
            '(t, lx) ← act a (take n (lx_input lx)) (mklexer (lx_start lx) (stringcaller lx) (drop n (lx_input lx)));
            match t with
            | Some t => Ret (Some t, lx)
            | None => lex_loop fuel lx
            end
        end
  end.

(** Every turn consumes a character. *)
Definition yylex (lx : lexer) : outcome (option token * lexer) := lex_loop (S (length (lx_input lx))) lx.

End Lex.
