(* ===== verification/ConfigGram.v ===== *)
(** * The grammar of the configuration file: cvconf.y

    Each nonterminal is a function that pulls tokens from the scanner as the
    parser bison generates does.  Where that parser reduces by default, without
    looking at the next token, so do they: the empty [string] is taken before its
    terminator is looked at, an assignment is made before its separator is read.
    [yyerror] exits.  The values are assigned through the pointer the scanner
    returned; what a variable held before is freed and not modelled.  The strings are
    put together in blocks of the size the code asks for, and a write outside of a
    block is undefined.  bison's limit
    on the depth of its stack (YYMAXDEPTH) is not modelled. *)

From S2P Require Import Prelude CLib CString StrBuf AddrMask PeerParser Config Tinc ConfigInit Flex ConfigLex.

Definition sizeof_settings_list : Z := 24.
Definition sizeof_settings_list_entry : Z := 16.

Section Gram.
Context `{Allocator}.

(** ** The functions below the grammar *)

Definition yyerror {A} : outcome A := Exit 1.

Definition list_allocate : outcome (list settings_entry) :=
  if alloc_ok sizeof_settings_list then Ret [] else Exit 111.

Definition list_mkientry (i : Z) : outcome settings_entry :=
  if alloc_ok sizeof_settings_list_entry then Ret (LIST_INTEGER i) else Exit 111.

Definition list_mksentry (s : cptr) : outcome settings_entry :=
  if alloc_ok sizeof_settings_list_entry then s ← deref s; Ret (LIST_STRING (strdup s)) else Exit 111.

(** [list_add] puts the item behind the head of the list, in front of the others. *)
Definition list_add_elem (l : list settings_entry) (item : settings_entry) : outcome (list settings_entry) :=
  if alloc_ok sizeof_settings_list then Ret (item :: l) else Exit 111.

(** A block of [n] bytes from [malloc]; what is in it, 170 here, is indeterminate. *)
Definition malloc (n : Z) : option (list char) := if alloc_ok n then Some (zrep n 170) else None.

(** [memcpy (buf + off, src, zlen src)]; a byte outside of the block must not be
    written. *)
Definition memcpy (buf : list char) (off : Z) (src : list char) : outcome (list char) :=
  if (off <? 0) || (zlen buf <? off + zlen src) then Undef else Ret (bwrite off src buf).

(** What [snprintf] leaves in [buf] when it is told that it has [size] bytes there. *)
Definition snprintf_into (buf : list char) (size : Z) (t : text) : outcome (list char) :=
  memcpy buf 0 (snprintf size t ++ [0]).

(** The text in a block whose byte [n] is its terminator. *)
Definition text_in (buf : list char) (n : Z) : cptr := Some (ztake n buf).

Definition concatias (i : Z) (s : cptr) : outcome cptr :=
  s ← deref s;
  let sl := strlen s in
  let tl := sl + 20 in
  match malloc (sl + tl) with
  | None => Exit 111
  | Some buf =>
      let t := dec i ++ s in
      buf ← snprintf_into buf (sl + tl) t;
      Ret (text_in buf (strlen (snprintf (sl + tl) t)))
  end.

Definition catandfree (s1 s2 : cptr) : outcome cptr :=
  s1 ← deref s1;
  s2 ← deref s2;
  let l1 := strlen s1 in
  let l2 := strlen s2 in
  let newlen := l1 + l2 + 1 in
  match malloc newlen with
  | None => Exit 111
  | Some buf =>
      buf ← memcpy buf 0 s1;
      buf ← memcpy buf l1 s2;
      buf ← memcpy buf (newlen - 1) [0];
      Ret (text_in buf (newlen - 1))
  end.

(** ** The grammar *)

(** [string]: its value, and the token after it. *)
Fixpoint parse_string (fuel : nat) (c : config) (lx : lexer) : outcome (cptr * option token * lexer) :=
  match fuel with
  | O => Undef
  | S fuel =>
      '(t, lx) ← yylex lx;
      match t with
      | Some (KEYWORD_S v) =>
          '(s, t, lx) ← parse_string fuel c lx;
          match get_string_var v c with
          | None => Exit 1
          | Some x => r ← catandfree (Some x) s; Ret (r, t, lx)
          end
      | Some (KEYWORD_I v) =>
          '(s, t, lx) ← parse_string fuel c lx;
          r ← concatias (s32 (get_int_var v c)) s; Ret (r, t, lx)
      | Some (STRING x) =>
          '(s, t, lx) ← parse_string fuel c lx;
          r ← catandfree x s; Ret (r, t, lx)
      | _ => Ret (strdup [], t, lx)
      end
  end.

(** [string STRINGMARKER], behind the first marker. *)
Definition parse_quoted (c : config) (lx : lexer) : outcome (cptr * lexer) :=
  '(s, t, lx) ← parse_string (S (length (lx_input lx))) c lx;
  match t with Some STRINGMARKER => Ret (s, lx) | _ => yyerror end.

Definition parse_listentry (t : option token) (c : config) (lx : lexer) : outcome (settings_entry * lexer) :=
  match t with
  | Some (INTVAL i) => e ← list_mkientry i; Ret (e, lx)
  | Some STRINGMARKER => '(s, lx) ← parse_quoted c lx; e ← list_mksentry s; Ret (e, lx)
  | _ => yyerror
  end.

(** A list from its first entry on: [next] is the list behind a separator. *)
Definition parse_entries (next : lexer -> outcome (list settings_entry * lexer)) (t : option token) (c : config)
    (lx : lexer) : outcome (list settings_entry * lexer) :=
  '(e, lx) ← parse_listentry t c lx;
  '(t, lx) ← yylex lx;
  match t with
  | Some LISTCLOSE => l ← list_allocate; l ← list_add_elem l e; Ret (l, lx)
  | Some LISTSEP => '(l, lx) ← next lx; l ← list_add_elem l e; Ret (l, lx)
  | _ => yyerror
  end.

Fixpoint parse_list (fuel : nat) (c : config) (lx : lexer) : outcome (list settings_entry * lexer) :=
  match fuel with
  | O => Undef
  | S fuel =>
      '(t, lx) ← yylex lx;
      match t with
      | Some LISTCLOSE => l ← list_allocate; Ret (l, lx)
      | _ => parse_entries (parse_list fuel c) t c lx
      end
  end.

(** The token after a keyword and its assignment sign. *)
Definition after_assignment (lx : lexer) : outcome (option token * lexer) :=
  '(t, lx) ← yylex lx;
  match t with Some ASSIGNMENT => yylex lx | _ => yyerror end.

(** [setting], whose first token has been read: the assignment is made. *)
Definition parse_setting (t : token) (c : config) (lx : lexer) : outcome (config * lexer) :=
  match t with
  | KEYWORD_I v =>
      '(t, lx) ← after_assignment lx;
      match t with Some (INTVAL i) => Ret (set_int_var v (u32 i) c, lx) | _ => yyerror end
  | KEYWORD_B v =>
      '(t, lx) ← after_assignment lx;
      match t with
      | Some (BOOLVAL b) | Some (YESNOVAL b) => Ret (set_bool_var v b c, lx)
      | Some (INTVAL i) => Ret (set_bool_var v (negb (i =? 0)) c, lx)
      | _ => yyerror
      end
  | KEYWORD_S v =>
      '(t, lx) ← after_assignment lx;
      match t with
      | Some STRINGMARKER => '(s, lx) ← parse_quoted c lx; Ret (set_string_var v s c, lx)
      | _ => yyerror
      end
  | KEYWORD_L v =>
      '(t, lx) ← after_assignment lx;
      match t with
      | Some LISTOPEN =>
          '(l, lx) ← parse_list (S (length (lx_input lx))) c lx; Ret (set_list_var v (Some l) c, lx)
      | _ => yyerror
      end
  | _ => yyerror
  end.

Fixpoint parse_config (fuel : nat) (c : config) (lx : lexer) : outcome config :=
  match fuel with
  | O => Undef
  | S fuel =>
      '(t, lx) ← yylex lx;
      match t with
      | None => Ret c
      | Some t =>
          '(c, lx) ← parse_setting t c lx;
          '(t, lx) ← yylex lx;
          match t with Some SEPARATOR => parse_config fuel c lx | _ => yyerror end
      end
  end.

(** The scanner starts in its initial state. *)
Definition cvconf_parse (file : list char) (c : config) : outcome config :=
  parse_config (S (length file)) c (mklexer INITIAL INITIAL file).

#[export] Instance cvconf : ConfigParser := {| yyparse := cvconf_parse |}.

End Gram.
