(* ===== verification/ConfigGramProps.v ===== *)
(** * The configuration file parser and its grammar

    [lexes] and the relations [string_of], [entry_of], [list_of], [setting_of] and
    [config_of] say declaratively what cvconf.l and cvconf.y say: the tokens of a
    text by longest match, and the productions with what they compute.  The parser
    that pulls its tokens on demand computes exactly that. *)

From S2P Require Import Prelude CLib CString StrBuf AddrMask PeerParser Config Tinc ConfigInit Flex ConfigLex ConfigGram.

(** ** The scanner *)

Section LexSpec.
Context `{Allocator}.

(** The tokens of what is left of the file. *)
Inductive lexes : lexer -> list token -> Prop :=
| lexes_eof st caller : lexes (mklexer st caller []) []
| lexes_munch st caller input n a t lx' ts :
    input <> [] -> munches (rules st) input n a ->
    act a (take n input) (mklexer st caller (drop n input)) = Ret (t, lx') ->
    lexes lx' ts -> lexes (mklexer st caller input) (option_list t ++ ts).

(** The scanner always moves on. *)
Lemma default_matches st s : s <> [] ->
  exists n a, best (rules st) s = Some (n, a) /\ (1 <= n <= length s)%nat.
Proof using Type.
  intros Hs. destruct (best (rules st) s) as [[n a]|] eqn:E.
  - exists n, a. split; [done|]. apply best_munches in E as (be & r & af & Er & Hn & _ & Hbe & Haf).
    split; [|done]. destruct s as [|c s]; [done|].
    assert (default_rule ∈ rules st) as Hd by (unfold rules; rewrite !elem_of_app; do 3 right; by left).
    assert (matches (Cls true []) (take 1 (c :: s))) as Hm by (by constructor).
    rewrite Er in Hd. apply elem_of_app in Hd as [Hd|Hd].
    + pose proof (Hbe _ _ 1%nat Hd ltac:(cbn; lia) Hm). lia.
    + exact (Haf _ _ 1%nat Hd ltac:(cbn; lia) Hm).
  - destruct s as [|c s]; [done|]. exfalso.
    apply (best_None _ _ E (Cls true []) Echo 1%nat); [|cbn; lia | by constructor].
    unfold rules. rewrite !elem_of_app. do 3 right. by left.
Qed.

Lemma act_input a y lx t lx' : act a y lx = Ret (t, lx') -> lx_input lx' = lx_input lx.
Proof using Type. destruct lx as [st caller input]. destruct a; cbn [act]; try discriminate; by intros [= <- <-]. Qed.

Lemma lex_loop_sound fuel lx o lx' : lex_loop fuel lx = Ret (o, lx') ->
  match o with
  | None => lexes lx []
  | Some t => (length (lx_input lx') < length (lx_input lx))%nat /\ forall ts, lexes lx' ts -> lexes lx (t :: ts)
  end.
Proof using Type.
  revert lx; induction fuel as [|fuel IH]; intros [st caller input]; cbn [lex_loop lx_start lx_input stringcaller]; [done|].
  case_bool_decide as Hi; [intros [= <- <-]; subst; constructor|].
  destruct (default_matches st input Hi) as (n & a & E & Hn). rewrite E.
  apply best_munches in E as Em.
  destruct (act a _ _) as [[t lx1]| |] eqn:Ea; cbn [mbind outcome_bind]; [|done..].
  pose proof (act_input _ _ _ _ _ Ea) as Hl. cbn [lx_input] in Hl.
  assert (length (lx_input lx1) < length input)%nat as Hlt by (rewrite Hl, length_drop; lia).
  destruct t as [t|].
  - intros [= <- <-]. split; [done|]. intros ts Hts. by apply (lexes_munch _ _ _ _ _ _ _ _ Hi Em Ea Hts).
  - intros El. specialize (IH lx1 El). destruct o as [t|].
    + destruct IH as [Hs Hts]. split; [lia|]. intros ts Hx.
      by apply (lexes_munch _ _ _ _ _ _ _ _ Hi Em Ea (Hts ts Hx)).
    + by apply (lexes_munch _ _ _ _ _ _ _ _ Hi Em Ea IH).
Qed.

Lemma lex_loop_complete lx ts : lexes lx ts -> forall fuel, (length (lx_input lx) < fuel)%nat ->
  match ts with
  | [] => exists lx', lex_loop fuel lx = Ret (None, lx')
  | t :: ts => exists lx', lex_loop fuel lx = Ret (Some t, lx') /\ lexes lx' ts /\
                 (length (lx_input lx') < length (lx_input lx))%nat
  end.
Proof using Type.
  induction 1 as [st caller | st caller input n a t lx' ts Hi Hm Ha Hts IH]; intros [|fuel] Hf; try lia.
  - by eexists.
  - cbn [lex_loop lx_start lx_input stringcaller] in *. rewrite bool_decide_false by done.
    apply munches_best in Hm. rewrite Hm, Ha. cbn [mbind outcome_bind].
    destruct (default_matches st input Hi) as (n' & a' & E & Hn). rewrite Hm in E. injection E as <- <-.
    apply act_input in Ha. cbn [lx_input] in Ha.
    assert (length (lx_input lx') < length input)%nat as Hlt by (rewrite Ha, length_drop; lia).
    destruct t as [t|]; cbn [option_list app].
    + by exists lx'.
    + specialize (IH fuel ltac:(lia)). destruct ts as [|t ts]; [done|].
      destruct IH as (lx2 & E & Hl & Hs). exists lx2. split_and!; [done..|lia].
Qed.

Lemma yylex_sound lx t lx' : yylex lx = Ret (Some t, lx') ->
  (length (lx_input lx') < length (lx_input lx))%nat /\ forall ts, lexes lx' ts -> lexes lx (t :: ts).
Proof using Type. apply (lex_loop_sound _ _ (Some t)). Qed.

Lemma yylex_eof lx lx' : yylex lx = Ret (None, lx') -> lexes lx [].
Proof using Type. apply (lex_loop_sound _ _ None). Qed.

Lemma yylex_token lx t ts : lexes lx (t :: ts) ->
  exists lx', yylex lx = Ret (Some t, lx') /\ lexes lx' ts /\ (length (lx_input lx') < length (lx_input lx))%nat.
Proof using Type. intros Hl. apply (lex_loop_complete lx (t :: ts) Hl). lia. Qed.

Lemma yylex_end lx : lexes lx [] -> exists lx', yylex lx = Ret (None, lx').
Proof using Type. intros Hl. apply (lex_loop_complete lx [] Hl). lia. Qed.

End LexSpec.

(** ** The productions *)

Inductive string_of (c : config) : list token -> text -> Prop :=
| string_empty : string_of c [] []
| string_keyword_s v x ts s : get_string_var v c = Some x -> string_of c ts s ->
    string_of c (KEYWORD_S v :: ts) (x ++ s)
| string_keyword_i v ts s : string_of c ts s ->
    string_of c (KEYWORD_I v :: ts) (dec (s32 (get_int_var v c)) ++ s)
| string_string x ts s : string_of c ts s -> string_of c (STRING (Some x) :: ts) (x ++ s).

Inductive entry_of (c : config) : list token -> settings_entry -> Prop :=
| entry_int i : entry_of c [INTVAL i] (LIST_INTEGER i)
| entry_string ts s : string_of c ts s ->
    entry_of c (STRINGMARKER :: ts ++ [STRINGMARKER]) (LIST_STRING (Some s)).

Inductive list_of (c : config) : list token -> list settings_entry -> Prop :=
| list_close : list_of c [LISTCLOSE] []
| list_last ts e : entry_of c ts e -> list_of c (ts ++ [LISTCLOSE]) [e]
| list_next ts e us l : entry_of c ts e -> list_of c us l -> list_of c (ts ++ LISTSEP :: us) (e :: l).

Inductive setting_of (c : config) : list token -> config -> Prop :=
| setting_i v i : setting_of c [KEYWORD_I v; ASSIGNMENT; INTVAL i] (set_int_var v (u32 i) c)
| setting_bool v b : setting_of c [KEYWORD_B v; ASSIGNMENT; BOOLVAL b] (set_bool_var v b c)
| setting_yesno v b : setting_of c [KEYWORD_B v; ASSIGNMENT; YESNOVAL b] (set_bool_var v b c)
| setting_b_int v i : setting_of c [KEYWORD_B v; ASSIGNMENT; INTVAL i] (set_bool_var v (negb (i =? 0)) c)
| setting_s v ts s : string_of c ts s ->
    setting_of c (KEYWORD_S v :: ASSIGNMENT :: STRINGMARKER :: ts ++ [STRINGMARKER]) (set_string_var v (Some s) c)
| setting_l v ts l : list_of c ts l ->
    setting_of c (KEYWORD_L v :: ASSIGNMENT :: LISTOPEN :: ts) (set_list_var v (Some l) c).

(** A setting sees what the settings before it assigned. *)
Inductive config_of : config -> list token -> config -> Prop :=
| config_empty c : config_of c [] c
| config_setting c ts c1 us c2 : setting_of c ts c1 -> config_of c1 us c2 ->
    config_of c (ts ++ SEPARATOR :: us) c2.

(** ** The parser computes the grammar *)

(** ** The blocks strings are built in *)

Lemma memcpy_inside buf off src : 0 <= off -> off + zlen src <= zlen buf -> memcpy buf off src = Ret (bwrite off src buf).
Proof. intros H1 H2. unfold memcpy. replace (off <? 0) with false by lia. by replace (zlen buf <? _) with false by lia. Qed.

(** The two parts and the terminator fill the block exactly. *)
Lemma cat_block x s :
  (buf ← memcpy (zrep (strlen x + strlen s + 1) 170) 0 x;
   buf ← memcpy buf (strlen x) s;
   buf ← memcpy buf (strlen x + strlen s + 1 - 1) [0];
   Ret (text_in buf (strlen x + strlen s + 1 - 1))) = Ret (Some (x ++ s)).
Proof.
  unfold strlen. pose proof (zlen_nonneg x). pose proof (zlen_nonneg s). set (b0 := zrep _ _).
  assert (zlen b0 = zlen x + zlen s + 1) as Hb0 by (unfold b0; zlia).
  rewrite memcpy_inside by lia. cbn [mbind outcome_bind].
  pose proof (bwrite_length 0 x b0 ltac:(lia) ltac:(lia)) as Hb1.
  rewrite memcpy_inside by lia. cbn [mbind outcome_bind].
  pose proof (bwrite_length (zlen x) s (bwrite 0 x b0) ltac:(lia) ltac:(lia)) as Hb2.
  replace (zlen x + zlen s + 1 - 1) with (zlen x + zlen s) by lia.
  rewrite memcpy_inside by (change (zlen [0]) with 1; lia). cbn [mbind outcome_bind]. unfold text_in. do 2 f_equal.
  set (b2 := bwrite (zlen x) s _) in *.
  assert (ztake (zlen x + zlen s) (bwrite (zlen x + zlen s) [0] b2) = ztake (zlen x + zlen s) b2) as ->.
  { unfold bwrite. rewrite ztake_app_eq; [done|]. rewrite zlen_ztake; lia. }
  unfold b2. rewrite ztake_bwrite by lia. f_equal. pose proof (ztake_bwrite 0 x b0 ltac:(lia) ltac:(lia)) as Hx.
  by rewrite Z.add_0_l in Hx.
Qed.

(** [snprintf] stays in its block and leaves its text in front of the terminator. *)
Lemma print_block n t : 0 < n ->
  (buf ← snprintf_into (zrep n 170) n t; Ret (text_in buf (strlen (snprintf n t)))) = Ret (Some (snprintf n t)).
Proof.
  intros Hn. assert (zlen (snprintf n t) < n) as Hl by (unfold snprintf, ztake, zlen; rewrite length_take; lia).
  unfold snprintf_into. rewrite memcpy_inside by (rewrite ?zlen_app; change (zlen [0]) with 1; zlia).
  cbn [mbind outcome_bind]. unfold text_in, strlen, bwrite. change (ztake 0 _) with (@nil char). cbn [app].
  rewrite <- app_assoc. by rewrite ztake_app_eq.
Qed.

Section Parses.
Context `{Allocator}.
(** Every request for memory is granted. *)
Hypothesis Hall : forall n, alloc_ok n = true.

Lemma strdup_all t : strdup t = Some t.
Proof using Hall. unfold strdup. by rewrite Hall. Qed.

Lemma malloc_all n : malloc n = Some (zrep n 170).
Proof using Hall. unfold malloc. by rewrite Hall. Qed.

Lemma catandfree_all x s : catandfree (Some x) (Some s) = Ret (Some (x ++ s)).
Proof using Hall.
  unfold catandfree. cbn [deref mbind outcome_bind]. rewrite malloc_all. apply cat_block.
Qed.

Lemma list_mksentry_all s : list_mksentry (Some s) = Ret (LIST_STRING (Some s)).
Proof using Hall. unfold list_mksentry. rewrite Hall. cbn [deref mbind outcome_bind]. by rewrite strdup_all. Qed.

Lemma list_add_elem_all l e : list_add_elem l e = Ret (e :: l).
Proof using Hall. unfold list_add_elem. by rewrite Hall. Qed.

Lemma list_allocate_all : list_allocate = Ret [].
Proof using Hall. unfold list_allocate. by rewrite Hall. Qed.

Lemma s32_range i : - 2 ^ 31 <= s32 i < 2 ^ 31.
Proof using Type. unfold s32. pose proof (Z.mod_pos_bound (i + 2 ^ 31) (2 ^ 32)). lia. Qed.

Lemma dec_int_length i : - 2 ^ 31 <= i < 2 ^ 31 -> zlen (dec i) <= 11.
Proof using Type.
  intros Hi. unfold dec. destruct (Z.ltb_spec i 0).
  - rewrite zlen_cons. pose proof (dec_nat_length 9 (- i)). lia.
  - pose proof (dec_nat_length 9 i). lia.
Qed.

(** An int has at most eleven characters, so the buffer is large enough. *)
Lemma concatias_all i s : concatias (s32 i) (Some s) = Ret (Some (dec (s32 i) ++ s)).
Proof using Hall.
  unfold concatias. cbn [deref mbind outcome_bind]. rewrite malloc_all, print_block by (unfold strlen; pose proof (zlen_nonneg s); lia).
  cbn. do 2 f_equal. unfold snprintf, strlen.
  apply ztake_all. rewrite zlen_app. pose proof (dec_int_length (s32 i) (s32_range i)). pose proof (zlen_nonneg s). lia.
Qed.

(** *** Sound: what it accepts is derived *)

Lemma string_sound fuel c lx s t lx' : parse_string fuel c lx = Ret (s, t, lx') ->
  exists ts x, s = Some x /\ string_of c ts x /\
    forall tk us, t = Some tk -> lexes lx' us -> lexes lx (ts ++ tk :: us).
Proof using Hall.
  revert lx s t lx'; induction fuel as [|fuel IH]; intros lx s t lx' E; cbn [parse_string] in E; [done|].
  destruct (yylex lx) as [[tk lx1]| |] eqn:E1; cbn [mbind outcome_bind] in E; [|done..].
  destruct tk as [tk|]; [|injection E as <- <- <-; exists [], []; rewrite strdup_all; by repeat constructor].
  apply yylex_sound in E1 as [_ Hlx].
  assert (forall ts x, string_of c (tk :: ts) x ->
    (forall tk us, t = Some tk -> lexes lx' us -> lexes lx1 (ts ++ tk :: us)) -> s = Some x ->
    exists ts x, s = Some x /\ string_of c ts x /\ forall tk us, t = Some tk -> lexes lx' us -> lexes lx (ts ++ tk :: us)) as Hgo.
  { intros ts x Hs Hts Es. exists (tk :: ts), x. split_and!; [done..|]. intros tk' us -> Hus. apply Hlx. by apply Hts. }
  destruct tk as [v|v| | |o| | | | | | | | | |]; try (injection E as <- <- <-; exists [], []; rewrite strdup_all;
    split_and!; [done | constructor | intros tk us [= <-] Hus; by apply Hlx]).
  all: destruct (parse_string fuel c lx1) as [[[s0 t0] lx2]| |] eqn:E2; cbn [mbind outcome_bind] in E; [|done..];
    apply IH in E2 as (ts & x & -> & Hs & Hts).
  - destruct (get_string_var v c) as [y|] eqn:Ev; [|done]. rewrite catandfree_all in E. injection E as <- <- <-.
    eapply Hgo; [by constructor | done..].
  - rewrite concatias_all in E. injection E as <- <- <-. eapply Hgo; [by constructor | done..].
  - destruct o as [y|]; [|done]. rewrite catandfree_all in E. injection E as <- <- <-.
    eapply Hgo; [by constructor | done..].
Qed.

Lemma quoted_sound c lx s lx' : parse_quoted c lx = Ret (s, lx') ->
  exists ts x, s = Some x /\ string_of c ts x /\ forall us, lexes lx' us -> lexes lx (ts ++ STRINGMARKER :: us).
Proof using Hall.
  unfold parse_quoted, yyerror. destruct (parse_string _ c lx) as [[[s0 t0] lx2]| |] eqn:E2; cbn [mbind outcome_bind]; [|done..].
  apply string_sound in E2 as (ts & x & -> & Hs & Hts).
  destruct t0 as [[]|]; try discriminate. intros [= <- <-]. exists ts, x. split_and!; [done..|]. intros us. by apply Hts.
Qed.

Lemma entry_sound t c lx lx1 e lx' :
  (forall ts, lexes lx1 ts -> lexes lx (t :: ts)) -> parse_listentry (Some t) c lx1 = Ret (e, lx') ->
  exists ts, entry_of c ts e /\ forall us, lexes lx' us -> lexes lx (ts ++ us).
Proof using Hall.
  intros Hlx. unfold parse_listentry, yyerror. destruct t; try discriminate.
  - unfold list_mkientry. rewrite Hall. intros [= <- <-]. eexists. split; [constructor | done].
  - destruct (parse_quoted c lx1) as [[s lx2]| |] eqn:E; cbn [mbind outcome_bind]; [|done..].
    apply quoted_sound in E as (ts & x & -> & Hs & Hts). rewrite list_mksentry_all. intros [= <- <-].
    eexists. split; [by constructor|]. intros us Hus. cbn [app]. rewrite <- app_assoc. by apply Hlx, Hts.
Qed.

Lemma list_sound fuel c lx l lx' : parse_list fuel c lx = Ret (l, lx') ->
  exists ts, list_of c ts l /\ forall us, lexes lx' us -> lexes lx (ts ++ us).
Proof using Hall.
  revert lx l lx'; induction fuel as [|fuel IH]; intros lx l lx' E; cbn [parse_list] in E; [done|].
  destruct (yylex lx) as [[tk lx1]| |] eqn:E1; cbn [mbind outcome_bind] in E; [|done..].
  destruct tk as [tk|]; [|done]. apply yylex_sound in E1 as [_ Hlx].
  destruct (decide (tk = LISTCLOSE)) as [-> | Hne].
  { rewrite list_allocate_all in E. injection E as <- <-. exists [LISTCLOSE]. split; [constructor | done]. }
  assert (parse_entries (parse_list fuel c) (Some tk) c lx1 = Ret (l, lx')) as E' by (by destruct tk).
  clear E. unfold parse_entries, yyerror in E'. destruct (parse_listentry _ c lx1) as [[e lx2]| |] eqn:Ee; cbn [mbind outcome_bind] in E'; [|done..].
  apply (entry_sound _ _ lx) in Ee as (ts & He & Hts); [|done].
  destruct (yylex lx2) as [[tk2 lx3]| |] eqn:E2; cbn [mbind outcome_bind] in E'; [|done..].
  destruct tk2 as [tk2|]; [|done]. apply yylex_sound in E2 as [_ Hlx2].
  destruct tk2; try discriminate.
  - destruct (parse_list fuel c lx3) as [[l4 lx4]| |] eqn:El; cbn [mbind outcome_bind] in E'; [|done..].
    rewrite list_add_elem_all in E'. injection E' as <- <-. apply IH in El as (us & Hl & Hus).
    exists (ts ++ LISTSEP :: us). split; [by apply list_next|]. intros vs Hvs. rewrite <- app_assoc. cbn [app].
    by apply Hts, Hlx2, Hus.
  - rewrite list_allocate_all in E'. cbn [mbind outcome_bind] in E'. rewrite list_add_elem_all in E'.
    injection E' as <- <-. exists (ts ++ [LISTCLOSE]). split; [by apply list_last|].
    intros vs Hvs. rewrite <- app_assoc. cbn [app]. by apply Hts, Hlx2.
Qed.

Lemma assignment_sound lx t lx' : after_assignment lx = Ret (t, lx') ->
  forall tk us, t = Some tk -> lexes lx' us -> lexes lx (ASSIGNMENT :: tk :: us).
Proof using Type.
  unfold after_assignment, yyerror. destruct (yylex lx) as [[tk1 lx1]| |] eqn:E1; cbn [mbind outcome_bind]; [|done..].
  destruct tk1 as [[]|]; try discriminate. apply yylex_sound in E1 as [_ H1].
  intros E2 tk us -> Hus. apply yylex_sound in E2 as [_ H2]. auto.
Qed.

Lemma setting_sound t c lx lx1 c' lx' :
  (forall ts, lexes lx1 ts -> lexes lx (t :: ts)) -> parse_setting t c lx1 = Ret (c', lx') ->
  exists ts, setting_of c ts c' /\ forall us, lexes lx' us -> lexes lx (ts ++ us).
Proof using Hall.
  intros Hlx. unfold parse_setting, yyerror.
  destruct t as [v|v|v|v| | | | | | | | | | |]; try discriminate.
  all: destruct (after_assignment lx1) as [[t lx2]| |] eqn:E1; cbn [mbind outcome_bind]; [|done..];
    destruct t as [t|]; [|done];
    pose proof (fun us => assignment_sound _ _ _ E1 t us eq_refl) as Ha; destruct t; try discriminate.
  - destruct (parse_quoted c lx2) as [[s lx3]| |] eqn:E; cbn [mbind outcome_bind]; [|done..].
    apply quoted_sound in E as (ts & x & -> & Hs & Hts). intros [= <- <-]. eexists. split; [by constructor|].
    intros us Hus. cbn [app]. rewrite <- app_assoc. by apply Hlx, Ha, Hts.
  - intros [= <- <-]. eexists. split; [apply setting_i|]. intros us Hus. by apply Hlx, Ha.
  - intros [= <- <-]. eexists. split; [apply setting_b_int|]. intros us Hus. by apply Hlx, Ha.
  - intros [= <- <-]. eexists. split; [apply setting_bool|]. intros us Hus. by apply Hlx, Ha.
  - intros [= <- <-]. eexists. split; [apply setting_yesno|]. intros us Hus. by apply Hlx, Ha.
  - destruct (parse_list _ c lx2) as [[l lx3]| |] eqn:E; cbn [mbind outcome_bind]; [|done..].
    apply list_sound in E as (ts & Hl & Hts). intros [= <- <-]. eexists. split; [by constructor|].
    intros us Hus. cbn [app]. by apply Hlx, Ha, Hts.
Qed.

Lemma config_sound fuel c lx c' : parse_config fuel c lx = Ret c' ->
  exists ts, lexes lx ts /\ config_of c ts c'.
Proof using Hall.
  revert c lx; induction fuel as [|fuel IH]; intros c lx; cbn [parse_config]; [done|].
  destruct (yylex lx) as [[t lx1]| |] eqn:E1; cbn [mbind outcome_bind]; [|done..].
  destruct t as [t|]; [|intros [= <-]; exists []; split; [by eapply yylex_eof | constructor]].
  apply yylex_sound in E1 as [_ H1].
  destruct (parse_setting t c lx1) as [[c1 lx2]| |] eqn:E2; cbn [mbind outcome_bind]; [|done..].
  apply (setting_sound _ _ lx) in E2 as (ts & Hs & Hts); [|done].
  destruct (yylex lx2) as [[t2 lx3]| |] eqn:E3; cbn [mbind outcome_bind]; [|done..].
  destruct t2 as [[]|]; try discriminate. apply yylex_sound in E3 as [_ H3].
  intros (us & Hus & Hc)%IH. exists (ts ++ SEPARATOR :: us). split; [by apply Hts, H3 | by econstructor].
Qed.

(** *** Complete: what is derived it accepts *)

Lemma string_complete c ts x : string_of c ts x -> forall fuel lx us,
  lexes lx (ts ++ STRINGMARKER :: us) -> (length (lx_input lx) < fuel)%nat ->
  exists lx', parse_string fuel c lx = Ret (Some x, Some STRINGMARKER, lx') /\ lexes lx' us /\
    (length (lx_input lx') < length (lx_input lx))%nat.
Proof using Hall.
  assert (forall t ts s (k : cptr -> outcome cptr) x fuel lx us,
    (forall fuel lx us, lexes lx (ts ++ STRINGMARKER :: us) -> (length (lx_input lx) < fuel)%nat ->
      exists lx', parse_string fuel c lx = Ret (Some s, Some STRINGMARKER, lx') /\ lexes lx' us /\
        (length (lx_input lx') < length (lx_input lx))%nat) ->
    (forall fuel lx lx1, yylex lx = Ret (Some t, lx1) -> parse_string (S fuel) c lx =
       '(s, t, lx) ← parse_string fuel c lx1; r ← k s; Ret (r, t, lx)) ->
    k (Some s) = Ret (Some x) ->
    lexes lx (t :: ts ++ STRINGMARKER :: us) -> (length (lx_input lx) < fuel)%nat ->
    exists lx', parse_string fuel c lx = Ret (Some x, Some STRINGMARKER, lx') /\ lexes lx' us /\
      (length (lx_input lx') < length (lx_input lx))%nat) as Hstep.
  { intros t ts' s k y [|fuel] lx us IH Hp Hk Hl Hf; [lia|].
    apply yylex_token in Hl as (lx1 & E1 & Hl & Hs1).
    destruct (IH fuel lx1 us Hl) as (lx2 & E2 & Hl2 & Hs2); [lia|].
    exists lx2. rewrite (Hp _ _ _ E1), E2. cbn [mbind outcome_bind]. rewrite Hk. split_and!; [done..|lia]. }
  induction 1 as [|v y ts s Ev Hs IH|v ts s Hs IH|y ts s Hs IH]; intros fuel lx us Hl Hf; cbn [app] in Hl.
  - destruct fuel as [|fuel]; [lia|]. apply yylex_token in Hl as (lx1 & E1 & Hl & Hs1).
    exists lx1. cbn [parse_string]. rewrite E1. cbn [mbind outcome_bind]. rewrite strdup_all. done.
  - eapply (Hstep _ _ s (fun s => catandfree (Some y) s)); [done | | apply catandfree_all | done | done].
    intros f l l1 E. cbn [parse_string]. rewrite E. cbn [mbind outcome_bind]. by rewrite Ev.
  - eapply (Hstep _ _ s (concatias (s32 (get_int_var v c)))); [done | | apply concatias_all | done | done].
    intros f l l1 E. cbn [parse_string]. by rewrite E.
  - eapply (Hstep _ _ s (fun s => catandfree (Some y) s)); [done | | apply catandfree_all | done | done].
    intros f l l1 E. cbn [parse_string]. by rewrite E.
Qed.

Lemma quoted_complete c ts x lx us : string_of c ts x -> lexes lx (ts ++ STRINGMARKER :: us) ->
  exists lx', parse_quoted c lx = Ret (Some x, lx') /\ lexes lx' us /\
    (length (lx_input lx') < length (lx_input lx))%nat.
Proof using Hall.
  intros Hs Hl. destruct (string_complete c ts x Hs (S (length (lx_input lx))) lx us Hl ltac:(lia)) as (lx' & E & Hr).
  exists lx'. unfold parse_quoted. by rewrite E.
Qed.

Lemma entry_complete c ts e lx us : entry_of c ts e -> lexes lx (ts ++ us) ->
  exists t lx1 lx', yylex lx = Ret (Some t, lx1) /\ t <> LISTCLOSE /\ parse_listentry (Some t) c lx1 = Ret (e, lx') /\
    lexes lx' us /\ (length (lx_input lx') < length (lx_input lx))%nat.
Proof using Hall.
  intros [i|ts' s Hs] Hl; cbn [app] in Hl.
  - apply yylex_token in Hl as (lx1 & E1 & Hl & Hs1). exists (INTVAL i), lx1, lx1.
    cbn [parse_listentry]. unfold list_mkientry. by rewrite Hall.
  - rewrite <- app_assoc in Hl. apply yylex_token in Hl as (lx1 & E1 & Hl & Hs1).
    destruct (quoted_complete c ts' s lx1 us Hs Hl) as (lx' & E2 & Hl2 & Hs2).
    exists STRINGMARKER, lx1, lx'. cbn [parse_listentry]. rewrite E2. cbn [mbind outcome_bind].
    rewrite list_mksentry_all. split_and!; [done..|lia].
Qed.

Lemma list_complete c ts l : list_of c ts l -> forall fuel lx us,
  lexes lx (ts ++ us) -> (length (lx_input lx) < fuel)%nat ->
  exists lx', parse_list fuel c lx = Ret (l, lx') /\ lexes lx' us /\
    (length (lx_input lx') < length (lx_input lx))%nat.
Proof using Hall.
  induction 1 as [|ts e He|ts e vs l He Hv IH]; intros [|fuel] lx us Hl Hf; try lia; cbn [parse_list].
  - apply yylex_token in Hl as (lx1 & E1 & Hl & Hs1). exists lx1. rewrite E1. cbn [mbind outcome_bind].
    by rewrite list_allocate_all.
  - rewrite <- app_assoc in Hl. destruct (entry_complete c ts e lx _ He Hl) as (t & lx1 & lx2 & E1 & Ht & E2 & Hl2 & Hs2).
    apply yylex_token in Hl2 as (lx3 & E3 & Hl3 & Hs3). exists lx3. rewrite E1. cbn [mbind outcome_bind].
    assert (parse_entries (parse_list fuel c) (Some t) c lx1 = Ret ([e], lx3)) as E.
    { unfold parse_entries. rewrite E2. cbn [mbind outcome_bind]. rewrite E3. cbn [mbind outcome_bind].
      rewrite list_allocate_all. cbn [mbind outcome_bind]. by rewrite list_add_elem_all. }
    split_and!; [by destruct t | done | lia].
  - rewrite <- app_assoc in Hl. destruct (entry_complete c ts e lx _ He Hl) as (t & lx1 & lx2 & E1 & Ht & E2 & Hl2 & Hs2).
    apply yylex_token in Hl2 as (lx3 & E3 & Hl3 & Hs3).
    destruct (IH fuel lx3 us Hl3) as (lx4 & E4 & Hl4 & Hs4); [lia|].
    exists lx4. rewrite E1. cbn [mbind outcome_bind].
    assert (parse_entries (parse_list fuel c) (Some t) c lx1 = Ret (e :: l, lx4)) as E.
    { unfold parse_entries. rewrite E2. cbn [mbind outcome_bind]. rewrite E3. cbn [mbind outcome_bind].
      rewrite E4. cbn [mbind outcome_bind]. by rewrite list_add_elem_all. }
    split_and!; [by destruct t | done | lia].
Qed.

Lemma assignment_complete lx t us : lexes lx (ASSIGNMENT :: t :: us) ->
  exists lx', after_assignment lx = Ret (Some t, lx') /\ lexes lx' us /\
    (length (lx_input lx') < length (lx_input lx))%nat.
Proof using Type.
  intros (lx1 & E1 & Hl & Hs1)%yylex_token. apply yylex_token in Hl as (lx2 & E2 & Hl & Hs2).
  exists lx2. unfold after_assignment. rewrite E1. cbn [mbind outcome_bind]. split_and!; [done..|lia].
Qed.

Lemma setting_complete c ts c' lx us : setting_of c ts c' -> lexes lx (ts ++ us) ->
  exists t lx1 lx', yylex lx = Ret (Some t, lx1) /\ parse_setting t c lx1 = Ret (c', lx') /\
    lexes lx' us /\ (length (lx_input lx') < length (lx_input lx))%nat.
Proof using Hall.
  intros Hs Hl.
  destruct Hs as [v i|v b|v b|v i|v ts s Hs|v ts l Hs]; cbn [app] in Hl; rewrite <- ?app_assoc in Hl; cbn [app] in Hl;
    apply yylex_token in Hl as (lx1 & E1 & Hl & Hs1);
    apply assignment_complete in Hl as (lx2 & E2 & Hl & Hs2);
    (match type of E1 with _ = Ret (Some ?t, _) => exists t, lx1 end);
    rewrite E1; cbn [parse_setting]; rewrite E2; cbn [mbind outcome_bind].
  1-4: by exists lx2; split_and!; [done..|lia].
  - destruct (quoted_complete c ts s lx2 us Hs Hl) as (lx3 & E3 & Hl3 & Hs3). exists lx3. rewrite E3.
    split_and!; [done..|lia].
  - destruct (list_complete c ts l Hs (S (length (lx_input lx2))) lx2 us Hl) as (lx3 & E3 & Hl3 & Hs3); [lia|].
    exists lx3. rewrite E3. split_and!; [done..|lia].
Qed.

Lemma config_complete c ts c' : config_of c ts c' -> forall fuel lx,
  lexes lx ts -> (length (lx_input lx) < fuel)%nat -> parse_config fuel c lx = Ret c'.
Proof using Hall.
  induction 1 as [c|c ts c1 us c2 Hs Hc IH]; intros [|fuel] lx Hl Hf; try lia; cbn [parse_config].
  - apply yylex_end in Hl as (lx' & E). by rewrite E.
  - destruct (setting_complete c ts c1 lx _ Hs Hl) as (t & lx1 & lx2 & E1 & E2 & Hl2 & Hs2).
    apply yylex_token in Hl2 as (lx3 & E3 & Hl3 & Hs3).
    rewrite E1. cbn [mbind outcome_bind]. rewrite E2. cbn [mbind outcome_bind]. rewrite E3. cbn [mbind outcome_bind].
    apply IH; [done | lia].
Qed.

End Parses.

(** ** Every file is read or refused *)

(** It returns something good, or it ends the program as the parser does. *)
Definition ends {A} (o : outcome A) (P : A -> Prop) : Prop :=
  match o with Ret a => P a | Exits n _ => n = 1 \/ n = 111 | Undef => False end.

Lemma ends_bind {A B} (m : outcome A) (f : A -> outcome B) P Q :
  ends m P -> (forall a, P a -> ends (f a) Q) -> ends (m ≫= f) Q.
Proof. destruct m; cbn; auto. Qed.

Lemma ends_weaken {A} (o : outcome A) (P Q : A -> Prop) : ends o P -> (forall a, P a -> Q a) -> ends o Q.
Proof. destruct o; cbn; auto. Qed.

Lemma ends_alloc {A} (b : bool) (o : outcome A) P : (b = true -> ends o P) -> ends (if b then o else Exit 111) P.
Proof. destruct b; cbn; auto. Qed.

Lemma ends_error {A} (P : A -> Prop) : ends yyerror P.
Proof. by left. Qed.

Section Ends.
Context `{Allocator}.
Hypothesis Hmem : alloc_enough.

(** What is left of a file that is short enough for a copy of it. *)
Definition short (lx : lexer) : Prop := zlen (lx_input lx) < str_limit.

Definition shorter (lx' lx : lexer) : Prop := (length (lx_input lx') < length (lx_input lx))%nat.

Lemma shorter_short lx lx' : short lx -> shorter lx' lx -> short lx'.
Proof using Type. unfold short, shorter. zlia. Qed.

Lemma act_ends a y lx : zlen y < str_limit ->
  ends (act a y lx) (fun '(t, lx') => lx_input lx' = lx_input lx /\ (a <> Tok (STRING None) -> t <> Some (STRING None))).
Proof using Hmem.
  intros Hy. assert (forall t, zlen t <= zlen y -> strdup t = Some t) as Hdup.
  { intros t Ht. unfold strdup. pose proof (zlen_nonneg t). by rewrite Hmem by lia. }
  destruct lx as [st caller input]. destruct a; cbn [act ends]; try (by split; [|intros ? [=]]).
  - split; [done|]. congruence.
  - by left.
  - split; [done|]. unfold strdup. rewrite Hmem; [done|]. by vm_compute.
  - split; [done|]. rewrite Hdup; [done|]. clear. induction y as [|x y IH]; cbn [take_until]; [done|].
    destruct (x =? 0); zlia.
Qed.

Lemma rules_no_null st a : (exists r, (r, a) ∈ rules st) -> a <> Tok (STRING None).
Proof using Type.
  intros [r Hr] ->.
  assert (forallb (fun '(_, a) => match a with Tok (STRING None) => false | _ => true end) (rules st) = true) as Hf
    by (destruct st; by vm_compute).
  rewrite forallb_forall in Hf. apply list_elem_of_In in Hr. by apply Hf in Hr.
Qed.

Lemma lex_loop_ends fuel lx : short lx -> (length (lx_input lx) < fuel)%nat ->
  ends (lex_loop fuel lx) (fun '(t, lx') => t <> Some (STRING None) /\ (is_Some t -> shorter lx' lx)).
Proof using Hmem.
  revert lx; induction fuel as [|fuel IH]; intros lx Hlim Hf; [lia|]. cbn [lex_loop].
  case_bool_decide as Hi; [by split; [|intros [? [=]]]|].
  destruct (default_matches (lx_start lx) (lx_input lx) Hi) as (n & a & E & Hn). rewrite E.
  eapply ends_bind; [apply act_ends; unfold short in Hlim; zlia|]. intros [t lx'] [Hin Ht]. cbn [lx_input] in Hin.
  assert (shorter lx' lx) as Hs by (unfold shorter; rewrite Hin, length_drop; lia).
  destruct t as [t|].
  - split; [|done]. apply Ht. apply best_bound in E as (r & Hr & _). apply (rules_no_null (lx_start lx)). by exists r.
  - eapply ends_weaken; [apply IH; [by eapply shorter_short | unfold shorter in Hs; lia]|].
    intros [t lx2] [H1 H2]. split; [done|]. intros Hts. specialize (H2 Hts). unfold shorter in *. lia.
Qed.

Lemma yylex_ends lx : short lx ->
  ends (yylex lx) (fun '(t, lx') => t <> Some (STRING None) /\ (is_Some t -> shorter lx' lx /\ short lx')).
Proof using Hmem.
  intros Hl. eapply ends_weaken; [apply lex_loop_ends; [done | lia]|].
  intros [t lx'] [H1 H2]. split; [done|]. intros Ht. split; [by apply H2|]. by eapply shorter_short, H2.
Qed.

Lemma catandfree_ends s1 s2 : is_Some s1 -> is_Some s2 -> ends (catandfree s1 s2) is_Some.
Proof using Type.
  intros [x ->] [y ->]. unfold catandfree, malloc. cbn [deref mbind outcome_bind].
  destruct (alloc_ok _); [|by right]. rewrite cat_block. by eexists.
Qed.

Lemma concatias_ends i s : is_Some s -> ends (concatias i s) is_Some.
Proof using Type.
  intros [y ->]. unfold concatias, malloc. cbn [deref mbind outcome_bind]. destruct (alloc_ok _); [|by right].
  rewrite print_block by (unfold strlen; pose proof (zlen_nonneg y); lia). by eexists.
Qed.

(** Parsers that leave no more than they were given. *)
Definition moves {A} (lx : lexer) (P : A -> Prop) : A * lexer -> Prop :=
  fun '(a, lx') => P a /\ shorter lx' lx /\ short lx'.

Lemma moves_from {A} lx lx1 (P : A -> Prop) r : shorter lx1 lx -> moves lx1 P r -> moves lx P r.
Proof using Type. destruct r as [a lx2]. intros H1 (HP & H2 & H3). split_and!; [done| |done]. unfold shorter in *. lia. Qed.

Lemma string_ends fuel c lx : short lx -> (length (lx_input lx) < fuel)%nat ->
  ends (parse_string fuel c lx) (fun '(s, t, lx') => is_Some s /\ (is_Some t -> shorter lx' lx /\ short lx')).
Proof using Hmem.
  revert lx; induction fuel as [|fuel IH]; intros lx Hlim Hf; [lia|]. cbn [parse_string].
  eapply ends_bind; [by apply yylex_ends|]. intros [t lx1] [Hn Hs].
  assert (is_Some (strdup [])) as Hnil by (unfold strdup; rewrite Hmem; [by eexists | by vm_compute]).
  destruct t as [t|]; [|by split; [|intros [? [=]]]]. destruct Hs as [Hs Hl]; [by eexists|].
  assert (forall (k : cptr -> outcome cptr), (forall s, is_Some s -> ends (k s) is_Some) ->
    ends ('(s, t, lx2) ← parse_string fuel c lx1; r ← k s; Ret (r, t, lx2))
      (fun '(s, t, lx') => is_Some s /\ (is_Some t -> shorter lx' lx /\ short lx'))) as Hgo.
  { intros k Hk. eapply ends_bind; [apply IH; [done | unfold shorter in Hs; lia]|].
    intros [[s t2] lx2] [Hx H2]. eapply ends_bind; [by apply Hk|]. intros r Hr. split; [done|].
    intros Ht. destruct (H2 Ht). unfold shorter in *. split; [lia | done]. }
  destruct t as [v|v| | |o| | | | | | | | | |]; try (by split).
  - destruct (get_string_var v c) as [x|].
    + apply (Hgo (fun s => catandfree (Some x) s)). intros s Hx. by apply catandfree_ends.
    + eapply ends_bind; [apply IH; [done | unfold shorter in Hs; lia]|]. intros [[s t2] lx2] _. by left.
  - apply (Hgo (concatias _)). intros s Hx. by apply concatias_ends.
  - destruct o as [x|]; [|done]. apply (Hgo (fun s => catandfree (Some x) s)). intros s Hx. by apply catandfree_ends.
Qed.

Lemma quoted_ends c lx : short lx -> ends (parse_quoted c lx) (moves lx is_Some).
Proof using Hmem.
  intros Hl. unfold parse_quoted. eapply ends_bind; [apply string_ends; [done | lia]|].
  intros [[s t] lx1] [Hs H1]. destruct t as [t|]; [|apply ends_error].
  destruct t; try apply ends_error. split; [done | by apply H1].
Qed.

Lemma entry_ends t c lx : short lx -> ends (parse_listentry t c lx)
  (fun '(e, lx') => (length (lx_input lx') <= length (lx_input lx))%nat /\ short lx').
Proof using Hmem.
  intros Hl. destruct t as [[]|]; try apply ends_error; cbn [parse_listentry].
  - eapply ends_bind; [unfold list_mkientry; by apply ends_alloc with (P := fun _ => True)|]. by intros e _.
  - eapply ends_bind; [by apply quoted_ends|]. intros [s lx1] ([x ->] & Hs & Hl1).
    eapply ends_bind; [unfold list_mksentry; by apply ends_alloc with (P := fun _ => True)|].
    intros e _. split; [unfold shorter in Hs; lia | done].
Qed.

Lemma list_ends fuel c lx : short lx -> (length (lx_input lx) < fuel)%nat ->
  ends (parse_list fuel c lx) (moves lx (fun _ => True)).
Proof using Hmem.
  revert lx; induction fuel as [|fuel IH]; intros lx Hlim Hf; [lia|]. cbn [parse_list].
  eapply ends_bind; [by apply yylex_ends|]. intros [t lx1] [_ Hs].
  assert (forall lx', is_Some t -> moves lx1 (fun _ : list settings_entry => True) lx' ->
    moves lx (fun _ => True) lx') as Hfrom by (intros lx' Ht; apply moves_from; by apply Hs).
  assert (is_Some t -> ends (parse_entries (parse_list fuel c) t c lx1) (moves lx (fun _ => True))) as Hent.
  { intros Ht. destruct (Hs Ht) as [Hs1 Hl1]. unfold parse_entries.
    eapply ends_bind; [by apply entry_ends|]. intros [e lx2] [Hs2 Hl2].
    eapply ends_bind; [by apply yylex_ends|]. intros [t3 lx3] [_ Hs3]. destruct t3 as [t3|]; [|apply ends_error].
    destruct Hs3 as [Hs3 Hl3]; [by eexists|]. unfold shorter in *.
    destruct t3; try apply ends_error.
    - eapply ends_bind; [apply IH; [done | lia]|]. intros [l lx4] (_ & Hs4 & Hl4).
      apply ends_bind with (P := fun _ => True); [by apply ends_alloc|]. intros l' _.
      split_and!; [done | unfold shorter in *; lia | done].
    - apply ends_bind with (P := fun _ => True); [by apply ends_alloc|]. intros l _.
      apply ends_bind with (P := fun _ => True); [by apply ends_alloc|]. intros l' _.
      split_and!; [done | unfold shorter in *; lia | done]. }
  destruct t as [t|]; [|apply ends_error].
  assert (is_Some (Some t)) as Ht by (by eexists). specialize (Hent Ht). destruct (Hs Ht) as [Hs1 Hl1].
  destruct t; try exact Hent. apply ends_bind with (P := fun _ => True); [by apply ends_alloc|]. by intros l _.
Qed.

Lemma assignment_ends lx : short lx ->
  ends (after_assignment lx) (fun '(t, lx') => is_Some t -> shorter lx' lx /\ short lx').
Proof using Hmem.
  intros Hl. unfold after_assignment. eapply ends_bind; [by apply yylex_ends|]. intros [t lx1] [_ Hs].
  destruct t as [t|]; [|apply ends_error]. destruct Hs as [Hs Hl1]; [by eexists|].
  destruct t; try apply ends_error. eapply ends_weaken; [by apply yylex_ends|].
  intros [t lx2] [_ Hs2] Ht. destruct (Hs2 Ht). unfold shorter in *. split; [lia | done].
Qed.

Lemma setting_ends t c lx : short lx -> ends (parse_setting t c lx) (moves lx (fun _ => True)).
Proof using Hmem.
  intros Hl. unfold parse_setting. destruct t; try apply ends_error;
    (eapply ends_bind; [by apply assignment_ends|]; intros [t lx1] Hs; destruct t as [t|]; [|apply ends_error];
     destruct Hs as [Hs Hl1]; [by eexists|]; destruct t; try apply ends_error; try (by split_and!)).
  - eapply ends_bind; [by apply quoted_ends|]. intros [s lx2] (_ & Hs2 & Hl2).
    split_and!; [done | unfold shorter in *; lia | done].
  - eapply ends_bind; [apply list_ends; [done | lia]|]. intros [l lx2] (_ & Hs2 & Hl2).
    split_and!; [done | unfold shorter in *; lia | done].
Qed.

Lemma config_ends fuel c lx : short lx -> (length (lx_input lx) < fuel)%nat ->
  ends (parse_config fuel c lx) (fun _ => True).
Proof using Hmem.
  revert c lx; induction fuel as [|fuel IH]; intros c lx Hlim Hf; [lia|]. cbn [parse_config].
  eapply ends_bind; [by apply yylex_ends|]. intros [t lx1] [_ Hs].
  destruct t as [t|]; [|done]. destruct Hs as [Hs Hl1]; [by eexists|].
  eapply ends_bind; [by apply setting_ends|]. intros [c1 lx2] (_ & Hs2 & Hl2).
  eapply ends_bind; [by apply yylex_ends|]. intros [t3 lx3] [_ Hs3].
  destruct t3 as [t3|]; [|apply ends_error]. destruct Hs3 as [Hs3 Hl3]; [by eexists|].
  destruct t3; try apply ends_error. apply IH; [done|]. unfold shorter in *. lia.
Qed.

End Ends.
