(* ===== verification/ConfigPrint.v ===== *)
(** * Writing a configuration file

    A printer for settings and the theorem that the parser reads back what it
    prints, assignment by assignment.  Strings are made of plain text, escaped
    dollars and references to other variables; [plain] says which texts the scanner
    takes for text. *)

From S2P Require Import Prelude CLib CString StrBuf AddrMask PeerParser Config Tinc ConfigInit Flex ConfigLex ConfigGram.
From S2P Require Import ConfigGramProps.

Definition string_var_name (v : string_var) : text :=
  match v with
  | S_my_peerid => c_lit "$my_peerid"
  | S_my_vpn_ip => c_lit "$my_vpn_ip"
  | S_my_vpn_ip6 => c_lit "$my_vpn_ip6"
  | S_my_password => c_lit "$my_password"
  | S_my_ip => c_lit "$my_ip"
  | S_my_addressfamily => c_lit "$my_addressfamily"
  | S_networkname => c_lit "$networkname"
  | S_tincd_bin => c_lit "$tincd_bin"
  | S_tincctl_bin => c_lit "$tincctl_bin"
  | S_routeadd => c_lit "$routeadd"
  | S_routeadd6 => c_lit "$routeadd6"
  | S_routedel => c_lit "$routedel"
  | S_routedel6 => c_lit "$routedel6"
  | S_routemetric => c_lit "$routemetric"
  | S_postup => c_lit "$postup"
  | S_ifconfig => c_lit "$ifconfig"
  | S_ifconfig6 => c_lit "$ifconfig6"
  | S_master_url => c_lit "$master_url"
  | S_masterdata_signkey => c_lit "$masterdata_signkey"
  | S_base => c_lit "$base"
  | S_pidfile => c_lit "$pidfile"
  | S_my_vpn_netmask => c_lit "$my_vpn_netmask"
  | S_tmpconffile => c_lit "$tmpconffile"
  | S_tincd_graphdumpfile => c_lit "$tincd_graphdumpfile"
  | S_tincd_interface => c_lit "$tincd_interface"
  | S_tincd_device => c_lit "$tincd_device"
  | S_tincd_user => c_lit "$tincd_user"
  | S_tincd_raw_config => c_lit "$tincd_raw_config"
  end.

Definition int_var_name (v : int_var) : text :=
  match v with
  | I_tincd_debuglevel => c_lit "$tincd_debuglevel"
  | I_tincd_restart_delay => c_lit "$tincd_restart_delay"
  | I_update_interval => c_lit "$update_interval"
  end.

Definition bool_var_name (v : bool_var) : text :=
  match v with
  | B_use_dynamic_routes => c_lit "$use_dynamic_routes"
  | B_connect_only_to_primary_nodes => c_lit "$connect_only_to_primary_nodes"
  | B_run_ifdown => c_lit "$run_ifdown"
  | B_localdiscovery => c_lit "$localdiscovery"
  end.

Definition list_var_name (v : list_var) : text :=
  match v with
  | L_exclude => c_lit "@exclude"
  | L_mergeroutes_supernet => c_lit "@mergeroutes_supernet"
  | L_ignore_subnets => c_lit "@ignore_subnets"
  | L_whitelist_subnets => c_lit "@whitelist_subnets"
  end.

(** ** Settings *)

Inductive piece := Text (t : text) | Dollar_sign | Var (v : string_var) | Int_var (v : int_var).

Inductive entry := Entry_int (i : Z) | Entry_string (ps : list piece).

Inductive setting :=
| Set_string (v : string_var) (ps : list piece)
| Set_int (v : int_var) (i : Z)
| Set_bool (v : bool_var) (b : bool)
| Set_list (v : list_var) (es : list entry).

Definition print_piece (p : piece) : text :=
  match p with
  | Text t => t
  | Dollar_sign => c_lit "\\$"
  | Var v => string_var_name v
  | Int_var v => int_var_name v
  end.

Definition print_pieces (ps : list piece) : text := concat (map print_piece ps).

Definition quoted (ps : list piece) : text := 34 :: print_pieces ps ++ [34].

Definition print_entry (e : entry) : text :=
  match e with Entry_int i => dec_nat i | Entry_string ps => quoted ps end.

Definition print_setting (s : setting) : text :=
  match s with
  | Set_string v ps => string_var_name v ++ c_lit " = " ++ quoted ps
  | Set_int v i => int_var_name v ++ c_lit " = " ++ dec_nat i
  | Set_bool v b => bool_var_name v ++ c_lit " = " ++ (if b then c_lit "yes" else c_lit "no")
  | Set_list v es => list_var_name v ++ c_lit " = (" ++ join 44 (map print_entry es) ++ c_lit ")"
  end.

Definition print_file (ss : list setting) : text := concat (map (fun s => print_setting s ++ c_lit ";\n") ss).

(** ** What they assign *)

Fixpoint value_of (c : config) (ps : list piece) : option text :=
  match ps with
  | [] => Some []
  | p :: ps =>
      x ← match p with
          | Text t => Some t
          | Dollar_sign => Some [36]
          | Var v => get_string_var v c
          | Int_var v => Some (dec (s32 (get_int_var v c)))
          end;
      s ← value_of c ps; Some (x ++ s)
  end.

Definition entry_value (c : config) (e : entry) : option settings_entry :=
  match e with
  | Entry_int i => Some (LIST_INTEGER i)
  | Entry_string ps => s ← value_of c ps; Some (LIST_STRING (Some s))
  end.

Definition run_setting (c : config) (s : setting) : option config :=
  match s with
  | Set_string v ps => s ← value_of c ps; Some (set_string_var v (Some s) c)
  | Set_int v i => Some (set_int_var v i c)
  | Set_bool v b => Some (set_bool_var v b c)
  | Set_list v es => l ← mapM (entry_value c) es; Some (set_list_var v (Some l) c)
  end.

(** A reference to a variable that is not set stops the program: [None]. *)
Fixpoint run_settings (c : config) (ss : list setting) : option config :=
  match ss with [] => Some c | s :: ss => c ← run_setting c s; run_settings c ss end.

(** ** Which texts can be written *)

(** The characters that end a run of plain text. *)
Definition specials : text := [34; 92; 36].

(** A run of plain text: not a word the rules in front of the strings' own rule
    take as a whole, such as yes or an assignment sign, and not a comment. *)
Definition plain (t : text) : bool :=
  match t with
  | [] => false
  | c :: _ => negb (c =? 35)
  end &&
  forallb (fun c => negb (bool_decide (c ∈ specials)) && negb (c =? 0)) t &&
  negb (bool_decide (take 2 t = c_lit "[@")) &&
  forallb (fun '(r, _) => negb (nullable (derivs t r))) first_rules.

(** The variables whose name with a 6 behind it is another variable. *)
Definition six (v : string_var) : bool :=
  match v with S_my_vpn_ip | S_routeadd | S_routedel | S_ifconfig => true | _ => false end.

Definition starts_with_6 (ps : list piece) : bool :=
  match ps with Text (c :: _) :: _ => c =? 54 | _ => false end.

Definition is_text (ps : list piece) : bool := match ps with Text _ :: _ => true | _ => false end.

Fixpoint wf_pieces (ps : list piece) : bool :=
  match ps with
  | [] => true
  | Text t :: ps => plain t && negb (is_text ps) && wf_pieces ps
  | Var v :: ps => negb (six v && starts_with_6 ps) && wf_pieces ps
  | _ :: ps => wf_pieces ps
  end.

Definition wf_entry (e : entry) : bool :=
  match e with Entry_int i => (0 <=? i) && (i <? 2 ^ 31) | Entry_string ps => wf_pieces ps end.

Definition wf_setting (s : setting) : bool :=
  match s with
  | Set_string _ ps => wf_pieces ps
  | Set_int _ i => (0 <=? i) && (i <? 2 ^ 31)
  | Set_bool _ _ => true
  | Set_list _ es => forallb wf_entry es
  end.

(** ** Scanning what was printed *)

Ltac computes := vm_compute; reflexivity.

(** The states between settings. *)
Definition outside (st : start) : bool := match st with INITIAL | PV => true | _ => false end.

Lemma best_word st w rest n a :
  stops w (rules st) = true -> best (rules st) w = Some (n, a) -> best (rules st) (w ++ rest) = Some (n, a).
Proof. intros Hs E. by rewrite best_stops. Qed.

Lemma best_before st w x rest n a :
  stops (w ++ [x]) (rules st) = true -> best (rules st) (w ++ [x]) = Some (n, a) ->
  best (rules st) (w ++ x :: rest) = Some (n, a).
Proof. intros Hs E. change (x :: rest) with ([x] ++ rest). rewrite app_assoc. by apply best_word. Qed.

Lemma string_name_best st v rest : outside st = true ->
  best (rules st) (string_var_name v ++ 32 :: rest) = Some (length (string_var_name v), Tok (KEYWORD_S v)).
Proof. intros Ho. apply best_before; destruct st; try done; destruct v; computes. Qed.

Lemma int_name_best st v rest : outside st = true ->
  best (rules st) (int_var_name v ++ 32 :: rest) = Some (length (int_var_name v), Tok (KEYWORD_I v)).
Proof. intros Ho. apply best_before; destruct st; try done; destruct v; computes. Qed.

Lemma bool_name_best st v rest : outside st = true ->
  best (rules st) (bool_var_name v ++ 32 :: rest) = Some (length (bool_var_name v), Tok (KEYWORD_B v)).
Proof. intros Ho. apply best_before; destruct st; try done; destruct v; computes. Qed.

Lemma list_name_best st v rest : outside st = true ->
  best (rules st) (list_var_name v ++ 32 :: rest) = Some (length (list_var_name v), Tok (KEYWORD_L v)).
Proof. intros Ho. apply best_before; destruct st; try done; destruct v; computes. Qed.

(** One case for each element of a list that is written out. *)
Ltac by_cases H :=
  rewrite ?elem_of_cons in H;
  repeat (destruct H as [-> | H]; [|]); try (exfalso; exact (proj1 (elem_of_nil _) H)).

(** The first characters of values. *)
Definition value_starts : list Z := [34; 40; 121; 110; 48; 49; 50; 51; 52; 53; 54; 55; 56; 57].

Lemma digit_among d : isdigit d = true -> d ∈ [48; 49; 50; 51; 52; 53; 54; 55; 56; 57].
Proof.
  unfold isdigit. intros [H1%Z.leb_le H2%Z.leb_le]%andb_true_iff.
  assert (d = 48 \/ d = 49 \/ d = 50 \/ d = 51 \/ d = 52 \/ d = 53 \/ d = 54 \/ d = 55 \/ d = 56 \/ d = 57) as Hd by lia.
  rewrite !elem_of_cons. naive_solver.
Qed.

Lemma assign_best st x rest : outside st = true -> x ∈ value_starts ->
  best (rules st) (c_lit " = " ++ x :: rest) = Some (3%nat, Assign).
Proof.
  intros Ho Hx. apply best_before; destruct st; try done; unfold value_starts in Hx; by_cases Hx; computes.
Qed.

(** A number is read up to the character behind it. *)
Lemma float_step d : isdigit d = true -> deriv d float = float /\ deriv d (Plus digit) = Star digit /\ deriv d (Star digit) = Star digit.
Proof.
  intros Hd%digit_among. by_cases Hd; split_and!; computes.
Qed.

Lemma digits_best st ds x rest : st = PV \/ st = LL -> ds <> [] -> Forall (fun c => isdigit c = true) ds -> x ∈ [59; 44; 41] ->
  best (rules st) (ds ++ x :: rest) = Some (length ds, Int).
Proof.
  intros Hst Hne Hds Hx. assert (longest float (ds ++ x :: rest) = None) as Ef.
  { clear Hne. induction Hds as [|d ds Hd Hds IH]; cbn [app].
    - rewrite longest_eq by done. by_cases Hx; vm_compute (deriv _ _); by rewrite longest_Void.
    - rewrite longest_eq by done. destruct (float_step d Hd) as (-> & _). by rewrite IH. }
  assert (forall ds, Forall (fun c => isdigit c = true) ds -> longest (Star digit) (ds ++ x :: rest) = Some (length ds)) as Es.
  { clear ds Hne Hds Ef. induction 1 as [|d ds Hd Hds IH]; cbn [app length]; rewrite longest_eq by done.
    - by_cases Hx; vm_compute (deriv _ _); by rewrite longest_Void.
    - destruct (float_step d Hd) as (_ & _ & ->). by rewrite IH. }
  destruct Hds as [|d ds Hd Hds]; [done|].
  cbn [app length]. apply best_loud.
  assert (List.filter (loud d) (rules st) = [(float, Float); (Plus digit, Int); default_rule]) as ->.
  { apply digit_among in Hd. destruct Hst as [-> | ->]; by_cases Hd; computes. }
  cbn [best default_rule app] in *. rewrite Ef.
  rewrite (longest_eq (Plus digit)) by done. destruct (float_step d Hd) as (_ & -> & _). rewrite Es by done.
  rewrite (longest_eq (Cls true [])) by done. cbn [deriv]. change (in_class true [] d) with true. cbn. by rewrite longest_Eps.
Qed.

(** *** Plain text *)

Lemma plain_spec t : plain t = true -> exists c t', t = c :: t' /\ c <> 35 /\
  Forall (fun c => c ∉ specials /\ c <> 0) t /\ take 2 t <> c_lit "[@" /\
  forall r a, (r, a) ∈ first_rules -> ~ matches r t.
Proof.
  unfold plain. intros [[[H1 H2]%andb_true_iff H3]%andb_true_iff H4]%andb_true_iff.
  destruct t as [|c t]; [done|]. exists c, t. split_and!; [done | by apply negb_true_iff, Z.eqb_neq in H1 | | |].
  - apply list.Forall_forall. intros x Hx%list_elem_of_In. rewrite forallb_forall in H2. apply H2 in Hx.
    apply andb_true_iff in Hx as [Hx%negb_true_iff Hz%negb_true_iff].
    split; [by apply bool_decide_eq_false in Hx | by apply Z.eqb_neq in Hz].
  - by apply negb_true_iff, bool_decide_eq_false in H3.
  - intros r a Hr Hm%derivs_spec. rewrite forallb_forall in H4. apply list_elem_of_In, H4 in Hr. by rewrite Hm in Hr.
Qed.

(** Rules that match nothing with a special character, or only what starts with one. *)
Definition tame (r : re) : bool := avoids specials r || starts_with 36 r.

Lemma prefix_special (t : text) (x : Z) rest m :
  x ∈ specials -> Forall (fun c => c ∉ specials) (take m (t ++ x :: rest)) -> (m <= length t)%nat.
Proof.
  intros Hx HF. destruct (decide (m <= length t)%nat) as [|Hm]; [done|]. exfalso.
  rewrite list.Forall_forall in HF. apply (HF x); [|done].
  rewrite take_app_ge by lia. apply elem_of_app. right.
  destruct (m - length t)%nat as [|k] eqn:Ek; [lia|]. cbn [firstn]. by left.
Qed.

Lemma chars_match t : Forall (fun c => c ∉ specials) t -> matches (Star chars) t.
Proof.
  induction 1 as [|c t Hc Ht IH]; [constructor|]. apply (matches_star_cons _ [c]); [|done]. constructor.
  assert (forall y, y ∈ specials -> (y <=? c) && (c <=? y) = false) as Hy.
  { intros y Hy. apply andb_false_iff. destruct (Z.leb_spec y c), (Z.leb_spec c y); auto. exfalso. apply Hc.
    by replace c with y by lia. }
  unfold in_class, in_ranges, among, specials in *. cbn [map existsb]. rewrite !Hy; [done|..]; set_solver.
Qed.

Lemma class_length n rs u : matches (Cls n rs) u -> length u = 1%nat.
Proof. by inversion 1. Qed.

Section Plain.
Variables (t : text) (x : Z) (rest : text).
Hypothesis Hplain : plain t = true.
Hypothesis Hx : x ∈ specials.

Lemma no_special : Forall (fun c => c ∉ specials) t.
Proof using Hplain. destruct (plain_spec t Hplain) as (c & t' & _ & _ & HF & _). eapply list.Forall_impl; [exact HF|]. by intros y []. Qed.

Lemma not_special_start y r m : y ∈ specials -> starts_with y r = true -> ~ matches r (take m (t ++ x :: rest)).
Proof using All.
  intros Hy Hs Hm. destruct (starts_with_spec y r _ Hs Hm) as [v Hv]. pose proof no_special as HF.
  destruct (plain_spec t Hplain) as (c & t' & -> & _). destruct m; [done|]. injection Hv as -> _.
  by apply list.Forall_cons in HF as [Hc _].
Qed.

Lemma tame_bound r m : tame r = true -> matches r (take m (t ++ x :: rest)) -> (m <= length t)%nat.
Proof using All.
  intros [Hr|Hr]%orb_true_iff Hm; [eapply prefix_special; [done | by eapply avoids_spec]|].
  exfalso. eapply not_special_start; [|exact Hr | exact Hm]. right; right; left.
Qed.

Lemma unknown_before m : ~ matches (fst unknown_rule) (take m (t ++ x :: rest)).
Proof using All.
  intros Hm. unfold unknown_rule in Hm. cbn [fst] in Hm.
  apply cat_matches in Hm as (u & v & E & ->%lit_matches & _). change (c_lit "[@$]") with [91; 64; 36; 93] in E.
  destruct (plain_spec t Hplain) as (c & t' & Et & _ & _ & H2 & _). rewrite Et in E, H2.
  destruct t' as [|d t']; destruct m as [|[|m]]; cbn in E; try discriminate; injection E as -> E.
  - subst x. clear -Hx. unfold specials in Hx. set_solver.
  - subst d. by apply H2.
Qed.

Lemma first_bound r a m : (r, a) ∈ first_rules -> matches r (take m (t ++ x :: rest)) -> (m < length t)%nat.
Proof using All.
  intros Hr Hm. assert (m <> length t) as Hne.
  { intros ->. rewrite take_app_length in Hm. destruct (plain_spec t Hplain) as (c & t' & _ & _ & _ & _ & Hf).
    by apply (Hf r a). }
  assert (m <= length t)%nat; [|lia].
  unfold first_rules in Hr. rewrite elem_of_app, elem_of_cons in Hr.
  assert (forallb (fun '(r, _) => tame r) (keyword_rules ++ word_rules ++ [assign_rule]) = true) as Hf by computes.
  rewrite forallb_forall in Hf. destruct Hr as [Hr | [Hr | Hr]].
  - apply (tame_bound r); [|done]. apply (Hf (r, a)), list_elem_of_In. apply elem_of_app. by left.
  - exfalso. apply (unknown_before m). by rewrite <- Hr.
  - apply (tame_bound r); [|done]. apply (Hf (r, a)), list_elem_of_In. apply elem_of_app. by right.
Qed.

Lemma after_bound r a m : (r, a) ∈ last_rules ++ [default_rule] -> matches r (take m (t ++ x :: rest)) -> (m <= length t)%nat.
Proof using All.
  intros Hr Hm. destruct (plain_spec t Hplain) as (c & t' & Et & Hc & _).
  unfold last_rules, default_rule in Hr. cbn [app] in Hr. rewrite !elem_of_cons in Hr.
  destruct Hr as [[= -> ->] | [[= -> ->] | [[= -> ->] | [[= -> ->] | [[= -> ->] | []%elem_of_nil]]]]].
  1, 3, 4: by apply tame_bound in Hm; [|computes].
  - exfalso. apply (starts_with_spec 35) in Hm as [v Hv]; [|computes]. rewrite Et in Hv. destruct m; [done|]. by injection Hv as -> _.
  - apply class_length in Hm. rewrite length_take, length_app in Hm. cbn [length] in Hm.
    assert (length t = S (length t')) by (by rewrite Et). lia.
Qed.

(** A run of plain text in front of a special character is one token. *)
Lemma text_best : best (rules SS) (t ++ x :: rest) = Some (length t, Chars).
Proof using All.
  apply munches_best. exists (first_rules ++ take 2 ss_rules), (Star chars), (last_rules ++ [default_rule]).
  split_and!.
  - unfold rules. by rewrite <- app_assoc.
  - rewrite length_app. lia.
  - rewrite take_app_length. apply chars_match, no_special.
  - intros r b m [Hr|Hr]%elem_of_app _ Hm; [by eapply first_bound|].
    cbn [take ss_rules] in Hr. rewrite !elem_of_cons in Hr. exfalso.
    destruct Hr as [[= -> ->] | [[= -> ->] | []%elem_of_nil]].
    + by apply (not_special_start 34 _ m) in Hm; [|left | computes].
    + by apply (not_special_start 92 _ m) in Hm; [|right; left | computes].
  - intros r b m [[= -> ->] | Hr]%elem_of_cons _ Hm; [|by eapply after_bound].
    apply (tame_bound (Star chars)); [computes | exact Hm].
Qed.

End Plain.

(** *** Variables in strings *)

(** What the rules may still match behind the name of a variable is a 6. *)
Lemma var_residual v : forallb (fun '(r, _) => match derivs (string_var_name v) r with
    | Void | Eps => true
    | Cat (Cls false [(54, 54)]) Eps => six v
    | _ => false end) (rules SS) = true.
Proof. destruct v; computes. Qed.

Lemma var_best v x rest : six v = false \/ x <> 54 ->
  best (rules SS) (string_var_name v ++ x :: rest) = Some (length (string_var_name v), Tok (KEYWORD_S v)).
Proof.
  intros Hx. rewrite best_next; [destruct v; computes|]. intros r a Hin.
  pose proof (var_residual v) as Hr. rewrite forallb_forall in Hr. apply list_elem_of_In, Hr in Hin.
  destruct (derivs (string_var_name v) r) as [| | |r1 r2| |]; try done.
  destruct r1 as [| |[] [|[y z] [|? ?]]| | |]; try done;
    repeat (match goal with H : match ?p with _ => _ end = true |- _ => destruct p; try done end).
  destruct Hx as [Hx|Hx]; [congruence|]. cbn [deriv nullable]. unfold in_class, in_ranges. cbn [existsb xorb].
  rewrite orb_false_r. assert ((54 <=? x) && (x <=? 54) = false) as ->; [|done]. apply andb_false_iff. rewrite !Z.leb_gt. lia.
Qed.

Lemma int_var_best v rest :
  best (rules SS) (int_var_name v ++ rest) = Some (length (int_var_name v), Tok (KEYWORD_I v)).
Proof. apply best_word; destruct v; computes. Qed.

(** *** The tokens of the parts *)

(** What comes behind some pieces in a string. *)
Lemma pieces_head ps rest : wf_pieces ps = true -> exists x tl, print_pieces ps ++ 34 :: rest = x :: tl /\
  (starts_with_6 ps = false -> x <> 54) /\ (is_text ps = false -> x ∈ specials).
Proof.
  intros Hwf. destruct ps as [|[t| |v|v] ps]; cbn [print_pieces print_piece map concat].
  - exists 34, rest. split_and!; [done | done | by left].
  - cbn [wf_pieces] in Hwf. apply andb_true_iff in Hwf as [[Ht _]%andb_true_iff _].
    destruct t as [|c t]; [done|]. exists c, ((t ++ print_pieces ps) ++ 34 :: rest). split_and!; [done | | done].
    cbn [starts_with_6]. apply Z.eqb_neq.
  - eexists 92, _. split_and!; [done | done | by right; left].
  - exists 36, ((drop 1 (string_var_name v) ++ print_pieces ps) ++ 34 :: rest).
    split_and!; [by destruct v | done | by right; right; left].
  - exists 36, ((drop 1 (int_var_name v) ++ print_pieces ps) ++ 34 :: rest).
    split_and!; [by destruct v | done | by right; right; left].
Qed.

Section Tokens.
Context `{Allocator}.
Hypothesis Hall : forall n, alloc_ok n = true.

Lemma lexes_word st caller w rest a t lx' ts :
  best (rules st) (w ++ rest) = Some (length w, a) -> w <> [] ->
  act a w (mklexer st caller rest) = Ret (t, lx') -> lexes lx' ts ->
  lexes (mklexer st caller (w ++ rest)) (option_list t ++ ts).
Proof using Type.
  intros Hb Hw Ha Hts. eapply lexes_munch; [by destruct w | by apply best_munches | | exact Hts].
  by rewrite take_app_length, drop_app_length.
Qed.

(** A token the scanner finds whatever follows. *)
Lemma lexes_fixed st caller w rest a t lx' ts :
  stops w (rules st) = true -> best (rules st) w = Some (length w, a) -> w <> [] ->
  act a w (mklexer st caller rest) = Ret (t, lx') -> lexes lx' ts ->
  lexes (mklexer st caller (w ++ rest)) (option_list t ++ ts).
Proof using Type. intros Hs Hb. apply lexes_word. by apply best_word. Qed.

Lemma lexes_token st caller w rest t ts :
  stops w (rules st) = true -> best (rules st) w = Some (length w, Tok t) -> w <> [] ->
  lexes (mklexer st caller rest) ts -> lexes (mklexer st caller (w ++ rest)) (t :: ts).
Proof using Type. intros Hs Hb Hw. by apply (lexes_fixed st caller w rest (Tok t) (Some t)). Qed.

Lemma lexes_skip st caller w rest ts :
  stops w (rules st) = true -> best (rules st) w = Some (length w, Skip) -> w <> [] ->
  lexes (mklexer st caller rest) ts -> lexes (mklexer st caller (w ++ rest)) ts.
Proof using Type. intros Hs Hb Hw. by apply (lexes_fixed st caller w rest Skip None). Qed.

Lemma lexes_quote st caller rest ts : st = PV \/ st = LL ->
  lexes (mklexer SS st rest) ts -> lexes (mklexer st caller (34 :: rest)) (STRINGMARKER :: ts).
Proof using Type.
  intros Hst Hts. apply (lexes_fixed st caller [34] rest OpenString (Some STRINGMARKER) (mklexer SS st rest) ts); try done;
    by destruct Hst as [-> | ->].
Qed.

Lemma text_no_nul t : plain t = true -> take_until (fun c => c =? 0) t = t.
Proof using Type.
  intros Ht. destruct (plain_spec t Ht) as (_ & _ & _ & _ & HF & _). clear Ht.
  induction HF as [|c t [_ Hc] HF IH]; cbn [take_until]; [done|]. case_bool; [done|]. by rewrite IH.
Qed.

(** The inside of a string and its closing quote. *)
Lemma lexes_pieces c ps s : wf_pieces ps = true -> value_of c ps = Some s ->
  exists toks, string_of c toks s /\ forall caller rest ts, lexes (mklexer caller caller rest) ts ->
    lexes (mklexer SS caller (print_pieces ps ++ 34 :: rest)) (toks ++ STRINGMARKER :: ts).
Proof using Hall.
  revert s; induction ps as [|p ps IH]; intros s Hwf E.
  { injection E as <-. exists []. split; [constructor|]. intros caller rest ts Hts.
    by apply (lexes_fixed SS caller [34] rest CloseString (Some STRINGMARKER) (mklexer caller caller rest) ts). }
  cbn [value_of] in E. destruct (match p with Text _ => _ | _ => _ end) as [x|] eqn:Ex; [|done]. cbn in E.
  destruct (value_of c ps) as [s'|]; [|done]. injection E as <-.
  assert (wf_pieces ps = true) as Hps by (destruct p; cbn in Hwf; rewrite ?andb_true_iff in Hwf; tauto).
  destruct (IH s' Hps eq_refl) as (toks & Hs & Hlex).
  assert (forall tk a, (exists n, n = length (print_piece p) /\ print_piece p <> [] /\ forall rest,
      best (rules SS) (print_piece p ++ print_pieces ps ++ 34 :: rest) = Some (n, a)) ->
    (forall caller rest, act a (print_piece p) (mklexer SS caller rest) = Ret (Some tk, mklexer SS caller rest)) ->
    string_of c (tk :: toks) (x ++ s') ->
    exists toks, string_of c toks (x ++ s') /\ forall caller rest ts, lexes (mklexer caller caller rest) ts ->
      lexes (mklexer SS caller (print_pieces (p :: ps) ++ 34 :: rest)) (toks ++ STRINGMARKER :: ts)) as Hgo.
  { intros tk a (n & -> & Hne & Hb) Ha Hst. exists (tk :: toks). split; [done|]. intros caller rest ts Hts.
    unfold print_pieces. cbn [map concat]. rewrite <- app_assoc.
    apply (lexes_word SS caller (print_piece p) _ a (Some tk) _ (toks ++ STRINGMARKER :: ts) (Hb rest) Hne (Ha _ _)).
    by apply Hlex. }
  destruct p as [t| |v|v].
  - injection Ex as <-. cbn [wf_pieces] in Hwf. apply andb_true_iff in Hwf as [[Ht Hn]%andb_true_iff _].
    apply (Hgo (STRING (Some t)) Chars).
    + exists (length t). split_and!; [done | by destruct t |]. intros rest. cbn [print_piece].
      destruct (pieces_head ps rest Hps) as (y & tl & -> & _ & Hy).
      apply text_best; [done|]. apply Hy. by apply negb_true_iff.
    + intros caller rest. cbn [act print_piece]. by rewrite text_no_nul, (strdup_all Hall).
    + by constructor.
  - injection Ex as <-. apply (Hgo (STRING (Some [36])) Dollar).
    + exists 2%nat. split_and!; [done..|]. intros rest. by apply best_word; computes.
    + intros caller rest. cbn [act]. by rewrite (strdup_all Hall).
    + by constructor.
  - apply (Hgo (KEYWORD_S v) (Tok (KEYWORD_S v))); [|done | by constructor].
    exists (length (string_var_name v)). split_and!; [done | by destruct v |]. intros rest. cbn [print_piece].
    cbn [wf_pieces] in Hwf. apply andb_true_iff in Hwf as [Hv%negb_true_iff _].
    destruct (pieces_head ps rest Hps) as (y & tl & -> & Hy & _). apply var_best.
    apply andb_false_iff in Hv as [Hv|Hv]; auto.
  - injection Ex as <-. apply (Hgo (KEYWORD_I v) (Tok (KEYWORD_I v))); [|done | by constructor].
    exists (length (int_var_name v)). split_and!; [done | by destruct v |]. intros rest. apply int_var_best.
Qed.

(** An integer, up to the character behind it. *)
Lemma lexes_int st caller i y rest ts : st = PV \/ st = LL -> 0 <= i < 2 ^ 31 -> y ∈ [59; 44; 41] ->
  lexes (mklexer st caller (y :: rest)) ts -> lexes (mklexer st caller (dec_nat i ++ y :: rest)) (INTVAL i :: ts).
Proof using Type.
  intros Hst Hi Hy Hts. pose proof (dec_nat_nonempty i) as Hne.
  apply (lexes_word st caller (dec_nat i) _ Int (Some (INTVAL i)) (mklexer st caller (y :: rest)) ts); [| done | | exact Hts].
  - apply digits_best; [done | done | apply dec_nat_isdigit; lia | done].
  - cbn [act]. by rewrite atoi_dec.
Qed.

Lemma lexes_entry c e x : wf_entry e = true -> entry_value c e = Some x ->
  exists toks, entry_of c toks x /\ forall caller y rest ts, y ∈ [59; 44; 41] ->
    (forall caller', lexes (mklexer LL caller' (y :: rest)) ts) ->
    lexes (mklexer LL caller (print_entry e ++ y :: rest)) (toks ++ ts).
Proof using Hall.
  intros Hwf E. destruct e as [i|ps]; cbn [wf_entry entry_value] in *.
  - injection E as <-. apply andb_true_iff in Hwf as [H1%Z.leb_le H2%Z.ltb_lt]. exists [INTVAL i]. split; [constructor|].
    intros caller y rest ts Hy Hts. apply lexes_int; auto.
  - destruct (value_of c ps) as [s|] eqn:Ev; [|done]. injection E as <-.
    destruct (lexes_pieces c ps s Hwf Ev) as (toks & Hs & Hlex). eexists. split; [by constructor|].
    intros caller y rest ts _ Hts. cbn [print_entry quoted app]. rewrite <- !app_assoc. cbn [app].
    apply lexes_quote; [auto|]. by apply Hlex.
Qed.

Lemma lexes_close caller rest ts : (forall caller', lexes (mklexer INITIAL caller' rest) ts) ->
  lexes (mklexer LL caller (41 :: rest)) (LISTCLOSE :: ts).
Proof using Type.
  intros Hts. by apply (lexes_fixed LL caller [41] rest CloseList (Some LISTCLOSE) (mklexer INITIAL caller rest) ts).
Qed.

Lemma lexes_list c es l : forallb wf_entry es = true -> mapM (entry_value c) es = Some l ->
  exists toks, list_of c toks l /\ forall caller rest ts, (forall caller', lexes (mklexer INITIAL caller' rest) ts) ->
    lexes (mklexer LL caller (join 44 (map print_entry es) ++ 41 :: rest)) (toks ++ ts).
Proof using Hall.
  revert l; induction es as [|e es IH]; intros l Hwf E.
  { injection E as <-. exists [LISTCLOSE]. split; [constructor|]. intros caller rest ts. apply lexes_close. }
  cbn [mapM] in E. destruct (entry_value c e) as [x|] eqn:Ex; [|done]. cbn in E.
  destruct (mapM (entry_value c) es) as [l'|] eqn:El; [|done]. injection E as <-.
  cbn [forallb] in Hwf. apply andb_true_iff in Hwf as [He Hes].
  destruct (lexes_entry c e x He Ex) as (toks & Hx & Hlex).
  destruct es as [|e' es].
  - injection El as <-. exists (toks ++ [LISTCLOSE]). split; [by constructor|]. intros caller rest ts Hts.
    rewrite <- app_assoc. apply Hlex; [right; right; left|]. intros caller'. by apply lexes_close.
  - destruct (IH l' Hes eq_refl) as (us & Hl & Hus). exists (toks ++ LISTSEP :: us). split; [by constructor|].
    intros caller rest ts Hts. change (join 44 (map print_entry (e :: e' :: es)))
      with (print_entry e ++ 44 :: join 44 (map print_entry (e' :: es))).
    rewrite <- !app_assoc. cbn [app]. apply Hlex; [right; left|]. intros caller'.
    apply (lexes_token LL caller' [44]); [computes | computes | done |]. by apply Hus.
Qed.

(** The name of a variable, the assignment sign and what follows. *)
Lemma lexes_assign st caller w t x rest ts : outside st = true -> w <> [] -> x ∈ value_starts ->
  (forall rest, best (rules st) (w ++ 32 :: rest) = Some (length w, Tok t)) ->
  lexes (mklexer PV caller (x :: rest)) ts ->
  lexes (mklexer st caller (w ++ c_lit " = " ++ x :: rest)) (t :: ASSIGNMENT :: ts).
Proof using Type.
  intros Ho Hw Hx Hb Hts. change (c_lit " = " ++ x :: rest) with (32 :: c_lit "= " ++ x :: rest).
  eapply (lexes_word st caller w _ (Tok t) (Some t)); [apply Hb | done | done |].
  eapply (lexes_word st caller (c_lit " = ") _ Assign (Some ASSIGNMENT)); [by apply assign_best | done | done | done].
Qed.

Lemma dec_nat_first_digit i : 0 <= i -> exists d ds, dec_nat i = d :: ds /\ d ∈ value_starts.
Proof using Type.
  intros Hi. pose proof (dec_nat_isdigit i Hi) as HF. pose proof (dec_nat_nonempty i) as Hne.
  destruct (dec_nat i) as [|d ds]; [done|]. exists d, ds. split; [done|].
  apply list.Forall_cons in HF as [Hd _]. apply digit_among in Hd.
  unfold value_starts. rewrite 4!elem_of_cons. auto.
Qed.

Lemma lexes_setting c s c' : wf_setting s = true -> run_setting c s = Some c' ->
  exists toks, setting_of c toks c' /\ forall st caller rest ts, outside st = true ->
    (forall st' caller', outside st' = true -> lexes (mklexer st' caller' (59 :: rest)) ts) ->
    lexes (mklexer st caller (print_setting s ++ 59 :: rest)) (toks ++ ts).
Proof using Hall.
  intros Hwf E. destruct s as [v ps|v i|v b|v es]; cbn [wf_setting run_setting] in *.
  - destruct (value_of c ps) as [s|] eqn:Ev; [|done]. injection E as <-.
    destruct (lexes_pieces c ps s Hwf Ev) as (toks & Hs & Hlex). eexists. split; [by constructor|].
    intros st caller rest ts Ho Hts. cbn [print_setting]. unfold quoted.
    rewrite <- !app_assoc, <- app_comm_cons, <- app_assoc. cbn [app]. rewrite <- app_assoc.
    apply lexes_assign; [done | by destruct v | by left | intros; by apply string_name_best|].
    apply lexes_quote; [auto|]. apply Hlex. by apply Hts.
  - injection E as <-. apply andb_true_iff in Hwf as [H1%Z.leb_le H2%Z.ltb_lt].
    assert (u32 i = i) as Hu by (apply Z.mod_small; lia).
    exists [KEYWORD_I v; ASSIGNMENT; INTVAL i]. split; [rewrite <- Hu at 2; constructor|].
    intros st caller rest ts Ho Hts. cbn [print_setting app]. rewrite <- !app_assoc.
    destruct (dec_nat_first_digit i H1) as (d & ds & Ed & Hd).
    assert (lexes (mklexer PV caller (dec_nat i ++ 59 :: rest)) (INTVAL i :: ts)) as Hi
      by (apply lexes_int; [auto | done | by left | by apply Hts]).
    rewrite Ed in Hi |- *. cbn [app] in Hi |- *.
    apply lexes_assign; [done | by destruct v | done | intros; by apply int_name_best | done].
  - injection E as <-. exists [KEYWORD_B v; ASSIGNMENT; YESNOVAL b]. split; [constructor|].
    intros st caller rest ts Ho Hts. cbn [print_setting app]. rewrite <- !app_assoc.
    assert (lexes (mklexer PV caller ((if b then c_lit "yes" else c_lit "no") ++ 59 :: rest)) (YESNOVAL b :: ts)) as Hb.
    { destruct b; (apply lexes_token; [computes | computes | done | by apply Hts]). }
    destruct b; (apply lexes_assign; [done | by destruct v | unfold value_starts; set_solver | intros; by apply bool_name_best | done]).
  - destruct (mapM (entry_value c) es) as [l|] eqn:El; [|done]. injection E as <-.
    destruct (lexes_list c es l Hwf El) as (toks & Hl & Hlex). eexists. split; [by constructor|].
    intros st caller rest ts Ho Hts. cbn [print_setting app]. rewrite <- !app_assoc.
    change (c_lit " = (") with (c_lit " = " ++ [40]). rewrite <- !app_assoc. cbn [app].
    apply lexes_assign; [done | by destruct v | by right; left | intros; by apply list_name_best|].
    eapply (lexes_fixed PV caller [40] _ OpenList (Some LISTOPEN)); [computes | computes | done | done |].
    apply Hlex. intros caller'. by apply Hts.
Qed.

Lemma lexes_file c ss c' : forallb wf_setting ss = true -> run_settings c ss = Some c' ->
  exists toks, config_of c toks c' /\ forall st caller, outside st = true ->
    lexes (mklexer st caller (print_file ss)) toks.
Proof using Hall.
  revert c; induction ss as [|s ss IH]; intros c Hwf E.
  { injection E as <-. exists []. split; [constructor|]. intros st caller _. constructor. }
  cbn [forallb run_settings] in *. apply andb_true_iff in Hwf as [Hs Hss].
  destruct (run_setting c s) as [c1|] eqn:E1; [|done]. cbn in E.
  destruct (lexes_setting c s c1 Hs E1) as (toks & Ht & Hlex). destruct (IH c1 Hss E) as (us & Hu & Hus).
  exists (toks ++ SEPARATOR :: us). split; [by econstructor|]. intros st caller Ho.
  unfold print_file. cbn [map concat]. rewrite <- !app_assoc. change (c_lit ";\n") with [59; 10]. cbn [app].
  apply Hlex; [done|]. intros st' caller' Ho'.
  apply (lexes_token st' caller' [59]); [by destruct st' | by destruct st' | done |].
  apply (lexes_skip st' caller' [10]); [by destruct st' | by destruct st' | done |]. by apply Hus.
Qed.

End Tokens.
