(* ===== verification/ConfigFile.v ===== *)
(** * Theorems about the configuration file language

    The parser of cvconf.l and cvconf.y against its grammar, on every input, and on
    what the printer of ConfigPrint.v writes. *)

From S2P Require Import Prelude CLib CString StrBuf AddrMask PeerParser Config Tinc ConfigInit Flex ConfigLex ConfigGram.
From S2P Require Import ConfigGramProps ConfigPrint.

Section Theorems.
Context `{Allocator}.

(** C9. Where memory is granted, the parser accepts a file with a result exactly
    when the file falls into tokens, each the longest match of the first rule that
    has it, and these tokens derive that result by the productions of the grammar,
    every setting seeing what the settings before it assigned. *)
Theorem cvconf_parse_refines file c c' :
  (forall n, alloc_ok n = true) ->
  cvconf_parse file c = Ret c' <->
  exists ts, lexes (mklexer INITIAL INITIAL file) ts /\ config_of c ts c'.
Proof.
  intros Hall. split.
  - by apply config_sound.
  - intros (ts & Hl & Hc). by apply (config_complete Hall c ts); [| |cbn; lia].
Qed.

(** C10. Every file of less than 4 GiB, whatever its bytes, is read to the end or
    refused with exit status 1, or with 111 when a string grows beyond the memory
    there is: the scanner and the parser always stop, and the strings they put
    together are never written outside of the blocks allocated for them.  Requests
    for up to 12 GiB of memory are taken to be granted, larger ones may fail. *)
Theorem cvconf_parse_ends file c :
  alloc_enough -> zlen file < str_limit ->
  (exists c', cvconf_parse file c = Ret c') \/ cvconf_parse file c = Exit 1 \/ cvconf_parse file c = Exit 111.
Proof.
  intros Hmem Hl. pose proof (config_ends Hmem (S (length file)) c (mklexer INITIAL INITIAL file) Hl ltac:(cbn; lia)) as He.
  unfold cvconf_parse. destruct (parse_config _ c _) as [c'|n []|]; cbn in He.
  - left. by exists c'.
  - right. destruct He as [-> | ->]; auto.
  - done.
Qed.

(** C8. The parser reads back what the printer writes: settings of all four kinds,
    strings with escaped dollars and references, lists of numbers and strings.  The
    result is what running the settings one after the other assigns. *)
Theorem print_parse ss c c' :
  (forall n, alloc_ok n = true) -> forallb wf_setting ss = true -> run_settings c ss = Some c' ->
  cvconf_parse (print_file ss) c = Ret c'.
Proof.
  intros Hall Hwf Hr. destruct (lexes_file Hall c ss c' Hwf Hr) as (ts & Hc & Hl).
  apply (config_complete Hall c ts); [done | by apply Hl | cbn; lia].
Qed.

(** A list that was parsed has its strings. *)
Lemma list_of_set c ts l : list_of c ts l -> Forall entry_set l.
Proof.
  assert (forall ts e, entry_of c ts e -> entry_set e) as He by (intros ts' e []; done).
  induction 1; [constructor | constructor; [by eapply He | constructor] | constructor; [by eapply He | done]].
Qed.

Lemma set_list_var_sets v l c v' : Forall entry_set l -> settings_set (get_list_var v' c) ->
  settings_set (get_list_var v' (set_list_var v (Some l) c)).
Proof. intros Hl Hc. by destruct v, v', c. Qed.

Lemma config_of_sets c ts c' v : config_of c ts c' -> settings_set (get_list_var v c) -> settings_set (get_list_var v c').
Proof.
  induction 1 as [c|c ts c1 us c2 Hs _ IH]; intros Hc; [done|]. apply IH. clear IH.
  destruct Hs as [w i|w b|w b|w i|w ts s Hs|w ts l Hl].
  1-5: by destruct v, w, c.
  apply set_list_var_sets; [by eapply list_of_set | done].
Qed.

(** What tinc.c needs of the list of excluded nodes. *)
Lemma cvconf_excludes file c : (forall n, alloc_ok n = true) -> cvconf_parse file config_defaults = Ret c ->
  settings_set (cf_exclude c).
Proof.
  intros Hall (ts & _ & Hc)%(config_sound Hall). apply (config_of_sets _ _ _ L_exclude Hc). constructor.
Qed.

End Theorems.

(** ** The theorems at concrete inputs *)

Lemma roomy_all : forall n, @alloc_ok roomy n = true.
Proof. done. Qed.

Definition sample_settings : list setting :=
  [Set_string S_my_peerid [Text (c_lit "node1")];
   Set_string S_networkname [Text (c_lit "chaos")];
   Set_string S_base [Text (c_lit "/etc/tinc/"); Var S_networkname];
   Set_string S_routeadd [Text (c_lit "/sbin/ip route add %s metric "); Var S_routemetric; Text (c_lit " dev "); Dollar_sign;
     Text (c_lit "INTERFACE")];
   Set_int I_update_interval 3600;
   Set_bool B_run_ifdown true;
   Set_list L_exclude [Entry_string [Text (c_lit "node2")]; Entry_int 7];
   Set_string S_my_password []].

Definition sample_text : text := unlines
  [c_lit "$my_peerid = \qnode1\q;"; c_lit "$networkname = \qchaos\q;"; c_lit "$base = \q/etc/tinc/$networkname\q;";
   c_lit "$routeadd = \q/sbin/ip route add %s metric $routemetric dev \\$INTERFACE\q;"; c_lit "$update_interval = 3600;";
   c_lit "$run_ifdown = yes;"; c_lit "@exclude = (\qnode2\q,7);"; c_lit "$my_password = \q\q;"].

Definition sample_values : config := Eval vm_compute in
  default (@config_defaults roomy) (run_settings (@config_defaults roomy) sample_settings).

Example print_parse_witness : print_file sample_settings = sample_text /\
  @cvconf_parse roomy sample_text (@config_defaults roomy) = Ret sample_values /\
  cf_base_path sample_values = Some (c_lit "/etc/tinc/chaos") /\
  cf_routeadd sample_values = Some (c_lit "/sbin/ip route add %s metric 0 dev $INTERFACE") /\
  cf_exclude sample_values = Some [LIST_STRING (Some (c_lit "node2")); LIST_INTEGER 7].
Proof.
  assert (print_file sample_settings = sample_text) as E by (by vm_compute).
  split; [exact E|]. split; [|by vm_compute]. rewrite <- E.
  apply (@print_parse roomy sample_settings); [exact roomy_all | by vm_compute | by vm_compute].
Defined.

(** A file with a comment, no spaces and a list with a comma at its end. *)
Example cvconf_parse_refines_witness : exists ts,
  @lexes roomy (mklexer INITIAL INITIAL (c_lit "# nodes\n@exclude=(\qa\q ,2,) ;")) ts /\
  config_of (@config_defaults roomy) ts
    (set_list_var L_exclude (Some [LIST_STRING (Some (c_lit "a")); LIST_INTEGER 2]) (@config_defaults roomy)).
Proof. apply (@cvconf_parse_refines roomy); [exact roomy_all | by vm_compute]. Defined.

Example cvconf_parse_ends_witness :
  (exists c', @cvconf_parse roomy [36; 0; 255] (@config_defaults roomy) = Ret c') \/
  @cvconf_parse roomy [36; 0; 255] (@config_defaults roomy) = Exit 1 \/
  @cvconf_parse roomy [36; 0; 255] (@config_defaults roomy) = Exit 111.
Proof. apply (@cvconf_parse_ends roomy); [exact roomy_enough | by vm_compute]. Defined.

(** *** Strings the scanner does not take for text

    The rules of the other tokens are active inside of strings too. *)

Definition reads (file : text) : outcome cptr :=
  c ← @cvconf_parse roomy file (@config_defaults roomy); Ret (cf_password c).

(** The words for booleans and an assignment sign are syntax errors. *)
Lemma word_in_string :
  reads (c_lit "$my_password = \qyes\q;") = Exit 1 /\ reads (c_lit "$my_password = \qTrue\q;") = Exit 1 /\
  reads (c_lit "$my_password = \q = \q;") = Exit 1 /\ reads (c_lit "$my_password = \qyes, sir\q;") = Ret (Some (c_lit "yes, sir")).
Proof. by vm_compute. Qed.

(** A hash at the start of a string starts a comment that hides the closing quote. *)
Lemma comment_in_string :
  reads (c_lit "$my_password = \q#1\q;") = Exit 1 /\ reads (c_lit "$my_password = \q1#\q;") = Ret (Some (c_lit "1#")).
Proof. by vm_compute. Qed.

(** A backslash in front of anything but a dollar is printed and left out. *)
Lemma backslash_in_string :
  reads (c_lit "$my_password = \qC:\\tinc\q;") = Ret (Some (c_lit "C:tinc")).
Proof. by vm_compute. Qed.

(** An unknown variable is not reported as such: its characters are printed, and
    the assignment sign behind them is the syntax error. *)
Lemma unknown_variable :
  reads (c_lit "$no_such_variable = 1;") = Exit 1 /\ reads (c_lit "$foo;") = Exit 1 /\ reads (c_lit "$foo\n") = Ret None.
Proof. by vm_compute. Qed.
