(* ===== verification/ConfigProps.v ===== *)
(** * Theorems about config.c *)

From S2P Require Import Prelude CLib CString StrBuf StrFmt StrNatCmp AddrMask NumericHost PeerParser PeerSpec.
From S2P Require Import Config World Fs Tinc TincSpec ConfigInit ConfigLex ConfigGram.

(** What [config_init] has established when it returns true. *)
Record settings_ok `{Allocator} `{Resolver} (c : config) : Prop := {
  so_peerid : str_is_nonempty (cf_peerid c) = true;
  so_networkname : str_is_nonempty (cf_networkname c) = true;
  so_routeadd : str_is_nonempty (cf_routeadd c) = true;
  so_ifconfig : str_is_nonempty (cf_ifconfig c) = true;
  so_tincd_user : str_is_nonempty (cf_tincd_user c) = true;
  so_tincd_bin : str_is_nonempty (cf_tincd_bin c) = true;
  so_base_path : str_is_nonempty (cf_base_path c) = true;
  (** our own address, when one is given, is a host address *)
  so_my_ip : cf_my_ip c = None \/ addrmask_verify_ip (cf_my_ip c) AF_UNSPEC = Ret true;
  so_family : cf_my_addressfamily c ∈ [Some (c_lit "any"); Some (c_lit "ipv4"); Some (c_lit "ipv6")];
  so_vpn_ip : addrmask_verify_ip (cf_vpn_ip c) AF_INET = Ret true /\ cf_vpn_ip c <> Some (c_lit "172.31.0.255");
  so_vpn_ip6 : str_is_nonempty (cf_vpn_ip6 c) = true ->
    addrmask_verify_ip (cf_vpn_ip6 c) AF_INET6 = Ret true /\
    str_is_nonempty (cf_ifconfig6 c) = true /\ str_is_nonempty (cf_routeadd6 c) = true /\
    (cf_use_dynamic_routes c = true -> str_is_nonempty (cf_routedel6 c) = true);
  (** the lists are well formed, consumed, and absent with dynamic routes *)
  so_lists : Forall wf_addr (cf_mergeroutes_supernet c) /\ Forall wf_addr (cf_ignore_subnets c) /\
    Forall wf_addr (cf_whitelist_subnets c);
  so_raw : cf_mergeroutes_supernet_raw c = None /\ cf_ignore_subnets_raw c = None /\ cf_whitelist_subnets_raw c = None;
  so_dynamic : cf_use_dynamic_routes c = true ->
    cf_mergeroutes_supernet c = [] /\ cf_ignore_subnets c = [] /\ cf_whitelist_subnets c = [] /\
    str_is_nonempty (cf_routedel c) = true;
  so_device : str_is_nonempty (cf_tincd_device c) = true;
  so_interface : str_is_nonempty (cf_tincd_interface c) = true;
}.

Lemma returns_bind_P {A B} (m : io A) (f : A -> io B) (Q : A -> Prop) (P : B -> Prop) :
  returns m Q -> (forall a, Q a -> returns (f a) P) -> returns (m ≫= f) P.
Proof.
  intros Hm Hf t b t' E. unfold mbind, io_bind in E. destruct (m t) as [[a t1]| |] eqn:Em; try done.
  eapply Hf; [|exact E]. by eapply Hm.
Qed.

Lemma returns_lift {A} (m : outcome A) : returns (lift m) (fun a => m = Ret a).
Proof. intros t a t' E. by apply io_lift_inv in E as [-> _]. Qed.

Lemma returns_any {A} (m : io A) : returns m (fun _ => True).
Proof. by intros t a t' _. Qed.

(** *** Subnet lists *)

Section Lists.
Context `{Allocator} `{ResolverOk}.
Hypothesis Hmem : alloc_enough.

(** The subnets among the texts, in order. *)
Definition subnets_of (raw : list settings_entry) : list addr_info :=
  omap (fun e => match e with LIST_STRING (Some s) => parse_pattern s | _ => None end) raw.

Definition raw_ok (e : settings_entry) : Prop :=
  match e with
  | LIST_STRING (Some s) => nonul s /\ s <> [] /\ zlen s < str_limit
  | LIST_STRING None => False
  | LIST_INTEGER _ => True
  end.

Lemma raw_loop_eq raw l : Forall raw_ok raw -> raw_subnet_loop raw l = Ret (l ++ subnets_of raw).
Proof using Hmem.
  revert l; induction raw as [|e raw IH]; intros l HF; cbn [raw_subnet_loop].
  { by rewrite app_nil_r. }
  apply list.Forall_cons in HF as [He HF]. unfold subnets_of. destruct e as [[s|]|i]; cbn [omap list_omap addrmask_init_ptr]; [|done|].
  - destruct He as (Hn & Hne & Hl). rewrite addrmask_init_eq by done. cbn [mbind outcome_bind].
    destruct (parse_pattern s) as [a|]; rewrite IH by done; [|done]. by rewrite <- app_assoc.
  - by rewrite IH.
Qed.

(** Whatever the texts, the list that comes out is well formed. *)
Lemma raw_loop_wf raw l r : Forall wf_addr l -> raw_subnet_loop raw l = Ret r -> Forall wf_addr r.
Proof using All -Hmem.
  revert l; induction raw as [|[[s|]|i] raw IH]; intros l Hl; cbn [raw_subnet_loop addrmask_init_ptr];
    [by intros [= <-] | | | by apply IH]; last first.
  { destruct (alloc_ok _); [done | by apply IH]. }
  destruct (addrmask_init s) as [o| |] eqn:E; cbn [mbind outcome_bind]; try done.
  destruct o as [a|]; [|by apply IH]. apply IH. apply Forall_app. split; [done|].
  apply Forall_singleton. unfold addrmask_init in E. destruct (alloc_ok _); [|done].
  apply addrmask_parse_pattern in E as [p E]. by eapply parse_pattern_wf.
Qed.

Lemma subnetlist_wf raw r : parse_and_free_raw_subnetlist raw = Ret r -> Forall wf_addr r.
Proof using All -Hmem.
  unfold parse_and_free_raw_subnetlist. destruct raw as [raw|].
  - apply raw_loop_wf. constructor.
  - intros [= <-]. constructor.
Qed.

End Lists.

(** *** The settings *)

Section Settings.
Context `{Allocator} `{ResolverOk} `{Environment}.
Hypothesis Hmem : alloc_enough.

Lemma normalise_eq c : exists ip, normalise_my_ip c = cset_my_ip c ip /\
  (ip = None \/ ip = cf_my_ip c /\ str_is_nonempty (cf_my_ip c) = true).
Proof using Type.
  unfold normalise_my_ip. destruct (_ || _ || _ || _) eqn:E1; [by exists None; auto|].
  exists (cf_my_ip c). split; [by destruct c|]. right. split; [done|].
  rewrite !orb_false_iff in E1. rewrite str_is_nonempty_negb. by destruct E1 as [[[-> _] _] _].
Qed.

Lemma device_eq c : exists d, set_tincd_device c = cset_tincd_device c d /\ str_is_nonempty d = true.
Proof using H R H0 Hmem.
  unfold set_tincd_device. destruct (str_is_empty (cf_tincd_device c)) eqn:E1.
  - eexists; split; [done|]. by rewrite (strdup_ok Hmem) by done.
  - exists (cf_tincd_device c). split; [by destruct c|]. by rewrite str_is_nonempty_negb, E1.
Qed.

Lemma interface_eq c : exists d, set_tincd_interface c = cset_tincd_interface c d /\
  (str_is_nonempty (cf_networkname c) = true -> str_is_nonempty d = true).
Proof using H R H0 Hmem.
  unfold set_tincd_interface. destruct (str_is_empty (cf_tincd_interface c)) eqn:E1.
  - eexists; split; [done|]. intros Hn. unfold snprintf.
    rewrite (strdup_ok Hmem).
    + destruct (cf_networkname c) as [[|x t]|]; [done | | done]. cbn in Hn |- *. done.
    + pose proof (zlen_nonneg (txt (cf_networkname c) ++ c_lit "_vpn")).
      unfold ztake, zlen, str_limit. rewrite length_take. lia.
  - exists (cf_tincd_interface c). split; [by destruct c|]. intros _. by rewrite str_is_nonempty_negb, E1.
Qed.

Lemma family_eq c : bad_addressfamily (cf_my_addressfamily c) = false ->
  exists f, (if str_is_empty (cf_my_addressfamily c) then cset_my_addressfamily c (strdup (c_lit "ipv4")) else c)
              = cset_my_addressfamily c f /\
    f ∈ [Some (c_lit "any"); Some (c_lit "ipv4"); Some (c_lit "ipv6")].
Proof using H R H0 Hmem.
  intros Hb. unfold bad_addressfamily in Hb. rewrite str_is_nonempty_negb in Hb.
  destruct (str_is_empty (cf_my_addressfamily c)) eqn:E1.
  - eexists; split; [done|]. rewrite (strdup_ok Hmem) by done. by right; left.
  - exists (cf_my_addressfamily c). split; [by destruct c|]. cbn [negb andb] in Hb.
    repeat (case_bool_decide as E2; [rewrite E2; set_solver | clear E2]; cbn [negb andb] in Hb). done.
Qed.

Lemma not_empty_all l : existsb str_is_empty l = false -> Forall (fun p => str_is_nonempty p = true) l.
Proof using Type.
  induction l as [|p l IH]; intros E1; [constructor|]. cbn [existsb] in E1. apply orb_false_iff in E1 as [Ep El].
  apply list.Forall_cons. split; [by rewrite str_is_nonempty_negb, Ep | by apply IH].
Qed.

Lemma dynamic_list (l : list addr_info) (d : bool) :
  negb (negb (bool_decide (l = [])) && d) = true -> d = true -> l = [].
Proof using Type. intros E1 ->. case_bool_decide; done. Qed.


(** One of the three lists. *)
Lemma init_supernets_eq c r c' : init_supernets c = Ret (r, c') ->
  exists l, c' = cset_mergeroutes_supernet_raw (cset_mergeroutes_supernet c l) None /\ Forall wf_addr l /\
    (r = true -> cf_use_dynamic_routes c = true -> l = []).
Proof using All -Hmem.
  unfold init_supernets. destruct (parse_and_free_raw_subnetlist _) as [l| |] eqn:E1; try done.
  cbn [mbind outcome_bind]. intros [= <- <-]. exists l. split; [done|]. split; [by eapply subnetlist_wf|].
  intros Hr Hd. eapply dynamic_list; [exact Hr|]. by destruct c.
Qed.

Lemma init_ignore_eq c r c' : init_ignore c = Ret (r, c') ->
  exists l, c' = cset_ignore_subnets_raw (cset_ignore_subnets c l) None /\ Forall wf_addr l /\
    (r = true -> cf_use_dynamic_routes c = true -> l = []).
Proof using All -Hmem.
  unfold init_ignore. destruct (parse_and_free_raw_subnetlist _) as [l| |] eqn:E1; try done.
  cbn [mbind outcome_bind]. intros [= <- <-]. exists l. split; [done|]. split; [by eapply subnetlist_wf|].
  intros Hr Hd. eapply dynamic_list; [exact Hr|]. by destruct c.
Qed.

Lemma init_whitelist_eq c r c' : init_whitelist c = Ret (r, c') ->
  exists l, c' = cset_whitelist_subnets_raw (cset_whitelist_subnets c l) None /\ Forall wf_addr l /\
    (r = true -> cf_use_dynamic_routes c = true -> l = []).
Proof using All -Hmem.
  unfold init_whitelist. destruct (parse_and_free_raw_subnetlist _) as [l| |] eqn:E1; try done.
  cbn [mbind outcome_bind]. intros [= <- <-]. exists l. split; [done|]. split; [by eapply subnetlist_wf|].
  intros Hr Hd. eapply dynamic_list; [exact Hr|]. by destruct c.
Qed.

(** The state in which the lists are set, as the code reaches it. *)
Definition checked (c : config) (ip family : cptr) (uid gid : Z) : config :=
  cset_tincd_gid (cset_tincd_uid (cset_my_addressfamily (cset_my_ip c ip) family) uid) gid.

Lemma checked_ok c ip family uid gid l1 l2 l3 dev ifc :
  Forall (fun p => str_is_nonempty p = true) (required c) ->
  (ip = None \/ addrmask_verify_ip ip AF_UNSPEC = Ret true) ->
  family ∈ [Some (c_lit "any"); Some (c_lit "ipv4"); Some (c_lit "ipv6")] ->
  addrmask_verify_ip (cf_vpn_ip c) AF_INET = Ret true -> cf_vpn_ip c <> Some (c_lit "172.31.0.255") ->
  (str_is_nonempty (cf_vpn_ip6 c) = true -> addrmask_verify_ip (cf_vpn_ip6 c) AF_INET6 = Ret true) ->
  Forall (fun p => str_is_nonempty p = true) (required_more c) ->
  Forall wf_addr l1 -> Forall wf_addr l2 -> Forall wf_addr l3 ->
  (cf_use_dynamic_routes c = true -> l1 = [] /\ l2 = [] /\ l3 = []) ->
  str_is_nonempty dev = true -> (str_is_nonempty (cf_networkname c) = true -> str_is_nonempty ifc = true) ->
  settings_ok (cset_tincd_interface (cset_tincd_device
    (cset_whitelist_subnets_raw (cset_whitelist_subnets
    (cset_ignore_subnets_raw (cset_ignore_subnets
    (cset_mergeroutes_supernet_raw (cset_mergeroutes_supernet
      (checked c ip family uid gid) l1) None) l2) None) l3) None) dev) ifc).
Proof using Type.
  intros Hreq Hip Hfam Hv4 Hv4n Hv6 Hmore H1' H2' H3' Hdyn Hdev Hifc.
  unfold required in Hreq. repeat (apply list.Forall_cons in Hreq as [? Hreq]).
  unfold required_more in Hmore. apply Forall_app in Hmore as [Hm1 Hm2].
  destruct c; unfold checked; split; cfg_simpl; repeat (progress cfg_simpl_in Hv6 || cfg_simpl_in Hv4 || idtac); try done.
  all: cbn in *; try done; try by apply Hifc.
  - intros Hne. rewrite Hne in Hm2. apply list.Forall_cons in Hm2 as [? Hm2].
    apply list.Forall_cons in Hm2 as [? Hm2]. split_and!; [by apply Hv6 | done..|].
    intros Hd. rewrite Hd in Hm2. by apply list.Forall_cons in Hm2 as [? _].
  - intros Hd. rewrite Hd in Hm1. apply list.Forall_cons in Hm1 as [? _]. destruct (Hdyn Hd) as (? & ? & ?). done.
Qed.


Ltac failed := by apply returns_ret.

Lemma init_settings_ok c :
  returns (init_settings c) (fun r => fst r = true ->
    settings_ok (snd r) /\ cf_update_interval (snd r) = cf_update_interval c /\ cf_oneshot (snd r) = cf_oneshot c).
Proof using All.
  unfold init_settings. destruct (existsb str_is_empty (required c)) eqn:Ereq; [failed|].
  pose proof (not_empty_all _ Ereq) as Hreq.
  apply returns_bind; intros bin. apply returns_bind; intros usable.
  destruct usable; cbn [negb]; [|failed].
  destruct (normalise_eq c) as (ip & Eip & Hip). rewrite Eip. cbv zeta.
  eapply (returns_bind_P _ _ (fun ok => ok = true -> ip = None \/ addrmask_verify_ip ip AF_UNSPEC = Ret true)).
  { destruct Hip as [->|(-> & Hne)]; [by intros t a t' _; left|].
    replace (cf_my_ip (cset_my_ip c (cf_my_ip c))) with (cf_my_ip c) by by destruct c.
    rewrite Hne. intros t a t' E1 ->. right. by eapply returns_lift. }
  intros ok Hok. destruct ok; cbn [negb]; [|failed]. specialize (Hok eq_refl).
  destruct (bad_addressfamily _) eqn:Ebad; [failed|].
  destruct (family_eq _ Ebad) as (f & Ef & Hf). rewrite Ef. cbv zeta.
  apply returns_bind; intros user. apply returns_bind; intros [[uid gid]|]; [|failed].
  change (cset_tincd_gid _ gid) with (checked c ip f uid gid). set (c4 := checked c ip f uid gid).
  assert (cf_vpn_ip c4 = cf_vpn_ip c /\ cf_vpn_ip6 c4 = cf_vpn_ip6 c /\ required_more c4 = required_more c /\
          cf_use_dynamic_routes c4 = cf_use_dynamic_routes c) as (E4 & E6 & Em & Ed)
    by (unfold c4; by destruct c).
  rewrite E4, E6, Em.
  eapply returns_bind_P; [apply returns_lift|]. intros ok Hv4. destruct ok; cbn [negb]; [|failed].
  destruct (bool_decide _) eqn:Ev4n; [failed|]. apply bool_decide_eq_false in Ev4n.
  eapply (returns_bind_P _ _ (fun ok => ok = true -> str_is_nonempty (cf_vpn_ip6 c) = true ->
    addrmask_verify_ip (cf_vpn_ip6 c) AF_INET6 = Ret true)).
  { destruct (str_is_nonempty (cf_vpn_ip6 c)); [|by intros t a t' _]. intros t a t' E1 -> _. by eapply returns_lift. }
  intros ok Hv6. destruct ok; cbn [negb]; [|failed]. specialize (Hv6 eq_refl).
  destruct (existsb str_is_empty (required_more c)) eqn:Emore; [failed|].
  pose proof (not_empty_all _ Emore) as Hmore.
  eapply returns_bind_P; [apply returns_lift|]. intros [ok c5] E5'. destruct ok; cbn [negb]; [|failed].
  apply init_supernets_eq in E5' as (l1 & E5' & Hl1 & Hd1).
  eapply returns_bind_P; [apply returns_lift|]. intros [ok c6] E6'. destruct ok; cbn [negb]; [|failed].
  apply init_ignore_eq in E6' as (l2 & E6' & Hl2 & Hd2).
  eapply returns_bind_P; [apply returns_lift|]. intros [ok c7] E7'. destruct ok; cbn [negb]; [|failed].
  apply init_whitelist_eq in E7' as (l3 & E7' & Hl3 & Hd3).
  assert (cf_use_dynamic_routes c5 = cf_use_dynamic_routes c) as Ed5 by (rewrite E5', <- Ed; by destruct c4).
  assert (cf_use_dynamic_routes c6 = cf_use_dynamic_routes c) as Ed6 by (rewrite E6', <- Ed5; by destruct c5).
  assert (cf_networkname c7 = cf_networkname c) as En.
  { rewrite E7', E6', E5'. unfold c4. by destruct c. }
  apply returns_ret. intros _. cbn [snd].
  destruct (device_eq c7) as (dev & -> & Hdev).
  destruct (interface_eq (cset_tincd_device c7 dev)) as (ifc & -> & Hifc).
  replace (cf_networkname (cset_tincd_device c7 dev)) with (cf_networkname c) in Hifc by (rewrite <- En; by destruct c7).
  split; [|subst c7 c6 c5; unfold c4; by destruct c].
  subst c7 c6 c5. unfold c4. apply checked_ok; try done.
  intros Hd. split_and!; [by apply Hd1; [|rewrite Ed] | by apply Hd2; [|rewrite Ed5] | by apply Hd3; [|rewrite Ed6]].
Qed.

End Settings.

(** *** The files and the version *)

Section FilesPart.
Context `{Allocator} `{ResolverOk} `{Environment}.
Hypothesis Hmem : alloc_enough.

Ltac kept := let Hs := fresh in intros Hs; match goal with c : config |- _ => destruct c end;
  destruct Hs; split; assumption.

Lemma keep_base c v : str_is_nonempty v = true -> settings_ok c -> settings_ok (cset_base_path c v).
Proof using Type. intros Hv. kept. Qed.
Lemma keep_privkey c v : settings_ok c -> settings_ok (cset_privkey c v). Proof using Type. kept. Qed.
Lemma keep_ed25519 c v : settings_ok c -> settings_ok (cset_ed25519publickey c v). Proof using Type. kept. Qed.
Lemma keep_version c v : settings_ok c -> settings_ok (cset_tincd_version c v). Proof using Type. kept. Qed.
Lemma keep_tincctl c v : settings_ok c -> settings_ok (cset_tincctl_bin c v). Proof using Type. kept. Qed.
Lemma keep_pidfile c v : settings_ok c -> settings_ok (cset_tincd_pidfile c v). Proof using Type. kept. Qed.
Lemma keep_tmpconf c v : settings_ok c -> settings_ok (cset_tmpconffile c v). Proof using Type. kept. Qed.

Lemma snprintf_length n t : 0 < n -> zlen (snprintf n t) < n.
Proof using Type. intros Hn. unfold snprintf, ztake, zlen. rewrite length_take. lia. Qed.

Lemma snprintf_strdup t : strdup (snprintf 1024 t) = Some (snprintf 1024 t).
Proof using All.
  apply (strdup_ok Hmem). pose proof (snprintf_length 1024 t ltac:(lia)). unfold str_limit. lia.
Qed.

(** tincctl is used exactly with a version above 1.1. *)
Definition tincctl_ok (c : config) : Prop :=
  is_Some (cf_tincctl_bin c) <-> newer (cf_tincd_version c) (c_lit "1.1") = true.

Lemma tincctl_name_length bin : zlen (tincctl_name bin) < 1024.
Proof using Type.
  unfold tincctl_name.
  set (p := match strrchr bin 47 with Some (before, _) => _ | None => _ end).
  assert (0 <= zlen p <= 1023).
  { unfold p. destruct (strrchr bin 47) as [[b f]|]; [|done]. unfold ztake, zlen. rewrite length_take. lia. }
  rewrite zlen_app. pose proof (snprintf_length (1024 - zlen p) (c_lit "tinc")). lia.
Qed.

Lemma set_tincctl_ok c c' : set_tincctl c = Ret c' ->
  exists v, c' = cset_tincctl_bin c v /\ tincctl_ok (cset_tincctl_bin c v).
Proof using All.
  unfold set_tincctl, tincctl_ok.
  assert (forall r, version_known_gt (cf_tincd_version c) (c_lit "1.1") = Ret r ->
    newer (cf_tincd_version c) (c_lit "1.1") = r) as Hnew.
  { intros r. unfold version_known_gt, version_gt, newer. destruct (cf_tincd_version c) as [v|]; [|congruence].
    destruct (strnatcmp v _); cbn [mbind outcome_bind]; congruence. }
  destruct (version_known_gt _ _) as [r| |] eqn:E1; cbn [mbind outcome_bind]; try done.
  specialize (Hnew r eq_refl). destruct r.
  - destruct (cf_tincctl_bin c) as [ctl|] eqn:Ec.
    + intros [= <-]. exists (Some ctl). destruct c; cfg_simpl; cbn in Ec, Hnew |- *. rewrite Ec. split; [done|].
      split; [done | by eexists].
    + destruct (deref (cf_tincd_bin c)) as [bin| |]; cbn [mbind outcome_bind]; try done. intros [= <-].
      eexists; split; [done|]. rewrite (strdup_ok Hmem) by (pose proof (tincctl_name_length bin); unfold str_limit; lia).
      destruct c; cfg_simpl; cbn in Hnew |- *. split; [done | by eexists].
  - intros [= <-]. exists None. split; [done|]. destruct c; cfg_simpl; cbn in Hnew |- *.
    rewrite Hnew. split; [by intros [? [=]] | done].
Qed.

Lemma set_pidfile_eq c : exists v, set_pidfile c = cset_tincd_pidfile c (Some v).
Proof using All.
  unfold set_pidfile. destruct (cf_tincd_pidfile c) as [f|] eqn:E1.
  - exists f. rewrite <- E1. by destruct c.
  - rewrite snprintf_strdup. by eexists.
Qed.

Lemma set_tmpconffile_eq c : exists v, set_tmpconffile c = cset_tmpconffile c (Some v).
Proof using All.
  unfold set_tmpconffile. destruct (cf_tmpconffile c) as [f|] eqn:E1.
  - exists f. rewrite <- E1. by destruct c.
  - rewrite snprintf_strdup. by eexists.
Qed.

Lemma last_slash_nonneg path i pos : 0 <= i -> 0 <= pos -> 0 <= last_slash path i pos.
Proof using Type.
  revert i pos; induction path as [|c path IH]; intros i pos Hi Hp; [done|].
  apply IH; [lia | by destruct (_ =? _)].
Qed.

(** What [fs_mkdir_p] cuts off of the path when it fails begins behind a first
    character. *)
Lemma mkdir_p_nonempty fuel path mode :
  str_is_nonempty (Some path) = true ->
  returns (fs_mkdir_p fuel path mode) (fun r => str_is_nonempty (Some (snd r)) = true).
Proof using Type.
  revert path; induction fuel as [|fuel IH]; intros path Hp; cbn [fs_mkdir_p]; [by intros t a t'|].
  apply returns_bind; intros errno. cbv zeta. destruct (_ && _); [|by apply returns_ret].
  destruct (Z.eqb_spec (last_slash path 0 0) 0) as [|Hs]; [by apply returns_ret|].
  eapply returns_bind_P; [apply IH|].
  - pose proof (last_slash_nonneg path 0 0 ltac:(lia) ltac:(lia)). destruct path as [|c path]; [done|].
    unfold ztake. by destruct (Z.to_nat _) eqn:En; [lia|].
  - intros [err parent] Hq. destruct (negb _); [by apply returns_ret|].
    apply returns_bind; intros e2. by apply returns_ret.
Qed.

Ltac failed := by apply returns_ret.

Lemma init_files_ok c :
  settings_ok c ->
  returns (init_files c) (fun r => fst r = true ->
    settings_ok (snd r) /\ tincctl_ok (snd r) /\ is_Some (cf_tincd_pidfile (snd r)) /\
    is_Some (cf_tmpconffile (snd r)) /\
    cf_update_interval (snd r) = cf_update_interval c /\ cf_oneshot (snd r) = cf_oneshot c).
Proof using All.
  intros Hs. unfold init_files.
  eapply returns_bind_P; [apply returns_lift|]. intros base Ebase. apply returns_bind; intros st.
  eapply returns_bind_P; [apply mkdir_p_nonempty|].
  { pose proof (so_base_path _ Hs) as Hb. unfold deref in Ebase. destruct (cf_base_path c); [|done]. by injection Ebase as <-. }
  intros [err base'] Hbase. cbn [snd] in Hbase. cbv zeta.
  case_match; [failed|].
  apply returns_bind; intros [name|]; [|failed]. apply returns_bind; intros [ok pk].
  destruct ok; cbn [negb]; [|failed].
  apply returns_bind; intros [name'|]; [|failed]. apply returns_bind; intros [ok ek].
  apply returns_bind; intros v.
  set (c1 := cset_tincd_version _ v).
  assert (settings_ok c1 /\ cf_update_interval c1 = cf_update_interval c /\ cf_oneshot c1 = cf_oneshot c) as (Hs1 & Ei & Eo).
  { unfold c1. split; [by apply keep_version, keep_ed25519, keep_privkey, keep_base | by destruct c]. }
  clearbody c1.
  eapply returns_bind_P; [apply returns_lift|]. intros c2 E2.
  apply set_tincctl_ok in E2 as (ctl & -> & Hctl). apply returns_ret. intros _. cbn [snd].
  destruct (set_pidfile_eq (cset_tincctl_bin c1 ctl)) as (pf & ->).
  destruct (set_tmpconffile_eq (cset_tincd_pidfile (cset_tincctl_bin c1 ctl) (Some pf))) as (tf & ->).
  split; [by apply keep_tmpconf, keep_pidfile, keep_tincctl|].
  unfold tincctl_ok in *. destruct c1; cbn in *. eauto 10.
Qed.

End FilesPart.

(** ** The theorems *)

Section Theorems.
Context `{Allocator} `{ResolverOk} `{Environment} `{ConfigParser}.

(** C26. Whatever the configuration file says and the system answers: when
    [config_init] returns true the required settings are there, the base directory and
    those that dynamic routes and ipv6 require included, every address and
    family given is valid, the subnet lists are well formed and agree with the
    routing mode, tincctl is set exactly for a tinc above 1.1, the file names have
    their defaults, and an update interval below a minute only goes with one-shot
    mode.  (Otherwise it returns false or the process exits.) *)
Theorem config_init_ok c :
  alloc_enough ->
  returns (config_init c) (fun r => fst r = true ->
    settings_ok (snd r) /\ tincctl_ok (snd r) /\ is_Some (cf_tincd_pidfile (snd r)) /\
    is_Some (cf_tmpconffile (snd r)) /\ (cf_oneshot (snd r) = true \/ 60 <= cf_update_interval (snd r))).
Proof using All.
  intros Hmem. unfold config_init. apply returns_bind; intros file.
  apply returns_bind; intros [[chunks []]|]; [by intros t a t' | | by apply returns_ret].
  apply returns_bind; intros c1.
  destruct ((cf_update_interval c1 =? 0) && negb (cf_oneshot c1)); [by intros t a t'|].
  destruct ((cf_update_interval c1 <? 60) && negb (cf_oneshot c1)) eqn:Ei; [by intros t a t'|].
  eapply returns_bind_P; [by apply init_settings_ok|]. intros [ok c2] Hok. cbn [fst snd] in Hok.
  destruct ok; cbn [negb]; [|by apply returns_ret]. destruct (Hok eq_refl) as (Hs & Hi & Ho).
  intros t r t' Hr Hok2. destruct (init_files_ok Hmem c2 Hs t r t' Hr Hok2) as (? & ? & ? & ? & Hi2 & Ho2).
  split_and!; try done. rewrite Ho2, Ho, Hi2, Hi.
  destruct (cf_oneshot c1); [by left | right]. cbn in Ei. rewrite andb_true_r in Ei. lia.
Qed.

(** The subnet lists of the configuration are the valid ones among the given
    texts, in the order of the file: numbers and texts that are no subnet are
    passed over. *)
Lemma parse_and_free_raw_subnetlist_correct raw :
  alloc_enough -> Forall raw_ok raw ->
  parse_and_free_raw_subnetlist (Some raw) = Ret (subnets_of raw).
Proof using H R H0. intros Hmem HF. cbn. by rewrite raw_loop_eq. Qed.

End Theorems.

(** ** The theorems at concrete inputs *)

(** A configuration file, and a file system with it, the keys and a tincd. *)
Definition init_file : text := unlines
  [c_lit "# the node"; c_lit "$my_peerid = \qme\q;"; c_lit "$networkname = \qchaos\q;";
   c_lit "$base = \q/etc/tinc/$networkname\q;"; c_lit "$my_vpn_ip = \q172.31.1.1\q;";
   c_lit "$routeadd = \qroute add %s dev \\$INTERFACE\q;"; c_lit "$ifconfig = \qifconfig \\$INTERFACE\q;";
   c_lit "$tincd_user = \qtinc\q;"; c_lit "@ignore_subnets = (\q10.0.0.0/8\q, 3, \qnonsense\q);";
   c_lit "$update_interval = 3600;"].

Definition init_env : Environment :=
  granting (fun p => if bool_decide (p = c_lit "/etc/tinc/chaosvpn.conf") then Some init_file
                     else if bool_decide (p = c_lit "/etc/tinc/chaos/ed25519_key.pub") then None else Some (c_lit "text\n"))
    (fun _ => Some (c_lit "tinc version 1.1pre17 (built)\n")) (fun _ => None) (fun _ => None).

Example config_init_ok_witness :
  exists c t', @config_init roomy numeric_host init_env (@cvconf roomy) (@config_defaults roomy) [] = Ret ((true, c), t') /\
    @settings_ok roomy numeric_host c /\ cf_tincctl_bin c = Some (c_lit "tinc") /\
    cf_tincd_interface c = Some (c_lit "chaos_vpn") /\ length (cf_ignore_subnets c) = 1%nat.
Proof.
  pose proof (@config_init_ok roomy numeric_host numeric_host_ok init_env (@cvconf roomy) (@config_defaults roomy)
    roomy_enough []) as Hok.
  destruct (@config_init roomy numeric_host init_env (@cvconf roomy) (@config_defaults roomy) []) as [[[ok c] t']| |] eqn:E;
    [| by vm_compute in E | by vm_compute in E].
  specialize (Hok _ _ eq_refl). cbn [fst snd] in Hok.
  assert (ok = true /\ cf_tincctl_bin c = Some (c_lit "tinc") /\ cf_tincd_interface c = Some (c_lit "chaos_vpn") /\
          length (cf_ignore_subnets c) = 1%nat) as (-> & Hrest).
  { vm_compute in E. injection E as <- <- _. by vm_compute. }
  exists c, t'. split; [done|]. split; [apply Hok; done | exact Hrest].
Defined.

Example parse_and_free_raw_subnetlist_correct_witness :
  @parse_and_free_raw_subnetlist roomy numeric_host
    (Some [LIST_STRING (Some (c_lit "10.0.0.0/8")); LIST_INTEGER 3; LIST_STRING (Some (c_lit "nonsense"))])
  = Ret (@subnets_of numeric_host [LIST_STRING (Some (c_lit "10.0.0.0/8")); LIST_INTEGER 3; LIST_STRING (Some (c_lit "nonsense"))]).
Proof.
  apply (@parse_and_free_raw_subnetlist_correct roomy numeric_host numeric_host_ok _ roomy_enough).
  repeat (apply list.Forall_cons; split; [first [done | split_and!; [by apply (bool_decide_unpack _); vm_compute | done | done]]|]).
  by apply list.Forall_nil.
Defined.
