(* ===== verification/Daemon.v ===== *)
(** * Processes and devices: daemon.c, pidfile.c and tun.c

    A [daemon_info] is the record of the arguments and of the process of tincd.
    Descriptors are the numbers the code keeps; closing one makes no difference
    to the model and is not recorded, except in [fix_fds], which works on the set of
    open descriptors.  [daemon_free] is in Release.v.  The child of a [fork] is the branch where
    its result is 0. *)

From S2P Require Import Prelude CLib CString StrBuf PeerParser World Tinc.

(** ** daemon.c *)

(** [fix_fds] makes sure of the first three descriptors.  [open] gives the lowest
    one that is free, and -1 when /dev/null cannot be opened. *)
Fixpoint lowest_free (fuel : nat) (n : Z) (fds : gset Z) : Z :=
  match fuel with
  | O => n
  | S fuel => if bool_decide (n ∈ fds) then lowest_free fuel (n + 1) fds else n
  end.

Definition open_null (ok : bool) (fds : gset Z) : Z * gset Z :=
  if ok then let fd := lowest_free (size fds) 0 fds in (fd, fds ∪ {[ fd ]}) else (-1, fds).

Definition close_above_2 (fd : Z) (fds : gset Z) : gset Z := if 2 <? fd then fds ∖ {[ fd ]} else fds.

Definition fix_fds (ok : bool) (fds : gset Z) : gset Z :=
  let '(fd0, fds) := open_null ok fds in
  let '(fd1, fds) := open_null ok fds in
  let '(fd2, fds) := open_null ok fds in
  close_above_2 fd2 (close_above_2 fd1 (close_above_2 fd0 fds)).

(** The argument vector: NULL, a pointer that cannot be used any more or whose
    entries were not all set, or the entries up to the NULL at the end, included. *)
Inductive arguments :=
| ArgsNull
| ArgsBad
| Args (l : list cptr).

Record daemon_info := mkdaemon {
  di_path : cptr;
  di_numarguments : Z;
  di_arguments : arguments;
  di_stderr_fd : Z * Z;
  di_stderr : bool;                      (** whether a [FILE] is open *)
  di_pid : Z
}.

Definition EXIT_FAILURE : Z := 1.

Section Daemon.
Context `{Allocator} `{Environment}.

(** The loop that copies the arguments, and the copies made so far. *)
Fixpoint copy_args (args : list cptr) : bool * list cptr :=
  match args with
  | [] => (true, [])
  | None :: args => let '(ok, l) := copy_args args in (ok, None :: l)
  | Some a :: args =>
      match strdup a with
      | None => (false, [])
      | c => let '(ok, l) := copy_args args in (ok, c :: l)
      end
  end.

(** [args] are the variable arguments in front of the NULL. *)
Definition daemon_init (path : text) (args : list text) : bool * daemon_info :=
  let di_path := strdup path in
  let numargs := zlen args + 1 in
  if negb (alloc_ok (8 * numargs)) then (false, mkdaemon None 0 ArgsNull (-1, -1) false (-1))
  else
    let '(ok, l) := copy_args (map Some args ++ [None]) in
    if ok then (true, mkdaemon di_path numargs (Args l) (-1, -1) false (-1))
    else (false, mkdaemon None numargs ArgsNull (-1, -1) false (-1)).

(** When the copy of [param] fails, [realloc] has moved the vector already. *)
Definition daemon_addparam (di : daemon_info) (param : text) : outcome (bool * daemon_info) :=
  let with_args (n : Z) (a : arguments) :=
    mkdaemon (di_path di) n a (di_stderr_fd di) (di_stderr di) (di_pid di) in
  let numargs := di_numarguments di + 1 in
  if negb (alloc_ok (8 * numargs)) then Ret (false, di)
  else
    match di_arguments di, strdup param with
    | ArgsBad, _ => Undef
    | ArgsNull, None => Ret (false, di)
    | Args _, None => Ret (false, with_args (di_numarguments di) ArgsBad)
    | ArgsNull, Some _ => if numargs <? 2 then Undef else Ret (true, with_args numargs ArgsBad)
    | Args l, dparam => Ret (true, with_args numargs (Args (ztake (numargs - 2) l ++ [dparam; None])))
    end.

Definition daemon_start (di : daemon_info) : io (bool * daemon_info) :=
  fds ← sys_pipe;
  match fds with
  | None => mret (false, di)
  | Some fds =>
      let di := mkdaemon (di_path di) (di_numarguments di) (di_arguments di) fds true (di_pid di) in
      pid ← sys_fork;
      if pid =? 0 then
        _ ← sys_setsid;
        match di_path di, di_arguments di with
        | Some path, Args args => _ ← sys_exec path args; io_exit EXIT_FAILURE
        | _, _ => lift Undef
        end
      else if pid =? -1 then mret (false, di)
      else mret (true, mkdaemon (di_path di) (di_numarguments di) (di_arguments di) (fst fds, -1) true pid)
  end.

Definition daemon_stop (di : daemon_info) (sleepdelay : Z) : io unit :=
  let pgid := di_pid di in
  if pgid =? -1 then mret tt
  else
    errno ← sys_kill pgid SIGTERM;
    if negb (errno =? 0) && negb (errno =? ESRCH) then mret tt
    else if sleepdelay =? 0 then mret tt
    else
      _ ← sys_sleep sleepdelay;
      _ ← sys_kill pgid SIGKILL;
      mret tt.

Definition daemon_sigchld (di : daemon_info) (waitbeforerestart : Z) : io (bool * daemon_info) :=
  _ ← sys_waitpid (di_pid di);
  _ ← (if negb (waitbeforerestart =? 0) then sys_sleep waitbeforerestart else mret tt);
  daemon_start di.

(** Both forks leave the parent with an exit. *)
Definition daemonize : io bool :=
  pid ← sys_fork;
  if pid <? 0 then mret false
  else if 0 <? pid then io_exit 0
  else
    pid ← sys_fork;
    if pid <? 0 then io_exit 1
    else if 0 <? pid then io_exit 0
    else
      sid ← sys_setsid;
      if sid <? 0 then mret false
      else _ ← sys_chdir (c_lit "/"); mret true.

(** ** pidfile.c *)

(** The lock file goes in every case in which it was made. *)
Definition pidfile_create_pidfile (filename : text) : io bool :=
  let lockfile := snprintf 512 (filename ++ c_lit ".lck") in
  fh ← sys_open_excl lockfile 384;
  if negb fh then mret false
  else
    opened ← sys_open_write filename 438;
    if negb opened then _ ← sys_unlink lockfile; mret false
    else
      pid ← sys_getpid;
      let line := dec pid ++ c_lit "\n" in
      w ← sys_write filename line;
      if negb (w =? zlen line) then _ ← sys_unlink lockfile; mret false
      else
        _ ← sys_chmod filename 384;
        _ ← sys_unlink lockfile;
        mret true.

(** ** tun.c *)

Definition TUN_DEV : text := c_lit "/dev/net/tun".
Definition TUN_PATH : text := c_lit "/dev/net".

Definition tun_gnu_dev_makedev (major minor : Z) : Z :=
  Z.lor (Z.lor (u32 (Z.lor (Z.land minor 255) (u32 (Z.shiftl (Z.land major 4095) 8))))
               (u64 (Z.shiftl (Z.land minor (u32 (Z.lnot 255))) 12)))
        (u64 (Z.shiftl (Z.land major (u32 (Z.lnot 4095))) 32)).

Definition tun_create_dev : io bool :=
  exists_ ← sys_access TUN_PATH;
  made ← (if negb exists_ then sys_mkdir TUN_PATH 502 else mret NOERR);
  if negb (made =? NOERR) then mret false
  else
    ok ← sys_mknod TUN_DEV 8576 (tun_gnu_dev_makedev 10 200);
    mret ok.

Definition tun_check_or_create : io bool :=
  exists_ ← sys_access TUN_DEV;
  if negb exists_ then tun_create_dev else mret true.

End Daemon.

(** ** The first three descriptors *)

Lemma lowest_free_spec fds fuel : forall n,
  n <= lowest_free fuel n fds <= n + Z.of_nat fuel /\
  (forall x, n <= x < lowest_free fuel n fds -> x ∈ fds) /\
  (lowest_free fuel n fds < n + Z.of_nat fuel -> lowest_free fuel n fds ∉ fds).
Proof.
  induction fuel as [|fuel IH]; intros n; cbn [lowest_free]; [split_and!; lia|]. case_bool_decide as Hn.
  - destruct (IH (n + 1)) as (H1 & H2 & H3). split_and!; [lia | lia | | intros ?; apply H3; lia].
    intros x Hx. destruct (decide (x = n)) as [-> |]; [done | apply H2; lia].
  - split_and!; [lia | lia | lia | done].
Qed.

Lemma lowest_free_fresh fds : lowest_free (size fds) 0 fds ∉ fds /\ 0 <= lowest_free (size fds) 0 fds /\
  forall x, 0 <= x < lowest_free (size fds) 0 fds -> x ∈ fds.
Proof.
  destruct (lowest_free_spec fds (size fds) 0) as (H1 & H2 & H3). split_and!; [|lia|done].
  destruct (decide (lowest_free (size fds) 0 fds < 0 + Z.of_nat (size fds))) as [|Hge]; [by apply H3|]. intros Hin.
  assert (list_to_set (seqZ 0 (Z.of_nat (S (size fds)))) ⊆ fds) as Hs.
  { intros x Hx. apply elem_of_list_to_set, elem_of_seqZ in Hx. destruct (decide (x = lowest_free (size fds) 0 fds)) as [-> |]; [done | apply H2; lia]. }
  apply subseteq_size in Hs. rewrite size_list_to_set in Hs by apply NoDup_seqZ. rewrite length_seqZ in Hs. lia.
Qed.

(** Afterwards standard input, output and error are open, whatever was open before,
    and no other descriptor has changed. *)
Lemma fix_fds_opens fds x : x ∈ fix_fds true fds <-> x ∈ fds \/ 0 <= x <= 2.
Proof.
  unfold fix_fds, open_null.
  destruct (lowest_free_fresh fds) as (F0 & P0 & L0). set (fd0 := lowest_free (size fds) 0 fds) in *.
  destruct (lowest_free_fresh (fds ∪ {[fd0]})) as (F1 & P1 & L1). set (fd1 := lowest_free _ 0 (fds ∪ {[fd0]})) in *.
  destruct (lowest_free_fresh (fds ∪ {[fd0]} ∪ {[fd1]})) as (F2 & P2 & L2). set (fd2 := lowest_free _ 0 (fds ∪ {[fd0]} ∪ {[fd1]})) in *.
  clearbody fd0 fd1 fd2. rewrite !not_elem_of_union, !not_elem_of_singleton in *.
  assert (forall y, 0 <= y <= 2 -> y ∈ fds \/ y = fd0 \/ y = fd1 \/ y = fd2) as Hy.
  { intros y Hy. destruct (decide (y ∈ fds)); [tauto|]. destruct (decide (y = fd0)); [tauto|]. destruct (decide (y = fd1)); [tauto|].
    destruct (decide (y = fd2)); [tauto|]. exfalso.
    assert (fd0 < y) by (destruct (decide (fd0 < y)); [done|]; specialize (L0 y); lia || (exfalso; apply n, L0; lia)).
    assert (fd1 < y) by (destruct (decide (fd1 < y)); [done|]; specialize (L1 y ltac:(lia)); rewrite elem_of_union, elem_of_singleton in L1; tauto).
    assert (fd2 < y) by (destruct (decide (fd2 < y)); [done|]; specialize (L2 y ltac:(lia)); rewrite !elem_of_union, !elem_of_singleton in L2; tauto).
    lia. }
  unfold close_above_2.
  assert (forall (b : bool) (z : Z) (s : gset Z), x ∈ (if b then s ∖ {[z]} else s) <-> x ∈ s /\ (b = true -> x <> z)) as Hif
    by (intros [] z s; [rewrite elem_of_difference, elem_of_singleton|]; naive_solver).
  rewrite !Hif, !elem_of_union, !elem_of_singleton, !Z.ltb_lt. split.
  - intros [[[[[[? | ?] | ?] | ?] ?] ?] ?]; [tauto|..]; right; lia.
  - intros [Hx | Hx].
    + split_and!; [tauto | intros _ -> .. ]; tauto.
    + split_and!; [apply Hy in Hx; tauto | lia ..].
Qed.
