(* ===== verification/Http.v ===== *)
(** * Fetching a URL: httplib

    http_parseurl.c and http_get.c.  A connection is the class [Network]; the
    buffer [b] of [httprecv] is the list of the [bptr] bytes in it.  The loops
    over [recv] have a number of turns as fuel: the code has no bound of its own. *)

From S2P Require Import Prelude CLib CString StrBuf StrFmt World Fs.

Definition HTTP_EOK : Z := 0.
Definition HTTP_EINVURL : Z := 5.
Definition HTTP_ENOMEM : Z := 2.
Definition HTTP_ENETERR : Z := 3.
Definition HTTP_ESRVERR : Z := 4.

(** ** http_parseurl.c *)

Section ParseUrl.
Context `{Allocator}.

(** The parts of the URL read so far. *)
Record url_parts := mkurl { u_hostname : strbuf; u_portnum : strbuf; u_path : strbuf }.

(** The [for] loop over the rest of the URL; [urlpart] is 0 in the host name,
    1 in the port, 2 in the path. *)
Fixpoint parseurl_loop (rest : list char) (urlpart : Z) (u : url_parts) : outcome (Z * url_parts) :=
  match rest with
  | [] => Ret (HTTP_EOK, u)
  | c :: rest' =>
      if urlpart =? 0 then
        if c =? 58 then
          if s_length (u_hostname u) <? 1 then Ret (HTTP_EINVURL, u) else parseurl_loop rest' 1 u
        else if c =? 47 then
          if s_length (u_hostname u) <? 1 then Ret (HTTP_EINVURL, u) else parseurl_loop rest' 2 u
        else
          '(ok, h) ← string_putc (u_hostname u) c;
          let u := mkurl h (u_portnum u) (u_path u) in
          if negb ok then Ret (HTTP_ENOMEM, u) else parseurl_loop rest' 0 u
      else if urlpart =? 1 then
        if c =? 47 then parseurl_loop rest' 2 u
        else if (c <? 48) || (57 <? c) then Ret (HTTP_EINVURL, u)
        else
          '(ok, p) ← string_putc (u_portnum u) c;
          let u := mkurl (u_hostname u) p (u_path u) in
          if negb ok then Ret (HTTP_ENOMEM, u) else parseurl_loop rest' 1 u
      else
        '(ok, p) ← string_concatb (u_path u) rest (zlen rest);
        let u := mkurl (u_hostname u) (u_portnum u) p in
        if negb ok then Ret (HTTP_ENOMEM, u) else Ret (HTTP_EOK, u)
  end.

(** The result, the host name, the port (set only with [HTTP_EOK]) and the path. *)
Definition http_parseurl (url hostname path : strbuf) : outcome (Z * strbuf * Z * strbuf) :=
  let portnum := string_lazyinit 16 in
  let s := content url in
  let l := s_length url in
  if l <? 7 then Ret (HTTP_EINVURL, hostname, 0, path)
  else if negb (bool_decide (ztake 7 s = c_lit "http://")) then Ret (HTTP_EINVURL, hostname, 0, path)
  else
    '(ok, path) ← string_concat path (c_lit "/");
    if negb ok then Ret (HTTP_ENOMEM, hostname, 0, path)
    else
      '(retval, u) ← parseurl_loop (zdrop 7 s) 0 (mkurl hostname portnum path);
      if negb (retval =? HTTP_EOK) then Ret (retval, u_hostname u, 0, u_path u)
      else
        match string_get (u_portnum u) with
        | Some _ =>
            '(ok, p) ← string_ensurez (u_portnum u);
            if negb ok then Ret (HTTP_ENOMEM, u_hostname u, 0, u_path u)
            else t ← cstr_of p; Ret (HTTP_EOK, u_hostname u, atoi t, u_path u)
        | None => Ret (HTTP_EOK, u_hostname u, 80, u_path u)
        end.

End ParseUrl.

(** ** The date of a request

    [gmtime] and [strftime] with the format of the code: the proleptic Gregorian
    calendar from the days since the epoch. *)

Definition civil_from_days (z : Z) : Z * Z * Z :=
  let z := z + 719468 in
  let era := z / 146097 in
  let doe := z - era * 146097 in
  let yoe := (doe - doe / 1460 + doe / 36524 - doe / 146096) / 365 in
  let doy := doe - (365 * yoe + yoe / 4 - yoe / 100) in
  let mp := (5 * doy + 2) / 153 in
  let d := doy - (153 * mp + 2) / 5 + 1 in
  let m := if mp <? 10 then mp + 3 else mp - 9 in
  (yoe + era * 400 + (if m <=? 2 then 1 else 0), m, d).

Definition day_name (wd : Z) : text :=
  nth (Z.to_nat wd) [c_lit "Sun"; c_lit "Mon"; c_lit "Tue"; c_lit "Wed"; c_lit "Thu"; c_lit "Fri"; c_lit "Sat"] [].
Definition month_name (m : Z) : text :=
  nth (Z.to_nat (m - 1)) [c_lit "Jan"; c_lit "Feb"; c_lit "Mar"; c_lit "Apr"; c_lit "May"; c_lit "Jun";
    c_lit "Jul"; c_lit "Aug"; c_lit "Sep"; c_lit "Oct"; c_lit "Nov"; c_lit "Dec"] [].
Definition two (n : Z) : text := if n <? 10 then 48 :: dec n else dec n.

(** %a, %d %b %Y %H:%M:%S GMT *)
Definition http_date (time : Z) : text :=
  let days := time / 86400 in
  let secs := time mod 86400 in
  let '(y, m, d) := civil_from_days days in
  day_name ((days + 4) mod 7) ++ c_lit ", " ++ two d ++ c_lit " " ++ month_name m ++ c_lit " " ++ dec y ++
  c_lit " " ++ two (secs / 3600) ++ c_lit ":" ++ two (secs mod 3600 / 60) ++ c_lit ":" ++ two (secs mod 60) ++
  c_lit " GMT".

(** ** http_get.c *)

Definition BUFSIZE : Z := 8192.

Section Get.
Context `{Allocator} `{Network}.

Definition sys_getaddrinfo (h p : text) : io bool := request (EGetaddrinfo h p) (fun t => net_getaddrinfo t h p).
Definition sys_connect (h p : text) : io bool := request (EConnect h p) (fun t => net_connect t h p).
Definition sys_send (d : list char) : io Z := request (ESend d) (fun t => net_send t d).
Definition sys_recv (n : Z) := request (ERecv n) (fun t => net_recv t n).

Definition epoch2http (s : strbuf) (time : Z) : outcome (Z * strbuf) :=
  '(ok, s) ← string_concat s (http_date time);
  Ret (if ok : bool then 0 else 1, s).

(** Each turn sends what is left; a [send] that takes nothing is repeated. *)
Fixpoint sendall (fuel : nat) (buf : list char) : io Z :=
  match buf with
  | [] => mret HTTP_EOK
  | _ =>
      match fuel with
      | O => lift Undef
      | S fuel =>
          res ← sys_send buf;
          if res <? 0 then mret res else sendall fuel (zdrop res buf)
      end
  end.

(** [b] is read after [string_putc], which may move the buffer when it grows. *)
Definition handle_header (s : strbuf) (httpres : Z) : outcome (Z * strbuf * Z) :=
  let b := default [] (string_get s) in
  let l := s_length s in
  if l <? 4 then Ret (HTTP_ENETERR, s, httpres)
  else if bool_decide (0 ∈ ztake l b) then Ret (HTTP_ENETERR, s, httpres)
  else
    '(ok, s') ← string_putc s 0;
    if negb ok then Ret (HTTP_ENOMEM, s', httpres)
    else if s_size s =? s_length s then Undef
    else
      let b := ztake l b in
      if negb (bool_decide (ztake 4 b = c_lit "HTTP")) then Ret (HTTP_ENETERR, s', httpres)
      else
        match strchr b 32 with
        | None => Ret (HTTP_ENETERR, s', httpres)
        | Some (_, p) =>
            match strchr (zdrop 1 p) 32 with
            | None => Ret (HTTP_ENETERR, s', httpres)
            | Some (word, _) => Ret (HTTP_EOK, s', atoi (32 :: word))
            end
        end.

(** How the header loop of [httprecv] ends. *)
Inductive headers :=
| HdrFail (retval : Z) (httpres : Z)                     (** [goto bail_out] *)
| HdrDone (b : list char) (isfirsthdr : bool) (httpres : Z).

Fixpoint header_loop (fuel : nat) (b : list char) (oneline : strbuf) (isfirsthdr : bool) (httpres : Z)
  : io headers :=
  match fuel with
  | O => lift Undef
  | S fuel =>
      bl ← sys_recv (BUFSIZE - zlen b);
      match bl with
      | None => mret (HdrFail HTTP_ENETERR httpres)
      | Some data =>
          if bool_decide (data = []) && bool_decide (b = []) then mret (HdrDone b isfirsthdr httpres)
          else
            let b := b ++ data in
            if (nth 0 b 0 =? 10) || (nth 0 b 0 =? 13) then mret (HdrDone b isfirsthdr httpres)
            else
              match strchr b 10 with
              | None => header_loop fuel b oneline isfirsthdr httpres
              | Some (line, _) =>
                  let i := zlen line in
                  '(ok, oneline) ← lift (string_concatb (string_clear oneline) b i);
                  if negb ok then mret (HdrFail HTTP_ENOMEM httpres)
                  else
                    c ← lift (last_char oneline);
                    let oneline := if c =? 13
                      then mkstr (u64 (s_length oneline - 1)) (s_size oneline) (s_growby oneline) (s_s oneline)
                      else oneline in
                    let i := i + 1 in
                    if zlen b <=? i then mret (HdrFail HTTP_ESRVERR httpres)
                    else
                      let b := zdrop i b in
                      if isfirsthdr then
                        '(e, oneline, httpres) ← lift (handle_header oneline httpres);
                        if negb (e =? HTTP_EOK) then mret (HdrFail HTTP_ESRVERR httpres)
                        else header_loop fuel b oneline false httpres
                      else header_loop fuel b oneline isfirsthdr httpres
              end
      end
  end.

(** The loop that receives the rest of the body. *)
Fixpoint body_loop (fuel : nat) (buf : strbuf) : io (Z * strbuf) :=
  match fuel with
  | O => lift Undef
  | S fuel =>
      bl ← sys_recv BUFSIZE;
      match bl with
      | None => mret (HTTP_ENETERR, buf)
      | Some [] => mret (HTTP_EOK, buf)
      | Some data =>
          '(ok, buf) ← lift (string_concatb buf data (zlen data));
          if negb ok then mret (HTTP_ENOMEM, buf) else body_loop fuel buf
      end
  end.

(** The end of the blank line in front of the body. *)
Definition skip_blank (b : list char) : Z :=
  if 2 <? zlen b then
    if (nth 0 b 0 =? 13) || (nth 0 b 0 =? 10) then
      if (nth 1 b 0 =? 13) || (nth 1 b 0 =? 10) then 2 else 1
    else 0
  else 0.

Definition httprecv (fuel : nat) (buf : strbuf) (httpres : Z) : io (Z * strbuf * Z) :=
  if negb (alloc_ok BUFSIZE) then mret (HTTP_ENOMEM, buf, httpres)
  else
    let '(_, oneline) := string_init 512 512 in
    h ← header_loop fuel [] oneline true httpres;
    match h with
    | HdrFail retval httpres => mret (retval, buf, httpres)
    | HdrDone b isfirsthdr httpres =>
        if isfirsthdr : bool then mret (HTTP_ESRVERR, buf, httpres)
        else
          let bl := skip_blank b in
          '(ok, buf) ← lift (string_concatb buf (zdrop bl b) (zlen b - bl));
          if negb ok then mret (HTTP_ENOMEM, buf, httpres)
          else
            '(retval, buf) ← body_loop fuel buf;
            if negb (retval =? HTTP_EOK) then mret (retval, buf, httpres)
            else mret (if negb (httpres =? 200) then HTTP_ESRVERR else HTTP_EOK, buf, httpres)
    end.

(** The request in the buffer; [None]: memory ran out in a call that is looked at. *)
Definition http_request (path hostname useragent : strbuf) (ifmodifiedsince : Z) : outcome (option strbuf) :=
  let '(_, request) := string_init 4096 4096 in
  '(_, request) ← string_concat_sprintf request
     (c_lit "GET %S HTTP/1.1" ++ [13; 10] ++ c_lit "Host: %S" ++ [13; 10] ++ c_lit "User-Agent: %S" ++ [13; 10])
     [AString path; AString hostname; AString useragent];
  r ← (if negb (ifmodifiedsince =? 0) then
         let '(_, ims) := string_init 512 512 in
         '(e, ims) ← epoch2http ims ifmodifiedsince;
         if negb (e =? 0) then Ret (false, request)
         else string_concat_sprintf request (c_lit "If-Modified-Since: %S" ++ [13; 10]) [AString ims]
       else Ret (true, request));
  let '(ok, request) := r : bool * strbuf in
  if negb ok then Ret None
  else
    '(ok, request) ← string_concat request (c_lit "Connection: close" ++ [13; 10]);
    if negb ok then Ret None
    else
      '(ok, request) ← string_concat request [13; 10];
      if negb ok then Ret None else Ret (Some request).

(** The result, the buffer and [*servererror]. *)
Definition http_get (fuel : nat) (url buffer : strbuf) (ifmodifiedsince : Z) (useragent : strbuf)
    (servererror : Z) : io (Z * strbuf * Z) :=
  let '(_, hostname) := string_init 4096 4096 in
  let '(_, path) := string_init 4096 4096 in
  '(retval, hostname, port, path) ← lift (http_parseurl url hostname path);
  if negb (retval =? HTTP_EOK) then mret (retval, buffer, servererror)
  else
    '(ok, hostname) ← lift (string_ensurez hostname);
    if negb ok then mret (HTTP_ENOMEM, buffer, servererror)
    else
      h ← lift (cstr_of hostname);
      let s_port := ztake 15 (dec port) in
      found ← sys_getaddrinfo h s_port;
      if negb found then mret (HTTP_ENETERR, buffer, servererror)
      else
        connected ← sys_connect h s_port;
        if negb connected then mret (HTTP_ENETERR, buffer, servererror)
        else
          request ← lift (http_request path hostname useragent ifmodifiedsince);
          match request with
          | None => mret (HTTP_ENOMEM, buffer, servererror)
          | Some request =>
              e ← sendall fuel (content request);
              if negb (e =? 0) then mret (HTTP_ENETERR, buffer, servererror)
              else httprecv fuel buffer servererror
          end.

End Get.
