(* ===== verification/HttpProps.v ===== *)
(** * The address of a URL and the answer of a server

    [url_spec] is the reference http_parseurl is compared with: which texts are
    URLs, and their host, port and path. *)

From S2P Require Import Prelude CLib CString StrBuf World Fs Http.

(** ** URLs *)

Definition is_sep (c : char) : bool := (c =? 58) || (c =? 47).
Definition not_sep (c : char) : bool := negb (is_sep c).

(** Host, digits of the port, and path without its first slash. *)
Definition url_spec (url : text) : option (text * text * text) :=
  if negb (bool_decide (ztake 7 url = c_lit "http://")) then None
  else
    let rest := zdrop 7 url in
    let host := take_until is_sep rest in
    match skip_while not_sep rest with
    | [] => Some (host, [], [])
    | c :: rest =>
        if bool_decide (host = []) then None
        else if c =? 47 then Some (host, [], rest)
        else
          let port := take_until (fun c => negb (isdigit c)) rest in
          match skip_while isdigit rest with
          | [] => Some (host, port, [])
          | c :: rest => if c =? 47 then Some (host, port, rest) else None
          end
    end.

Definition port_of (digits : text) : Z := match digits with [] => 80 | _ => atoi digits end.

Section ParseUrl.
Context `{Allocator}.
Hypothesis Hmem : alloc_enough.

Lemma lazy_good : good_str (string_lazyinit 16).
Proof using Type. split; [apply wf_lazyinit; unfold size_max | cbn; unfold str_limit ..]; cbn; lia. Qed.

(** One more character. *)
Lemma putc_good s c :
  good_str s -> s_length s + 1 < str_limit ->
  exists s', string_putc s c = Ret (true, s') /\ good_str s' /\ content s' = content s ++ [c] /\
    s_length s' = s_length s + 1.
Proof using Hmem.
  intros Hg Hl. destruct (putc_appends c Hmem s Hg Hl) as (s' & E & Hg' & Hc & _).
  exists s'. split_and!; try done. by rewrite (good_length s s' [c]) by (done || apply good_wf; done).
Qed.

(** One turn of the loop in each of its three states. *)
Lemma host_step c rest h p a :
  parseurl_loop (c :: rest) 0 (mkurl h p a) =
    if is_sep c then
      if s_length h <? 1 then Ret (HTTP_EINVURL, mkurl h p a)
      else parseurl_loop rest (if c =? 58 then 1 else 2) (mkurl h p a)
    else
      '(ok, h') ← string_putc h c;
      if negb ok then Ret (HTTP_ENOMEM, mkurl h' p a) else parseurl_loop rest 0 (mkurl h' p a).
Proof using Type.
  unfold is_sep. destruct (Z.eqb_spec c 58) as [->|H1]; [done|].
  destruct (Z.eqb_spec c 47) as [->|H2]; [done|]. cbn.
  replace (c =? 58) with false by lia. by replace (c =? 47) with false by lia.
Qed.

Lemma port_step c rest h p a :
  parseurl_loop (c :: rest) 1 (mkurl h p a) =
    if c =? 47 then parseurl_loop rest 2 (mkurl h p a)
    else if negb (isdigit c) then Ret (HTTP_EINVURL, mkurl h p a)
    else
      '(ok, p') ← string_putc p c;
      if negb ok then Ret (HTTP_ENOMEM, mkurl h p' a) else parseurl_loop rest 1 (mkurl h p' a).
Proof using Type.
  unfold isdigit. replace (negb ((48 <=? c) && (c <=? 57))) with ((c <? 48) || (57 <? c)) by lia.
  reflexivity.
Qed.

(** The characters of the host, up to the first separator. *)
Lemma host_loop rest h p a :
  good_str h -> s_length h + zlen rest < str_limit ->
  exists h', good_str h' /\ content h' = content h ++ take_until is_sep rest /\
    parseurl_loop rest 0 (mkurl h p a) =
      match skip_while not_sep rest with
      | [] => Ret (HTTP_EOK, mkurl h' p a)
      | c :: rest' => if s_length h' <? 1 then Ret (HTTP_EINVURL, mkurl h' p a)
                      else parseurl_loop rest' (if c =? 58 then 1 else 2) (mkurl h' p a)
      end.
Proof using Hmem.
  revert h; induction rest as [|c rest IH]; intros h Hg Hl.
  - exists h. cbn. by rewrite app_nil_r.
  - rewrite zlen_cons in Hl. pose proof (zlen_nonneg rest). rewrite host_step.
    cbn [take_until skip_while]. unfold not_sep at 1.
    destruct (is_sep c); cbn [negb]; [exists h; by rewrite app_nil_r|].
    destruct (putc_good h c Hg) as (h1 & -> & Hg1 & Hc1 & Hl1); [lia|].
    destruct (IH h1 Hg1) as (h2 & Hg2 & Hc2 & E); [lia|].
    exists h2. rewrite Hc2, Hc1, <- app_assoc. done.
Qed.

(** The digits of the port. *)
Lemma port_loop rest h p a :
  good_str p -> s_length p + zlen rest < str_limit ->
  exists p', good_str p' /\ content p' = content p ++ take_until (fun c => negb (isdigit c)) rest /\
    (take_until (fun c => negb (isdigit c)) rest = [] -> p' = p) /\
    parseurl_loop rest 1 (mkurl h p a) =
      match skip_while isdigit rest with
      | [] => Ret (HTTP_EOK, mkurl h p' a)
      | c :: rest' => if c =? 47 then parseurl_loop rest' 2 (mkurl h p' a)
                      else Ret (HTTP_EINVURL, mkurl h p' a)
      end.
Proof using Hmem.
  revert p; induction rest as [|c rest IH]; intros p Hg Hl.
  - exists p. cbn. by rewrite app_nil_r.
  - rewrite zlen_cons in Hl. pose proof (zlen_nonneg rest). rewrite port_step.
    cbn [take_until skip_while].
    destruct (isdigit c) eqn:Ed; cbn [negb]; [|exists p; by rewrite app_nil_r].
    unfold isdigit in Ed. replace (c =? 47) with false by lia.
    destruct (putc_good p c Hg) as (p1 & -> & Hg1 & Hc1 & Hl1); [lia|].
    destruct (IH p1 Hg1) as (p2 & Hg2 & Hc2 & _ & E); [lia|].
    exists p2. rewrite Hc2, Hc1, <- app_assoc. done.
Qed.

(** The path: whatever is left. *)
Lemma path_loop rest h p a :
  good_str a -> s_length a + zlen rest < str_limit ->
  exists a', good_str a' /\ content a' = content a ++ rest /\
    parseurl_loop rest 2 (mkurl h p a) = Ret (HTTP_EOK, mkurl h p a').
Proof using Hmem.
  intros Hg Hl. destruct rest as [|c rest]; cbn [parseurl_loop].
  - exists a. by rewrite app_nil_r.
  - change (2 =? 0) with false. change (2 =? 1) with false. cbn iota. cbn [u_hostname u_portnum u_path].
    destruct (concatb_appends (c :: rest) (zlen (c :: rest)) Hmem (conj (zlen_nonneg _) (Z.le_refl _)) a Hg)
      as (a' & -> & Hg' & Hc & _); [rewrite ztake_all by lia; done|].
    cbn. exists a'. rewrite Hc, ztake_all by lia. done.
Qed.

Lemma digits_nonul rest : nonul (take_until (fun c => negb (isdigit c)) rest).
Proof using Type.
  induction rest as [|c rest IH]; cbn [take_until]; [by constructor|].
  destruct (isdigit c) eqn:Ed; cbn [negb]; [|by constructor].
  constructor; [|done]. unfold isdigit in Ed. lia.
Qed.

(** The end of [http_parseurl]: the port from its digits. *)
Lemma port_tail (p : strbuf) (digits : text) (h a : strbuf) :
  good_str p -> s_length p + 1 < str_limit -> content p = digits -> nonul digits ->
  (digits = [] -> p = string_lazyinit 16) ->
  match string_get p with
  | Some _ =>
      '(ok, p) ← string_ensurez p;
      if negb ok then Ret (HTTP_ENOMEM, h, 0, a)
      else t ← cstr_of p; Ret (HTTP_EOK, h, atoi t, a)
  | None => Ret (HTTP_EOK, h, 80, a)
  end = (Ret (HTTP_EOK, h, port_of digits, a) : outcome (Z * strbuf * Z * strbuf)).
Proof using Hmem.
  intros Hg Hl Hc Hn Hnil. destruct digits as [|d ds]; [by rewrite (Hnil eq_refl)|].
  pose proof (zlen_content p (good_wf p Hg)) as Hlen. rewrite Hc, zlen_cons in Hlen.
  pose proof (zlen_nonneg ds).
  unfold string_get. destruct (s_s p) eqn:Eb.
  - destruct (ensurez_holds Hmem p Hg) as (p' & -> & Hh); [by rewrite Hc | left; lia | lia |].
    cbn [mbind outcome_bind negb]. rewrite (holds_cstr p' _ Hh), Hc. done.
  - unfold content in Hc. rewrite Eb in Hc. cbn in Hc. unfold ztake in Hc. by rewrite take_nil in Hc.
Qed.

Lemma take_until_zlen p l : zlen (take_until p l) <= zlen l.
Proof using Type.
  induction l as [|x l IH]; cbn [take_until]; [done|]. rewrite zlen_cons.
  destruct (p x); [change (@zlen char []) with 0; pose proof (zlen_nonneg l); lia | rewrite zlen_cons; lia].
Qed.

Lemma skip_while_zlen p l : zlen (skip_while p l) <= zlen l.
Proof using Type.
  induction l as [|x l IH]; cbn [skip_while]; [done|]. rewrite zlen_cons.
  destruct (p x); [lia | rewrite zlen_cons; lia].
Qed.

(** The loop from its start is the reference on the text behind http://. *)
Lemma parseurl_loop_spec rest h a :
  good_str h -> content h = [] -> good_str a -> s_length a + zlen rest + 1 < str_limit ->
  exists h' p' a', good_str h' /\ good_str p' /\ good_str a' /\ s_length p' <= zlen rest /\
    match url_spec (c_lit "http://" ++ rest) with
    | Some (host, port, path) =>
        parseurl_loop rest 0 (mkurl h (string_lazyinit 16) a) = Ret (HTTP_EOK, mkurl h' p' a') /\
        content h' = host /\ content p' = port /\ nonul port /\
        (port = [] -> p' = string_lazyinit 16) /\ content a' = content a ++ path
    | None =>
        parseurl_loop rest 0 (mkurl h (string_lazyinit 16) a) = Ret (HTTP_EINVURL, mkurl h' p' a')
    end.
Proof using Hmem.
  intros Hg Hh Ha Hl. pose proof (zlen_nonneg rest) as H0. pose proof lazy_good as Hz.
  pose proof (wf_length a (good_wf a Ha)).
  assert (s_length h = 0) as Hh0 by (by rewrite <- (zlen_content h (good_wf h Hg)), Hh).
  unfold url_spec. change (ztake 7 (c_lit "http://" ++ rest)) with (c_lit "http://").
  change (zdrop 7 (c_lit "http://" ++ rest)) with rest.
  destruct (host_loop rest h (string_lazyinit 16) a Hg) as (h' & Hg' & Hc' & ->); [lia|].
  rewrite Hh in Hc'. cbn [app] in Hc'.
  pose proof (skip_while_zlen not_sep rest) as Hs.
  pose proof (zlen_content h' (good_wf h' Hg')) as Hl'. rewrite Hc' in Hl'.
  rewrite bool_decide_true by done. cbn [negb].
  destruct (skip_while not_sep rest) as [|c rest1] eqn:Erest.
  { exists h', (string_lazyinit 16), a. rewrite app_nil_r. split_and!; done || constructor. }
  rewrite zlen_cons in Hs. apply skip_while_head in Erest.
  unfold not_sep, is_sep in Erest.
  destruct (take_until is_sep rest) as [|x xs] eqn:Ehost.
  { exists h', (string_lazyinit 16), a. rewrite <- Hl'. split_and!; done. }
  rewrite bool_decide_false by done. rewrite zlen_cons in Hl'. pose proof (zlen_nonneg xs).
  replace (s_length h' <? 1) with false by lia.
  destruct (Z.eqb_spec c 58) as [->|Hne].
  - change (58 =? 47) with false. cbn iota.
    destruct (port_loop rest1 h' (string_lazyinit 16) a Hz) as (p' & Hgp & Hcp & Hnil & ->).
    { cbn. pose proof (wf_size a (good_wf a Ha)). lia. }
    assert (s_length p' <= zlen rest) as Hlp.
    { rewrite <- (zlen_content p' (good_wf p' Hgp)), Hcp.
      change (content (string_lazyinit 16)) with (@nil char). cbn [app].
      pose proof (take_until_zlen (fun c => negb (isdigit c)) rest1). lia. }
    pose proof (skip_while_zlen isdigit rest1) as Hs2.
    destruct (skip_while isdigit rest1) as [|d rest2].
    { exists h', p', a. rewrite app_nil_r. split_and!; done || apply digits_nonul. }
    rewrite zlen_cons in Hs2.
    destruct (d =? 47); [|by exists h', p', a].
    destruct (path_loop rest2 h' p' a Ha) as (a' & Hga & Hca & ->); [lia|].
    exists h', p', a'. split_and!; done || apply digits_nonul.
  - replace (c =? 47) with true by lia.
    destruct (path_loop rest1 h' (string_lazyinit 16) a Ha) as (a' & Hga & Hca & ->); [lia|].
    exists h', (string_lazyinit 16), a'. split_and!; done || constructor.
Qed.

(** C27. http_parseurl is the reference url_spec: it accepts exactly the texts of the
    form http://host, with an optional port of digits and an optional path, where the
    host is not empty if anything follows it; it gives back the host, the number of the
    port (80 when there are no digits) and the path with its slash.  Any other text is
    HTTP_EINVURL. *)
Theorem http_parseurl_correct url hostname path :
  wf_str url -> s_length url + 8 < str_limit ->
  good_str hostname -> content hostname = [] -> good_str path -> content path = [] ->
  match url_spec (content url) with
  | Some (host, port, rest) =>
      exists hostname' path', http_parseurl url hostname path = Ret (HTTP_EOK, hostname', port_of port, path') /\
        content hostname' = host /\ content path' = 47 :: rest
  | None => exists hostname' path', http_parseurl url hostname path = Ret (HTTP_EINVURL, hostname', 0, path')
  end.
Proof using Hmem.
  intros Hu Hlim Hgh Hch Hgp Hcp. pose proof (zlen_content url Hu) as Hl.
  unfold http_parseurl. destruct (Z.ltb_spec (s_length url) 7) as [Hshort|Hlong].
  { unfold url_spec. rewrite bool_decide_false; [by exists hostname, path|].
    intros E. apply (f_equal zlen) in E. change (zlen (c_lit "http://")) with 7 in E.
    rewrite ztake_all in E by lia. lia. }
  destruct (bool_decide (ztake 7 (content url) = c_lit "http://")) eqn:Ep; cbn [negb].
  2: { unfold url_spec. rewrite Ep. by exists hostname, path. }
  apply bool_decide_eq_true in Ep.
  assert (s_length path = 0) as Hp0 by (by rewrite <- (zlen_content path (good_wf path Hgp)), Hcp).
  destruct (concat_holds Hmem path (c_lit "/") Hgp) as (path1 & -> & Hh1).
  { rewrite Hcp. repeat constructor; done. } { rewrite Hp0. unfold str_limit. done. }
  cbn [mbind outcome_bind negb].
  pose proof (holds_content _ _ Hh1) as Hc1. rewrite Hcp in Hc1. cbn [app] in Hc1.
  pose proof (holds_length _ _ Hh1) as Hl1. rewrite Hcp in Hl1. change (zlen ([] ++ c_lit "/")) with 1 in Hl1.
  assert (zlen (zdrop 7 (content url)) = s_length url - 7) as Hr by (rewrite zlen_zdrop; lia).
  destruct (parseurl_loop_spec (zdrop 7 (content url)) hostname path1 Hgh Hch (holds_good _ _ Hh1))
    as (h' & p' & a' & Hgh' & Hgp' & Hga' & Hlp & Hspec); [lia|].
  rewrite <- Ep in Hspec. unfold ztake, zdrop in Hspec. rewrite take_drop in Hspec.
  fold (@zdrop char 7 (content url)) in Hspec.
  destruct (url_spec (content url)) as [[[host port] rest]|].
  - destruct Hspec as (-> & Hh' & Hp' & Hn & Hnil & Ha'). cbn [mbind outcome_bind negb Z.eqb u_hostname u_portnum u_path].
    exists h', a'. rewrite (port_tail p' port h' a'); try done; [|lia].
    split_and!; try done. by rewrite Ha', Hc1.
  - rewrite Hspec. by exists h', a'.
Qed.

End ParseUrl.

(** Buffers as http_get makes them. *)
Definition fresh_buffer : strbuf := snd (@string_init roomy 4096 4096).

Lemma fresh_good : good_str fresh_buffer /\ content fresh_buffer = [].
Proof.
  destruct (@init_good roomy roomy_enough 4096 4096) as (s & E & Hg & Hc & _);
    [unfold str_limit; lia..|].
  unfold fresh_buffer. by rewrite E.
Qed.

Definition url_text : text := c_lit "http://vpn.example.org:8080/config?id=me".
Definition url_buffer : strbuf := mkstr (zlen url_text) (zlen url_text) 16 (Some url_text).

Example http_parseurl_correct_witness :
  exists h p, @http_parseurl roomy url_buffer fresh_buffer fresh_buffer = Ret (HTTP_EOK, h, 8080, p) /\
    content h = c_lit "vpn.example.org" /\ content p = c_lit "/config?id=me".
Proof.
  destruct fresh_good as [Hg Hc].
  assert (wf_str url_buffer) as Hw.
  { split; vm_compute; first [reflexivity | split; discriminate | discriminate]. }
  assert (s_length url_buffer + 8 < str_limit) as Hl by (vm_compute; reflexivity).
  pose proof (@http_parseurl_correct roomy roomy_enough url_buffer fresh_buffer fresh_buffer Hw Hl Hg Hc Hg Hc) as Hp.
  replace (url_spec (content url_buffer)) with
    (Some (c_lit "vpn.example.org", c_lit "8080", c_lit "config?id=me")) in Hp by (vm_compute; reflexivity).
  exact Hp.
Defined.
