(* ===== verification/HttpRecv.v ===== *)
(** * Receiving an answer in pieces

    [httprecv] reads the status line, drops the other header lines and collects
    the body, while the answer arrives in pieces whose sizes the network chooses. *)

From S2P Require Import Prelude CLib CString StrBuf World Fs FsProps Http.

(** ** Answers *)

Definition crlf : text := [13; 10].
Definition header_lines (ls : list text) : text := concat (map (fun l => l ++ crlf) ls).

Definition status_line (version : text) (code : Z) (reason : text) : text :=
  c_lit "HTTP" ++ version ++ [32] ++ dec_nat code ++ [32] ++ reason.

(** Everything in front of the body. *)
Definition head_of (version : text) (code : Z) (reason : text) (fields : list text) : text :=
  status_line version code reason ++ crlf ++ header_lines fields ++ crlf.

(** A header line is not empty, holds no newline and does not begin like a blank line. *)
Definition good_line (l : text) : Prop := l <> [] /\ 10 ∉ l /\ nth 0 l 0 <> 13.

Record good_head (version : text) (code : Z) (reason : text) (fields : list text) : Prop := {
  gh_version : 32 ∉ version /\ 10 ∉ version /\ nonul version;
  gh_code : 0 <= code < 2 ^ 31;
  gh_reason : 10 ∉ reason /\ nonul reason;
  gh_fields : Forall good_line fields
}.

(** ** The connection: a stream *)

(** [left t] is what the server still has to deliver after the history [t]: a [recv]
    takes at least one byte of it, and nothing only at the end or when asked for nothing. *)
Record stream `{Network} (left : trace -> list char) : Prop := {
  stream_recv : forall t n, 0 <= n -> exists d,
    net_recv t n = Some d /\ left t = d ++ left (t ++ [ERecv n]) /\ zlen d <= n /\
    (0 < n -> d = [] -> left t = [])
}.

Section Recv.
Context `{Allocator} `{Network}.
Hypothesis Hmem : alloc_enough.
Variable left : trace -> list char.
Hypothesis Hstream : stream left.

(** *** The body *)

Lemma body_loop_runs fuel buf t :
  good_str buf -> s_length buf + zlen (left t) < str_limit -> (length (left t) < fuel)%nat ->
  runs (body_loop fuel buf) t (fun r _ => fst r = HTTP_EOK /\ content (snd r) = content buf ++ left t).
Proof using Hmem Hstream.
  revert buf t; induction fuel as [|fuel IH]; intros buf t Hg Hl Hf; [lia|]. cbn [body_loop]. unfold sys_recv. ask.
  destruct (stream_recv _ Hstream t BUFSIZE) as (d & -> & El & Hd & Hend); [done|].
  destruct d as [|c d].
  { apply runs_ret. rewrite Hend by done. by rewrite app_nil_r. }
  rewrite El in Hl, Hf. rewrite zlen_app in Hl. rewrite length_app in Hf. cbn [length] in Hf.
  pose proof (zlen_nonneg (left (t ++ [ERecv BUFSIZE]))).
  destruct (concatb_appends (c :: d) (zlen (c :: d)) Hmem) with (s := buf) as (s' & E & Hg' & Hc & _);
    [split; [apply zlen_nonneg | done] | done | rewrite ztake_all by done; lia |].
  rewrite ztake_all in Hc by done. calc E.
  eapply runs_weaken; [|apply (IH s'); [done | | lia]].
  - intros r n (Hr & Hcr). split; [done|]. by rewrite Hcr, Hc, El, <- app_assoc.
  - rewrite (good_length buf s' (c :: d)) by (done || apply good_wf; done). lia.
Qed.

(** *** Header lines *)

(** The buffer of the line, without the carriage return. *)
Definition chomp (s : strbuf) : strbuf := mkstr (u64 (s_length s - 1)) (s_size s) (s_growby s) (s_s s).

Lemma line_step oneline l rest :
  good_str oneline -> zlen l < BUFSIZE ->
  exists s, string_concatb (string_clear oneline) (l ++ 13 :: rest) (zlen l + 1) = Ret (true, s) /\
    last_char s = Ret 13 /\ good_str (chomp s) /\ content (chomp s) = l /\ s_length (chomp s) < s_size (chomp s).
Proof using Hmem.
  intros Hg Hl. unfold BUFSIZE in Hl. pose proof (zlen_nonneg l). pose proof (zlen_nonneg rest).
  assert (good_str (string_clear oneline)) as Hg0 by (destruct Hg; split; [by apply wf_clear | done..]).
  destruct (concatb_appends (l ++ 13 :: rest) (zlen l + 1) Hmem) with (s := string_clear oneline)
    as (s & E & Hgs & Hc & _); [rewrite zlen_app, zlen_cons; lia | done | |].
  { rewrite zlen_ztake by (rewrite zlen_app, zlen_cons; lia). cbn. unfold str_limit. lia. }
  assert (content s = l ++ [13]) as Hcs.
  { rewrite Hc. change (content (string_clear oneline)) with (@nil char). cbn [app].
    rewrite ztake_app_ge by lia. by replace (zlen l + 1 - zlen l) with 1 by lia. }
  assert (s_length s = zlen l + 1) as Hlen by (rewrite <- (zlen_content s (good_wf _ Hgs)), Hcs, zlen_app; done).
  pose proof (wf_length _ (good_wf _ Hgs)).
  exists s. split; [done|]. split; [|unfold chomp; rewrite u64_small by lia; split_and!; [| |cbn; lia]].
  - rewrite (last_char_holds s (l ++ [13])) by (done || by destruct l). by rewrite last_snoc.
  - destruct Hgs as [Hw ? ?]. split; [|done..]. destruct Hw. split; cbn; [lia | done..].
  - unfold content at 1; cbn. transitivity (ztake (s_length s - 1) (content s)).
    + unfold content. rewrite ztake_ztake. f_equal. lia.
    + rewrite Hcs, ztake_app_le by lia. apply ztake_all. lia.
Qed.

Lemma good_line_cr l rest : good_line l -> strchr (l ++ 13 :: 10 :: rest) 10 = Some (l ++ [13], 10 :: rest).
Proof using Type.
  intros (_ & Hn & _). replace (l ++ 13 :: 10 :: rest) with ((l ++ [13]) ++ 10 :: rest) by (by rewrite <- app_assoc).
  apply strchr_app. rewrite elem_of_app. intros [?|Hin]; [done|]. apply elem_of_cons in Hin as [?|Hin]; [lia|].
  by apply not_elem_of_nil in Hin.
Qed.

Lemma good_line_head l rest : good_line l -> (nth 0 (l ++ rest) 0 =? 10) || (nth 0 (l ++ rest) 0 =? 13) = false.
Proof using Type.
  intros (Hne & Hn & Hc). destruct l as [|c l]; [done|]. cbn in *. apply orb_false_iff. split; [|lia].
  apply Z.eqb_neq. intros ->. apply Hn. by left.
Qed.

Lemma header_loop_lines fields : forall fuel oneline B httpres t,
  Forall good_line fields -> good_str oneline -> B <> [] ->
  zlen (header_lines fields ++ crlf ++ B) <= BUFSIZE -> (length fields < fuel)%nat ->
  runs (header_loop fuel (header_lines fields ++ crlf ++ B) oneline false httpres) t (fun h new =>
    exists B', h = HdrDone (crlf ++ B') false httpres /\ B' <> [] /\ B ++ left t = B' ++ left (t ++ new)).
Proof using Hmem Hstream.
  induction fields as [|l fields IH]; intros [|fuel] oneline B httpres t Hls Hg HB Hlen Hf; cbn [length] in Hf; try lia;
    cbn [header_loop]; unfold sys_recv; ask.
  all: match goal with |- context [net_recv ?t ?n] => destruct (stream_recv _ Hstream t n) as (d & -> & El & Hd & _); [lia|] end.
  all: rewrite (bool_decide_false (_ ++ crlf ++ _ = [])) by (intros E; by apply app_nil in E as [_ E]).
  all: rewrite andb_false_r.
  - cbn [header_lines map concat app nth crlf Z.eqb Pos.eqb orb]. apply runs_ret.
    exists (B ++ d). split_and!; [done | by destruct B | by rewrite El, app_assoc].
  - apply list.Forall_cons in Hls as [Hl Hls].
    assert (header_lines (l :: fields) ++ crlf ++ B = l ++ 13 :: 10 :: header_lines fields ++ crlf ++ B) as Eb.
    { unfold header_lines, crlf. cbn. by rewrite <- !app_assoc. }
    rewrite Eb in *. rewrite zlen_app, !zlen_cons in Hlen. pose proof (zlen_nonneg (header_lines fields ++ crlf ++ B)).
    rewrite <- app_assoc. cbn [app]. set (rest := (header_lines fields ++ crlf ++ B) ++ d).
    rewrite good_line_head, good_line_cr by done.
    destruct (line_step oneline l (10 :: rest) Hg) as (s & E1 & E2 & Hgs & Hc & _); [lia|].
    replace (zlen (l ++ [13])) with (zlen l + 1) by (by rewrite zlen_app). calc E1. calc E2. fold (chomp s).
    assert (rest = header_lines fields ++ crlf ++ (B ++ d)) as Er by (unfold rest; by rewrite <- !app_assoc).
    assert (0 < zlen rest) as Hrest.
    { rewrite Er, !zlen_app. pose proof (zlen_nonneg (header_lines fields)). pose proof (zlen_nonneg B). pose proof (zlen_nonneg d).
      change (zlen crlf) with 2. lia. }
    change (13 =? 13) with true. cbn iota.
    rewrite (zlen_app l), !zlen_cons. replace (_ <=? zlen l + 1 + 1) with false by lia.
    replace (zdrop (zlen l + 1 + 1) (l ++ 13 :: 10 :: rest)) with rest.
    2: { rewrite zdrop_app_ge by lia. by replace (zlen l + 1 + 1 - zlen l) with 2 by lia. }
    rewrite Er. eapply runs_weaken; [|apply (IH fuel (chomp s)); [done | done | by destruct B | | lia]].
    + intros h n (B' & -> & HB' & E). exists B'. split_and!; [done..|].
      rewrite El, app_assoc, E. by rewrite <- app_assoc.
    + rewrite <- Er. unfold rest. rewrite zlen_app. rewrite zlen_app, !zlen_cons in Hd. pose proof (zlen_nonneg l). lia.
Qed.

(** *** The status line *)

Lemma http_chars c : bool_decide (c ∉ c_lit "HTTP") = true -> c ∉ c_lit "HTTP".
Proof using Type. apply bool_decide_eq_true_1. Qed.

Lemma atoi_space s : atoi (32 :: s) = atoi s.
Proof using Type. unfold atoi, strtol. change (scan_int 10 (32 :: s)) with (scan_int 10 s). by destruct (scan_int 10 s) as [[[? ?] ?]|]. Qed.

Lemma status_good version code reason fields :
  good_head version code reason fields ->
  good_line (status_line version code reason) /\ nonul (status_line version code reason).
Proof using Type.
  intros [(_ & Hv & Hvn) Hc (Hr & Hrn) _]. unfold status_line.
  assert (10 ∉ dec_nat code /\ 0 ∉ dec_nat code) as [Hd Hd0] by (split; apply dec_nat_not_in; done || lia).
  split; [split_and!; [done | | done]|].
  - pose proof (http_chars 10 eq_refl). rewrite !elem_of_app, !elem_of_cons, elem_of_nil. intuition lia.
  - repeat (apply nonul_app; split); try done; try (by repeat constructor).
    unfold nonul. apply list.Forall_forall. intros c Hin ->. done.
Qed.

Lemma handle_header_status s version code reason fields httpres :
  good_head version code reason fields -> good_str s -> content s = status_line version code reason ->
  s_length s < s_size s -> s_length s < BUFSIZE ->
  exists s', handle_header s httpres = Ret (HTTP_EOK, s', code) /\ good_str s'.
Proof using Hmem.
  intros Hh Hg Hc Hroom Hmax. destruct (status_good _ _ _ _ Hh) as (_ & Hn). destruct Hh as [(Hv & _ & _) Hcode _ _].
  pose proof (zlen_content s (good_wf _ Hg)) as Hl. unfold content in Hc. unfold handle_header, string_get. cbv zeta.
  rewrite Hc. assert (4 <= s_length s) as H4.
  { rewrite <- Hl. unfold content. rewrite Hc. unfold status_line. rewrite zlen_app. change (zlen (c_lit "HTTP")) with 4.
    pose proof (zlen_nonneg (version ++ [32] ++ dec_nat code ++ [32] ++ reason)). lia. }
  replace (s_length s <? 4) with false by lia.
  rewrite bool_decide_false by (intros Hin; unfold nonul in Hn; rewrite list.Forall_forall in Hn; by apply (Hn 0)).
  destruct (putc_appends 0 Hmem s Hg) as (s' & -> & Hg' & _); [unfold BUFSIZE, str_limit in *; change (zlen [0]) with 1; lia|].
  cbn [negb mbind outcome_bind]. replace (s_size s =? s_length s) with false by lia.
  replace (ztake 4 (status_line version code reason)) with (c_lit "HTTP") by done.
  rewrite (bool_decide_true (c_lit "HTTP" = c_lit "HTTP")) by done. cbn [negb].
  assert (status_line version code reason = (c_lit "HTTP" ++ version) ++ 32 :: dec_nat code ++ 32 :: reason) as ->
    by (unfold status_line; by rewrite <- !app_assoc).
  rewrite strchr_app. 2: { rewrite elem_of_app. intros [Hin|]; [by apply (http_chars 32 eq_refl) | done]. }
  change (zdrop 1 (32 :: ?r)) with r. rewrite strchr_app by (apply dec_nat_not_in; done || lia).
  exists s'. split; [|done].
  do 3 f_equal. rewrite atoi_space. by apply atoi_dec.
Qed.

(** The first turn, up to the blank line. *)
Lemma header_loop_first version code reason fields body0 fuel oneline httpres t :
  good_head version code reason fields -> good_str oneline -> body0 <> [] ->
  net_recv t BUFSIZE = Some (head_of version code reason fields ++ body0) -> (S (length fields) < fuel)%nat ->
  runs (header_loop fuel [] oneline true httpres) t (fun h new => exists B',
    h = HdrDone (crlf ++ B') false code /\ B' <> [] /\
    left t = head_of version code reason fields ++ B' ++ left (t ++ new)).
Proof using Hmem Hstream.
  intros Hh Hg Hb0 Er Hf. destruct fuel as [|fuel]; [lia|]. cbn [header_loop]. unfold sys_recv. ask.
  change (BUFSIZE - zlen []) with BUFSIZE.
  destruct (stream_recv _ Hstream t BUFSIZE) as (d & Ed & El & Hd & _); [done|].
  rewrite Er in Ed. apply (inj Some) in Ed as <-. rewrite Er. destruct (status_good _ _ _ _ Hh) as (Hl & _).
  set (rest := header_lines fields ++ crlf ++ body0).
  assert (head_of version code reason fields ++ body0 = status_line version code reason ++ 13 :: 10 :: rest) as Eh
    by (unfold head_of, crlf, rest; by rewrite <- !app_assoc).
  rewrite Eh in *. cbn [app]. rewrite zlen_app, !zlen_cons in Hd.
  assert (0 < zlen rest) as Hrest.
  { unfold rest. rewrite !zlen_app. pose proof (zlen_nonneg (header_lines fields)). pose proof (zlen_nonneg body0).
    change (zlen crlf) with 2. lia. }
  rewrite (bool_decide_false (status_line _ _ _ ++ _ = [])) by (intros E; by apply app_nil in E as [_ E]). cbn [andb].
  rewrite good_line_head, good_line_cr by done.
  destruct (line_step oneline (status_line version code reason) (10 :: rest) Hg) as (s & E1 & E2 & Hgs & Hc & Hroom); [lia|].
  replace (zlen (status_line version code reason ++ [13])) with (zlen (status_line version code reason) + 1) by (by rewrite zlen_app).
  calc E1. calc E2. fold (chomp s). change (13 =? 13) with true. cbn iota.
  rewrite (zlen_app (status_line _ _ _)), !zlen_cons. replace (_ <=? _ + 1 + 1) with false by lia.
  rewrite zdrop_app_ge by lia. replace (_ + 1 + 1 - _) with 2 by lia. change (zdrop 2 (13 :: 10 :: rest)) with rest.
  assert (s_length (chomp s) < BUFSIZE) as Hlen by (rewrite <- (zlen_content _ (good_wf _ Hgs)), Hc; lia).
  destruct (handle_header_status (chomp s) _ _ _ _ httpres Hh Hgs Hc Hroom Hlen) as (s' & E3 & Hgs').
  calc E3. change (HTTP_EOK =? HTTP_EOK) with true. cbn [negb].
  eapply runs_weaken; [|apply (header_loop_lines fields fuel s' body0 code); [apply Hh | done | done | pose proof (zlen_nonneg (status_line version code reason)); fold rest; lia | lia]].
  intros h n (B' & -> & HB' & E). exists B'. split_and!; [done..|].
  rewrite El, <- Eh, <- app_assoc, E. by rewrite <- app_assoc.
Qed.

(** C28. An answer is received whole however the network cuts it.  When the first piece
    holds the status line, the other header lines, the blank line and at least one
    byte of the body, httprecv reports the status code, returns success exactly when it
    is 200, and adds to the buffer the body and nothing else, whatever the sizes of the
    pieces that follow. *)
Theorem httprecv_body version code reason fields body body0 fuel buf httpres t :
  good_head version code reason fields ->
  left t = head_of version code reason fields ++ body -> body0 <> [] ->
  net_recv t BUFSIZE = Some (head_of version code reason fields ++ body0) ->
  good_str buf -> s_length buf + zlen body < str_limit -> (S (length fields) + length body < fuel)%nat ->
  runs (httprecv fuel buf httpres) t (fun r _ =>
    fst (fst r) = (if code =? 200 then HTTP_EOK else HTTP_ESRVERR) /\ snd r = code /\
    content (snd (fst r)) = content buf ++ body).
Proof using Hmem Hstream.
  intros Hh Hleft Hb0 Er Hg Hlim Hf. unfold httprecv. rewrite Hmem by (unfold BUFSIZE, str_limit; lia). cbn [negb].
  destruct (good_init 512 512 Hmem) as (s & -> & Hgs & _); [unfold str_limit; lia..|].
  eapply runs_bind; [apply (header_loop_first _ _ _ _ body0 fuel s httpres t Hh); [done.. | lia]|].
  intros h n1 (B' & -> & HB' & El). rewrite Hleft in El. apply app_inv_head in El. subst body. set (t1 := t ++ n1) in *.
  rewrite zlen_app in Hlim. rewrite length_app in Hf. pose proof (zlen_nonneg (left t1)). pose proof (zlen_nonneg B').
  assert (0 < zlen B') by (destruct B'; [done | rewrite zlen_cons; pose proof (zlen_nonneg B'); lia]).
  assert (skip_blank (crlf ++ B') = 2) as ->.
  { unfold skip_blank. rewrite zlen_app. change (zlen crlf) with 2. by replace (2 <? 2 + zlen B') with true by lia. }
  rewrite zlen_app. change (zdrop 2 (crlf ++ B')) with B'. change (zlen crlf) with 2. replace (2 + zlen B' - 2) with (zlen B') by lia.
  destruct (concatb_appends B' (zlen B') Hmem) with (s := buf) as (buf' & E & Hg' & Hc & _);
    [lia | done | rewrite ztake_all by lia; lia |].
  rewrite ztake_all in Hc by lia. calc E.
  eapply runs_bind; [apply (body_loop_runs fuel buf' t1 Hg'); [|lia]|].
  { rewrite (good_length buf buf' B') by (done || apply good_wf; done). lia. }
  intros [r b] n2 [Hr Hcb]. cbn in Hr, Hcb. subst r. change (HTTP_EOK =? HTTP_EOK) with true. cbn [negb].
  apply runs_ret. cbn [fst snd]. split_and!; [by destruct (code =? 200) | done | by rewrite Hcb, Hc, <- app_assoc].
Qed.

End Recv.

(** ** A server that sends in pieces *)

(** The first [first] bytes at once, the others [k] at a time. *)
Definition undelivered (answer : list char) (first k : Z) (t : trace) : list char :=
  fold_left (fun rem e => match e with
    | ERecv n => zdrop (Z.min n (if bool_decide (rem = answer) then first else k)) rem
    | _ => rem end) t answer.

Definition pieces (answer : list char) (first k : Z) : Network := {|
  net_getaddrinfo := fun _ _ _ => true;
  net_connect := fun _ _ _ => true;
  net_send := fun _ d => zlen d;
  net_recv := fun t n => Some (ztake (Z.min n (if bool_decide (undelivered answer first k t = answer) then first else k))
                                 (undelivered answer first k t))
|}.

Lemma pieces_stream answer first k : 0 < first -> 0 < k -> @stream (pieces answer first k) (undelivered answer first k).
Proof.
  intros Hf Hk. split. intros t n Hn. cbn. set (m := Z.min n _).
  assert (0 <= m <= n /\ (0 < n -> 0 < m)) as [Hm Hm0] by (unfold m; case_bool_decide; lia).
  eexists. split; [done|]. split; [|split].
  - assert (undelivered answer first k (t ++ [ERecv n]) = zdrop m (undelivered answer first k t)) as ->
      by (unfold undelivered; by rewrite fold_left_app).
    symmetry. apply ztake_zdrop.
  - unfold zlen, ztake. rewrite length_take. lia.
  - intros H0 E. specialize (Hm0 H0). apply (f_equal zlen) in E. destruct (undelivered _ _ _ _) as [|c l]; [done|].
    unfold zlen, ztake in E. rewrite length_take in E. cbn [length] in E. lia.
Qed.

Definition short_answer : text := c_lit "signed archive of the configuration".
Definition short_head : text := head_of (c_lit "/1.1") 200 (c_lit "OK") [c_lit "Server: test"; c_lit "Connection: close"].

Lemma httprecv_body_witness :
  let net := pieces (short_head ++ short_answer) (zlen short_head + 1) 7 in
  runs (@httprecv roomy net 100 (snd (@string_init roomy 64 64)) 0) [] (fun r _ =>
    fst (fst r) = HTTP_EOK /\ snd r = 200 /\ content (snd (fst r)) = short_answer).
Proof.
  intros net. pose proof (pieces_stream (short_head ++ short_answer) (zlen short_head + 1) 7 ltac:(done) ltac:(done)) as Hs.
  assert (good_head (c_lit "/1.1") 200 (c_lit "OK") [c_lit "Server: test"; c_lit "Connection: close"]) as Hh.
  { split.
    - split_and!; [by apply (bool_decide_unpack _) | by apply (bool_decide_unpack _) | by repeat constructor].
    - lia.
    - split; [by apply (bool_decide_unpack _) | by repeat constructor].
    - repeat constructor; try done; by apply (bool_decide_unpack _). }
  assert (good_str (snd (@string_init roomy 64 64))) as Hb.
  { split; [apply wf_init; unfold size_max; lia | cbn; unfold str_limit; lia..]. }
  assert (@net_recv net [] BUFSIZE = Some (short_head ++ ztake 1 short_answer)) as Er by (vm_compute; reflexivity).
  assert (s_length (snd (@string_init roomy 64 64)) + zlen short_answer < str_limit) as Hl by (vm_compute; reflexivity).
  pose proof (@httprecv_body roomy net roomy_enough _ Hs _ _ _ _ short_answer (ztake 1 short_answer) 100
    (snd (@string_init roomy 64 64)) 0 [] Hh eq_refl ltac:(done) Er Hb Hl) as Hr.
  eapply runs_weaken; [|apply Hr; cbn; lia]. intros r n (H1 & H2 & H3). split_and!; [exact H1 | exact H2 | rewrite H3; vm_compute; reflexivity].
Defined.
