(* ===== verification/Crypto.v ===== *)
(** * Keys, signatures, decryption and decompression: crypto.c and uncompress.c

    The functions around OpenSSL and zlib: which calls they make on which bytes,
    what they check, and what they leave in the caller's buffers.  The libraries
    themselves are the classes [OpenSSL] and [Zlib]. *)

From S2P Require Import Prelude CLib CString StrBuf.

(** ** The libraries *)

Class OpenSSL := {
  EVP_PKEY : Type;
  PEM_read_bio_PrivateKey : text -> option EVP_PKEY;
  PEM_read_bio_PUBKEY : text -> option EVP_PKEY;
  EVP_PKEY_size : EVP_PKEY -> Z;
  (** the BIO, digest and cipher contexts can be created and initialised *)
  EVP_contexts : bool;
  (** [EVP_VerifyFinal] after one update, with SHA-512: key, data, signature *)
  EVP_Verify : EVP_PKEY -> list char -> list char -> Z;
  (** RSA with OAEP padding: the size asked for first, then the plain text *)
  EVP_PKEY_decrypt_size : EVP_PKEY -> list char -> Z;
  EVP_PKEY_decrypt : EVP_PKEY -> list char -> option (list char);
  (** AES-256-CBC with padding, key and IV: what [Update] and [Final] deliver *)
  EVP_DecryptUpdate : list char -> list char -> list char -> option (list char);
  EVP_DecryptFinal_ex : list char -> list char -> list char -> option (list char)
}.

Definition EVP_MAX_BLOCK_LENGTH : Z := 32.
Definition AES_256_KEY_LENGTH : Z := 32.
Definition AES_IV_LENGTH : Z := 16.

Definition Z_STREAM_END : Z := 1.
Definition Z_NEED_DICT : Z := 2.
Definition Z_STREAM_ERROR : Z := -2.
Definition Z_DATA_ERROR : Z := -3.
Definition Z_MEM_ERROR : Z := -4.
Definition Z_BUF_ERROR : Z := -5.

Class Zlib := {
  inflateInit : bool;
  (** the calls [inflate (strm, Z_FINISH)] with 1024 bytes of output each: the
      bytes delivered and the result, until nothing more happens *)
  inflate : list char -> list (list char * Z)
}.

(** ** crypto.c *)

Section Crypto.
Context `{Allocator} `{OpenSSL}.

Definition crypto_load_key (key : text) (is_private : bool) : option EVP_PKEY :=
  if negb EVP_contexts then None
  else if is_private then PEM_read_bio_PrivateKey key else PEM_read_bio_PUBKEY key.

Definition crypto_rsa_verify_signature (databuffer signature : strbuf) (pubkey : text) : bool :=
  match crypto_load_key pubkey false with
  | None => false
  | Some pkey =>
      if negb EVP_contexts then false
      else
        let err := EVP_Verify pkey (content databuffer) (content signature) in
        if negb (err =? 1) then false else true
  end.

(** [out] written to the front of the buffer, which becomes its contents. *)
Definition fill_front (s : strbuf) (out : list char) : outcome strbuf :=
  match s_s s with
  | Some b => if zlen b <? zlen out then Undef
              else Ret (mkstr (zlen out) (s_size s) (s_growby s) (Some (bwrite 0 out b)))
  | None => match out with [] => Ret s | _ => Undef end
  end.

Definition crypto_rsa_decrypt (ciphertext : strbuf) (privkey : text) (decrypted : strbuf)
  : outcome (bool * strbuf) :=
  match crypto_load_key privkey true with
  | None => Ret (false, decrypted)
  | Some pkey =>
      if negb (s_length ciphertext =? EVP_PKEY_size pkey) then Ret (false, decrypted)
      else
        let '(_, decrypted) := string_init (EVP_PKEY_size pkey) 512 in
        if s_size decrypted <? EVP_PKEY_size pkey then Ret (false, decrypted)
        else if negb EVP_contexts then Ret (false, decrypted)
        else
          let len := EVP_PKEY_decrypt_size pkey (content ciphertext) in
          if negb (len =? s_length ciphertext) then Ret (false, decrypted)
          else
            match EVP_PKEY_decrypt pkey (content ciphertext) with
            | None => Ret (false, decrypted)
            | Some out => d ← fill_front decrypted out; Ret (true, d)
            end
  end.

(** The first [n] bytes behind a pointer, when they are there; a NULL key or IV
    is not read. *)
Definition bytes_at (s : strbuf) (n : Z) : outcome (list char) :=
  match string_get s with
  | Some b => if zlen b <? n then Undef else Ret (ztake n b)
  | None => Ret []
  end.

(** The context is initialised with the bytes of key and IV before their
    lengths are compared. *)
Definition crypto_aes_decrypt (ciphertext aes_key aes_iv decrypted : strbuf) : outcome (bool * strbuf) :=
  if negb EVP_contexts then Ret (false, decrypted)
  else
    key ← bytes_at aes_key AES_256_KEY_LENGTH;
    iv ← bytes_at aes_iv AES_IV_LENGTH;
    if negb (s_length aes_key =? AES_256_KEY_LENGTH) then Ret (false, decrypted)
    else if negb (s_length aes_iv =? AES_IV_LENGTH) then Ret (false, decrypted)
    else
      let decryptspace := s32 (s_length ciphertext + EVP_MAX_BLOCK_LENGTH) in
      let '(_, decrypted) := string_init (u64 decryptspace) 1024 in
      if s_size decrypted <? u64 decryptspace then Ret (false, decrypted)
      else
        match EVP_DecryptUpdate key iv (content ciphertext) with
        | None => Ret (false, decrypted)
        | Some out =>
            decrypted ← fill_front decrypted out;
            match EVP_DecryptFinal_ex key iv (content ciphertext) with
            | None => Ret (false, decrypted)
            | Some fin => d ← fill_front decrypted (out ++ fin); Ret (true, d)
            end
        end.

End Crypto.

(** ** uncompress.c *)

Section Uncompress.
Context `{Allocator} `{Zlib}.

(** The [do] loop: 1024 bytes of output in a call mean that there may be more.
    The result of [string_concatb] is not looked at. *)
Fixpoint inflate_loop (calls : list (list char * Z)) (uncompressed : strbuf) : outcome (bool * strbuf) :=
  let '(out, retval, rest) :=
    match calls with [] => ([], Z_BUF_ERROR, []) | (o, r) :: rest => (o, r, rest) end in
  if (retval =? Z_STREAM_ERROR) || (retval =? Z_NEED_DICT) || (retval =? Z_DATA_ERROR)
     || (retval =? Z_MEM_ERROR) then Ret (false, uncompressed)
  else
    '(_, uncompressed) ← string_concatb uncompressed out (zlen out);
    match calls with
    | _ :: calls' =>
        if zlen out =? 1024 then inflate_loop calls' uncompressed
        else Ret (retval =? Z_STREAM_END, uncompressed)
    | [] => Ret (retval =? Z_STREAM_END, uncompressed)
    end.

Definition uncompress_inflate (compressed uncompressed : strbuf) : outcome (bool * strbuf) :=
  if negb inflateInit then Ret (false, uncompressed)
  else inflate_loop (inflate (content compressed)) uncompressed.

End Uncompress.
