(* ===== verification/Sample.v ===== *)
(** * A concrete network for the evaluations

    Stand-ins for OpenSSL, zlib and the network, simple enough to run: ciphers and
    compression do nothing, and a signature is the key followed by the data it
    signs.  [served] is a network that answers one request with a given body. *)

From S2P Require Import Prelude CLib CString StrBuf StrSafe NumericHost PeerParser Config World Ar Http Crypto.

Definition toy_openssl : OpenSSL := {|
  EVP_PKEY := text;
  PEM_read_bio_PrivateKey := Some;
  PEM_read_bio_PUBKEY := Some;
  EVP_PKEY_size := fun _ => 50;
  EVP_contexts := true;
  EVP_Verify := fun key data signature => if bool_decide (signature = key ++ data) then 1 else 0;
  EVP_PKEY_decrypt_size := fun _ c => zlen c;
  EVP_PKEY_decrypt := fun _ c => Some c;
  EVP_DecryptUpdate := fun _ _ c => Some c;
  EVP_DecryptFinal_ex := fun _ _ _ => Some []
|}.

Definition toy_zlib : Zlib := {|
  inflateInit := true;
  inflate := fun c => [(c, Z_STREAM_END)]
|}.

Definition received_before (t : trace) : bool :=
  existsb (fun e => match e with ERecv _ => true | _ => false end) t.

(** The whole response in the first [recv]. *)
Definition served (response : list char) : Network := {|
  net_getaddrinfo := fun _ _ _ => true;
  net_connect := fun _ _ _ => true;
  net_send := fun _ d => zlen d;
  net_recv := fun t _ => Some (if received_before t then [] else response)
|}.

Definition plain_member (name : text) (data : list char) : member :=
  mkmember name false (c_lit "1400000000") (c_lit "0") (c_lit "0") (c_lit "100644") data.

Definition sample_keys : list char := [32; 16] ++ zrep 32 65 ++ zrep 16 66.
Definition sample_signkey : text := c_lit "PUBLIC".

(** The peers the backend publishes, and the signed archive that carries them. *)
Definition published : text := c_lit "[me]\nnetwork=172.31.1.0/24\n[alice]\ngatewayhost=alice.example.org\n".

Definition signed_archive (data signature : list char) : list char :=
  archive_of [plain_member (c_lit "chaosvpn-version") (c_lit "3");
              plain_member (c_lit "rsa") sample_keys;
              plain_member (c_lit "encrypted") data;
              plain_member (c_lit "signature") signature].

Definition http_ok (body : list char) : list char :=
  c_lit "HTTP/1.1 200 OK" ++ [13; 10] ++ [13; 10] ++ body.

Definition backend : Network := Eval vm_compute in
  served (http_ok (signed_archive published (sample_signkey ++ published))).

Definition key_file (s : text) : strbuf := mkstr (zlen s) (zlen s + 1) 64 (Some (s ++ [0])).

Definition update_config : config := Eval vm_compute in
  let c := @config_defaults roomy in
  let c := cset_peerid c (Some (c_lit "me")) in
  let c := cset_master_url c (Some (c_lit "http://vpn.example.org/config")) in
  let c := cset_base_path c (Some (c_lit "/etc/tinc/chaos")) in
  let c := cset_networkname c (Some (c_lit "chaos")) in
  let c := cset_vpn_ip c (Some (c_lit "172.31.1.1")) in
  let c := cset_routeadd c (Some (c_lit "route add %s dev $INTERFACE")) in
  let c := cset_routedel c (Some (c_lit "route del %s")) in
  let c := cset_ifconfig c (Some (c_lit "ifconfig $INTERFACE")) in
  let c := cset_tincd_version c (Some (c_lit "1.0.36")) in
  let c := cset_masterdata_signkey c (Some sample_signkey) in
  let c := cset_tmpconffile c (Some (c_lit "/var/lib/chaosvpn.conf")) in
  cset_privkey c (key_file (c_lit "PRIVATE")).

(** Every request is granted; there are no files yet. *)
Definition update_env : Environment :=
  granting (fun _ => None) (fun _ => None) (fun _ => None) (fun _ => None).

Definition user_agent_text : strbuf := key_file (c_lit "ChaosVPN/2.22").
