(* ===== verification/Request.v ===== *)
(** * Fetching and applying the network's configuration: main.c

    [main_request_config] downloads the archive, opens it and checks its
    signature; [main_fetch_and_apply_config] parses the result and writes the
    files of tincd.  The state is the configuration record, the peer heap and the
    buffer of the configuration applied last.  Log messages are not modelled. *)

From S2P Require Import Prelude CLib CString StrBuf StrFmt AddrMask PeerParser Config World Fs FsCopy Tinc Ar Http Crypto.

(** What an update works on. *)
Record update_state := mkupdate {
  us_config : config;
  us_heap : gmap nat peer_config;
  us_oldconfig : strbuf
}.

Section Request.
Context `{Allocator} `{Resolver} `{Environment} `{Network} `{OpenSSL} `{Zlib}.

(** The turns allowed to the loops over the network and over directories, the
    user agent, and the indeterminate value [httpres] has when the download ends
    before a status line was read. *)
Variable fuel : nat.
Variable HTTP_USER_AGENT : strbuf.
Variable httpres : Z.

(** The key and the IV behind the two length bytes; the results of the two
    copies are not looked at. *)
Definition split_keys (rsa_decrypted : strbuf) : outcome (option (strbuf * strbuf)) :=
  if s_length rsa_decrypted <? 2 then Ret None
  else
    let buf := default [] (string_get rsa_decrypted) in
    let b0 := s8 (nth 0 buf 0) in
    let b1 := s8 (nth 1 buf 0) in
    if negb (b0 =? 32) then Ret None
    else if negb (b1 =? 16) then Ret None
    else if s_length rsa_decrypted <? b0 + b1 + 2 then Ret None
    else
      '(_, aes_key) ← string_concatb (string_lazyinit 64) (zdrop 2 buf) b0;
      '(_, aes_iv) ← string_concatb (string_lazyinit 64) (zdrop (2 + b0) buf) b1;
      Ret (Some (aes_key, aes_iv)).

(** A member of the archive, decrypted. *)
Definition decrypted_member (archive : strbuf) (name : text) (encrypted aes_key aes_iv result : strbuf)
  : outcome (bool * strbuf * strbuf) :=
  '(ok, encrypted) ← ar_extract archive name encrypted;
  if negb ok then Ret (false, encrypted, result)
  else
    '(ok, result) ← crypto_aes_decrypt encrypted aes_key aes_iv result;
    Ret (ok, string_free encrypted, result).

(** The part behind the version: the signed configuration of the archive.
    -1 or 1, and [*http_response]. *)
Definition open_archive (config : config) (signkey : text) (archive http_response : strbuf)
  : outcome (Z * strbuf) :=
  '(ok, encrypted) ← ar_extract archive (c_lit "rsa") (string_lazyinit 8192);
  if negb ok then Ret (-1, http_response)
  else
    privkey ← cstr_of (cf_privkey config);
    '(ok, rsa_decrypted) ← crypto_rsa_decrypt encrypted privkey (string_lazyinit 1024);
    if negb ok then Ret (-1, http_response)
    else
      let encrypted := string_free encrypted in
      keys ← split_keys rsa_decrypted;
      match keys with
      | None => Ret (-1, http_response)
      | Some (aes_key, aes_iv) =>
          '(ok, encrypted, compressed) ←
            decrypted_member archive (c_lit "encrypted") encrypted aes_key aes_iv (string_lazyinit 8192);
          if negb ok then Ret (-1, http_response)
          else
            '(ok, http_response) ← uncompress_inflate compressed http_response;
            if negb ok then Ret (-1, http_response)
            else
              '(ok, _, signature) ←
                decrypted_member archive (c_lit "signature") encrypted aes_key aes_iv (string_lazyinit 1024);
              if negb ok then Ret (-1, http_response)
              else if crypto_rsa_verify_signature http_response signature signkey then Ret (1, http_response)
              else Ret (-1, http_response)
      end.

(** What is done with the downloaded bytes. *)
Definition use_archive (config : config) (archive http_response : strbuf) : outcome (Z * strbuf) :=
  if negb (ar_is_ar_file archive) then
    if str_is_empty (cf_masterdata_signkey config) then
      let '(_, http_response) := string_move archive in Ret (1, http_response)
    else Ret (-1, http_response)
  else
    '(ok, version) ← ar_extract archive (c_lit "chaosvpn-version") (string_lazyinit 16);
    if negb ok then Ret (-1, http_response)
    else
      '(_, version) ← string_ensurez version;
      v ← cstr_of version;
      if negb (strcmp v (c_lit "3") =? 0) then Ret (-1, http_response)
      else
        if str_is_empty (cf_masterdata_signkey config) then
          '(ok, http_response) ← ar_extract archive (c_lit "cleartext") http_response;
          Ret (if negb ok then -1 else 1, http_response)
        else
          signkey ← deref (cf_masterdata_signkey config);
          open_archive config signkey archive http_response.

(** The address asked for.  A format that cannot be rendered leaves what was
    written so far. *)
Definition config_url (config : config) : outcome strbuf :=
  let '(_, httpurl) := string_init 512 128 in
  '(_, httpurl) ← string_concat_sprintf httpurl (c_lit "%s?id=%s")
     [AStr (cf_master_url config); AStr (cf_peerid config)];
  Ret httpurl.

(** -1: error, 0: not modified, 1: success; [ifmodifiedsince] moves with every
    download that succeeds, before the data is checked. *)
Definition main_request_config (config : config) (http_response : strbuf) : io (Z * Config.config * strbuf) :=
  startfetchtime ← sys_time;
  httpurl ← lift (config_url config);
  let '(_, archive) := string_init 8192 8192 in
  '(httpretval, archive, httpres) ←
    http_get fuel httpurl archive (cf_ifmodifiedsince config) HTTP_USER_AGENT httpres;
  let finish (retval : Z) (config : Config.config) (http_response : strbuf) : io (Z * Config.config * strbuf) :=
    '(_, http_response) ← lift (string_ensurez http_response);
    mret (retval, config, http_response) in
  if negb (httpretval =? HTTP_EOK) then
    if httpretval =? HTTP_ESRVERR then
      finish (if httpres =? 304 then 0 else -1) config http_response
    else if httpretval =? HTTP_EINVURL then io_exit 1
    else finish (-1) config http_response
  else
    let config := cset_ifmodifiedsince config startfetchtime in
    '(retval, http_response) ← lift (use_archive config archive http_response);
    finish retval config http_response.

(** The loop over the peers: the last one with our name. *)
Fixpoint find_my_peer (heap : gmap nat peer_config) (l : list (option nat)) (peerid : cptr)
    (my_peer : option nat) : outcome (option nat) :=
  match l with
  | [] => Ret my_peer
  | o :: l =>
      p ← peer_at heap o;
      mine ← ptr_eq (pc_name p) peerid;
      find_my_peer heap l peerid (if mine : bool then o else my_peer)
  end.

(** The peers are appended to what the list holds already; [my_peer] keeps its
    value when no peer has our name. *)
Definition main_parse_config (config : config) (heap : gmap nat peer_config) (http_response : strbuf)
  : outcome (bool * Config.config * gmap nat peer_config) :=
  data ← cstr_of http_response;
  '(ok, st) ← parser_parse_config data (cf_peer_config config) heap;
  let config := cset_peer_config config (p_list st) in
  if negb ok then Ret (false, config, p_heap st)
  else
    my_peer ← find_my_peer (p_heap st) (p_list st) (cf_peerid config) (cf_my_peer config);
    Ret (match my_peer with Some _ => true | None => false end, cset_my_peer config my_peer, p_heap st).

Definition main_free_parsed_info (config : config) (heap : gmap nat peer_config)
  : outcome (Config.config * gmap nat peer_config) :=
  heap ← parser_free_config (cf_peer_config config) heap;
  Ret (cset_peer_config config [], heap).

Definition main_tempsave_fetched_config (config : config) (cnf : strbuf) : io strbuf :=
  if str_is_empty (cf_tmpconffile config) then mret cnf
  else
    file ← lift (deref (cf_tmpconffile config));
    '(_, cnf) ← lift (string_ensurez cnf);
    ok ← fs_writecontents file (default [] (string_get cnf)) (s_length cnf) 384;
    if negb ok then _ ← sys_unlink file; mret cnf else mret cnf.

Definition main_load_previous_config (config : config) (cnf : strbuf) : io (bool * strbuf) :=
  if str_is_empty (cf_tmpconffile config) then mret (false, cnf)
  else
    file ← lift (deref (cf_tmpconffile config));
    '(ok, cnf) ← fs_read_file cnf file;
    let cnf := if negb ok then string_clear cnf else cnf in
    '(_, cnf) ← lift (string_ensurez cnf);
    mret (ok, cnf).

Definition main_create_backup (config : config) : io bool :=
  let '(ok, base_backup_fn) := string_init 512 512 in
  if negb ok then mret false
  else
    base_path ← lift (deref (cf_base_path config));
    '(ok, base_backup_fn) ← lift (string_concat base_backup_fn base_path);
    if negb ok then mret false
    else
      '(ok, base_backup_fn) ← lift (string_concat base_backup_fn (c_lit ".old"));
      if negb ok then mret false
      else
        '(_, base_backup_fn) ← lift (string_ensurez base_backup_fn);
        dest ← lift (cstr_of base_backup_fn);
        fs_cp_r fuel base_path dest.

Definition main_cleanup_hosts_subdir (config : config) : io bool :=
  let '(ok, hosts_dir) := string_init 512 512 in
  if negb ok then mret false
  else
    base_path ← lift (deref (cf_base_path config));
    '(ok, hosts_dir) ← lift (string_concat hosts_dir base_path);
    if negb ok then mret false
    else
      '(ok, hosts_dir) ← lift (string_concat hosts_dir (c_lit "/hosts"));
      if negb ok then mret false
      else dest ← lift (cstr_of hosts_dir); fs_empty_dir dest.

(** The files of tincd, in the order of the code, up to the first failure. *)
Definition write_tinc_files (config : config) (heap : gmap nat peer_config) : io bool :=
  ok ← tinc_write_config config heap;
  if negb ok then mret false
  else
    ok ← tinc_write_hosts config heap;
    if negb ok then mret false
    else
      ok ← tinc_write_updown config heap true;
      if negb ok then mret false
      else
        ok ← tinc_write_updown config heap false;
        if negb ok then mret false
        else
          ok ← tinc_write_subnetupdown config true;
          if negb ok then mret false
          else tinc_write_subnetupdown config false.

(** From the comparison with the configuration applied last. *)
Definition apply_config (st : update_state) (http_response : strbuf) : io (Z * update_state) :=
  if string_equals false http_response (us_oldconfig st) then mret (0, st)
  else
    '(ok, config, heap) ← lift (main_parse_config (us_config st) (us_heap st) http_response);
    if negb ok then mret (-1, mkupdate config heap (us_oldconfig st))
    else
      http_response ← main_tempsave_fetched_config config http_response;
      let '(_, oldconfig) := string_move http_response in
      let st := mkupdate config heap oldconfig in
      _ ← main_create_backup config;
      ok ← main_cleanup_hosts_subdir config;
      if negb ok then mret (-1, st)
      else
        ok ← write_tinc_files config heap;
        if negb ok then mret (-1, st)
        else
          '(config, heap) ← lift (main_free_parsed_info config heap);
          mret (1, mkupdate config heap oldconfig).

(** -1: error, 0: not changed, 1: applied. *)
Definition main_fetch_and_apply_config (st : update_state) : io (Z * update_state) :=
  let '(_, http_response) := string_init 4096 512 in
  '(err, config, http_response) ← main_request_config (us_config st) http_response;
  let st := mkupdate config (us_heap st) (us_oldconfig st) in
  if err <? 1 then
    let http_response := string_free http_response in
    '(ok, http_response) ← main_load_previous_config config http_response;
    if negb ok then mret (-1, st) else apply_config st http_response
  else apply_config st http_response.

End Request.
