(* ===== verification/Worker.v ===== *)
(** * The worker that owns tincd: main.c

    A process of its own that keeps root's rights, starts and stops tincd on
    commands of one byte, and restarts it when it ends.  The signal handlers and
    the command branch of its [select] loop are the steps of [worker_step]; a handler
    that interrupts another step is not modelled.  The branch for the stderr of tincd
    shares no state with them but [di_stderr], and is the loop [stderr_turns]. *)

From S2P Require Import Prelude CLib CString StrBuf StrNatCmp Config World Tinc Daemon.

Definition HANDLER_START_TINCD : Z := 0.
Definition HANDLER_RESTART_TINCD : Z := 1.
Definition HANDLER_STOP : Z := 2.
Definition HANDLER_SIGNAL_OLD_TINCD : Z := 3.

Section Worker.
Context `{Allocator} `{Environment}.
Variable config : config.

Definition main_unlink_pidfile : io unit :=
  if str_is_empty (cf_tincd_pidfile config) then mret tt
  else file ← lift (deref (cf_tincd_pidfile config)); _ ← sys_unlink file; mret tt.

Definition main_terminate_old_tincd : io unit :=
  pid ← tinc_get_pid config;
  if pid =? 0 then mret tt
  else
    _ ← sys_kill pid SIGTERM;
    _ ← sys_sleep 2;
    errno ← sys_kill pid SIGKILL;
    if errno =? 0 then main_unlink_pidfile else mret tt.

(** The variable arguments of a call end at the first NULL. *)
Fixpoint varargs (l : list cptr) : list text :=
  match l with Some a :: l => a :: varargs l | _ => [] end.

(** The child's part of [fire_up_tincd_handler] up to its loop; the results of
    [daemon_init] and [daemon_addparam] are not looked at. *)
Definition worker_init : outcome daemon_info :=
  let tincd_debugparam := snprintf 32 (c_lit "--debug=" ++ dec (u32 (cf_tincd_debuglevel config))) in
  bin ← deref (cf_tincd_bin config);
  let '(_, di) := daemon_init bin
     (varargs [cf_tincd_bin config; Some (c_lit "-n"); cf_networkname config; Some tincd_debugparam]) in
  '(_, di) ← (if negb (cf_oneshot config) then daemon_addparam di (c_lit "-D") else Ret (true, di));
  match cf_tincd_user config with
  | None => Ret di
  | Some user =>
      '(_, di) ← daemon_addparam di (c_lit "--user");
      '(_, di) ← daemon_addparam di user;
      Ret di
  end.

(** The handler of SIGTERM and SIGINT. *)
Definition sigterm (di : daemon_info) : io daemon_info :=
  _ ← sys_signal_ignore SIGCHLD;
  _ ← daemon_stop di 5;
  io_exit 1.

Definition WIFEXITED (status : Z) : bool := Z.land status 127 =? 0.
Definition WEXITSTATUS (status : Z) : Z := Z.land (Z.shiftr status 8) 255.

(** The handler of SIGCHLD. *)
Definition sigchild (di : daemon_info) : io daemon_info :=
  '(pid, status) ← sys_waitpid (-1);
  if (pid =? 0) || (pid =? -1) then mret di
  else if pid =? di_pid di then
    _ ← tinc_invoke_ifdown config;
    if WIFEXITED status && (WEXITSTATUS status =? 1) then io_exit 1
    else
      _ ← (if negb (cf_tincd_restart_delay config =? 0)
           then sys_sleep (cf_tincd_restart_delay config) else mret tt);
      '(ok, di) ← daemon_start di;
      if negb ok then io_exit 1 else mret di
  else mret di.

(** The [switch] on the byte read; another value does nothing. *)
Definition handle_command (di : daemon_info) (foo : Z) : io daemon_info :=
  if foo =? HANDLER_START_TINCD then
    '(ok, di) ← daemon_start di;
    if negb ok then io_exit 1
    else if cf_oneshot config then io_exit 0
    else mret di
  else if foo =? HANDLER_RESTART_TINCD then
    _ ← daemon_stop di 5;
    _ ← tinc_invoke_ifdown config;
    mret di
  else if foo =? HANDLER_STOP then
    _ ← sys_signal_ignore SIGCHLD;
    _ ← tinc_invoke_ifdown config;
    _ ← daemon_stop di 5;
    io_exit 0
  else if foo =? HANDLER_SIGNAL_OLD_TINCD then
    _ ← main_terminate_old_tincd;
    mret di
  else mret di.

(** *** The log of tincd's stderr *)

(** The array [stderr_buffer], the bytes the FILE [di_stderr] has read and not yet
    handed out, and what the calls of [read] on the pipe will deliver, in order: an
    empty piece is the end of the file, which stays; behind the last piece nothing
    more arrives. *)
Record log_state := mklog { stderr_buffer : text; file_buffer : list char; arriving : list (list char) }.

(** At most [room] characters up to a newline; whether this ends the line or fills
    the room. *)
Fixpoint take_line (room : nat) (s : list char) : list char * list char * bool :=
  match room with
  | O => ([], s, true)
  | S room =>
      match s with
      | [] => ([], [], false)
      | c :: s =>
          if c =? 10 then ([c], s, true)
          else let '(l, rest, ended) := take_line room s in (c :: l, rest, ended)
      end
  end.

(** A string and what is left; the end of the file with nothing read: NULL; a call
    that does not return.  The descriptor blocks: the [fcntl] calls of [daemon_start]
    lack F_SETFL and set no flag. *)
Inductive fgets_result :=
| Got (s : list char) (file_buffer : list char) (arriving : list (list char))
| Eof
| Blocks.

(** [fgets (s, room + 1, stream)], [sofar] stored already. *)
Fixpoint fgets (room : nat) (file_buffer : list char) (arriving : list (list char)) (sofar : list char) : fgets_result :=
  let '(l, rest, ended) := take_line room file_buffer in
  let sofar := sofar ++ l in
  if ended : bool then Got sofar rest arriving
  else
    match arriving with
    | [] => Blocks
    | [] :: _ => match sofar with [] => Eof | _ => Got sofar [] arriving end
    | piece :: more => fgets (room - length l) piece more sofar
    end.

(** The loop over the newlines: the lines logged and what stays. *)
Fixpoint log_lines (fuel : nat) (stderr_buffer : text) : list text * text :=
  match fuel with
  | O => ([], stderr_buffer)
  | S fuel =>
      match strchr stderr_buffer 10 with
      | None => ([], stderr_buffer)
      | Some (line, rest) =>
          let '(ls, kept) := log_lines fuel (zdrop 1 rest) in (line :: ls, kept)
      end
  end.

Definition STDERR_BUFFER : Z := 1024.

(** The stderr branch: the lines logged and the new state; [None]: it hangs in
    [fgets]. *)
Definition worker_stderr (st : log_state) : option (list text * log_state) :=
  let len := strlen (stderr_buffer st) in
  match fgets (Z.to_nat (STDERR_BUFFER - len - 1) - 1) (file_buffer st) (arriving st) [] with
  | Blocks => None
  | Eof => Some ([], st)
  | Got got rest arriving =>
      let b := stderr_buffer st ++ take_until (fun c => c =? 0) got in
      let '(ls, b) := log_lines (length b) b in Some (ls, mklog b rest arriving)
  end.

(** What [select] reports: there is something to [read], be it the end of the file.
    The bytes in the buffer of the FILE do not count. *)
Definition stderr_readable (st : log_state) : bool := match arriving st with [] => false | _ => true end.

(** [n] turns of the [for (;;)] loop on this stream; commands and signals in between
    do not touch it.  A stream that is not readable is waited for. *)
Fixpoint stderr_turns (n : nat) (st : log_state) : option (list text * log_state) :=
  match n with
  | O => Some ([], st)
  | S n =>
      if negb (stderr_readable st) then Some ([], st)
      else
        match worker_stderr st with
        | None => None
        | Some (ls, st) =>
            match stderr_turns n st with
            | None => None
            | Some (more, st) => Some (ls ++ more, st)
            end
        end
  end.

(** *** The steps *)

Inductive worker_event :=
| WCommand (foo : option Z)     (** the pipe: a byte, or a failed [read] *)
| WChild                        (** SIGCHLD *)
| WTerm.                        (** SIGTERM or SIGINT *)

(** After a failed [read] the handler is called, which does not return. *)
Definition worker_step (di : daemon_info) (e : worker_event) : io daemon_info :=
  match e with
  | WCommand (Some foo) => handle_command di foo
  | WCommand None => sigterm di
  | WChild => sigchild di
  | WTerm => sigterm di
  end.

Fixpoint worker_run (di : daemon_info) (es : list worker_event) : io daemon_info :=
  match es with
  | [] => mret di
  | e :: es => di ← worker_step di e; worker_run di es
  end.

End Worker.
