(* ===== verification/WorkerLog.v ===== *)
(** * The log lines of tincd

    The worker reads the stderr of tincd through a FILE into a buffer of fixed size
    and logs complete lines.  Here the turns of its loop are put together: nothing is
    lost or reordered, one line is logged in a turn, and at the end of the file all
    lines are.  Before that lines can be late, since the loop waits for the descriptor
    and not for the FILE, and the worker can hang in the middle of a line. *)

From S2P Require Import Prelude CLib CString Worker.

(** ** Lines *)

(** The complete lines of a text, and what is behind the last newline. *)
Fixpoint split_lines (s : list char) : list text * text :=
  match s with
  | [] => ([], [])
  | c :: s =>
      let '(ls, r) := split_lines s in
      if c =? 10 then ([] :: ls, r)
      else match ls with [] => ([], c :: r) | l :: ls => ((c :: l) :: ls, r) end
  end.

(** A line of this length fits into the buffer with its newline. *)
Definition room : nat := 1021.

Lemma split_lines_none l : 10 ∉ l -> split_lines l = ([], l).
Proof.
  induction l as [|c l IH]; [done|]. intros [Hc Hl]%not_elem_of_cons. cbn [split_lines]. rewrite IH by done.
  by rewrite (proj2 (Z.eqb_neq c 10)) by congruence.
Qed.

Lemma split_lines_line l s : 10 ∉ l -> split_lines (l ++ 10 :: s) = (l :: fst (split_lines s), snd (split_lines s)).
Proof.
  induction l as [|c l IH]; cbn [app split_lines]; [by destruct (split_lines s)|]. intros [Hc Hl]%not_elem_of_cons.
  rewrite IH by done. by rewrite (proj2 (Z.eqb_neq c 10)) by congruence.
Qed.

Lemma first_line (s : list char) : 10 ∉ s \/ exists l r, s = l ++ 10 :: r /\ 10 ∉ l.
Proof.
  induction s as [|c s IH]; [left; apply not_elem_of_nil|]. destruct (decide (c = 10)) as [-> | Hc]; [right; exists [], s; split; [done | apply not_elem_of_nil]|].
  destruct IH as [Hs | (l & r & -> & Hl)]; [left | right; exists (c :: l), r; split; [done|]]; apply not_elem_of_cons; by split.
Qed.

Lemma split_lines_rest s : 10 ∉ snd (split_lines s).
Proof.
  induction s as [|c s IH]; [apply not_elem_of_nil|]. cbn [split_lines]. destruct (split_lines s) as [ls r]. cbn [snd] in IH.
  destruct (Z.eqb_spec c 10); [done|]. destruct ls; cbn [snd]; [|done]. apply not_elem_of_cons. by split.
Qed.

(** The lines with their newlines. *)
Definition unlines_of (ls : list text) : list char := concat (map (fun l => l ++ [10]) ls).

Lemma split_lines_whole s : unlines_of (fst (split_lines s)) ++ snd (split_lines s) = s.
Proof.
  induction s as [|c s IH]; [done|]. cbn [split_lines]. destruct (split_lines s) as [ls r]. cbn [fst snd] in IH.
  unfold unlines_of in *. destruct (Z.eqb_spec c 10) as [-> |]; [cbn; by f_equal|].
  destruct ls as [|l ls]; cbn in *; by f_equal.
Qed.

(** ** One call of fgets *)

Lemma take_until_no_nul (s : list char) : 0 ∉ s -> take_until (fun c => c =? 0) s = s.
Proof.
  induction s as [|c s IH]; [done|]. intros [Hc Hs]%not_elem_of_cons. cbn [take_until].
  rewrite (proj2 (Z.eqb_neq c 0)) by congruence. by rewrite IH.
Qed.

Lemma log_lines_none fuel b : 10 ∉ b -> log_lines fuel b = ([], b).
Proof. intros Hb. destruct fuel; [done|]. cbn [log_lines]. by rewrite (proj2 (strchr_None b 10) Hb). Qed.

Lemma log_lines_one fuel l : 10 ∉ l -> log_lines (S fuel) (l ++ [10]) = ([l], []).
Proof.
  intros Hl. cbn [log_lines]. rewrite strchr_app by done. change (zdrop 1 (10 :: [])) with (@nil char).
  by rewrite log_lines_none by apply not_elem_of_nil.
Qed.

(** What is taken off a buffer: a line, the room, or all of it. *)
Lemma take_line_spec room s : exists l rest ended, take_line room s = (l, rest, ended) /\ s = l ++ rest /\
  match ended with
  | true => (exists k, l = k ++ [10] /\ 10 ∉ k /\ (length k < room)%nat) \/ (10 ∉ l /\ length l = room)
  | false => rest = [] /\ 10 ∉ l /\ (length l < room)%nat
  end.
Proof.
  revert s; induction room as [|room IH]; intros s; cbn [take_line].
  { exists [], s, true. split_and!; [done | done |]. right. split; [apply not_elem_of_nil | done]. }
  destruct s as [|c s]; [exists [], [], false; split_and!; [done | done | done | apply not_elem_of_nil | cbn; lia]|].
  destruct (Z.eqb_spec c 10) as [-> | Hc].
  { exists [10], s, true. split_and!; [done | done |]. left. exists []. split_and!; [done | apply not_elem_of_nil | cbn; lia]. }
  destruct (IH s) as (l & rest & ended & -> & -> & Hl). exists (c :: l), rest, ended. split_and!; [done | done |].
  destruct ended.
  - destruct Hl as [(k & -> & Hk & Hlen)|[Hk Hlen]]; [left; exists (c :: k) | right]; split_and!; cbn; try done; try lia;
      by apply not_elem_of_cons.
  - destruct Hl as (-> & Hk & Hlen). split_and!; [done | by apply not_elem_of_cons | cbn; lia].
Qed.

(** What is handed out comes off the front, and holds a newline only at its end. *)
Lemma fgets_takes arr : forall room file sofar got rest arr', 10 ∉ sofar ->
  fgets room file arr sofar = Got got rest arr' ->
  exists k, got = sofar ++ k /\ file ++ concat arr = k ++ rest ++ concat arr' /\
    (10 ∉ got \/ exists l, got = l ++ [10] /\ 10 ∉ l).
Proof.
  induction arr as [|piece arr IH]; intros room file sofar got rest arr' Hs; cbn [fgets concat];
    destruct (take_line_spec room file) as (l & r & ended & -> & -> & Hl); destruct ended; try done.
  1-2: intros [= <- <- <-]; exists l; split_and!; [done | by rewrite <- app_assoc |];
    destruct Hl as [(k & -> & Hk & _)|[Hk _]]; [right; exists (sofar ++ k); split; [by rewrite app_assoc|] | left];
    by rewrite elem_of_app; intros [? | ?].
  destruct Hl as (-> & Hk & Hlen). assert (10 ∉ sofar ++ l) as Hsl by (by rewrite elem_of_app; intros [? | ?]).
  destruct piece as [|c piece].
  - destruct (sofar ++ l) as [|x y] eqn:E; [done|]. intros [= <- <- <-]. exists l. rewrite <- E in *.
    split_and!; [done | by rewrite app_nil_r | by left].
  - intros E. destruct (IH _ _ _ _ _ _ Hsl E) as (k & -> & Ek & Hg). exists (l ++ k).
    split_and!; [by rewrite app_assoc | by rewrite app_nil_r, <- app_assoc, <- Ek | done].
Qed.

(** The line that ends at the next newline, when there is room for it. *)
Lemma fgets_line pieces : forall room file sofar k s, file ++ concat pieces = k ++ 10 :: s -> 10 ∉ k ->
  (length k < room)%nat -> Forall (fun p => p <> []) pieces ->
  exists rest pieces', fgets room file (pieces ++ [[]]) sofar = Got (sofar ++ k ++ [10]) rest (pieces' ++ [[]]) /\
    rest ++ concat pieces' = s /\ Forall (fun p => p <> []) pieces'.
Proof.
  induction pieces as [|piece pieces IH]; intros room file sofar k s E Hk Hlen Hp; cbn [app concat] in *.
  - rewrite app_nil_r in E. subst file. exists s, []. cbn [fgets app].
    assert (take_line room (k ++ 10 :: s) = (k ++ [10], s, true)) as ->; [|by rewrite app_nil_r].
    clear sofar. revert room Hlen; induction k as [|c k IHk]; intros [|room] Hlen; cbn in Hlen; try lia; [done|].
    apply not_elem_of_cons in Hk as [Hc Hk]. cbn [take_line app]. rewrite (proj2 (Z.eqb_neq c 10)) by congruence.
    by rewrite IHk by (done || lia).
  - apply list.Forall_cons in Hp as [Hne Hp]. cbn [fgets].
    destruct (take_line_spec room file) as (l & r & ended & -> & -> & Hl). destruct ended.
    + destruct Hl as [(k' & -> & Hk' & _)|[Hl Hlen']].
      * assert (k' = k /\ r ++ piece ++ concat pieces = s) as [-> <-].
        { rewrite <- !app_assoc in E. cbn [app] in E. clear -E Hk Hk'. revert k E Hk; induction k' as [|c k' IH]; intros [|c' k] E Hk; cbn in E.
          - by injection E.
          - injection E as <- E. apply not_elem_of_cons in Hk as [Hk _]. done.
          - injection E as -> E. apply not_elem_of_cons in Hk' as [Hk' _]. done.
          - injection E as <- E. apply not_elem_of_cons in Hk' as [_ Hk']. apply not_elem_of_cons in Hk as [_ Hk].
            destruct (IH Hk' k E Hk) as [-> ->]. done. }
        exists r, (piece :: pieces). cbn [app concat]. by split_and!; [|  | apply list.Forall_cons].
      * exfalso. clear -E Hl Hlen' Hlen. subst room. rewrite <- app_assoc in E. revert k E Hlen.
        induction l as [|c l IH]; intros [|c' k] E Hlen; cbn in *; try lia.
        -- injection E as -> E. apply not_elem_of_cons in Hl as [Hl _]. done.
        -- injection E as <- E. apply not_elem_of_cons in Hl as [_ Hl]. apply (IH Hl k E). lia.
    + destruct Hl as (-> & Hl & Hlen'). rewrite app_nil_r in E.
      assert (exists k', k = l ++ k' /\ piece ++ concat pieces = k' ++ 10 :: s) as (k' & -> & E').
      { clear -E Hl. revert k E; induction l as [|c l IH]; intros k E; [by exists k|].
        destruct k as [|c' k]; cbn in E; injection E as -> E.
        - apply not_elem_of_cons in Hl as [Hl _]. done.
        - apply not_elem_of_cons in Hl as [_ Hl]. destruct (IH Hl k E) as (k' & -> & E'). by exists k'. }
      rewrite length_app in Hlen. apply not_elem_of_app in Hk as [_ Hk'].
      destruct (IH (room - length l)%nat piece (sofar ++ l) k' s E' Hk') as (rest & pieces' & Ef & Er & Hp'); [lia | done|].
      exists rest, pieces'. split_and!; [|done..].
      destruct piece as [|c piece]; [done|]. rewrite Ef. by rewrite <- !app_assoc.
Qed.

(** All that is left, when there is no newline any more. *)
Lemma fgets_rest pieces : forall room file sofar, 10 ∉ file ++ concat pieces ->
  (length (file ++ concat pieces) < room)%nat -> Forall (fun p => p <> []) pieces ->
  fgets room file (pieces ++ [[]]) sofar =
    match sofar ++ file ++ concat pieces with [] => Eof | got => Got got [] [[]] end.
Proof.
  induction pieces as [|piece pieces IH]; intros room file sofar Hn Hlen Hp; cbn [app concat] in *; cbn [fgets];
    destruct (take_line_spec room file) as (l & r & ended & -> & -> & Hl).
  all: destruct ended; [exfalso; destruct Hl as [(k & -> & _)|[_ Hl]]; [set_solver | rewrite !length_app in Hlen; lia]|].
  all: destruct Hl as (-> & _ & _); rewrite !app_nil_r in *.
  - by destruct (sofar ++ l).
  - apply list.Forall_cons in Hp as [Hne Hp]. destruct piece as [|c piece]; [done|].
    rewrite IH; [by rewrite <- app_assoc | by apply not_elem_of_app in Hn as [_ Hn] | rewrite length_app in Hlen; lia | done].
Qed.

(** ** One turn *)

(** The bytes not yet logged, in their order. *)
Definition unlogged (st : log_state) : list char := stderr_buffer st ++ file_buffer st ++ concat (arriving st).

(** A turn takes at most one line off what is not yet logged. *)
Lemma turn_keeps st ls st' :
  10 ∉ stderr_buffer st -> 0 ∉ unlogged st -> worker_stderr st = Some (ls, st') ->
  unlines_of ls ++ unlogged st' = unlogged st /\ 10 ∉ stderr_buffer st' /\ Forall (fun l => 10 ∉ l) ls /\ (length ls <= 1)%nat.
Proof.
  intros Hb H0 E. destruct st as [b file arr]. unfold unlogged, worker_stderr in *. cbn [stderr_buffer file_buffer arriving] in *.
  set (room := (Z.to_nat _ - 1)%nat) in E. destruct (fgets room file arr []) as [got rest arr'| |] eqn:Ef; [|by injection E as <- <-; split_and!; [| |constructor|cbn; lia]|done].
  destruct (fgets_takes _ _ _ _ _ _ _ (not_elem_of_nil 10) Ef) as (k & -> & Ek & Hg). cbn [app] in *.
  rewrite Ek in H0 |- *. apply not_elem_of_app in H0 as [_ [H0 _]%not_elem_of_app].
  rewrite take_until_no_nul in E by done. destruct Hg as [Hk|(l & -> & Hl)].
  - rewrite log_lines_none in E by (by rewrite elem_of_app; intros [? | ?]). injection E as <- <-. cbn.
    split_and!; [by rewrite <- app_assoc | by rewrite elem_of_app; intros [? | ?] | constructor | lia].
  - rewrite app_assoc in E. destruct (length ((b ++ l) ++ [10])) as [|n] eqn:En; [rewrite length_app in En; cbn in En; lia|].
    assert (10 ∉ b ++ l) as Hbl by (by rewrite elem_of_app; intros [? | ?]).
    rewrite log_lines_one in E by done. injection E as <- <-. cbn [stderr_buffer file_buffer arriving app length].
    split_and!; [unfold unlines_of; cbn; by rewrite app_nil_r, <- !app_assoc | apply not_elem_of_nil | by apply list.Forall_singleton | lia].
Qed.

(** ** All turns *)

Lemma turns_none n st : 10 ∉ stderr_buffer st ->
  unlines_of [] ++ unlogged st = unlogged st /\ 10 ∉ stderr_buffer st /\ Forall (fun l : text => 10 ∉ l) [] /\ (length (@nil text) <= n)%nat.
Proof. intros Hb. split_and!; [done.. | constructor | cbn; lia]. Qed.

Lemma turns_keep n : forall st ls st', 10 ∉ stderr_buffer st -> 0 ∉ unlogged st -> stderr_turns n st = Some (ls, st') ->
  unlines_of ls ++ unlogged st' = unlogged st /\ 10 ∉ stderr_buffer st' /\ Forall (fun l => 10 ∉ l) ls /\ (length ls <= n)%nat.
Proof.
  induction n as [|n IH]; intros st ls st' Hb H0 E; cbn [stderr_turns] in E; [injection E as <- <-; by apply turns_none|].
  destruct (negb _); [injection E as <- <-; by apply turns_none|].
  destruct (worker_stderr st) as [[l1 st1]|] eqn:E1; [|done]. destruct (turn_keeps _ _ _ Hb H0 E1) as (Hu1 & Hb1 & Hl1 & Hn1).
  destruct (stderr_turns n st1) as [[l2 st2]|] eqn:E2; [|done]. injection E as <- <-.
  assert (0 ∉ unlogged st1) as H01 by (rewrite <- Hu1 in H0; by apply not_elem_of_app in H0 as [_ H0]).
  destruct (IH _ _ _ Hb1 H01 E2) as (Hu2 & Hb2 & Hl2 & Hn2). split_and!; [| done | by apply Forall_app | rewrite length_app; lia].
  unfold unlines_of in *. rewrite map_app, concat_app, <- app_assoc. by rewrite Hu2.
Qed.

(** Up to the end of the file: one line in a turn. *)
Lemma turns_all ls : forall n r b file pieces, 10 ∉ b -> 0 ∉ b ++ file ++ concat pieces ->
  split_lines (b ++ file ++ concat pieces) = (ls, r) -> Forall (fun l : text => length l <= room)%nat ls -> (length r <= room)%nat ->
  Forall (fun p => p <> []) pieces -> (length ls < n)%nat ->
  stderr_turns n (mklog b file (pieces ++ [[]])) = Some (ls, mklog r [] [[]]).
Proof.
  assert (forall n r, (length r <= room)%nat -> 10 ∉ r -> stderr_turns n (mklog r [] [[]]) = Some ([], mklog r [] [[]])) as Hend.
  { induction n as [|n IH]; intros r Hr Hn; [done|]. cbn [stderr_turns stderr_readable arriving negb].
    unfold worker_stderr. cbn [stderr_buffer file_buffer arriving].
    rewrite (fgets_rest [] _ [] []) by (try apply not_elem_of_nil; try constructor; unfold STDERR_BUFFER, strlen, room in *; cbn; zlia).
    cbn [app concat]. by rewrite IH. }
  assert (forall n b file pieces, stderr_turns (S n) (mklog b file (pieces ++ [[]])) =
    match worker_stderr (mklog b file (pieces ++ [[]])) with
    | None => None
    | Some (ls, st) => match stderr_turns n st with None => None | Some (more, st) => Some (ls ++ more, st) end
    end) as Hstep.
  { intros n b file pieces. cbn [stderr_turns]. unfold stderr_readable. cbn [arriving]. by destruct pieces. }
  induction ls as [|l ls IH]; intros n r b file pieces Hb H0 E Hls Hr Hp Hn; destruct n as [|n]; cbn in Hn; try lia; rewrite Hstep.
  - pose proof (split_lines_whole (b ++ file ++ concat pieces)) as Hw. pose proof (split_lines_rest (b ++ file ++ concat pieces)) as Hnl.
    rewrite E in Hw, Hnl. cbn [fst snd unlines_of map concat app] in Hw, Hnl. subst r.
    unfold worker_stderr. cbn [stderr_buffer file_buffer arriving].
    assert (10 ∉ file ++ concat pieces) as Hf by (by apply not_elem_of_app in Hnl as [_ Hnl]).
    assert (0 ∉ file ++ concat pieces) as H0f by (by apply not_elem_of_app in H0 as [_ H0]).
    rewrite fgets_rest; [|done | unfold STDERR_BUFFER, strlen, room in *; rewrite length_app in Hr; zlia | done]. cbn [app].
    destruct (file ++ concat pieces) as [|x y] eqn:Ef.
    + apply app_eq_nil in Ef as [-> Ef]. assert (pieces = []) as -> by (destruct pieces as [|[|] ?]; [done | by apply list.Forall_cons in Hp as [? _] | done]).
      rewrite app_nil_r in *. cbn [app]. by rewrite (Hend n b).
    + rewrite <- Ef in *. rewrite take_until_no_nul, log_lines_none by done. by rewrite (Hend n).
  - destruct (first_line (file ++ concat pieces)) as [Hf|(k & s & Ek & Hk)].
    { rewrite split_lines_none in E by (by rewrite elem_of_app; intros [? | ?]). done. }
    rewrite Ek in *. rewrite app_assoc, split_lines_line in E by (by rewrite elem_of_app; intros [? | ?]).
    injection E as E1 E2 E3. apply list.Forall_cons in Hls as [Hl Hls]. rewrite <- E1, length_app in Hl.
    unfold worker_stderr. cbn [stderr_buffer file_buffer arriving].
    apply not_elem_of_app in H0 as [H0b [H0k [_ H0s]%not_elem_of_cons]%not_elem_of_app].
    destruct (fgets_line pieces (Z.to_nat (STDERR_BUFFER - strlen b - 1) - 1) file [] k s Ek Hk) as (rest & pieces' & -> & Er & Hp');
      [unfold STDERR_BUFFER, strlen, room in *; zlia | done |].
    cbn [app]. rewrite take_until_no_nul by (rewrite elem_of_app, list_elem_of_singleton; intros [? | ?]; done).
    rewrite app_assoc. destruct (length ((b ++ k) ++ [10])) as [|m] eqn:Em; [rewrite length_app in Em; cbn in Em; lia|].
    rewrite log_lines_one by (by rewrite elem_of_app; intros [? | ?]).
    rewrite (IH n r [] rest pieces'); [by rewrite E1 | apply not_elem_of_nil | by cbn; rewrite Er | | done | done | done | lia].
    cbn [app]. rewrite Er. rewrite <- E2, <- E3. by destruct (split_lines s).
Qed.


Definition sample_pieces : list (list char) := [c_lit "Ready\nConn"; c_lit "ected\nto "; c_lit "hub"].


(** ** Where the loop falls short *)

(** Two lines written at once: the second stays in the FILE, however long the loop
    runs, until something else arrives. *)
Lemma late_line n : stderr_turns (S n) (mklog [] [] [c_lit "A\nB\n"]) = Some ([c_lit "A"], mklog [] (c_lit "B\n") []).
Proof. cbn [stderr_turns stderr_readable arriving negb]. by destruct n. Qed.

(** Half a line: the worker waits in fgets for the rest, and for nothing else. *)
Lemma hangs_in_line n : stderr_turns (S n) (mklog [] [] [c_lit "Conn"]) = None.
Proof. reflexivity. Qed.

(** With 1022 bytes and no newline in the buffer fgets has no room: nothing is read
    and nothing changes, however often it is tried. *)
Lemma worker_stderr_stuck b file arr : length b = 1022%nat -> 10 ∉ b -> forall n, stderr_turns n (mklog b file arr) = Some ([], mklog b file arr).
Proof.
  intros Hb Hn n. induction n as [|n IH]; [done|]. cbn [stderr_turns]. destruct (negb _); [done|].
  unfold worker_stderr. cbn [stderr_buffer file_buffer arriving].
  replace (Z.to_nat (STDERR_BUFFER - strlen b - 1) - 1)%nat with 0%nat by (unfold STDERR_BUFFER, strlen; zlia).
  assert (fgets 0 file arr [] = Got [] file arr) as -> by (by destruct arr). cbn [take_until]. rewrite app_nil_r, log_lines_none by done.
  by rewrite IH.
Qed.
