(* ===== verification/Main.v ===== *)
(** * The main process: main.c

    Options, start-up, and the loop that fetches and applies the network's
    configuration and tells the worker what to do.  The three flags the signal
    handlers set are brought up to date whenever the code reads one: the
    environment says which signals came in since ([poll]).  The turns of the two
    loops are fuel; the outer one is meant to run until a signal ends it. *)

From S2P Require Import Prelude CLib CString StrBuf StrFmt StrNatCmp AddrMask PeerParser Config World Tinc.
From S2P Require Import ConfigInit Daemon Http Crypto Request Worker.

(** ** Options *)

Definition takes_value (c : char) : bool := bool_decide (c ∈ c_lit "cp").
Definition is_option (c : char) : bool := bool_decide (c ∈ c_lit "cpaofrd").

(** One argument behind its dash: the options in it, and the last one when its
    value is the next argument. *)
Fixpoint cluster (s : text) : list (char * text) * option char :=
  match s with
  | [] => ([], None)
  | c :: s =>
      if takes_value c then
        match s with [] => ([], Some c) | _ => ([(c, s)], None) end
      else
        let '(l, next) := cluster s in ((if is_option c then c else 63, []) :: l, next)
  end.

(** [getopt (argc, argv, "c:p:aofrd")] until it gives -1; 63 is the question
    mark of an option that is not known or lacks its value. *)
Fixpoint getopt (args : list text) : list (char * text) :=
  match args with
  | [] => []
  | a :: args =>
      match a with
      | 45 :: (_ :: _ as s) =>
          if bool_decide (a = c_lit "--") then []
          else
            let '(l, next) := cluster s in
            match next, args with
            | None, _ => l ++ getopt args
            | Some _, [] => l ++ [(63, [])]
            | Some c, v :: args => l ++ (c, v) :: getopt args
            end
      | _ => getopt args
      end
  end.

Section Options.
Context `{Allocator}.

Definition set_mode (config : config) (daemonmode oneshot : bool) : Config.config :=
  cset_oneshot (cset_daemonmode config daemonmode) oneshot.

(** The text goes to stderr, and the program ends. *)
Definition usage_text (TINCDIR : text) : text := concat
  [c_lit "chaosvpn - connect to the chaos vpn.\n";
   c_lit "Usage: chaosvpn [OPTION...]\n\n";
   c_lit "  -c FILE  use this user configuration file\n";
   c_lit "           example: -c "; TINCDIR; c_lit "/chaosvpn.conf\n";
   c_lit "  -p FILE  create .pid file with specified name\n";
   c_lit "           example: -p /var/run/chaosvpn.pid\n";
   c_lit "  -o       oneshot config update and tincd restart, then exit\n";
   c_lit "  -r       keep running, controlling tincd (default)\n";
   c_lit "  -d       daemon mode, fork into background and keep running\n";
   c_lit "\n"].

Definition usage {A} : outcome A := Exit EXIT_FAILURE.

Fixpoint parse_opts_loop (config : config) (opts : list (char * text)) : outcome Config.config :=
  match opts with
  | [] => Ret config
  | (c, optarg) :: opts =>
      if c =? 99 then parse_opts_loop (cset_configfile config (strdup optarg)) opts
      else if c =? 112 then parse_opts_loop (cset_pidfile config (strdup optarg)) opts
      else if (c =? 97) || (c =? 111) then parse_opts_loop (set_mode config false true) opts
      else if (c =? 102) || (c =? 114) then parse_opts_loop (set_mode config false false) opts
      else if c =? 100 then parse_opts_loop (set_mode config true false) opts
      else usage
  end.

Definition main_parse_opts (config : config) (argv : list text) : outcome Config.config :=
  parse_opts_loop config (getopt (drop 1 argv)).

End Options.

(** ** The loop *)

(** [true]: the warning is logged. *)
Definition main_warn_about_old_tincd (config : config) : outcome bool :=
  match cf_tincd_version config with
  | None => Ret false
  | Some v => r ← strnatcmp v (c_lit "1.0.12"); Ret (r <=? 0)
  end.

Record main_state := mkmain {
  m_update : update_state;
  r_sigterm : bool;
  r_sigint : bool;
  r_sighup : bool;
  nextupdate : Z
}.

Section Main.
Context `{Allocator} `{Resolver} `{Environment} `{ConfigParser} `{Network} `{OpenSSL} `{Zlib}.
Variable fuel : nat.
Variable HTTP_USER_AGENT : strbuf.
Variable httpres : Z.
Variable pid_tincd_handler : Z.

Definition set_update (st : main_state) (u : update_state) : main_state :=
  mkmain u (r_sigterm st) (r_sigint st) (r_sighup st) (nextupdate st).

(** The worker has died: the program ends with its exit status. *)
Definition p_sigchild {A} : io A :=
  '(_, status) ← sys_waitpid pid_tincd_handler;
  io_exit (Z.shiftr status 8).

(** The handlers [p_sigint], [p_sigterm], [p_sighup] and [p_sigchild]. *)
Definition handle_signal (st : main_state) (sig : Z) : io main_state :=
  if sig =? SIGINT then mret (mkmain (m_update st) (r_sigterm st) true (r_sighup st) (nextupdate st))
  else if sig =? SIGTERM then mret (mkmain (m_update st) true (r_sigint st) (r_sighup st) (nextupdate st))
  else if sig =? SIGHUP then mret (mkmain (m_update st) (r_sigterm st) (r_sigint st) true (nextupdate st))
  else if sig =? SIGCHLD then p_sigchild
  else mret st.

Fixpoint handle_signals (st : main_state) (sigs : list Z) : io main_state :=
  match sigs with
  | [] => mret st
  | sig :: sigs => st ← handle_signal st sig; handle_signals st sigs
  end.

Definition poll (st : main_state) : io main_state := sigs ← sys_signals; handle_signals st sigs.

Definition main_updated (st : main_state) : io main_state :=
  now ← sys_time;
  mret (mkmain (m_update st) (r_sigterm st) (r_sigint st) (r_sighup st)
          (now + cf_update_interval (us_config (m_update st)))).

(** What the four handlers do: the command goes through the pipe to the worker. *)
Definition handler (command : Z) : io unit :=
  ok ← sys_handler command;
  if negb ok then io_exit 1 else mret tt.

Definition handler_start_tincd : io unit := handler HANDLER_START_TINCD.
Definition handler_restart_tincd : io unit := handler HANDLER_RESTART_TINCD.
Definition handler_stop : io unit := handler HANDLER_STOP.
Definition handler_signal_old_tincd : io unit := handler HANDLER_SIGNAL_OLD_TINCD.

(** The inner [while]: [true] for an update, [false] for [bail_out]. *)
Fixpoint wait_loop (turns : nat) (st : main_state) : io (bool * main_state) :=
  match turns with
  | O => lift Undef
  | S turns =>
      _ ← sys_sleep 60;
      st ← poll st;
      if r_sighup st then mret (true, mkmain (m_update st) (r_sigterm st) (r_sigint st) false (nextupdate st))
      else
        now ← sys_time;
        if nextupdate st <? now then mret (true, st)
        else
          st ← poll st;
          if r_sigterm st || r_sigint st then mret (false, st) else wait_loop turns st
  end.

(** The [switch] on what an update gave. *)
Definition update_step (st : main_state) : io main_state :=
  '(r, u) ← main_fetch_and_apply_config fuel HTTP_USER_AGENT httpres (m_update st);
  _ ← (if (r =? -1) || (r =? 0) then mret tt else handler_restart_tincd);
  mret (set_update st u).

(** One pass of the outer [do]: whether there is another one. *)
Definition main_turn (st : main_state) : io (bool * main_state) :=
  st ← main_updated st;
  '(update, st) ← wait_loop fuel st;
  if negb update then mret (false, st)
  else
    st ← update_step st;
    st ← poll st;
    mret (negb (r_sigterm st) && negb (r_sigint st), st).

(** The outer [do]. *)
Fixpoint main_loop (rounds : nat) (st : main_state) : io main_state :=
  match rounds with
  | O => lift Undef
  | S rounds =>
      '(again, st) ← main_turn st;
      if again : bool then main_loop rounds st else mret st
  end.

(** From the end of the start-up on. *)
Definition main_serve (rounds : nat) (config : config) : io Z :=
  let '(_, oldconfig) := string_init 4096 4096 in
  '(_, u) ← main_fetch_and_apply_config fuel HTTP_USER_AGENT httpres (mkupdate config ∅ oldconfig);
  _ ← lift (main_warn_about_old_tincd (us_config u));
  st ← main_updated (mkmain u false false false 0);
  _ ← handler_signal_old_tincd;
  _ ← handler_start_tincd;
  if negb (cf_oneshot config) then
    _ ← main_loop rounds st;
    _ ← handler_stop;
    mret 0
  else mret 0.

End Main.

(** ** Start-up *)

Definition VERSION : text := c_lit "2.22".

Section Start.
Context `{Allocator} `{Resolver} `{Environment} `{ConfigParser} `{Network} `{OpenSSL} `{Zlib}.

Definition main_check_root : io bool := uid ← sys_getuid; mret (uid =? 0).

(** The parent's part: the process of the worker.  [None]: this is the child,
    which goes on as in [worker_init]. *)
Definition fire_up_tincd_handler : io (option Z) :=
  a ← sys_pipe;
  b ← (match a with Some _ => sys_pipe | None => mret None end);
  match b with
  | None => io_exit 1
  | Some _ =>
      child ← sys_fork;
      if child =? -1 then io_exit 1
      else if child =? 0 then mret None
      else
        ready ← sys_worker_ready;
        if negb ready then io_exit 1 else mret (Some child)
  end.

Definition user_agent : outcome strbuf :=
  let '(_, s) := string_init 64 16 in
  '(_, s) ← string_concat_sprintf s (c_lit "ChaosVPN/%s") [AStr (Some VERSION)];
  Ret s.

(** What [main] returns; [None] in the process of the worker. *)
Definition main (fuel rounds : nat) (httpres : Z) (argv : list text) : io (option Z) :=
  HTTP_USER_AGENT ← lift user_agent;
  match config_alloc with
  | None => io_exit EXIT_FAILURE
  | Some config =>
      config ← lift (main_parse_opts config argv);
      root ← main_check_root;
      if negb root then mret (Some 1)
      else
        tun ← tun_check_or_create;
        if negb tun then mret (Some 1)
        else
          '(ok, config) ← config_init config;
          if negb ok then mret (Some 1)
          else
            background ← (if cf_daemonmode config then daemonize else mret true);
            if negb background then io_exit 1
            else
              created ← (if str_is_nonempty (cf_pidfile config)
                         then pidfile_create_pidfile (txt (cf_pidfile config)) else mret true);
              if negb created then io_exit 1
              else
                child ← fire_up_tincd_handler;
                match child with
                | None => mret None
                | Some pid =>
                    g ← sys_setgid (cf_tincd_gid config);
                    if negb g then io_exit 1
                    else
                      u ← sys_setuid (cf_tincd_uid config);
                      if negb u then io_exit 1
                      else
                        r ← main_serve fuel HTTP_USER_AGENT httpres pid rounds config;
                        mret (Some r)
                end
  end.

End Start.
