(* ===== verification/RequestProps.v ===== *)
(** * What an update of the configuration guarantees

    Nothing is applied that was not signed, unless it was stored by an earlier
    run; an update that changes nothing touches no file. *)

From S2P Require Import Prelude CLib CString StrBuf StrSafe StrFmt AddrMask PeerParser Config World Fs FsCopy Tinc.
From S2P Require Import NumericHost Ar Http Crypto Sample Request.

(** [data] carries a signature that the public key [key] accepts. *)
Definition signed_by `{OpenSSL} (key : text) (data : list char) : Prop :=
  exists pkey signature, PEM_read_bio_PUBKEY key = Some pkey /\ EVP_Verify pkey data signature = 1.

(** [data] is what the file kept for the next start held when it was read, after the
    history [t]. *)
Definition stored_at `{Environment} (file : cptr) (t : trace) (data : list char) : Prop :=
  exists name chunks, file = Some name /\ os_read_file t name = Some (chunks, false) /\
    data = @concat Z chunks.

Definition stored_by `{Environment} (file : cptr) (data : list char) : Prop := exists t, stored_at file t data.

(** *** What opening the archive consists of *)

(** The archive has a member of that name with these bytes. *)
Definition has_member `{Allocator} (archive : strbuf) (name : text) (data : list char) : Prop :=
  exists s s', ar_extract archive name s = Ret (true, s') /\ content s' = data.

(** [plain] is what the private key decrypts [cipher] to. *)
Definition rsa_plain `{OpenSSL} (privkey : text) (cipher plain : list char) : Prop :=
  exists pkey, PEM_read_bio_PrivateKey privkey = Some pkey /\ EVP_PKEY_decrypt pkey cipher = Some plain.

(** [plain] is what AES-256-CBC decrypts [cipher] to, the last block checked. *)
Definition aes_plain `{OpenSSL} (key iv cipher plain : list char) : Prop :=
  exists out fin, EVP_DecryptUpdate key iv cipher = Some out /\
    EVP_DecryptFinal_ex key iv cipher = Some fin /\ plain = out ++ fin.

(** [data] is what zlib delivers for [compressed] up to the end of the stream; a
    buffer that can grow no further leaves parts out. *)
Definition inflated `{Zlib} (compressed data : list char) : Prop :=
  exists used rest fin kept, inflate compressed = used ++ (fin, Z_STREAM_END) :: rest /\
    kept `sublist_of` map fst used ++ [fin] /\ data = @concat Z kept.

(** [data] comes out of the archive: the keys out of its rsa part with our private
    key, the text out of its encrypted part, and with it a signature of exactly this
    text that the public key accepts. *)
Definition opened `{Allocator} `{OpenSSL} `{Zlib} (config : config) (archive : strbuf) (data : list char) : Prop :=
  exists signkey privkey block lk li aes_key aes_iv more cipher compressed sealed signature pkey,
    cf_masterdata_signkey config = Some signkey /\ cstr_of (cf_privkey config) = Ret privkey /\
    has_member archive (c_lit "rsa") block /\
    rsa_plain privkey block (lk :: li :: aes_key ++ aes_iv ++ more) /\
    s8 lk = 32 /\ zlen aes_key = 32 /\ s8 li = 16 /\ zlen aes_iv = 16 /\
    has_member archive (c_lit "encrypted") cipher /\ aes_plain aes_key aes_iv cipher compressed /\
    inflated compressed data /\
    has_member archive (c_lit "signature") sealed /\ aes_plain aes_key aes_iv sealed signature /\
    PEM_read_bio_PUBKEY signkey = Some pkey /\ EVP_Verify pkey data signature = 1.

(** Requests that only look: the network, the clock, reading a file. *)
Definition looks (e : event) : Prop :=
  match e with
  | EReadFile _ | ETime | EGetaddrinfo _ _ | EConnect _ _ | ESend _ | ERecv _ => True
  | _ => False
  end.

Section Looks.
Context `{Allocator} `{Environment} `{Network}.

Lemma sendall_looks fuel buf : emits looks (sendall fuel buf).
Proof.
  revert buf; induction fuel as [|fuel IH]; intros [|c buf]; cbn [sendall]; unfold sys_send;
    emits_tac; done || auto.
Qed.

Lemma header_loop_looks fuel b s first r : emits looks (header_loop fuel b s first r).
Proof.
  revert b s first r; induction fuel as [|fuel IH]; intros; cbn [header_loop]; unfold sys_recv;
    emits_tac; done || auto.
Qed.

Lemma body_loop_looks fuel s : emits looks (body_loop fuel s).
Proof.
  revert s; induction fuel as [|fuel IH]; intros; cbn [body_loop]; unfold sys_recv; emits_tac; done || auto.
Qed.

#[local] Hint Resolve sendall_looks header_loop_looks body_loop_looks : emits.

Lemma http_get_looks fuel url s since agent r : emits looks (http_get fuel url s since agent r).
Proof. unfold http_get, httprecv, sys_getaddrinfo, sys_connect. emits_tac; done. Qed.

Lemma main_load_previous_config_looks config s : emits looks (main_load_previous_config config s).
Proof. unfold main_load_previous_config, fs_read_file, sys_read_file. emits_tac; done. Qed.

End Looks.
#[export] Hint Resolve http_get_looks main_load_previous_config_looks : emits.

Section Signed.
Context `{Allocator} `{Resolver} `{Environment} `{Network} `{OpenSSL} `{Zlib}.
Hypothesis Hptr : alloc_ptrdiff.

(** *** The parts of the archive *)

Lemma opened_signed config archive data :
  opened config archive data ->
  exists key, cf_masterdata_signkey config = Some key /\ signed_by key data.
Proof using Type.
  intros (key & privkey & block & lk & li & k & iv & more & cipher & z & sealed & signature & pkey &
    Hk & _ & _ & _ & _ & _ & _ & _ & _ & _ & _ & _ & _ & Hp & Hv).
  exists key. split; [done|]. by exists pkey, signature.
Qed.

Lemma fill_front_content s out s' : fill_front s out = Ret s' -> content s' = out.
Proof using Type.
  unfold fill_front, content. destruct (s_s s) as [b|] eqn:Eb.
  - destruct (_ <? _); [done|]. intros [= <-]. cbn. unfold bwrite. change (ztake 0 b) with (@nil char). cbn [app].
    by apply ztake_app_eq.
  - destruct out; [|done]. intros [= <-]. rewrite Eb. cbn. unfold ztake. by rewrite take_nil.
Qed.

Lemma rsa_decrypted cipher privkey d d' :
  crypto_rsa_decrypt cipher privkey d = Ret (true, d') -> rsa_plain privkey (content cipher) (content d').
Proof using Type.
  unfold crypto_rsa_decrypt, crypto_load_key. intros E.
  destruct EVP_contexts; cbn [negb] in E; [|done].
  destruct (PEM_read_bio_PrivateKey privkey) as [pkey|] eqn:Ek; [|done].
  unwind E; injection E as <-.
  match goal with E : fill_front _ _ = Ret _ |- _ => apply fill_front_content in E as -> end.
  by exists pkey.
Qed.

(** The bytes AES is given are those of the two buffers. *)
Lemma bytes_at_content s n b : s_length s = n -> bytes_at s n = Ret b -> b = content s.
Proof using Type.
  unfold bytes_at, string_get, content. intros <-. destruct (s_s s) as [k|].
  - destruct (_ <? _); [done|]. by intros [= <-].
  - intros [= <-]. cbn. unfold ztake. by rewrite take_nil.
Qed.

Lemma aes_decrypted cipher key iv d d' :
  crypto_aes_decrypt cipher key iv d = Ret (true, d') ->
  aes_plain (content key) (content iv) (content cipher) (content d') /\ s_length key = 32 /\ s_length iv = 16.
Proof using Type.
  unfold crypto_aes_decrypt, AES_256_KEY_LENGTH, AES_IV_LENGTH. intros E. unwind E; injection E as <-.
  repeat match goal with E : negb (?a =? ?b) = false |- _ => apply negb_false_iff, Z.eqb_eq in E end.
  repeat match goal with E : bytes_at _ _ = Ret _ |- _ => apply bytes_at_content in E; [|done] end.
  subst. split; [|done].
  match goal with E : fill_front _ (_ ++ _) = Ret _ |- _ => apply fill_front_content in E as -> end.
  by eexists _, _.
Qed.

Lemma decrypted_member_plain archive name encrypted key iv r encrypted' r' :
  decrypted_member archive name encrypted key iv r = Ret (true, encrypted', r') ->
  exists cipher, has_member archive name cipher /\ aes_plain (content key) (content iv) cipher (content r') /\
    s_length key = 32 /\ s_length iv = 16.
Proof using Type.
  unfold decrypted_member. intros E. unwind E; injection E; intros; subst; try done.
  match goal with E : negb ?b = false |- _ => apply negb_false_iff in E; subst b end.
  match goal with E : crypto_aes_decrypt _ _ _ _ = _ |- _ => apply aes_decrypted in E as (? & ? & ?) end.
  eexists. split_and!; [by eexists _, _ | done..].
Qed.

(** A part of a buffer behind its first bytes. *)
Lemma ztake_split (n m : Z) (l : list Z) : 0 <= n -> 0 <= m -> ztake (n + m) l = ztake n l ++ ztake m (zdrop n l).
Proof using Type.
  intros Hn Hm. unfold ztake, zdrop. rewrite Z2Nat.inj_add by lia. symmetry. apply take_take_drop.
Qed.

Lemma copied_part buf n ok s' :
  0 < n -> string_concatb (string_lazyinit 64) buf n = Ret (ok, s') -> s_length s' = n ->
  content s' = ztake n buf /\ zlen (content s') = n.
Proof using Hptr.
  intros Hn E Hl. apply (concatb_sane Hptr) in E as [Hs Hc]; [|by apply sane_lazyinit; unfold str_limit; lia | lia].
  pose proof (zlen_content _ (sane_wf _ Hs)). destruct ok; [|subst s'; cbn in Hl; lia].
  split; [by rewrite Hc | lia].
Qed.

Lemma split_keys_content r key iv :
  split_keys r = Ret (Some (key, iv)) -> s_length key = 32 -> s_length iv = 16 ->
  exists lk li more, content r = lk :: li :: content key ++ content iv ++ more /\
    s8 lk = 32 /\ zlen (content key) = 32 /\ s8 li = 16 /\ zlen (content iv) = 16.
Proof using Hptr.
  unfold split_keys, content at 1. set (buf := default [] (string_get r)). intros E Hk Hi.
  unwind E; injection E as <- <-.
  repeat match goal with E : negb (?a =? ?b) = false |- _ => apply negb_false_iff, Z.eqb_eq in E end.
  match goal with E : s8 (nth 0 buf 0) = 32 |- _ => rewrite E in * end.
  match goal with E : s8 (nth 1 buf 0) = 16 |- _ => rewrite E in * end.
  repeat match goal with E : string_concatb _ _ _ = Ret _ |- _ => apply copied_part in E as [-> ?]; [|lia|done] end.
  change (default [] (s_s r)) with buf. destruct buf as [|lk [|li rest]] eqn:Eb; [done..|].
  assert (exists m, s_length r = 2 + (32 + (16 + m)) /\ 0 <= m) as (m & -> & Hm) by (exists (s_length r - 50); lia).
  exists lk, li, (ztake m (zdrop 16 (zdrop 32 rest))). split_and!; try done.
  rewrite !ztake_split by lia. rewrite zdrop_zdrop by lia. done.
Qed.

Lemma inflate_sane calls s ok s' : sane s -> inflate_loop calls s = Ret (ok, s') -> sane s'.
Proof using Hptr.
  revert s; induction calls as [|[out r] calls IH]; intros s Hs; cbn [inflate_loop].
  - destruct (_ || _); [by intros [= <- <-]|]. intros E. inv_outcome.
    match goal with E0 : string_concatb _ _ _ = Ret ?p |- _ =>
      destruct p as [b s1]; cbn in E; injection E as <- <-;
      by apply (concatb_sane Hptr s [] 0 b s1 Hs) in E0 as [? ?] end.
  - destruct (_ || _); [by intros [= <- <-]|]. intros E. inv_outcome.
    match goal with E0 : string_concatb _ _ _ = Ret ?p |- _ =>
      destruct p as [b s1]; apply (concatb_sane Hptr) in E0 as [Hs1 _]; [|done|apply zlen_nonneg] end.
    destruct (_ =? _) in E; [by eapply IH | by injection E as <- <-].
Qed.

Lemma uncompress_sane c s ok s' : sane s -> uncompress_inflate c s = Ret (ok, s') -> sane s'.
Proof using Hptr.
  unfold uncompress_inflate. destruct inflateInit; cbn; [apply inflate_sane | by intros Hs [= <- <-]].
Qed.

Lemma inflate_out calls s s' :
  sane s -> inflate_loop calls s = Ret (true, s') ->
  exists used rest fin kept, calls = used ++ (fin, Z_STREAM_END) :: rest /\
    kept `sublist_of` map fst used ++ [fin] /\ content s' = content s ++ @concat Z kept.
Proof using Hptr.
  revert s; induction calls as [|[out r] calls IH]; intros s Hs; cbn [inflate_loop].
  - destruct (_ || _); [done|]. intros E. unwind E. injection E as E. done.
  - destruct (_ || _); [done|]. intros E. unwind E.
    all: match goal with E0 : string_concatb _ _ _ = Ret _ |- _ =>
           apply (concatb_sane Hptr) in E0 as [Hs1 Hc1]; [|done|apply zlen_nonneg] end.
    all: rewrite ztake_all in Hc1 by lia.
    + destruct (IH _ Hs1 E) as (used & rest & fin & kept & -> & Hsub & Hc).
      match goal with Hc1 : if ?b then _ else _ |- _ => destruct b end.
      * exists ((out, r) :: used), rest, fin, (out :: kept). cbn [app map fst]. split_and!; [done | by apply sublist_skip |].
        cbn [concat]. by rewrite Hc, Hc1, <- app_assoc.
      * subst. exists ((out, r) :: used), rest, fin, kept. cbn [app map fst]. split_and!; [done | by apply sublist_cons | done].
    + injection E as E <-. apply Z.eqb_eq in E as ->.
      match goal with Hc1 : if ?b then _ else _ |- _ => destruct b end.
      * exists [], calls, out, [out]. cbn. rewrite app_nil_r. by split_and!.
      * subst. exists [], calls, out, []. cbn. rewrite app_nil_r. split_and!; [done | apply sublist_nil_l | done].
Qed.

Lemma uncompress_inflated c s s' :
  sane s -> content s = [] -> uncompress_inflate c s = Ret (true, s') -> inflated (content c) (content s').
Proof using Hptr.
  unfold uncompress_inflate. intros Hs Hc. destruct inflateInit; cbn [negb]; [|done]. intros E.
  apply inflate_out in E as (used & rest & fin & kept & E & Hsub & Hc'); [|done].
  exists used, rest, fin, kept. by rewrite Hc', Hc.
Qed.

Lemma verify_accepts data signature key :
  crypto_rsa_verify_signature data signature key = true ->
  exists pkey, PEM_read_bio_PUBKEY key = Some pkey /\ EVP_Verify pkey (content data) (content signature) = 1.
Proof using Type.
  unfold crypto_rsa_verify_signature, crypto_load_key.
  destruct EVP_contexts; [|done]. cbn. destruct (PEM_read_bio_PUBKEY key) as [pkey|] eqn:Ek; [|done].
  destruct (Z.eqb_spec (EVP_Verify pkey (content data) (content signature)) 1); [|done].
  intros _. by exists pkey.
Qed.

Lemma open_archive_opened config key archive s s' :
  cf_masterdata_signkey config = Some key -> sane s -> content s = [] ->
  open_archive config key archive s = Ret (1, s') -> sane s' /\ opened config archive (content s').
Proof using Hptr.
  intros Hk Hs Hc E. unfold open_archive in E. unwind E; injection E as <-; try done.
  repeat match goal with E : negb ?b = false |- _ => apply negb_false_iff in E; subst b end.
  split; [by eapply uncompress_sane|].
  match goal with E : crypto_rsa_decrypt _ _ _ = _ |- _ => apply rsa_decrypted in E end.
  repeat match goal with E : decrypted_member _ _ _ _ _ _ = _ |- _ =>
    apply decrypted_member_plain in E as (? & ? & ? & ? & ?) end.
  match goal with E : split_keys _ = _ |- _ =>
    apply split_keys_content in E as (lk & li & more & Er & ? & ? & ? & ?); [|done..] end.
  rewrite Er in *.
  match goal with E : uncompress_inflate _ _ = _ |- _ => apply uncompress_inflated in E; [|done..] end.
  match goal with E : crypto_rsa_verify_signature _ _ _ = true |- _ => apply verify_accepts in E as (pkey & ? & ?) end.
  match goal with E : ar_extract _ _ _ = Ret (true, ?r) |- _ =>
    assert (has_member archive (c_lit "rsa") (content r)) by (by eexists _, _) end.
  unfold opened. do 13 eexists. split_and!; eassumption.
Qed.

Lemma use_archive_opened config archive s s' :
  str_is_empty (cf_masterdata_signkey config) = false -> sane s -> content s = [] ->
  use_archive config archive s = Ret (1, s') -> sane s' /\ opened config archive (content s').
Proof using Hptr.
  intros Hk Hs Hc E. unfold use_archive in E. rewrite Hk in E.
  unwind E; try (injection E as <-; done); try done.
  match goal with E0 : deref _ = Ret ?k |- _ => unfold deref in E0; unwind E0; injection E0 as <- end.
  by eapply open_archive_opened.
Qed.

Lemma use_archive_sane config archive s r s' :
  str_is_empty (cf_masterdata_signkey config) = false -> sane s ->
  use_archive config archive s = Ret (r, s') -> sane s'.
Proof using Hptr.
  intros Hk Hs E. unfold use_archive, open_archive in E. rewrite Hk in E.
  unwind E; injection E as <- <-; try done; by eapply uncompress_sane.
Qed.

Lemma main_request_config_sane fuel agent httpres config s t r config' s' t' :
  str_is_empty (cf_masterdata_signkey config) = false -> sane s ->
  main_request_config fuel agent httpres config s t = Ret ((r, config', s'), t') ->
  sane s' /\ cf_tmpconffile config' = cf_tmpconffile config /\
  exists since, config' = cset_ifmodifiedsince config since.
Proof using Hptr.
  intros Hk Hs E. unfold main_request_config in E.
  unwind_io E; apply io_ret_inv in E as [E ->]; injection E as Er Ec Es; subst.
  3: split_and!; [|by destruct config | by eexists].
  3: match goal with E : use_archive ?c _ _ = _ |- _ =>
       apply (use_archive_sane c) in E; [|by destruct config | done] end.
  1-2: split_and!; [|done | exists (cf_ifmodifiedsince config); by destruct config].
  all: match goal with E : string_ensurez _ = _ |- _ => by eapply (ensurez_sane Hptr) in E as [? _] end.
Qed.

Lemma main_request_config_looks fuel agent httpres config s :
  emits looks (main_request_config fuel agent httpres config s).
Proof using Type. unfold main_request_config, sys_time. emits_tac; done. Qed.

Lemma read_chunks_sane chunks s s' :
  sane s -> read_chunks chunks s = Ret (true, s') -> sane s' /\ content s' = content s ++ @concat Z chunks.
Proof using Hptr.
  revert s; induction chunks as [|c chunks IH]; intros s Hs; cbn [read_chunks].
  - intros [= <-]. by rewrite app_nil_r.
  - intros E. unwind E.
    match goal with E : string_concatb _ _ _ = _ |- _ =>
      apply (concatb_sane Hptr) in E as [Hs1 Hc1]; [|done|apply zlen_nonneg] end.
    destruct (IH _ Hs1 E) as (Hs2 & ->). split; [done|].
    rewrite Hc1, ztake_all by lia. cbn. by rewrite app_assoc.
Qed.

Lemma fs_read_file_sane s name t s' t' :
  sane s -> fs_read_file s name t = Ret ((true, s'), t') ->
  exists chunks, os_read_file t name = Some (chunks, false) /\ sane s' /\
    content s' = content s ++ @concat Z chunks.
Proof using Hptr.
  intros Hs E. unfold fs_read_file in E.
  unwind_io E; apply io_ret_inv in E as [E ->]; injection E as Er Es; subst; try done.
  match goal with E : sys_read_file _ _ = Ret _ |- _ => apply io_request_inv in E as [E _] end.
  destruct b0; [|done]. destruct b; [done|].
  match goal with E : read_chunks _ _ = _ |- _ => apply read_chunks_sane in E as [Hs1 Hc1]; [|done] end.
  by exists l.
Qed.

Lemma read_chunks_sane_any chunks s ok s' : sane s -> read_chunks chunks s = Ret (ok, s') -> sane s'.
Proof using Hptr.
  revert s; induction chunks as [|c chunks IH]; intros s Hs; cbn [read_chunks]; [by intros [= <- <-]|].
  intros E. unwind E.
  all: match goal with E : string_concatb _ _ _ = _ |- _ =>
         apply (concatb_sane Hptr) in E as [Hs1 _]; [|done|apply zlen_nonneg] end.
  - by eapply IH.
  - by injection E as <- <-.
Qed.

Lemma main_load_previous_config_sane config s t r s' t' :
  sane s -> main_load_previous_config config s t = Ret ((r, s'), t') -> sane s'.
Proof using Hptr.
  intros Hs E. unfold main_load_previous_config, fs_read_file in E.
  unwind_io E; apply io_ret_inv in E as [E ->]; injection E as Er Es; subst; try done.
  match goal with E : string_ensurez _ = _ |- _ => apply (ensurez_sane Hptr) in E as [? _]; [done|] end.
  match goal with E : (_ ≫= _) _ = _ |- _ => unwind_io E; apply io_ret_inv in E as [E _]; injection E as -> -> end.
  - match goal with E : read_chunks _ _ = _ |- _ => apply read_chunks_sane_any in E; [|done] end.
    destruct (negb _); [by apply sane_clear | done].
  - by apply sane_clear.
Qed.

(** What comes from the stored file. *)
Lemma main_load_previous_config_stored config s t s' t' :
  sane s -> content s = [] ->
  main_load_previous_config config s t = Ret ((true, s'), t') ->
  stored_at (cf_tmpconffile config) t (content s').
Proof using Hptr.
  intros Hs Hc E. unfold main_load_previous_config in E.
  unwind_io E; apply io_ret_inv in E as [E ->]; injection E as Er Es; subst; try done.
  match goal with E : fs_read_file _ _ _ = _ |- _ =>
    apply fs_read_file_sane in E as (chunks & Hfile & Hs1 & Hc1); [|done] end.
  match goal with E : string_ensurez _ = _ |- _ => apply (ensurez_sane Hptr) in E as [_ Hc2]; [|done] end.
  match goal with E : deref _ = Ret ?f |- _ => unfold deref in E; unwind E; injection E as <- end.
  cbn in Hc2. eexists _, _. split_and!; [done | exact Hfile |]. by rewrite Hc2, Hc1, Hc.
Qed.

Lemma use_archive_range config archive s r s' :
  use_archive config archive s = Ret (r, s') -> r = -1 \/ r = 1.
Proof using Type.
  intros E. unfold use_archive, open_archive in E.
  unwind E; injection E as <- <-; try (by left); try (by right).
  all: match goal with |- context [if ?b then _ else _] => destruct b; auto end.
Qed.

Lemma main_request_config_range fuel agent httpres config s t r config' s' t' :
  main_request_config fuel agent httpres config s t = Ret ((r, config', s'), t') ->
  r = -1 \/ r = 0 \/ r = 1.
Proof using Type.
  intros E. unfold main_request_config in E.
  unwind_io E; apply io_ret_inv in E as [E ->]; injection E as Er Ec Es; subst; auto.
  - destruct (_ =? 304); auto.
  - match goal with E : use_archive _ _ _ = _ |- _ => apply use_archive_range in E as [-> | ->]; auto end.
Qed.

(** What a successful download is: the body of the response, opened. *)
Definition downloaded fuel agent httpres (config : config) (t : trace) (data : list char) : Prop :=
  exists url archive status t', config_url config = Ret url /\
    http_get fuel url (snd (string_init 8192 8192)) (cf_ifmodifiedsince config) agent httpres (t ++ [ETime])
      = Ret ((HTTP_EOK, archive, status), t') /\ opened config archive data.

Lemma opened_since config since archive data :
  opened (cset_ifmodifiedsince config since) archive data -> opened config archive data.
Proof using Type. by destruct config. Qed.

Lemma request_opened fuel agent httpres config s t config' s' t' :
  str_is_empty (cf_masterdata_signkey config) = false -> sane s -> content s = [] ->
  main_request_config fuel agent httpres config s t = Ret ((1, config', s'), t') ->
  downloaded fuel agent httpres config t (content s') /\ config' = cset_ifmodifiedsince config (os_time t).
Proof using Hptr.
  intros Hk Hs Hc E. unfold main_request_config in E. destruct (string_init 8192 8192) as [bi archive0] eqn:Ea.
  unwind_io E; apply io_ret_inv in E as [E ->]; injection E as Er Ec Es; subst; try discriminate Er; try by destruct (_ =? 304).
  apply io_request_inv in E0 as [-> ->]. split; [|done].
  match goal with E : use_archive ?c _ _ = _ |- _ =>
    apply use_archive_opened in E as [Hs1 Ho]; [|by destruct config | done..] end.
  match goal with E : string_ensurez _ = _ |- _ => destruct (ensurez_sane Hptr _ _ _ Hs1 E) as (_ & ->) end.
  match goal with E : negb (?r =? HTTP_EOK) = false |- _ => apply negb_false_iff, Z.eqb_eq in E; subst r end.
  eexists _, _, _, _. rewrite Ea. split_and!; [eassumption | eassumption | by eapply opened_since].
Qed.

(** C3. With a signature key configured, a download main_request_config reports as
    a success (1) is what the server sent, opened: the response to the request for
    our address is an archive whose rsa part our private key decrypts to a key and an
    IV, whose encrypted part decrypts with these to what zlib inflates to the bytes
    left in the response, and whose signature part decrypts with them to a signature
    of exactly these bytes that the configured key accepts, whatever the server, the
    network and the allocator did.  Of the configuration only ifmodifiedsince
    changes. *)
Theorem main_request_config_signed fuel agent httpres config s t config' s' t' :
  str_is_empty (cf_masterdata_signkey config) = false -> sane s -> content s = [] ->
  main_request_config fuel agent httpres config s t = Ret ((1, config', s'), t') ->
  downloaded fuel agent httpres config t (content s') /\ config' = cset_ifmodifiedsince config (os_time t).
Proof using Hptr. apply request_opened. Qed.

Lemma main_tempsave_content config s t s' t' :
  sane s -> main_tempsave_fetched_config config s t = Ret (s', t') -> content s' = content s.
Proof using Hptr.
  intros Hs E. unfold main_tempsave_fetched_config in E.
  unwind_io E; apply io_ret_inv in E as [-> ->]; try done.
  all: match goal with E : string_ensurez _ = _ |- _ => by apply (ensurez_sane Hptr) in E as [_ ?] end.
Qed.

(** What applying [s] comes to: [s] becomes the configuration in force when it
    could be parsed, and with the result 1 every file was written from the peers
    [s] was parsed to. *)
Definition applied (config : config) (heap : gmap nat peer_config) (s : strbuf)
    (st' : update_state) (t' : trace) : Prop :=
  exists parsed peers u,
    main_parse_config config heap s = Ret (true, parsed, peers) /\
    write_tinc_files parsed peers u = Ret (true, t') /\
    main_free_parsed_info parsed peers = Ret (us_config st', us_heap st').

Lemma apply_config_zero fuel st s t st' t' :
  apply_config fuel st s t = Ret ((0, st'), t') -> st' = st /\ t' = t.
Proof using Type.
  intros E. unfold apply_config in E.
  unwind_io E; apply io_ret_inv in E as [E ->]; injection E as Es; subst; done.
Qed.

Lemma apply_config_cases fuel st s t r st' t' :
  sane s -> apply_config fuel st s t = Ret ((r, st'), t') ->
  (us_oldconfig st' = us_oldconfig st /\ r <> 1 \/ content (us_oldconfig st') = content s) /\
  (r = 1 -> content (us_oldconfig st') = content s /\ string_equals false s (us_oldconfig st) = false /\
            applied (us_config st) (us_heap st) s st' t').
Proof using Hptr.
  intros Hs E. unfold apply_config in E.
  unwind_io E; apply io_ret_inv in E as [E ->]; injection E as Er Es; subst.
  1-2: split; [by left | done].
  all: match goal with E : main_tempsave_fetched_config _ _ _ = _ |- _ =>
         apply main_tempsave_content in E; [|done] end.
  all: match goal with E : string_move _ = _ |- _ => injection E as <- <- end.
  1-2: split; [by right | done].
  match goal with E : negb ?b = false, E' : main_parse_config _ _ _ = Ret (?b, _, _) |- _ => destruct b; [|done] end.
  match goal with E : negb ?b = false, E' : write_tinc_files _ _ _ = Ret (?b, _) |- _ => destruct b; [|done] end.
  split; [by right | intros _; split; [done | split; [done|]]].
  eexists _, _, _. split_and!; eassumption.
Qed.

(** Signed, or stored by an earlier run. *)
Definition authentic (config : config) (data : list char) : Prop :=
  (exists key, cf_masterdata_signkey config = Some key /\ signed_by key data) \/
  stored_by (cf_tmpconffile config) data.

(** Where an update has its data from: the signed archive it downloaded, or, and
    only when that download gave nothing new, the file kept for the next start as it
    was read behind the download.  That file is not verified again. *)
Inductive origin fuel agent httpres (st : update_state) (t : trace) (data : list char) : Prop :=
| origin_download :
    downloaded fuel agent httpres (us_config st) t data -> origin fuel agent httpres st t data
| origin_store err config1 s1 t1 :
    main_request_config fuel agent httpres (us_config st) (snd (string_init 4096 512)) t = Ret ((err, config1, s1), t1) ->
    err = -1 \/ err = 0 ->
    stored_at (cf_tmpconffile (us_config st)) t1 data -> origin fuel agent httpres st t data.

Lemma origin_authentic fuel agent httpres st t data :
  origin fuel agent httpres st t data -> authentic (us_config st) data.
Proof using Type.
  intros [(url & archive & status & t' & _ & _ & Ho) | err c1 s1 t1 _ _ Hs].
  - left. by eapply opened_signed.
  - right. by exists t1.
Qed.

Lemma fetch_origin fuel agent httpres st t r st' t' :
  str_is_empty (cf_masterdata_signkey (us_config st)) = false ->
  main_fetch_and_apply_config fuel agent httpres st t = Ret ((r, st'), t') ->
  (us_oldconfig st' = us_oldconfig st /\ r <> 1 \/ origin fuel agent httpres st t (content (us_oldconfig st'))) /\
  (r = 1 -> exists s since, content s = content (us_oldconfig st') /\ origin fuel agent httpres st t (content s) /\
     string_equals false s (us_oldconfig st) = false /\
     applied (cset_ifmodifiedsince (us_config st) since) (us_heap st) s st' t').
Proof using Hptr.
  intros Hk E. unfold main_fetch_and_apply_config in E.
  pose proof (sane_init 4096 512 ltac:(unfold ptrdiff_max; lia) ltac:(unfold str_limit; lia)) as Hs0.
  assert (content (snd (string_init 4096 512)) = []) as Hc0 by (unfold string_init; by destruct (alloc_ok 4096)).
  destruct (string_init 4096 512) as [b0 s0] eqn:Ei. cbn in Hs0, Hc0.
  assert (forall since s u, sane s -> origin fuel agent httpres st t (content s) ->
    apply_config fuel (mkupdate (cset_ifmodifiedsince (us_config st) since) (us_heap st) (us_oldconfig st)) s u
      = Ret ((r, st'), t') ->
    (us_oldconfig st' = us_oldconfig st /\ r <> 1 \/ origin fuel agent httpres st t (content (us_oldconfig st'))) /\
    (r = 1 -> exists s since, content s = content (us_oldconfig st') /\ origin fuel agent httpres st t (content s) /\
       string_equals false s (us_oldconfig st) = false /\
       applied (cset_ifmodifiedsince (us_config st) since) (us_heap st) s st' t')) as Happly.
  { intros since s u Hs Hau Eu. destruct (apply_config_cases _ _ _ _ _ _ _ Hs Eu) as (Hc & Hone). cbn in Hc.
    split; [destruct Hc as [Hc | ->]; auto|]. intros ->. destruct (Hone eq_refl) as (Heq & Hne & Hap).
    by exists s, since. }
  unwind_io E.
  all: match goal with E : main_request_config _ _ _ _ _ _ = Ret (?r, _, _, _) |- _ =>
         pose proof (main_request_config_range _ _ _ _ _ _ _ _ _ _ E) as Hr;
         pose proof (main_request_config_sane _ _ _ _ _ _ _ _ _ _ Hk Hs0 E) as (Hs1 & Htmp & since & Hc) end.
  - apply io_ret_inv in E as [E _]. injection E as -> ->. split; [by left | done].
  - rewrite Hc in E. eapply Happly in E; [exact E | ..].
    + eapply main_load_previous_config_sane; [|eassumption]. by apply sane_free.
    + match goal with E : main_request_config _ _ _ _ _ _ = Ret (?r, _, _, _) |- _ =>
        apply (origin_store _ _ _ _ _ _ r _ _ _ ltac:(rewrite Ei; exact E)); [lia|] end.
      rewrite <- Htmp.
      match goal with E : negb ?b = false |- _ => destruct b; [|done] end.
      eapply main_load_previous_config_stored; [by apply sane_free | apply content_free, Hs1 | eassumption].
  - destruct Hr as [-> | [-> | ->]]; [done..|].
    match goal with E : main_request_config _ _ _ _ _ _ = _ |- _ =>
      destruct (request_opened _ _ _ _ _ _ _ _ _ Hk Hs0 Hc0 E) as (Hd & _) end.
    rewrite Hc in E. eapply Happly in E; [exact E | done |]. by apply origin_download.
Qed.

(** C1. What an update puts in force is authentic: with a signature key configured,
    an update leaves the configuration applied before, or replaces it by the data of
    the archive it downloaded, which carries a signature the key accepts, or, only
    when the download failed or the server reported no change, by what the file kept
    for the next start (tmpconffile) holds; that file is not verified again.  With the
    result 1 this data differs from what was in force, the files of tincd were all
    written from the peers that very data was parsed to, and the peers were
    released. *)
Theorem main_fetch_and_apply_config_authentic fuel agent httpres st t r st' t' :
  str_is_empty (cf_masterdata_signkey (us_config st)) = false ->
  main_fetch_and_apply_config fuel agent httpres st t = Ret ((r, st'), t') ->
  (us_oldconfig st' = us_oldconfig st /\ r <> 1 \/ origin fuel agent httpres st t (content (us_oldconfig st'))) /\
  (r = 1 -> exists s since, content s = content (us_oldconfig st') /\ origin fuel agent httpres st t (content s) /\
     string_equals false s (us_oldconfig st) = false /\
     applied (cset_ifmodifiedsince (us_config st) since) (us_heap st) s st' t').
Proof using Hptr. apply fetch_origin. Qed.

Lemma main_request_config_since fuel agent httpres config s t r config' s' t' :
  main_request_config fuel agent httpres config s t = Ret ((r, config', s'), t') ->
  exists since, config' = cset_ifmodifiedsince config since.
Proof using Type.
  intros E. unfold main_request_config in E.
  unwind_io E; apply io_ret_inv in E as [E ->]; injection E as Er Ec Es; subst; [| |by eexists].
  all: exists (cf_ifmodifiedsince config); by destruct config.
Qed.

(** C25. An update that reports no change (0) changed nothing: it kept the peers and
    the configuration applied before, of the settings at most ifmodifiedsince moved,
    and all it asked of the system was to fetch or read data; no file was created,
    written, linked or removed and no command was run. *)
Theorem main_fetch_and_apply_config_unchanged fuel agent httpres st t st' t' :
  main_fetch_and_apply_config fuel agent httpres st t = Ret ((0, st'), t') ->
  (exists since, st' = mkupdate (cset_ifmodifiedsince (us_config st) since) (us_heap st) (us_oldconfig st)) /\
  (exists new, t' = t ++ new /\ Forall looks new).
Proof using Type.
  intros E. unfold main_fetch_and_apply_config in E. unwind_io E.
  - apply io_ret_inv in E as [E _]. by injection E.
  - match goal with E : main_request_config _ _ _ _ _ _ = _ |- _ =>
      destruct (main_request_config_since _ _ _ _ _ _ _ _ _ _ E) as (since & ->);
      destruct (emits_run _ _ _ _ _ (main_request_config_looks _ _ _ _ _) E) as (n1 & -> & Hn1) end.
    match goal with E : main_load_previous_config _ _ _ = _ |- _ =>
      destruct (emits_run _ _ _ _ _ (main_load_previous_config_looks _ _) E) as (n2 & -> & Hn2) end.
    apply apply_config_zero in E as [-> ->].
    split; [by exists since|]. exists (n1 ++ n2). rewrite app_assoc. split; [done | by apply Forall_app].
  - match goal with E : main_request_config _ _ _ _ _ _ = _ |- _ =>
      destruct (main_request_config_since _ _ _ _ _ _ _ _ _ _ E) as (since & ->);
      destruct (emits_run _ _ _ _ _ (main_request_config_looks _ _ _ _ _) E) as (n1 & -> & Hn1) end.
    apply apply_config_zero in E as [-> ->].
    split; [by exists since | by exists n1].
Qed.

End Signed.

(** ** The theorems at concrete inputs *)

Definition response0 : strbuf := snd (@string_init greatest 4096 512).

Lemma response0_sane : sane response0.
Proof. apply (@sane_init greatest); unfold ptrdiff_max, str_limit; lia. Qed.

Definition result_of {X A} (o : outcome_with X A) (d : A) : A := match o with Ret a => a | _ => d end.

Definition run_request : outcome_with trace (Z * config * strbuf * trace) :=
  @main_request_config greatest update_env backend toy_openssl toy_zlib 9 user_agent_text 0 update_config response0 [].
Definition requested : Z * config * strbuf * trace := Eval vm_compute in
  result_of run_request (0, update_config, response0, []).

Lemma run_request_eq : run_request = Ret requested.
Proof. vm_compute. reflexivity. Qed.

Example main_request_config_signed_witness :
  fst (fst (fst requested)) = 1 /\
  @downloaded greatest backend toy_openssl toy_zlib 9 user_agent_text 0 update_config [] published.
Proof.
  split; [done|].
  destruct requested as [[[r c] s] t] eqn:Er.
  pose proof run_request_eq as E. unfold run_request in E. rewrite Er in E.
  assert (r = 1 /\ content s = published) as [-> Hs].
  { vm_compute in Er. injection Er as <- <- <- <-. split; vm_compute; reflexivity. }
  destruct (@main_request_config_signed greatest update_env backend toy_openssl toy_zlib greatest_ptrdiff
    9 user_agent_text 0 update_config response0 [] c s t eq_refl response0_sane eq_refl E) as (Hd & _).
  by rewrite Hs in Hd.
Defined.

(** An update from nothing, and the same again. *)
Definition update_from (old : strbuf) : outcome_with trace (Z * update_state * trace) :=
  @main_fetch_and_apply_config greatest numeric_host update_env backend toy_openssl toy_zlib
    9 user_agent_text 0 (mkupdate update_config ∅ old) [].

#[local] Opaque main_fetch_and_apply_config.

Example main_fetch_and_apply_config_authentic_witness :
  exists st t, update_from response0 = Ret ((1, st), t) /\
    exists s since, content s = content (us_oldconfig st) /\ @applied greatest numeric_host update_env
      (cset_ifmodifiedsince update_config since) ∅ s st t.
Proof.
  destruct (update_from response0) as [[[r st] t]| |] eqn:E; [|vm_compute in E; discriminate E..].
  assert (r = 1) as -> by (vm_compute in E; congruence).
  exists st, t. split; [done|]. unfold update_from in E.
  destruct (@main_fetch_and_apply_config_authentic greatest numeric_host update_env backend toy_openssl toy_zlib
    greatest_ptrdiff 9 user_agent_text 0 (mkupdate update_config ∅ response0) [] 1 st t eq_refl E) as (_ & Hone).
  destruct (Hone eq_refl) as (s & since & Hs & _ & _ & Hap). exists s, since. split; [exact Hs | exact Hap].
Defined.

Example main_fetch_and_apply_config_unchanged_witness :
  exists st t, update_from (key_file published) = Ret ((0, st), t) /\ Forall looks t.
Proof.
  destruct (update_from (key_file published)) as [[[r st] t]| |] eqn:E; [|vm_compute in E; discriminate E..].
  assert (r = 0) as -> by (vm_compute in E; congruence).
  exists st, t. split; [done|]. unfold update_from in E.
  destruct (@main_fetch_and_apply_config_unchanged greatest numeric_host update_env backend toy_openssl toy_zlib
    9 user_agent_text 0 (mkupdate update_config ∅ (key_file published)) [] st t E) as (_ & new & -> & Hn). exact Hn.
Defined.
