(* ===== verification/Quiet.v ===== *)
(** * What an update does not do

    An update of the configuration never sends the worker a command, never sleeps and
    never looks at the signal flags: of all the code of the main loop only what is in
    Main.v does. *)

From S2P Require Import Prelude CLib CString StrBuf StrSafe StrFmt AddrMask PeerParser Config World Fs FsCopy Tinc.
From S2P Require Import Ar Http Crypto Request RequestProps.

(** Requests that are not commands to the worker. *)
Definition no_command (e : event) : Prop := match e with EHandler _ => False | _ => True end.

(** Requests that are no part of the loop around the updates. *)
Definition no_control (e : event) : Prop := match e with EHandler _ | ESignals | ESleep _ => False | _ => True end.

Lemma no_control_command e : no_control e -> no_command e.
Proof. by destruct e. Qed.

Section NoControl.
Context `{Allocator} `{Resolver} `{Environment} `{Network} `{OpenSSL} `{Zlib}.

Ltac quiet := emits_tac; done || auto with emits.

Lemma looks_no_control {A} (m : io A) : emits looks m -> emits no_control m.
Proof. apply emits_weaken. by intros []. Qed.

Lemma cwd_loop_quiet turns bta s : emits no_control (cwd_loop turns bta s).
Proof. revert bta s; induction turns as [|turns IH]; intros; cbn [cwd_loop]; unfold getcwd, sys_getcwd; quiet. Qed.
#[local] Hint Resolve cwd_loop_quiet : emits.

Lemma fs_get_cwd_quiet s : emits no_control (fs_get_cwd s).
Proof. unfold fs_get_cwd, getcwd, sys_getcwd. quiet. Qed.
#[local] Hint Resolve fs_get_cwd_quiet : emits.

Lemma back_to_quiet s r : emits no_control (back_to s r).
Proof. unfold back_to, sys_chdir. quiet. Qed.
#[local] Hint Resolve back_to_quiet : emits.

Lemma cp_loop_quiet fuel src dst n : emits no_control (cp_loop fuel src dst n).
Proof. revert n; induction fuel as [|fuel IH]; intros; cbn [cp_loop]; unfold sys_read, sys_write; quiet. Qed.
#[local] Hint Resolve cp_loop_quiet : emits.

Lemma copy_loop_quiet fuel handle names src dst :
  (forall s d, emits no_control (handle s d)) -> emits no_control (copy_loop fuel handle names src dst).
Proof.
  intros Hh. revert src dst; induction names as [|n names IH]; intros; cbn [copy_loop];
    unfold copy_dir, copy_file, fs_cp_file, sys_stat, sys_open_read, sys_open_copy, sys_utimes, sys_chdir;
    emits_tac; done || auto with emits.
Qed.

Lemma handledir_quiet fuel src dst : emits no_control (handledir fuel src dst).
Proof.
  revert src dst; induction fuel as [|fuel IH]; intros; cbn [handledir];
    unfold sys_stat, sys_mkdir, sys_chdir, sys_opendir; emits_tac; try done; by apply copy_loop_quiet.
Qed.
#[local] Hint Resolve handledir_quiet : emits.

Lemma fs_cp_r_quiet fuel src dest : emits no_control (fs_cp_r fuel src dest).
Proof. unfold fs_cp_r, full_path. quiet. Qed.

Lemma empty_loop_quiet names dst : emits no_control (empty_loop names dst).
Proof. revert dst; induction names; intros; cbn [empty_loop]; unfold sys_stat, sys_unlink; quiet. Qed.
#[local] Hint Resolve empty_loop_quiet : emits.

Lemma fs_empty_dir_quiet dest : emits no_control (fs_empty_dir dest).
Proof. unfold fs_empty_dir, sys_stat, sys_chdir, sys_opendir. quiet. Qed.

Lemma fs_writecontents_quiet fn cnt len mode : emits no_control (fs_writecontents fn cnt len mode).
Proof. unfold fs_writecontents, sys_open_write, sys_write. quiet. Qed.
#[local] Hint Resolve fs_cp_r_quiet fs_empty_dir_quiet fs_writecontents_quiet : emits.

Lemma fs_mkdir_p_quiet fuel path mode : emits no_control (fs_mkdir_p fuel path mode).
Proof. revert path; induction fuel as [|fuel IH]; intros; cbn [fs_mkdir_p]; unfold sys_mkdir; quiet. Qed.
#[local] Hint Resolve fs_mkdir_p_quiet : emits.

Lemma hosts_loop_quiet config heap dir peers : emits no_control (hosts_loop config heap dir peers).
Proof. induction peers; cbn [hosts_loop]; unfold fs_writecontents_safe; quiet. Qed.
#[local] Hint Resolve hosts_loop_quiet : emits.

Lemma write_tinc_files_quiet config heap : emits no_control (write_tinc_files config heap).
Proof.
  unfold write_tinc_files, tinc_write_config, tinc_write_hosts, tinc_write_updown, tinc_write_subnetupdown,
    write_file, sys_access, sys_symlink, sys_unlink. quiet.
Qed.
#[local] Hint Resolve write_tinc_files_quiet : emits.

Lemma apply_config_quiet fuel st s : emits no_control (apply_config fuel st s).
Proof.
  unfold apply_config, main_tempsave_fetched_config, main_create_backup, main_cleanup_hosts_subdir, sys_unlink.
  quiet.
Qed.
#[local] Hint Resolve apply_config_quiet : emits.

Lemma main_fetch_and_apply_config_quiet fuel agent httpres st :
  emits no_control (main_fetch_and_apply_config fuel agent httpres st).
Proof.
  unfold main_fetch_and_apply_config, main_request_config, sys_time. emits_tac; try done; auto with emits.
  all: apply looks_no_control; auto with emits.
Qed.

End NoControl.
