(* ===== verification/FsCopyProps.v ===== *)
(** * What a copy of a directory tree may touch

    [fs_cp_r] appends to and shortens one path buffer through all levels of its
    recursion.  Whatever the system answers, every path it creates, writes or sets
    the times of is the destination or lies below it. *)

From S2P Require Import Prelude CLib CString StrBuf StrSafe World Fs FsProps FsCopy.

(** The names [readdir] gives, apart from the two dot entries. *)
Definition entry (n : text) : Prop := n <> [] /\ nonul n /\ 47 ∉ n /\ is_dot_entry n = false.

(** Directories below each other. *)
Definition dirs (ns : list text) : text := concat (map (fun n => n ++ [47]) ns).

(** [p] is [d], a directory below it, or an entry of one of these. *)
Definition below (d p : text) : Prop :=
  exists ns last, p = d ++ dirs ns ++ last /\ Forall entry ns /\ (last = [] \/ entry last).

(** A request that changes no file, or one below [d]. *)
Definition writes_below (d : text) (e : event) : Prop :=
  match e with
  | EMkdir p _ | EOpenCopy p _ | EWrite p _ | EUtimes p => below d p
  | EOpenRead _ | ERead _ _ | EStat _ | EChdir _ | EGetcwd | EOpendir _ => True
  | _ => False
  end.

Lemma dirs_snoc ns n : dirs (ns ++ [n]) = dirs ns ++ n ++ [47].
Proof. unfold dirs. by rewrite map_app, concat_app, <- (app_nil_r (n ++ [47])) at 1. Qed.

Lemma entry_nonul ns : Forall entry ns -> nonul (dirs ns).
Proof.
  induction 1 as [|n ns (_ & Hn & _) _ IH]; [constructor|]. unfold dirs. cbn. apply nonul_app. split; [|done].
  apply nonul_app. split; [done|]. by repeat constructor.
Qed.

(** ** The path buffer *)

Section Buffer.
Context `{Allocator}.
Hypothesis Hptr : alloc_ptrdiff.

(** A text that starts the buffer and is followed by a NUL is what a C function sees. *)
Lemma cstr_of_start s b a r : s_s s = Some b -> b = a ++ 0 :: r -> nonul a -> cstr_of s = Ret a.
Proof using Type.
  intros Hs -> Ha. unfold cstr_of, string_cstr. rewrite Hs.
  rewrite strchr_app; [done|]. intros Hin. unfold nonul in Ha. rewrite list.Forall_forall in Ha. by apply (Ha 0).
Qed.

Lemma content_start s a r :
  content s = a ++ 0 :: r -> nonul a -> cstr_of s = Ret a.
Proof using Type.
  intros Hc Ha. unfold content in Hc. destruct (s_s s) as [b|] eqn:Eb; cbn in Hc.
  - apply (cstr_of_start s b a (r ++ zdrop (s_length s) b)); [done | | done].
    rewrite <- (ztake_zdrop (s_length s) b) at 1. by rewrite Hc, <- app_assoc.
  - unfold ztake in Hc. rewrite take_nil in Hc. by destruct a.
Qed.

(** The buffer holds [c], terminated. *)
Record shows (s : strbuf) (c : text) : Prop := {
  shows_sane : sane s;
  shows_content : content s = c;
  shows_cstr : cstr_of s = Ret c
}.

(** A NUL written behind the content and taken back from the length. *)
Lemma terminated_shows s s1 c :
  sane s -> sane s1 -> content s1 = c ++ [0] -> nonul c ->
  shows (mkstr (u64 (s_length s1 - 1)) (s_size s1) (s_growby s1) (s_s s1)) c.
Proof using Type.
  intros Hs Hs1 Hc Hn. pose proof (zlen_content s1 (sane_wf s1 Hs1)) as Hl.
  rewrite Hc, zlen_app in Hl. change (zlen [0]) with 1 in Hl. pose proof (zlen_nonneg c).
  pose proof (wf_length s1 (sane_wf s1 Hs1)). pose proof (sane_size s1 Hs1). unfold ptrdiff_max in *.
  rewrite u64_small by lia. destruct (content_shorter s1 (s_length s1 - 1) Hs1) as [Ha Hb]; [lia|].
  split; [done | |].
  - rewrite Hb, Hc, ztake_app_le by lia. apply ztake_all. lia.
  - apply (content_start s1 c []) in Hn; [|done]. exact Hn.
Qed.

Lemma concat_shows s name s' :
  sane s -> nonul (content s ++ name) -> string_concat s name = Ret (true, s') -> shows s' (content s ++ name).
Proof using Hptr.
  intros Hs Hn E. unfold string_concat in E. destruct (string_concatb _ _ _) as [[ok s1]| |] eqn:Eb; [|done..].
  cbn in E. assert (0 <= strlen name + 1) as Hlen by (unfold strlen; pose proof (zlen_nonneg name); lia).
  destruct (concatb_sane Hptr _ _ _ _ _ Hs Hlen Eb) as (Hs1 & Hc1).
  destruct ok; [|done]. injection E as <-. apply (terminated_shows s s1); try done.
  rewrite Hc1. rewrite <- app_assoc. f_equal. apply ztake_all. rewrite zlen_app. unfold strlen. change (zlen [0]) with 1. lia.
Qed.

Lemma last_char_content s c x : sane s -> content s = c ++ [x] -> last_char s = Ret x.
Proof using Type.
  intros Hs Hc. pose proof (zlen_content s (sane_wf s Hs)) as Hl. rewrite Hc, zlen_app in Hl.
  change (zlen [x]) with 1 in Hl. pose proof (zlen_nonneg c).
  pose proof (wf_length s (sane_wf s Hs)). pose proof (sane_size s Hs). pose proof (wf_buf s (sane_wf s Hs)) as Hb.
  unfold ptrdiff_max, last_char, content in *. destruct (s_s s) as [b|]; cbn in Hc.
  - rewrite u64_small by lia. destruct (Z.leb_spec (zlen b) (s_length s - 1)); [lia|]. f_equal.
    rewrite <- (ztake_zdrop (s_length s) b), Hc, <- app_assoc. cbn [app].
    rewrite app_nth2; unfold zlen in *; [|lia]. by replace (Z.to_nat _ - length c)%nat with 0%nat by lia.
  - unfold ztake in Hc. rewrite take_nil in Hc. by destruct c.
Qed.

Lemma ensurez_shows s s' :
  sane s -> nonul (content s) -> content s <> [] -> string_ensurez s = Ret (true, s') -> shows s' (content s).
Proof using Hptr.
  intros Hs Hn Hne E. destruct (exists_last Hne) as (c & x & Hc).
  pose proof (last_char_content s c x Hs Hc) as Hl. assert (x <> 0) as Hx.
  { rewrite Hc in Hn. apply nonul_app in Hn as [_ Hn]. by apply list.Forall_cons in Hn as [Hn _]. }
  unfold string_ensurez, last_char in *. destruct (s_s s) as [b|] eqn:Eb; [|done].
  destruct (Z.eqb_spec (s_length s) 0) as [H0|].
  { exfalso. apply Hne. unfold content. rewrite H0. done. }
  cbv zeta in *. destruct (zlen b <=? _); [done|]. injection Hl as Hl. rewrite Hl in E.
  replace (x =? 0) with false in E by lia.
  destruct (string_putc s 0) as [[ok s1]| |] eqn:Ep; [|done..]. cbn in E.
  destruct (putc_sane Hptr s 0 ok s1 Hs Ep) as (Hs1 & Hc1). destruct ok; [|done].
  injection E as <-. by apply (terminated_shows s s1).
Qed.

Lemma ensure_suffix_shows s c x s' :
  shows s (c ++ [x]) -> nonul (c ++ [x]) -> fs_ensure_suffix s = Ret (true, s') ->
  shows s' (if x =? 47 then c ++ [x] else (c ++ [x]) ++ [47]).
Proof using Hptr.
  intros [Hs Hc Hz] Hn E. unfold fs_ensure_suffix in E. rewrite (last_char_content s c x Hs Hc) in E. cbn in E.
  destruct (x =? 47); [injection E as <-; by split|].
  destruct (string_putc s 47) as [[ok s1]| |] eqn:Ep; [|done..]. cbn in E.
  destruct (putc_sane Hptr s 47 ok s1 Hs Ep) as (Hs1 & Hc1). destruct ok; [|done]. cbn in E.
  rewrite Hc in Hc1. rewrite <- Hc1. apply ensurez_shows; [done | | | done]; rewrite Hc1; [|by destruct c].
  apply nonul_app. split; [done|]. by repeat constructor.
Qed.

Lemma shows_shorter s n c r :
  sane s -> content s = c ++ r -> n = zlen c ->
  sane (set_length s n) /\ content (set_length s n) = c.
Proof using Type.
  intros Hs Hc ->. pose proof (zlen_content s (sane_wf s Hs)) as Hl. rewrite Hc, zlen_app in Hl.
  pose proof (zlen_nonneg c). pose proof (zlen_nonneg r).
  destruct (content_shorter s (zlen c) Hs) as [Ha Hb]; [lia|]. split; [done|].
  unfold set_length. rewrite Hb, Hc, ztake_app_le by lia. by apply ztake_all.
Qed.

End Buffer.

(** [string_ensurez] that fails has done nothing. *)
Lemma ensurez_false `{Allocator} (Hptr : alloc_ptrdiff) s s' :
  sane s -> string_ensurez s = Ret (false, s') -> s' = s.
Proof.
  intros Hs. assert (('(ok0, s0) ← string_putc s 0;
      if ok0 : bool then Ret (true, mkstr (u64 (s_length s0 - 1)) (s_size s0) (s_growby s0) (s_s s0))
      else Ret (false, s0)) = Ret (false, s') -> s' = s) as Ht.
  { destruct (string_putc s 0) as [[ok s1]| |] eqn:Ep; [|done..]. cbn.
    destruct (putc_sane Hptr s 0 ok s1 Hs Ep) as (_ & Hc). destruct ok; [done|]. intros [= <-]. done. }
  unfold string_ensurez. cbv zeta. destruct (s_s s) as [b|]; [|exact Ht]. destruct (s_length s =? 0).
  - destruct byte_before as [c|]; [|done]. destruct (c =? 0); [done | exact Ht].
  - destruct (zlen b <=? _); [done|]. destruct (_ =? 0); [done | exact Ht].
Qed.

(** ** The copy *)

Section Copy.
Context `{Allocator}.
Hypothesis Hptr : alloc_ptrdiff.
Context `{Environment}.
Context `{!EnvironmentOk _}.

(** The destination. *)
Variable D : text.
Hypothesis HD : nonul D /\ D <> [].

(** The buffer holds the directory [ns] below the destination; what is left behind
    its length still names something below the destination. *)
Record at_dir (s : strbuf) (ns : list text) : Prop := {
  at_sane : sane s;
  at_content : content s = D ++ dirs ns;
  at_entries : Forall entry ns;
  at_path : exists p, cstr_of s = Ret p /\ below D p
}.

Lemma at_nonul s ns : at_dir s ns -> nonul (content s) /\ content s <> [].
Proof using HD.
  intros [_ Hc Hn _]. rewrite Hc. destruct HD as [Hd Hne]. split; [|by destruct D].
  apply nonul_app. split; [done | by apply entry_nonul].
Qed.

Lemma below_dirs ns : Forall entry ns -> below D (D ++ dirs ns).
Proof using Type. intros Hn. exists ns, []. rewrite app_nil_r. auto. Qed.

Lemma shows_at s ns : Forall entry ns -> shows s (D ++ dirs ns) -> at_dir s ns.
Proof using Type. intros Hn [Hs Hc Hz]. split; [done..|]. exists (D ++ dirs ns). split; [done | by apply below_dirs]. Qed.

(** What a step of the copy does: its requests, and the buffer it leaves. *)
Definition keeps (ns : list text) (m : io copied) : Prop :=
  forall t ok s d t', m t = Ret ((ok, s, d), t') ->
    exists new, t' = t ++ new /\ Forall (writes_below D) new /\ (ok = true -> at_dir d ns).

Lemma keeps_false ns s d : keeps ns (mret (false, s, d)).
Proof using Type. intros t ok s' d' t' ([= -> -> ->] & ->)%io_ret_inv. exists []. by rewrite app_nil_r. Qed.

Lemma keeps_ret ns ok s d : at_dir d ns -> keeps ns (mret (ok, s, d)).
Proof using Type. intros Hd t ok' s' d' t' ([= -> -> ->] & ->)%io_ret_inv. exists []. by rewrite app_nil_r. Qed.

Lemma keeps_bind {A} ns (m : io A) (f : A -> io copied) :
  emits (writes_below D) m -> (forall a, keeps ns (f a)) -> keeps ns (m ≫= f).
Proof using Type.
  intros Hm Hf t ok s d t' (a & t1 & E1 & E2)%io_bind_inv. destruct (emits_run _ _ _ _ _ Hm E1) as (n1 & -> & H1).
  destruct (Hf _ _ _ _ _ _ E2) as (n2 & -> & H2 & Hd). exists (n1 ++ n2). rewrite app_assoc.
  split_and!; [done | by apply Forall_app | done].
Qed.

Lemma keeps_request {A} ns e (answer : trace -> A) (f : A -> io copied) :
  writes_below D e -> (forall t, keeps ns (f (answer t))) -> keeps ns (request e answer ≫= f).
Proof using Type.
  intros He Hf t ok s d t' (a & t1 & (-> & ->)%io_request_inv & E2)%io_bind_inv.
  destruct (Hf _ _ _ _ _ _ E2) as (n2 & -> & H2 & Hd). exists (e :: n2). rewrite <- app_assoc.
  split_and!; [done | by constructor | done].
Qed.

Lemma keeps_lift {A} ns (m : outcome A) (f : A -> io copied) :
  (forall a, m = Ret a -> keeps ns (f a)) -> keeps ns (lift m ≫= f).
Proof using Type.
  intros Hf t ok s d t' (a & t1 & (Em & ->)%io_lift_inv & E2)%io_bind_inv. exact (Hf a Em _ _ _ _ _ E2).
Qed.

Lemma keeps_seq ns ns' (m : io copied) (f : copied -> io copied) :
  keeps ns' m -> (forall s d, at_dir d ns' -> keeps ns (f (true, s, d))) ->
  (forall s d, keeps ns (f (false, s, d))) -> keeps ns (m ≫= f).
Proof using Type.
  intros Hm Ht Hf t ok s d t' ([[[|] s1] d1] & t1 & E1 & E2)%io_bind_inv;
    destruct (Hm _ _ _ _ _ E1) as (n1 & -> & H1 & Hd1).
  - destruct (Ht _ _ (Hd1 eq_refl) _ _ _ _ _ E2) as (n2 & -> & H2 & Hd). exists (n1 ++ n2). rewrite app_assoc.
    split_and!; [done | by apply Forall_app | done].
  - destruct (Hf _ _ _ _ _ _ _ E2) as (n2 & -> & H2 & Hd). exists (n1 ++ n2). rewrite app_assoc.
    split_and!; [done | by apply Forall_app | done].
Qed.

Lemma cp_loop_below fuel src dst n : below D dst -> emits (writes_below D) (cp_loop fuel src dst n).
Proof using Type.
  intros Hb. revert n; induction fuel as [|fuel IH]; intros n; cbn [cp_loop]; unfold sys_read, sys_write;
    emits_tac; done || auto with emits.
Qed.

Lemma fs_cp_file_below fuel src dst : below D dst -> emits (writes_below D) (fs_cp_file fuel src dst).
Proof using Type.
  intros Hb. unfold fs_cp_file, sys_stat, sys_open_read, sys_open_copy.
  emits_tac; done || by apply cp_loop_below.
Qed.

(** One more name behind the directory. *)
Lemma at_name s ns name s' :
  at_dir s ns -> entry name -> string_concat s name = Ret (true, s') -> shows s' (D ++ dirs ns ++ name).
Proof using Hptr HD.
  intros Ha He E. pose proof (at_nonul _ _ Ha) as [Hn _]. pose proof He as (_ & Hnn & _).
  rewrite app_assoc, <- (at_content _ _ Ha). apply (concat_shows Hptr); [apply Ha | by apply nonul_app | done].
Qed.

(** Back to the directory. *)
Lemma at_back s s' ns r :
  at_dir s ns -> sane s' -> content s' = D ++ dirs ns ++ r -> (exists p, cstr_of s' = Ret p /\ below D p) ->
  at_dir (set_length s' (s_length s)) ns.
Proof using Type.
  intros Ha Hs' Hc Hp. pose proof (zlen_content s (sane_wf s (at_sane _ _ Ha))) as Hl.
  rewrite (at_content _ _ Ha) in Hl. rewrite app_assoc in Hc.
  destruct (shows_shorter s' (s_length s) _ _ Hs' Hc (eq_sym Hl)) as [Hs2 Hc2].
  split; [done | done | apply Ha | exact Hp].
Qed.

Lemma copy_file_keeps fuel name src dst ns :
  at_dir dst ns -> entry name -> keeps ns (copy_file fuel name src dst).
Proof using Hptr HD.
  intros Ha He. unfold copy_file, sys_utimes. apply keeps_lift. intros [[] d1] E1; [|apply keeps_false]. cbn [negb].
  pose proof (at_name _ _ _ _ Ha He E1) as Hsh. assert (nonul (D ++ dirs ns ++ name) /\ D ++ dirs ns ++ name <> []) as [Hn Hne].
  { pose proof (at_nonul _ _ Ha) as [Hn _]. rewrite (at_content _ _ Ha) in Hn. pose proof He as (_ & Hnn & _).
    destruct HD as [_ HD']. split; [rewrite app_assoc; by apply nonul_app | by destruct D]. }
  assert (below D (D ++ dirs ns ++ name)) as Hb by (exists ns, name; split_and!; [done | apply Ha | by right]).
  apply keeps_lift. intros [[] d2] E2; [|apply keeps_false]. cbn [negb].
  apply (ensurez_shows Hptr) in E2; [|apply Hsh | by rewrite (shows_content _ _ Hsh)..].
  rewrite (shows_content _ _ Hsh) in E2. apply keeps_lift. intros p Ep.
  rewrite (shows_cstr _ _ E2) in Ep. injection Ep as <-.
  apply keeps_bind; [by apply fs_cp_file_below|]. intros [|]; [|apply keeps_false]. cbn [negb].
  apply keeps_lift. intros p Ep. rewrite (shows_cstr _ _ E2) in Ep. injection Ep as <-.
  apply keeps_request; [done|]. intros _. apply keeps_ret.
  apply (at_back dst d2 ns name); [done | apply E2 | apply E2|]. exists (D ++ dirs ns ++ name). split; [apply E2 | done].
Qed.

Lemma entry_not_slash n : entry n -> exists c x, n = c ++ [x] /\ x <> 47.
Proof using Type.
  intros (Hne & _ & Hs & _). destruct (exists_last Hne) as (c & x & ->). exists c, x. split; [done|].
  clear -Hs. intros ->. set_solver.
Qed.

(** A name and a slash. *)
Lemma at_subdir s ns name s1 s' :
  at_dir s ns -> entry name -> string_concat s name = Ret (true, s1) -> fs_ensure_suffix s1 = Ret (true, s') ->
  at_dir s' (ns ++ [name]).
Proof using Hptr HD.
  intros Ha He E1 E2. pose proof (at_name _ _ _ _ Ha He E1) as Hsh.
  destruct (entry_not_slash _ He) as (c & x & -> & Hx).
  pose proof (at_nonul _ _ Ha) as [Hn _]. rewrite (at_content _ _ Ha) in Hn.
  assert (nonul ((D ++ dirs ns ++ c) ++ [x])) as Hn2.
  { rewrite <- !app_assoc, (app_assoc D). apply nonul_app. split; [done | apply He]. }
  assert (shows s1 ((D ++ dirs ns ++ c) ++ [x])) as Hsh2 by (by rewrite <- !app_assoc).
  apply (ensure_suffix_shows Hptr _ _ _ _ Hsh2 Hn2) in E2. replace (x =? 47) with false in E2 by lia.
  apply shows_at; [apply Forall_app; split; [apply Ha | by constructor]|].
  rewrite dirs_snoc, <- !app_assoc. by rewrite <- !app_assoc in E2.
Qed.

Lemma copy_dir_keeps handle name src dst ns :
  at_dir dst ns -> entry name -> (forall s d, at_dir d (ns ++ [name]) -> keeps (ns ++ [name]) (handle s d)) ->
  keeps ns (copy_dir handle name src dst).
Proof using Hptr HD.
  intros Ha He Hh. unfold copy_dir, sys_utimes, sys_chdir. apply keeps_lift. intros [[] s1] _; [|apply keeps_false]. cbn [negb].
  apply keeps_lift. intros [[] s2] _; [|apply keeps_false]. cbn [negb].
  apply keeps_lift. intros [[] d1] E1; [|apply keeps_false]. cbn [negb].
  apply keeps_lift. intros [[] d2] E2; [|apply keeps_false]. cbn [negb].
  eapply keeps_seq; [apply Hh; by eapply at_subdir | | intros; apply keeps_false].
  intros s d Hd. cbn [negb]. destruct (at_path _ _ Hd) as (p & Ep & Hb).
  apply keeps_lift. intros p' Ep'. rewrite Ep in Ep'. injection Ep' as <-.
  apply keeps_request; [done|]. intros _. apply keeps_lift. intros [oks s3] ?.
  assert (at_dir (set_length d (s_length dst)) ns) as Hback.
  { apply (at_back dst d ns (name ++ [47])); [done | apply Hd | | by exists p].
    by rewrite (at_content _ _ Hd), dirs_snoc. }
  apply keeps_lift. intros [okd d3] Ed. apply keeps_lift. intros p3 _.
  apply keeps_request; [done|]. intros t0. cbn beta. apply keeps_ret.
  pose proof (at_nonul _ _ Hback) as [Hn Hne]. destruct okd.
  - apply (ensurez_shows Hptr) in Ed; [|apply Hback | done..].
    rewrite (at_content _ _ Hback) in Ed. by apply shows_at; [apply Ha|].
  - apply (ensurez_false Hptr) in Ed as ->; [done | apply Hback].
Qed.

Lemma copy_loop_keeps fuel handle names src dst ns :
  at_dir dst ns -> Forall (fun n => n <> [] /\ nonul n /\ 47 ∉ n) names ->
  (forall name s d, entry name -> at_dir d (ns ++ [name]) -> keeps (ns ++ [name]) (handle s d)) ->
  keeps ns (copy_loop fuel handle names src dst).
Proof using Hptr HD.
  intros Ha Hnames Hh. revert src dst Ha. induction Hnames as [|name names (Hne & Hn & Hs) _ IH]; intros src dst Ha.
  { by apply keeps_ret. }
  cbn [copy_loop]. unfold sys_stat. apply keeps_request; [done|]. intros t.
  destruct (os_stat t name) as [st|]; [|by apply IH].
  destruct (is_dot_entry name) eqn:Edot; [by apply IH|].
  assert (entry name) as He by done.
  apply (keeps_seq ns ns).
  - destruct (st_kind st); [|by apply copy_file_keeps | by apply keeps_ret].
    apply copy_dir_keeps; [done | done | intros; by apply Hh].
  - intros s d Hd. by apply IH.
  - intros. apply keeps_false.
Qed.

Lemma handledir_keeps fuel src dst ns : at_dir dst ns -> keeps ns (handledir fuel src dst).
Proof using Hptr HD EnvironmentOk0.
  revert src dst ns; induction fuel as [|fuel IH]; intros src dst ns Ha; cbn [handledir].
  { intros t ok s d t' E. done. }
  unfold sys_stat, sys_mkdir, sys_chdir, sys_opendir.
  apply keeps_lift. intros [[] s1] _; [|apply keeps_false]. cbn [negb].
  apply keeps_lift. intros [[] d1] Ed; [|apply keeps_false]. cbn [negb].
  pose proof (at_nonul _ _ Ha) as [Hn Hne]. apply (ensurez_shows Hptr) in Ed; [|apply Ha | done..].
  rewrite (at_content _ _ Ha) in Ed. apply keeps_lift. intros s _.
  apply keeps_request; [done|]. intros t. destruct (os_stat t s) as [st|]; [|apply keeps_false].
  apply keeps_lift. intros d Ed'. rewrite (shows_cstr _ _ Ed) in Ed'. injection Ed' as <-.
  apply keeps_request; [by apply below_dirs, Ha|]. intros _.
  apply keeps_request; [done|]. intros t2. destruct (os_chdir t2 s); [|apply keeps_false]. cbn [negb].
  apply keeps_request; [done|]. intros t3. destruct (os_opendir t3 s) as [names|] eqn:En; [|apply keeps_false].
  apply copy_loop_keeps; [by apply shows_at; [apply Ha|] | | intros; by apply IH].
  eapply list.Forall_impl; [by eapply opendir_names|]. by intros n (? & ? & ? & _).
Qed.

End Copy.

(** ** fs_cp_r *)

Section Whole.
Context `{Allocator}.
Hypothesis Hptr : alloc_ptrdiff.
Context `{Environment}.
Context `{!EnvironmentOk _}.

Lemma cwd_loop_looks d turns bta s : emits (writes_below d) (cwd_loop turns bta s).
Proof using Type.
  revert bta s; induction turns as [|turns IH]; intros; cbn [cwd_loop]; unfold getcwd, sys_getcwd; emits_tac; done || auto with emits.
Qed.

Lemma fs_get_cwd_looks d s : emits (writes_below d) (fs_get_cwd s).
Proof using Type. unfold fs_get_cwd, getcwd, sys_getcwd. emits_tac; try done. apply cwd_loop_looks. Qed.

Lemma full_path_looks d p s : emits (writes_below d) (full_path p s).
Proof using Type. unfold full_path. emits_tac; try done. apply fs_get_cwd_looks. Qed.

Lemma back_to_looks d s r : emits (writes_below d) (back_to s r).
Proof using Type. unfold back_to, sys_chdir. emits_tac; done. Qed.

(** The destination, from an absolute path. *)
Lemma full_path_absolute dest s t s' t' :
  nonul dest -> nth 0 dest 0 = 47 -> sane s -> content s = [] -> full_path dest s t = Ret ((true, s'), t') ->
  t' = t /\ shows s' (with_slash dest).
Proof using Hptr.
  intros Hn Hd Hs Hc E. unfold full_path in E. rewrite Hd in E. cbn [negb Z.eqb] in E.
  apply io_bind_inv in E as ([ok s1] & t1 & ([= -> ->] & ->)%io_ret_inv & E). cbn [negb] in E.
  apply io_bind_inv in E as ([ok s2] & t1 & (E1 & ->)%io_lift_inv & E).
  destruct ok; [|by apply io_ret_inv in E as [? _]]. cbn [negb] in E. apply io_lift_inv in E as [E ->]. split; [done|].
  apply (concat_shows Hptr) in E1; [|done | by rewrite Hc]. rewrite Hc in E1. cbn [app] in E1.
  assert (dest <> []) as Hne by (by destruct dest). destruct (exists_last Hne) as (c & x & ->).
  apply (ensure_suffix_shows Hptr _ _ _ _ E1 Hn) in E. unfold with_slash. rewrite last_snoc.
  destruct (Z.eqb_spec x 47) as [->|Hx]; [by rewrite bool_decide_true | by rewrite bool_decide_false by congruence].
Qed.

(** The requests between two histories. *)
Definition grows (d : text) (t t' : trace) : Prop := exists new, t' = t ++ new /\ Forall (writes_below d) new.

Lemma grows_trans d t t1 t' : grows d t t1 -> grows d t1 t' -> grows d t t'.
Proof using Type.
  intros (a & -> & Ha) (b & -> & Hb). exists (a ++ b). rewrite app_assoc. split; [done | by apply Forall_app].
Qed.

Lemma copy_to_grows fuel source d s1 curwd t r t' :
  nonul d -> d <> [] -> shows s1 d ->
  ('(retval, _, _) ← handledir fuel source s1; back_to curwd retval) t = Ret (r, t') -> grows d t t'.
Proof using Hptr EnvironmentOk0.
  intros Hn Hne Hsh ([[ok s2] d2] & t1 & E1 & E)%io_bind_inv.
  assert (at_dir d s1 []) as Ha by (apply shows_at; [constructor | by rewrite app_nil_r]).
  destruct (handledir_keeps Hptr d (conj Hn Hne) fuel source s1 [] Ha _ _ _ _ _ E1) as (n1 & -> & H1 & _).
  eapply grows_trans; [by exists n1|]. by destruct (emits_run _ _ _ _ _ (back_to_looks d _ _) E) as (n2 & -> & H2); exists n2.
Qed.

(** C16. A copy of a directory tree to an absolute path creates, writes and changes the
    times of nothing but the destination and what lies below it under proper names:
    no path it uses there has an empty or dot component that the caller did not give.
    This holds on every system and for every result of the allocations. *)
Theorem fs_cp_r_stays_below fuel src dest t r t' :
  nonul dest -> nth 0 dest 0 = 47 -> fs_cp_r fuel src dest t = Ret (r, t') ->
  exists new, t' = t ++ new /\ Forall (writes_below (with_slash dest)) new.
Proof using Hptr EnvironmentOk0.
  intros Hn Hd E. unfold fs_cp_r in E. destruct (string_init 512 512) as [o s0] eqn:Ei.
  assert (sane s0 /\ content s0 = []) as [Hs0 Hc0].
  { split; [|unfold string_init in Ei; destruct (alloc_ok 512); by injection Ei as _ <-].
    change s0 with (snd (o, s0)). rewrite <- Ei. apply sane_init; unfold ptrdiff_max, str_limit; lia. }
  set (d := with_slash dest). assert (nonul d /\ d <> []) as [Hdn Hdne].
  { unfold d, with_slash. assert (nonul (dest ++ [47])) by (apply nonul_app; split; [done | by repeat constructor]).
    assert (dest <> []) by (by destruct dest). case_bool_decide; split; try done; by destruct dest. }
  apply io_bind_inv in E as ([ok curwd] & t1 & E1 & E).
  eapply grows_trans; [apply (emits_run _ _ _ _ _ (fs_get_cwd_looks d _) E1)|]. destruct ok; cbn [negb] in E;
    [|apply io_ret_inv in E as [-> ->]; exists []; by rewrite app_nil_r].
  apply io_bind_inv in E as ([ok source] & t2 & E2 & E).
  eapply grows_trans; [apply (emits_run _ _ _ _ _ (full_path_looks d _ _) E2)|]. destruct ok; cbn [negb] in E;
    [|apply (emits_run _ _ _ _ _ (back_to_looks d _ _) E)].
  apply io_bind_inv in E as ([ok s1] & t3 & E3 & E). destruct ok; cbn [negb] in E.
  - destruct (full_path_absolute dest s0 t2 s1 t3 Hn Hd Hs0 Hc0 E3) as [-> Hsh]. by eapply copy_to_grows.
  - eapply grows_trans; [apply (emits_run _ _ _ _ _ (full_path_looks d _ _) E3) | apply (emits_run _ _ _ _ _ (back_to_looks d _ _) E)].
Qed.

End Whole.

(** A tree with a file and a directory with a file. *)
Definition tree_dirs (p : text) : option (list text) :=
  if bool_decide (p = c_lit "/t/") then Some [c_lit "."; c_lit ".."; c_lit "tinc.conf"; c_lit "hosts"]
  else if bool_decide (p = c_lit "/t/hosts/") then Some [c_lit "."; c_lit ".."; c_lit "me"]
  else None.
Definition tree_kinds (p : text) : option file_kind :=
  if bool_decide (p = c_lit "/t/" \/ p = c_lit "/t/hosts/" \/ p = c_lit "hosts" \/ p = c_lit "." \/ p = c_lit "..") then Some KDir
  else Some KReg.
Definition tree_env : Environment := granting (fun _ => Some []) (fun _ => None) tree_kinds tree_dirs.

Lemma tree_env_ok : EnvironmentOk tree_env.
Proof.
  split.
  - intros t p l E. cbn in E. unfold tree_dirs in E. repeat case_bool_decide; try done;
      injection E as <-; repeat constructor; vm_compute; try done;
      intros Hin; repeat (apply elem_of_cons in Hin as [Hin|Hin]; [done|]); by apply not_elem_of_nil in Hin.
  - intros t. cbn. split_and!; [by repeat constructor | done | done].
  - intros t p d. cbn. pose proof (zlen_nonneg d). lia.
Qed.

Lemma fs_cp_r_stays_below_witness :
  exists new, @fs_cp_r greatest tree_env 5 (c_lit "/t") (c_lit "/t.old") [] = Ret (true, new) /\
    Forall (writes_below (c_lit "/t.old/")) new /\
    EOpenCopy (c_lit "/t.old/hosts/me") 420 ∈ new.
Proof.
  assert (exists new, @fs_cp_r greatest tree_env 5 (c_lit "/t") (c_lit "/t.old") [] = Ret (true, new) /\
    EOpenCopy (c_lit "/t.old/hosts/me") 420 ∈ new) as (new & E & Hin).
  { eexists. split; [vm_compute; reflexivity|]. set_solver. }
  exists new. split; [exact E|]. split; [|exact Hin].
  destruct (@fs_cp_r_stays_below greatest greatest_ptrdiff tree_env tree_env_ok 5 (c_lit "/t") (c_lit "/t.old") [] true new)
    as (new' & -> & Hn); [by repeat constructor | done | exact E | exact Hn].
Defined.

(** The path buffer is not terminated after the copy of a file, so the times of the
    directory hosts are set on the file copied last and never on the directory. *)
Example fs_cp_r_utimes_of_file :
  exists new, @fs_cp_r greatest tree_env 5 (c_lit "/t") (c_lit "/t.old") [] = Ret (true, new) /\
    EUtimes (c_lit "/t.old/hosts/me") ∈ new /\ EUtimes (c_lit "/t.old/hosts/") ∉ new.
Proof.
  eexists. split; [vm_compute; reflexivity|]. split; [set_solver|].
  intros Hin. vm_compute in Hin. repeat (apply elem_of_cons in Hin as [Hin|Hin]; [done|]). by apply not_elem_of_nil in Hin.
Qed.
