(* ===== verification/MainProps.v ===== *)
(** * The loop of the main process

    Updates happen when they are due, a signal to stop ends the loop with the pass in
    which it comes in, and the worker is told to restart tincd behind the updates that
    put an authentic configuration in force and behind no other. *)

From S2P Require Import Prelude CLib CString StrBuf StrSafe StrFmt AddrMask PeerParser Config World Fs FsCopy Tinc.
From S2P Require Import NumericHost Ar ConfigInit Http Crypto Sample Request RequestProps Daemon Worker Main Quiet.

(** The seconds slept in a list of requests. *)
Fixpoint slept (new : trace) : Z :=
  match new with
  | [] => 0
  | ESleep s :: new => s + slept new
  | _ :: new => slept new
  end.

Lemma slept_app a b : slept (a ++ b) = slept a + slept b.
Proof. induction a as [|e a IH]; [done|]. destruct e; cbn [slept app]; rewrite IH; lia. Qed.

(** What the C library promises: as long as no signal comes in, [sleep] lasts as
    long as asked, and the clock does not go back. *)
Class Clock (E : Environment) : Prop := {
  clock_slept : forall t new, os_time t + slept new <= os_time (t ++ new);
  no_signals : forall t, os_signals t = []
}.

Definition waiting (e : event) : Prop :=
  match e with ESleep 60 | ESignals | ETime => True | _ => False end.

Section Wait.
Context `{Environment}.
Variable pid : Z.

Definition flags_clear (st : main_state) : Prop :=
  r_sighup st = false /\ r_sigterm st = false /\ r_sigint st = false.

(** One poll when no signal comes in. *)
Lemma poll_quiet `{!Clock _} st t : poll pid st t = Ret (st, t ++ [ESignals]).
Proof. unfold poll, sys_signals, request, mbind, io_bind. by rewrite no_signals. Qed.

(** A turn that finds the update not due yet. *)
Lemma wait_turn `{!Clock _} turns st t :
  flags_clear st ->
  wait_loop pid (S turns) st t =
    if nextupdate st <? os_time (t ++ [ESleep 60; ESignals])
    then Ret ((true, st), t ++ [ESleep 60; ESignals; ETime])
    else wait_loop pid turns st (t ++ [ESleep 60; ESignals; ETime; ESignals]).
Proof.
  intros (H1 & H2 & H3). cbn [wait_loop]. unfold sys_sleep, sys_time, request, mbind, io_bind.
  rewrite poll_quiet, H1. rewrite <- app_assoc. cbn [app].
  destruct (_ <? _); [by rewrite <- app_assoc|].
  rewrite poll_quiet, H2, H3, <- !app_assoc. done.
Qed.

(** C14. An update comes when it is due.  While no signal comes in, the waiting loop
    ends after at most as many turns as there are minutes left, and one more; it ends
    with an update, when the clock has passed nextupdate and not before; until then it
    only sleeps and looks, and sleeps at most a minute longer than was left. *)
Theorem wait_loop_due `{!Clock _} turns st t :
  flags_clear st -> (0 < turns)%nat -> nextupdate st - os_time t < 60 * Z.of_nat turns ->
  runs (wait_loop pid turns st) t (fun r new =>
    r = (true, st) /\
    (exists u, new = u ++ [ETime] /\ nextupdate st < os_time (t ++ u)) /\
    Forall waiting new /\ slept new <= Z.max 0 (nextupdate st - os_time t) + 60).
Proof.
  intros Hf. revert t; induction turns as [|turns IH]; intros t Hpos Hdue; [lia|].
  unfold runs. rewrite wait_turn by done.
  pose proof (clock_slept t [ESleep 60; ESignals]) as Hc1. cbn [slept] in Hc1.
  destruct (Z.ltb_spec (nextupdate st) (os_time (t ++ [ESleep 60; ESignals]))) as [Hnow|Hnot].
  - exists (true, st), [ESleep 60; ESignals; ETime]. split; [done|]. split_and!; [done | | | cbn [slept]; lia].
    + by exists [ESleep 60; ESignals].
    + repeat constructor.
  - pose proof (clock_slept t [ESleep 60; ESignals; ETime; ESignals]) as Hc2. cbn [slept] in Hc2.
    pose proof (clock_slept (t ++ [ESleep 60; ESignals]) [ETime; ESignals]) as Hc3.
    rewrite <- app_assoc in Hc3. cbn [slept app] in Hc3.
    destruct (IH (t ++ [ESleep 60; ESignals; ETime; ESignals])) as (r & new & E & -> & (u & -> & Hu) & Hw & Hs); [lia|lia|].
    exists (true, st), ([ESleep 60; ESignals; ETime; ESignals] ++ u ++ [ETime]).
    split; [by rewrite E, <- !app_assoc|]. split_and!; [done | | |].
    + exists ([ESleep 60; ESignals; ETime; ESignals] ++ u). by rewrite <- app_assoc in Hu.
    + apply Forall_app. split; [repeat constructor | done].
    + rewrite slept_app. cbn [slept]. lia.
Qed.

End Wait.

(** ** Stopping *)

Definition is_stop (sig : Z) : bool := (sig =? SIGTERM) || (sig =? SIGINT).

(** Not a sleep. *)
Definition awake (e : event) : Prop := match e with ESleep _ => False | _ => True end.

Definition no_look (e : event) : Prop := match e with ESignals => False | _ => True end.

Section StopSignals.
Context `{Environment}.

(** At this request, made after the history [t], a signal to stop has come in. *)
Definition stop_at (t : trace) (e : event) : bool :=
  match e with ESignals => existsb is_stop (os_signals t) | _ => false end.

(** At one of the requests in [new] it has. *)
Fixpoint stop_in (t new : trace) : bool :=
  match new with [] => false | e :: new => stop_at t e || stop_in (t ++ [e]) new end.

(** Behind the first request at which it has, there is no more sleeping. *)
Fixpoint awake_after (t new : trace) : Prop :=
  match new with
  | [] => True
  | e :: new => (stop_at t e = true -> Forall awake new) /\ awake_after (t ++ [e]) new
  end.

Lemma stop_in_app t a b : stop_in t (a ++ b) = stop_in t a || stop_in (t ++ a) b.
Proof.
  revert t; induction a as [|e a IH]; intros t; cbn [stop_in app]; [by rewrite app_nil_r|].
  by rewrite IH, <- app_assoc, orb_assoc.
Qed.

Lemma stop_in_none t new : Forall no_look new -> stop_in t new = false.
Proof.
  intros Hn. revert t; induction Hn as [|e new He Hn IH]; intros t; cbn [stop_in]; [done|].
  rewrite IH. by destruct e.
Qed.

Lemma awake_after_app t a b :
  awake_after t a -> awake_after (t ++ a) b -> (stop_in t a = true -> Forall awake b) -> awake_after t (a ++ b).
Proof.
  revert t; induction a as [|e a IH]; intros t; cbn [awake_after stop_in app]; [by rewrite app_nil_r|].
  intros [Ha1 Ha2] Hb Hs. split.
  - intros Hst. apply Forall_app. split; [by apply Ha1|]. apply Hs. by rewrite Hst.
  - apply IH; [done | by rewrite <- app_assoc |]. intros Hst. apply Hs. rewrite Hst. apply orb_true_r.
Qed.

Lemma awake_after_all t new : Forall awake new -> awake_after t new.
Proof. intros Hn. revert t; induction Hn as [|e new He Hn IH]; intros t; by split. Qed.

End StopSignals.

Section Stop.
Context `{Allocator} `{Resolver} `{Environment} `{ConfigParser} `{Network} `{OpenSSL} `{Zlib}.
Variable fuel : nat.
Variable agent : strbuf.
Variable httpres pid : Z.

(** SIGTERM or SIGINT has come in. *)
Definition stopping (st : main_state) : bool := r_sigterm st || r_sigint st.

Lemma handle_signals_spec sigs st t st' t' :
  handle_signals pid st sigs t = Ret (st', t') ->
  t' = t /\ m_update st' = m_update st /\ stopping st' = stopping st || existsb is_stop sigs.
Proof using Type.
  revert st t; induction sigs as [|sig sigs IH]; intros st t E; cbn [handle_signals] in E.
  - apply io_ret_inv in E as [-> ->]. by rewrite orb_false_r.
  - apply io_bind_inv in E as (st1 & t1 & E1 & E). destruct (IH _ _ E) as (-> & -> & ->). cbn [existsb].
    unfold handle_signal, p_sigchild in E1. unfold is_stop, stopping.
    repeat match type of E1 with (if ?a =? ?b then _ else _) _ = _ => destruct (Z.eqb_spec a b) as [->|] end;
      try (apply io_ret_inv in E1 as [-> ->]; split_and!; [done..|]; cbn [r_sigterm r_sigint m_update]).
    all: try (cbn; destruct (r_sigterm st), (r_sigint st), (existsb is_stop sigs); reflexivity).
    all: try (by apply io_bind_inv in E1 as ([? ?] & ? & _ & E1)).
Qed.

(** What one look at the flags brings. *)
Lemma poll_spec st t st' t' :
  poll pid st t = Ret (st', t') ->
  t' = t ++ [ESignals] /\ m_update st' = m_update st /\ stopping st' = stopping st || stop_at t ESignals.
Proof using Type.
  intros E. unfold poll in E. apply io_bind_inv in E as (sigs & t1 & E1 & E).
  apply io_request_inv in E1 as [-> ->]. by apply handle_signals_spec in E.
Qed.

(** The waiting ends with a signal to stop, or for an update; it goes on sleeping only
    as long as none has come in. *)
Lemma wait_loop_spec turns st t b st' t' :
  stopping st = false -> wait_loop pid turns st t = Ret ((b, st'), t') ->
  exists new, t' = t ++ new /\ m_update st' = m_update st /\ Forall no_command new /\
    stopping st' = stop_in t new /\ awake_after t new /\ (b = false -> stopping st' = true).
Proof using Type.
  revert st t; induction turns as [|turns IH]; intros st t Hst E; cbn [wait_loop] in E; [done|].
  apply io_bind_inv in E as ([] & t1 & E1 & E). apply io_request_inv in E1 as [_ ->].
  apply io_bind_inv in E as (st1 & t2 & E2 & E). apply poll_spec in E2 as (-> & Hu1 & Hs1). rewrite Hst in Hs1. cbn [orb] in Hs1.
  rewrite <- Hu1. rewrite <- !app_assoc in E. cbn [app] in E.
  assert (Forall no_command [ESleep 60; ESignals] /\ stopping st1 = stop_in t [ESleep 60; ESignals] /\
    awake_after t [ESleep 60; ESignals]) as (Hn1 & Hst1 & Ha1).
  { split_and!; [by repeat constructor | cbn [stop_in]; rewrite Hs1; cbn; by rewrite orb_false_r |].
    cbn. by split_and!; repeat constructor. }
  destruct (r_sighup st1).
  { apply io_ret_inv in E as [E ->]. injection E as -> ->. by exists [ESleep 60; ESignals]. }
  apply io_bind_inv in E as (now & t3 & E3 & E). apply io_request_inv in E3 as [_ ->].
  rewrite <- app_assoc in E. cbn [app] in E.
  assert (stop_in t [ESleep 60; ESignals; ETime] = stopping st1 /\ awake_after t [ESleep 60; ESignals; ETime]) as (Hst1' & Ha1').
  { change [ESleep 60; ESignals; ETime] with ([ESleep 60; ESignals] ++ [ETime]).
    split; [rewrite stop_in_app, <- Hst1; cbn; by rewrite orb_false_r|].
    apply awake_after_app; [done | by cbn | intros _; by repeat constructor]. }
  destruct (_ <? _).
  { apply io_ret_inv in E as [E ->]. injection E as -> ->. exists [ESleep 60; ESignals; ETime].
    split_and!; [done | done | by repeat constructor | done.. ]. }
  apply io_bind_inv in E as (st2 & t4 & E4 & E). apply poll_spec in E4 as (-> & Hu2 & Hs2).
  rewrite <- Hu2. rewrite <- app_assoc in E. cbn [app] in E.
  set (n4 := [ESleep 60; ESignals; ETime; ESignals]) in *.
  assert (Forall no_command n4 /\ stopping st2 = stop_in t n4 /\ awake_after t n4) as (Hn4 & Hst4 & Ha4).
  { change n4 with ([ESleep 60; ESignals; ETime] ++ [ESignals]). split_and!; [by repeat constructor | |].
    - rewrite stop_in_app, Hst1'. cbn [stop_in]. by rewrite orb_false_r, Hs2.
    - apply awake_after_app; [done | cbn; by split_and!; repeat constructor | intros _; by repeat constructor]. }
  change (r_sigterm st2 || r_sigint st2) with (stopping st2) in E. destruct (stopping st2) eqn:Est2.
  - apply io_ret_inv in E as [E ->]. injection E as -> ->. exists n4. by rewrite Est2.
  - destruct (IH _ _ Est2 E) as (n5 & -> & -> & Hn5 & Hst5 & Ha5 & Hb). exists (n4 ++ n5).
    rewrite app_assoc, stop_in_app, <- Hst4. cbn [orb]. split_and!; [done | done | by apply Forall_app | done | | done].
    apply awake_after_app; [done..|]. by rewrite <- Hst4.
Qed.

(** An update, with the command to the worker behind it: signals that come in
    meanwhile are looked at afterwards. *)
Lemma update_step_spec st t st' t' :
  update_step fuel agent httpres st t = Ret (st', t') ->
  exists new, t' = t ++ new /\ stopping st' = stopping st /\ Forall awake new /\ Forall no_look new.
Proof using Type.
  intros E. unfold update_step in E. apply io_bind_inv in E as ([r u] & t1 & E1 & E).
  destruct (emits_run _ _ _ _ _ (main_fetch_and_apply_config_quiet _ _ _ _) E1) as (n1 & -> & Hn1).
  apply io_bind_inv in E as ([] & t2 & E2 & E). apply io_ret_inv in E as [-> ->].
  assert (exists n2, t2 = (t ++ n1) ++ n2 /\ Forall awake n2 /\ Forall no_look n2) as (n2 & -> & Hn2 & Hl2).
  { destruct (_ || _).
    - apply io_ret_inv in E2 as [_ ->]. exists []. by rewrite app_nil_r.
    - unfold handler_restart_tincd, handler in E2. apply io_bind_inv in E2 as (ok & t3 & E3 & E2).
      apply io_request_inv in E3 as [_ ->]. destruct (negb ok); [done|]. apply io_ret_inv in E2 as [_ ->].
      eexists. split; [done|]. by repeat constructor. }
  exists (n1 ++ n2). rewrite app_assoc. split_and!; [done | done | apply Forall_app; split; [|done]..].
  all: eapply list.Forall_impl; [exact Hn1|]; by intros [].
Qed.

Lemma main_turn_spec st t again st' t' :
  stopping st = false -> main_turn fuel agent httpres pid st t = Ret ((again, st'), t') ->
  exists new, t' = t ++ new /\ awake_after t new /\ stopping st' = stop_in t new /\ again = negb (stop_in t new).
Proof using Type.
  intros Hst E. unfold main_turn, main_updated in E.
  apply io_bind_inv in E as (st1 & t1 & E1 & E). apply io_bind_inv in E1 as (now & t0 & E0 & E1).
  apply io_request_inv in E0 as [_ ->]. apply io_ret_inv in E1 as [-> ->].
  apply io_bind_inv in E as ([update st2] & t2 & E2 & E).
  apply wait_loop_spec in E2 as (n2 & -> & _ & _ & Hs2 & Ha2 & Hb); [|done].
  assert (stop_in t ([ETime] ++ n2) = stopping st2 /\ awake_after t ([ETime] ++ n2)) as [Hs2' Ha2'].
  { rewrite stop_in_app, Hs2. split; [done|]. by split. }
  rewrite <- app_assoc in E. destruct update; cbn [negb] in E.
  2: { apply io_ret_inv in E as [E ->]. injection E as -> ->. exists ([ETime] ++ n2). split_and!; [done | done | done |].
       by rewrite Hs2', Hb. }
  apply io_bind_inv in E as (st3 & t3 & E3 & E). apply update_step_spec in E3 as (n3 & -> & Hs3 & Ha3 & Hl3).
  apply io_bind_inv in E as (st4 & t4 & E4 & E). apply poll_spec in E4 as (-> & _ & Hs4).
  apply io_ret_inv in E as [E ->]. injection E as -> ->. exists (([ETime] ++ n2) ++ n3 ++ [ESignals]).
  assert (stop_in t (([ETime] ++ n2) ++ n3 ++ [ESignals]) = stopping st4) as Hst4.
  { rewrite stop_in_app, Hs2', stop_in_app, (stop_in_none _ n3), Hs4, Hs3 by done. cbn [stop_in orb].
    by rewrite orb_false_r, <- !app_assoc. }
  split_and!; [by rewrite <- !app_assoc | | done |].
  - apply awake_after_app; [done | | intros _; apply Forall_app; split; [done | by repeat constructor]].
    apply awake_after_all, Forall_app. split; [done | by repeat constructor].
  - rewrite Hst4. unfold stopping. by rewrite negb_orb.
Qed.


End Stop.


(** ** The configuration in force *)

(** An update changes nothing of the settings but these three fields. *)
Definition same_settings (c c' : config) : Prop :=
  exists since my_peer peers, c' = cset_peer_config (cset_my_peer (cset_ifmodifiedsince c since) my_peer) peers.

Lemma same_settings_refl c : same_settings c c.
Proof. exists (cf_ifmodifiedsince c), (cf_my_peer c), (cf_peer_config c). by destruct c. Qed.

Lemma same_settings_trans c c' c'' : same_settings c c' -> same_settings c' c'' -> same_settings c c''.
Proof. intros (a & b & d & ->) (a' & b' & d' & ->). exists a', b', d'. by destruct c. Qed.

Section InForce.
Context `{Allocator} `{Resolver} `{Environment} `{ConfigParser} `{Network} `{OpenSSL} `{Zlib}.
Hypothesis Hptr : alloc_ptrdiff.
Variable fuel : nat.
Variable agent : strbuf.
Variable httpres pid : Z.

Lemma same_settings_key c c' :
  same_settings c c' -> cf_masterdata_signkey c' = cf_masterdata_signkey c /\
    forall data, authentic c' data -> authentic c data.
Proof using Type.
  intros (a & b & d & ->). unfold authentic. by destruct c.
Qed.

Lemma main_parse_config_settings c heap s ok c' heap' :
  main_parse_config c heap s = Ret (ok, c', heap') -> same_settings c c'.
Proof using Type.
  intros E. unfold main_parse_config in E. unwind E; injection E as _ <- _.
  - eexists (cf_ifmodifiedsince c), (cf_my_peer c), _. by destruct c.
  - eexists (cf_ifmodifiedsince c), _, _. by destruct c.
Qed.

Lemma apply_config_settings st s t r st' t' :
  apply_config fuel st s t = Ret ((r, st'), t') -> same_settings (us_config st) (us_config st').
Proof using Type.
  intros E. unfold apply_config in E.
  unwind_io E; apply io_ret_inv in E as [E _]; injection E as _ ->; [apply same_settings_refl|..];
    match goal with E : main_parse_config _ _ _ = _ |- _ => apply main_parse_config_settings in E as Hp end;
    cbn [us_config]; try done.
  eapply same_settings_trans; [exact Hp|].
  match goal with E : main_free_parsed_info ?c _ = _ |- _ =>
    unfold main_free_parsed_info in E; unwind E; injection E as <- _;
    exists (cf_ifmodifiedsince c), (cf_my_peer c), []; by destruct c end.
Qed.

Lemma fetch_settings st t r st' t' :
  main_fetch_and_apply_config fuel agent httpres st t = Ret ((r, st'), t') ->
  same_settings (us_config st) (us_config st').
Proof using Type.
  intros E. unfold main_fetch_and_apply_config in E. unwind_io E.
  all: match goal with E : main_request_config _ _ _ ?c _ _ = _ |- _ =>
         apply main_request_config_since in E as (since & ->);
         assert (same_settings c (cset_ifmodifiedsince c since)) as Hc
           by (exists since, (cf_my_peer c), (cf_peer_config c); by destruct c) end.
  - apply io_ret_inv in E as [E _]. by injection E as _ ->.
  - apply apply_config_settings in E. by eapply same_settings_trans.
  - apply apply_config_settings in E. by eapply same_settings_trans.
Qed.

Lemma fetch_range st t r st' t' :
  main_fetch_and_apply_config fuel agent httpres st t = Ret ((r, st'), t') -> r = -1 \/ r = 0 \/ r = 1.
Proof using Type.
  intros E. unfold main_fetch_and_apply_config, apply_config in E.
  unwind_io E; apply io_ret_inv in E as [E _]; injection E as -> _; auto.
Qed.

(** What the main loop may have done from the history [t0] on: requests that command
    nothing, and updates, each with a restart of tincd right behind it when it gave 1
    and none when it gave -1 or 0.  The first two arguments are where it began, the
    last two where it is. *)
Inductive ran (u0 : update_state) (t0 : trace) : update_state -> trace -> Prop :=
| ran_start : ran u0 t0 u0 t0
| ran_quiet u t n : ran u0 t0 u t -> Forall no_command n -> ran u0 t0 u (t ++ n)
| ran_update u t r u' t' :
    ran u0 t0 u t -> main_fetch_and_apply_config fuel agent httpres u t = Ret ((r, u'), t') ->
    ran u0 t0 u' (t' ++ if r =? 1 then [EHandler HANDLER_RESTART_TINCD] else []).

(** The heads and the end of the passes of the main loop. *)
Inductive reached (st0 : main_state) (t0 : trace) : bool -> main_state -> trace -> Prop :=
| reached_start : reached st0 t0 true st0 t0
| reached_turn st t again st' t' :
    reached st0 t0 true st t -> main_turn fuel agent httpres pid st t = Ret ((again, st'), t') ->
    reached st0 t0 again st' t'.

Lemma main_loop_reached rounds st0 t0 st t st' t' :
  reached st0 t0 true st t -> main_loop fuel agent httpres pid rounds st t = Ret (st', t') ->
  reached st0 t0 false st' t'.
Proof using Type.
  revert st t; induction rounds as [|rounds IH]; intros st t Hr E; cbn [main_loop] in E; [done|].
  apply io_bind_inv in E as ([again st1] & t1 & E1 & E). destruct again.
  - eapply IH; [|exact E]. by eapply reached_turn.
  - apply io_ret_inv in E as [-> ->]. by eapply reached_turn.
Qed.

(** *** The passes of the loop are such runs *)

Lemma handle_signals_exits sigs st t n t' :
  handle_signals pid st sigs t = Exits n t' -> exists new, t' = t ++ new /\ Forall no_command new.
Proof using Type.
  assert (forall sig st, emits no_command (handle_signal pid st sig)) as He.
  { intros sig st1. unfold handle_signal, p_sigchild, sys_waitpid. emits_tac; done. }
  intros E. assert (emits no_command (handle_signals pid st sigs)) as Hs; [|by eapply emits_exits].
  clear E. revert st; induction sigs as [|sig sigs IH]; intros st; cbn [handle_signals]; [apply emits_ret|].
  apply emits_bind; [apply He | apply IH].
Qed.

Lemma poll_exits st t n t' : poll pid st t = Exits n t' -> exists new, t' = t ++ new /\ Forall no_command new.
Proof using Type.
  intros E. unfold poll in E. apply io_bind_exits in E as [E|(sigs & t1 & E1 & E)]; [done|].
  apply io_request_inv in E1 as [_ ->]. apply handle_signals_exits in E as (new & -> & Hn).
  exists (ESignals :: new). rewrite <- app_assoc. split; [done | by constructor].
Qed.

Lemma poll_quiet_command st : emits no_command (poll pid st).
Proof using Type.
  intros t t' [st' t1 E|n t1 E].
  - apply poll_spec in E as (-> & _). exists [ESignals]. split; [done | by repeat constructor].
  - by apply poll_exits in E.
Qed.

Lemma wait_loop_quiet turns st : emits no_command (wait_loop pid turns st).
Proof using Type.
  revert st; induction turns as [|turns IH]; intros st; cbn [wait_loop]; [apply emits_lift|].
  unfold sys_sleep, sys_time. emits_tac; try done; first [apply poll_quiet_command | apply IH].
Qed.

Lemma wait_loop_keeps turns st t b st' t' :
  wait_loop pid turns st t = Ret ((b, st'), t') -> m_update st' = m_update st.
Proof using Type.
  revert st t; induction turns as [|turns IH]; intros st t E; cbn [wait_loop] in E; [done|].
  unwind_io E; repeat match goal with E : poll _ _ _ = Ret _ |- _ => apply poll_spec in E as (-> & Hu & _); rewrite <- Hu; clear Hu end.
  - apply io_ret_inv in E as [E _]. by injection E as _ ->.
  - apply io_ret_inv in E as [E _]. by injection E as _ ->.
  - apply io_ret_inv in E as [E _]. by injection E as _ ->.
  - by eapply IH.
Qed.

(** An update and what follows it. *)
Lemma update_step_ran u0 t0 st t :
  ran u0 t0 (m_update st) t ->
  (forall st' t', update_step fuel agent httpres st t = Ret (st', t') -> ran u0 t0 (m_update st') t') /\
  (forall n t', update_step fuel agent httpres st t = Exits n t' -> exists u, ran u0 t0 u t').
Proof using Type.
  intros Hr. unfold update_step. split.
  - intros st' t' E. apply io_bind_inv in E as ([r u] & t1 & E1 & E).
    pose proof (ran_update u0 t0 _ _ _ _ _ Hr E1) as Hu. pose proof (fetch_range _ _ _ _ _ E1) as Hrange.
    apply io_bind_inv in E as ([] & t2 & E2 & E). apply io_ret_inv in E as [-> ->]. cbn [set_update m_update].
    destruct Hrange as [-> | [-> | ->]]; cbn [Z.eqb orb] in *.
    + apply io_ret_inv in E2 as [_ ->]. by rewrite app_nil_r in Hu.
    + apply io_ret_inv in E2 as [_ ->]. by rewrite app_nil_r in Hu.
    + unfold handler_restart_tincd, handler in E2. apply io_bind_inv in E2 as (ok & t3 & E3 & E2).
      apply io_request_inv in E3 as [_ ->]. destruct (negb ok); [done|]. by apply io_ret_inv in E2 as [_ ->].
  - intros n t' E. apply io_bind_exits in E as [E|([r u] & t1 & E1 & E)].
    { destruct (emits_exits _ _ _ _ _ (main_fetch_and_apply_config_quiet _ _ _ _) E) as (new & -> & Hn).
      exists (m_update st). apply ran_quiet; [done|]. eapply list.Forall_impl; [exact Hn | apply no_control_command]. }
    pose proof (ran_update u0 t0 _ _ _ _ _ Hr E1) as Hu. pose proof (fetch_range _ _ _ _ _ E1) as Hrange. exists u.
    apply io_bind_exits in E as [E|(a & t2 & _ & E)]; [|done].
    destruct Hrange as [-> | [-> | ->]]; cbn [Z.eqb orb] in *; [done..|].
    unfold handler_restart_tincd, handler in E. apply io_bind_exits in E as [E|(ok & t3 & E3 & E)]; [done|].
    apply io_request_inv in E3 as [_ ->]. destruct (negb ok); [|done]. by injection E as _ <-.
Qed.

Lemma main_turn_ran u0 t0 st t :
  ran u0 t0 (m_update st) t ->
  (forall again st' t', main_turn fuel agent httpres pid st t = Ret ((again, st'), t') -> ran u0 t0 (m_update st') t') /\
  (forall n t', main_turn fuel agent httpres pid st t = Exits n t' -> exists u, ran u0 t0 u t').
Proof using Type.
  intros Hr. unfold main_turn, main_updated.
  assert (forall st1 t1, (now ← sys_time; mret (mkmain (m_update st) (r_sigterm st) (r_sigint st) (r_sighup st)
          (now + cf_update_interval (us_config (m_update st))))) t = Ret (st1, t1) -> ran u0 t0 (m_update st1) t1) as Hstart.
  { intros st1 t1 E. apply io_bind_inv in E as (now & t2 & E2 & E). apply io_request_inv in E2 as [_ ->].
    apply io_ret_inv in E as [-> ->]. apply ran_quiet; [done | by repeat constructor]. }
  split.
  - intros again st' t' E. apply io_bind_inv in E as (st1 & t1 & E1 & E). apply Hstart in E1.
    apply io_bind_inv in E as ([update st2] & t2 & E2 & E). pose proof (wait_loop_keeps _ _ _ _ _ _ E2) as Hu.
    destruct (emits_run _ _ _ _ _ (wait_loop_quiet _ _) E2) as (n2 & -> & Hn2).
    pose proof (ran_quiet _ _ _ _ _ E1 Hn2) as H2'. rewrite <- Hu in H2'. destruct (negb update).
    { apply io_ret_inv in E as [E ->]. by injection E as _ ->. }
    apply io_bind_inv in E as (st3 & t3 & E3 & E). apply (proj1 (update_step_ran _ _ _ _ H2')) in E3.
    apply io_bind_inv in E as (st4 & t4 & E4 & E). apply io_ret_inv in E as [E ->]. injection E as _ ->.
    apply poll_spec in E4 as (-> & -> & _). apply ran_quiet; [done | by repeat constructor].
  - intros n t' E. apply io_bind_exits in E as [E|(st1 & t1 & E1 & E)]; [by apply io_bind_exits in E as [E|(? & ? & _ & E)]|].
    apply Hstart in E1. apply io_bind_exits in E as [E|([update st2] & t2 & E2 & E)].
    { destruct (emits_exits _ _ _ _ _ (wait_loop_quiet _ _) E) as (n2 & -> & Hn2). eexists. by apply ran_quiet. }
    pose proof (wait_loop_keeps _ _ _ _ _ _ E2) as Hu.
    destruct (emits_run _ _ _ _ _ (wait_loop_quiet _ _) E2) as (n2 & -> & Hn2).
    pose proof (ran_quiet _ _ _ _ _ E1 Hn2) as H2'. rewrite <- Hu in H2'. destruct (negb update); [done|].
    apply io_bind_exits in E as [E|(st3 & t3 & E3 & E)]; [by apply (proj2 (update_step_ran _ _ _ _ H2')) in E|].
    apply (proj1 (update_step_ran _ _ _ _ H2')) in E3. apply io_bind_exits in E as [E|(st4 & t4 & _ & E)]; [|done].
    apply poll_exits in E as (n4 & -> & Hn4). eexists. by apply ran_quiet.
Qed.

Lemma reached_ran st0 t0 again st t : reached st0 t0 again st t -> ran (m_update st0) t0 (m_update st) t.
Proof using Type.
  induction 1 as [|st t again st' t' _ IH E]; [apply ran_start | by apply (proj1 (main_turn_ran _ _ _ _ IH)) in E].
Qed.

(** *** What holds along such a run *)

(** A restart is due after the history [h]: an update has just ended with 1.  It put
    data in force that its download or the stored file provided and that differs from
    what was in force before. *)
Definition restart_due (u0 : update_state) (t0 h : trace) : Prop :=
  exists u hu u' s, ran u0 t0 u hu /\ main_fetch_and_apply_config fuel agent httpres u hu = Ret ((1, u'), h) /\
    content s = content (us_oldconfig u') /\ origin fuel agent httpres u hu (content s) /\
    string_equals false s (us_oldconfig u) = false.

(** The settings are those of the start, the configuration in force is the first one
    or an authentic one, and every command sent was a restart that was due. *)
Definition in_order (u0 : update_state) (t0 : trace) (u : update_state) (t : trace) : Prop :=
  same_settings (us_config u0) (us_config u) /\
  (us_oldconfig u = us_oldconfig u0 \/ authentic (us_config u0) (content (us_oldconfig u))) /\
  exists new, t = t0 ++ new /\
    forall pre c post, new = pre ++ EHandler c :: post -> c = HANDLER_RESTART_TINCD /\ restart_due u0 t0 (t0 ++ pre).

Lemma quiet_no_handler n pre c post : Forall no_command n -> n <> pre ++ EHandler c :: post.
Proof using Type.
  intros Hn ->. apply Forall_app in Hn as [_ Hn]. by apply list.Forall_cons in Hn as [Hn _].
Qed.

(** A command in a longer history is in its first part or in the second. *)
Lemma in_order_more u0 t0 new n :
  (forall pre c post, new = pre ++ EHandler c :: post -> c = HANDLER_RESTART_TINCD /\ restart_due u0 t0 (t0 ++ pre)) ->
  (forall pre c post, n = pre ++ EHandler c :: post -> c = HANDLER_RESTART_TINCD /\ restart_due u0 t0 (t0 ++ new ++ pre)) ->
  forall pre c post, new ++ n = pre ++ EHandler c :: post -> c = HANDLER_RESTART_TINCD /\ restart_due u0 t0 (t0 ++ pre).
Proof using Type.
  intros Ha Hb pre c post E. apply app_eq_inv in E as [(k & -> & Ek)|(k & -> & Ek)].
  - destruct k as [|e k]; cbn in Ek.
    + rewrite app_nil_r in *. by destruct (Hb [] c post) as [? Hd]; [|rewrite app_nil_r in Hd].
    + injection Ek as <- ->. by apply (Ha pre c k).
  - by apply (Hb k c post).
Qed.

Lemma ran_in_order u0 t0 u t :
  str_is_empty (cf_masterdata_signkey (us_config u0)) = false -> ran u0 t0 u t -> in_order u0 t0 u t.
Proof using Hptr.
  intros Hk. induction 1 as [|u t n _ (Hs & Ho & new & -> & Hc) Hn|u t r u' t' Hran (Hs & Ho & new & -> & Hc) E].
  - split_and!; [apply same_settings_refl | by left |]. exists []. rewrite app_nil_r. split; [done|].
    by intros [|] c post.
  - split_and!; [done..|]. exists (new ++ n). rewrite app_assoc. split; [done|].
    apply in_order_more; [done|]. intros pre c post En. by apply quiet_no_handler in En.
  - destruct (same_settings_key _ _ Hs) as (Hkey & Hau). rewrite <- Hkey in Hk.
    destruct (emits_run _ _ _ _ _ (main_fetch_and_apply_config_quiet _ _ _ _) E) as (n & -> & Hn).
    pose proof (fetch_settings _ _ _ _ _ E) as Hset.
    destruct (fetch_origin Hptr _ _ _ _ _ _ _ _ Hk E) as (Hold & Hone). split_and!.
    + by eapply same_settings_trans.
    + destruct Hold as [[-> _]|Horig]; [done|]. right. by eapply Hau, origin_authentic.
    + exists (new ++ n ++ if r =? 1 then [EHandler HANDLER_RESTART_TINCD] else []).
      rewrite !app_assoc. split; [done|]. rewrite <- app_assoc. apply in_order_more; [done|].
      intros pre c post En. apply app_eq_inv in En as [(k & -> & Ek)|(k & -> & Ek)].
      * destruct k as [|e k]; cbn in Ek; [|injection Ek as <- ->;
          apply Forall_app in Hn as [_ Hn]; by apply list.Forall_cons in Hn as [Hn _]].
        rewrite app_nil_r in E. destruct (Z.eqb_spec r 1) as [-> |]; [|done]. injection Ek as -> ->.
        split; [done|]. destruct (Hone eq_refl) as (s & since & Hc' & Horig & Hne & _).
        rewrite app_assoc. by exists u, (t0 ++ new), u', s.
      * destruct (Z.eqb_spec r 1) as [-> |]; [|by destruct k].
        destruct k as [|e k]; cbn in Ek; [|by destruct k]. injection Ek as <- <-.
        split; [done|]. destruct (Hone eq_refl) as (s & since & Hc' & Horig & Hne & _).
        rewrite app_nil_r, app_assoc. by exists u, (t0 ++ new), u', s.
Qed.

(** C2. The invariant of the running program, with a signature key configured: at the
    head of every pass of the main loop and at its end, what was done since the start
    is requests that command nothing, and updates with a restart of tincd right behind
    each one that gave 1 and behind no other; the settings are those of the start; the
    configuration in force is the one it started with or one that an update accepted
    as authentic, signed or stored; every command to the worker is a restart, and the
    update in front of it has just put data in force that differs from what was in
    force before.  The same holds of a pass that ends the program. *)
Theorem main_loop_invariant st0 t0 again st t :
  str_is_empty (cf_masterdata_signkey (us_config (m_update st0))) = false ->
  reached st0 t0 again st t ->
  (ran (m_update st0) t0 (m_update st) t /\ in_order (m_update st0) t0 (m_update st) t) /\
  (forall status t', main_turn fuel agent httpres pid st t = Exits status t' ->
    exists u, ran (m_update st0) t0 u t' /\ in_order (m_update st0) t0 u t').
Proof using Hptr.
  intros Hk Hr. apply reached_ran in Hr. split; [split; [done | by apply ran_in_order]|].
  intros status t' E. apply (proj2 (main_turn_ran _ _ _ _ Hr)) in E as (u & Hu). exists u.
  split; [done | by apply ran_in_order].
Qed.

End InForce.

(** ** The theorems at concrete inputs *)

(** A clock that moves with the sleeping alone. *)
Definition resting_env : Environment :=
  granting_at (fun t => 1000 + slept t) (fun _ => []) (fun _ => None) (fun _ => None) (fun _ => None) (fun _ => None).

Lemma resting_clock : Clock resting_env.
Proof. split; [|done]. intros t new. cbn. rewrite slept_app. lia. Qed.

Definition main_start (next : Z) : main_state :=
  mkmain (mkupdate update_config ∅ response0) false false false next.

Example wait_loop_due_witness :
  @runs _ (@wait_loop resting_env 77 3 (main_start 1100)) [] (fun r new =>
    r = (true, main_start 1100) /\ slept new <= 160).
Proof.
  destruct (@wait_loop_due resting_env 77 resting_clock 3 (main_start 1100) []) as (r & new & E & Hr & _ & _ & Hs);
    [done | lia | vm_compute; reflexivity |].
  exists r, new. split; [exact E | split; [exact Hr | exact Hs]].
Defined.

(** SIGTERM comes in after the worker was told something. *)
Definition ending_env : Environment :=
  granting_at (fun t => 1000 + 60 * zlen t)
    (fun t => if existsb (fun e => match e with EHandler _ => true | _ => false end) t then [SIGTERM] else [])
    (fun _ => None) (fun _ => None) (fun _ => None) (fun _ => None).

Definition run_turn : outcome_with trace (bool * main_state * trace) :=
  @main_turn greatest numeric_host ending_env backend toy_openssl toy_zlib 9 user_agent_text 0 77 (main_start 0) [].

Definition run_loop : outcome_with trace (main_state * trace) :=
  @main_loop greatest numeric_host ending_env backend toy_openssl toy_zlib 9 user_agent_text 0 77 3 (main_start 0) [].

#[local] Opaque main_loop main_turn.


Definition is_restart (e : event) : bool := match e with EHandler 1 => true | _ => false end.

Lemma restart_in t : existsb is_restart t = true -> exists pre post, t = pre ++ EHandler HANDLER_RESTART_TINCD :: post.
Proof.
  intros (e & Hin & He)%existsb_exists. apply list_elem_of_In, list_elem_of_split in Hin as (pre & post & ->).
  exists pre, post. destruct e; try discriminate He. cbn in He. by destruct command as [|[]|].
Qed.

Example main_loop_invariant_witness :
  exists st t, run_loop = Ret (st, t) /\ exists pre post, t = pre ++ EHandler HANDLER_RESTART_TINCD :: post /\
    @restart_due greatest numeric_host ending_env backend toy_openssl toy_zlib 9 user_agent_text 0
      (mkupdate update_config ∅ response0) [] pre.
Proof.
  assert (match run_loop with Ret (_, t) => existsb is_restart t | _ => false end = true) as Hb
    by (vm_compute; reflexivity).
  destruct run_loop as [[st t]| |] eqn:E; [|discriminate Hb..]. apply restart_in in Hb as (pre & post & Et).
  exists st, t. split; [done|]. exists pre, post. split; [exact Et|]. unfold run_loop in E.
  pose proof (@main_loop_reached greatest numeric_host ending_env backend toy_openssl toy_zlib 9 user_agent_text 0 77 3
    (main_start 0) [] (main_start 0) [] st t (reached_start _ _ _ _ _ _) E) as Hr.
  destruct (@main_loop_invariant greatest numeric_host ending_env backend toy_openssl toy_zlib greatest_ptrdiff
    9 user_agent_text 0 77 (main_start 0) [] false st t eq_refl Hr) as ((_ & _ & _ & new & Enew & Hc) & _).
  destruct (Hc pre HANDLER_RESTART_TINCD post) as [_ Hd]; [by rewrite <- Et, Enew | exact Hd].
Defined.
