(* ===== verification/WorkerProps.v ===== *)
(** * Whom the worker signals

    The worker runs as root and sends SIGTERM and SIGKILL.  Whatever commands and
    signals it gets, they go to the process it forked last, apart from the one
    command that is meant for a tincd it did not start; this holds for the steps that
    end the worker too. *)

From S2P Require Import Prelude CLib CString StrBuf StrSafe Config World Fs Tinc TincProps ConfigInit Sample Daemon Worker.

Section WorkerProps.
Context `{Allocator} `{Environment}.

(** [pid] is what the last [fork] in [t] answered. *)
Definition own (pid : Z) (t : trace) : Prop :=
  0 < pid /\ exists t1 t2, t = t1 ++ EFork :: t2 /\ EFork ∉ t2 /\ os_fork t1 = pid.

(** The record names no process, or the last one forked. *)
Definition tracks (di : daemon_info) (t : trace) : Prop := di_pid di = -1 \/ own (di_pid di) t.

(** After the history [t], the signals in [new] go to the last process forked, or,
    where [old] allows it, to process 1. *)
Definition signals_own (old : Prop) (t new : trace) : Prop :=
  forall pre pid sig post, new = pre ++ EKill pid sig :: post -> own pid (t ++ pre) \/ (old /\ pid = 1).

Lemma own_app pid t new : own pid t -> EFork ∉ new -> own pid (t ++ new).
Proof.
  intros (Hp & t1 & t2 & -> & Hn & Hf) Hnew. split; [done|]. exists t1, (t2 ++ new).
  split_and!; [by rewrite <- app_assoc | rewrite elem_of_app; tauto | done].
Qed.

Lemma tracks_app di t new : tracks di t -> EFork ∉ new -> tracks di (t ++ new).
Proof. intros [?|Ho] Hn; [by left|]. right. by apply own_app. Qed.

Lemma signals_own_app old t a b : signals_own old t a -> signals_own old (t ++ a) b -> signals_own old t (a ++ b).
Proof.
  intros Ha Hb pre pid sig post E.
  apply app_eq_inv in E as [(k & -> & Ek)|(k & -> & Ek)].
  - destruct k as [|e k]; cbn in Ek.
    + destruct (Hb [] pid sig post) as [Ho|]; [done| |by right]. left. by rewrite !app_nil_r in *.
    + injection Ek as <- ->. by apply (Ha pre pid sig k).
  - rewrite app_assoc. by apply (Hb k pid sig post).
Qed.

Lemma signals_own_weaken (old old' : Prop) t new : (old -> old') -> signals_own old t new -> signals_own old' t new.
Proof. intros Ho Hs pre pid sig post E. destruct (Hs _ _ _ _ E) as [|[??]]; auto. Qed.

(** Requests that fork nothing and signal only [pid]. *)
Definition only (pid : Z) (e : event) : Prop :=
  match e with EFork => False | EKill p _ => p = pid | _ => True end.

Definition calm (e : event) : Prop := match e with EFork | EKill _ _ => False | _ => True end.

Lemma calm_only pid e : calm e -> only pid e.
Proof. by destruct e. Qed.

Lemma only_no_fork pid new : Forall (only pid) new -> EFork ∉ new.
Proof. rewrite list.Forall_forall. intros Ho Hin. by apply (Ho EFork). Qed.

Lemma only_signals (old : Prop) pid t new :
  Forall (only pid) new -> own pid t \/ (old /\ pid = 1) -> signals_own old t new.
Proof.
  intros Hn Ho pre p sig post ->. apply Forall_app in Hn as [Hpre Hk].
  apply list.Forall_cons in Hk as [Hk _]. cbn in Hk. subst p.
  destruct Ho as [Ho|]; [left; apply own_app; [done | by eapply only_no_fork] | by right].
Qed.

Lemma calm_signals old t new : Forall calm new -> signals_own old t new.
Proof.
  intros Hn pre p sig post ->. apply Forall_app in Hn as [_ Hk]. by apply list.Forall_cons in Hk as [Hk _].
Qed.

Definition no_kill (e : event) : Prop := match e with EKill _ _ => False | _ => True end.

Lemma no_kill_signals old t new : Forall no_kill new -> signals_own old t new.
Proof.
  intros Hn pre p sig post ->. apply Forall_app in Hn as [_ Hk]. by apply list.Forall_cons in Hk as [Hk _].
Qed.

(** *** Computations that signal whom they may

    Started after [t], whether it returns or ends the process, [m] sends signals only
    where it may; when it returns, [Q] holds of its result and of the history. *)
Definition guarded {A} (old : Prop) (m : io A) (t : trace) (Q : A -> trace -> Prop) : Prop :=
  (forall a t', m t = Ret (a, t') -> exists new, t' = t ++ new /\ Q a t' /\ signals_own old t new) /\
  (forall n t', m t = Exits n t' -> exists new, t' = t ++ new /\ signals_own old t new).

Lemma guarded_ret {A} old (a : A) t (Q : A -> trace -> Prop) : Q a t -> guarded old (mret a) t Q.
Proof.
  intros Hq. split; [|by intros n t' E]. intros b t' [-> ->]%io_ret_inv. exists [].
  rewrite app_nil_r. split_and!; [done.. | by apply calm_signals].
Qed.

Lemma guarded_exit {A} old n t (Q : A -> trace -> Prop) : guarded old (io_exit n) t Q.
Proof.
  split; [by intros a t' E|]. intros m t' [= _ <-]. exists []. rewrite app_nil_r. split; [done | by apply calm_signals].
Qed.

Lemma guarded_bind {A B} old (m : io A) (f : A -> io B) t (Q : A -> trace -> Prop) (R : B -> trace -> Prop) :
  guarded old m t Q -> (forall a t1, Q a t1 -> guarded old (f a) t1 R) -> guarded old (m ≫= f) t R.
Proof.
  intros [Hr He] Hf. split.
  - intros b t' (a & t1 & E1 & E)%io_bind_inv. destruct (Hr _ _ E1) as (n1 & -> & Hq & Hs1).
    destruct (proj1 (Hf _ _ Hq) _ _ E) as (n2 & -> & Hq2 & Hs2). exists (n1 ++ n2). rewrite app_assoc.
    split_and!; [done.. | by apply signals_own_app].
  - intros n t' [E|(a & t1 & E1 & E)]%io_bind_exits; [by apply (He n)|].
    destruct (Hr _ _ E1) as (n1 & -> & Hq & Hs1). destruct (proj2 (Hf _ _ Hq) _ _ E) as (n2 & -> & Hs2).
    exists (n1 ++ n2). rewrite app_assoc. split; [done | by apply signals_own_app].
Qed.

Lemma guarded_weaken {A} (old old' : Prop) (m : io A) t (Q : A -> trace -> Prop) :
  (old -> old') -> guarded old m t Q -> guarded old' m t Q.
Proof.
  intros Ho [Hr He]. split.
  - intros a t' E. destruct (Hr _ _ E) as (n & ? & ? & ?). exists n. split_and!; [done.. | by eapply signals_own_weaken].
  - intros k t' E. destruct (He _ _ E) as (n & ? & ?). exists n. split; [done | by eapply signals_own_weaken].
Qed.

(** Requests that are of one kind throughout. *)
Lemma guarded_emits {A} old (m : io A) t P (Q : trace -> Prop) :
  emits P m -> (forall new, Forall P new -> signals_own old t new) -> (forall new, Forall P new -> Q (t ++ new)) ->
  guarded old m t (fun _ => Q).
Proof.
  intros Hm Hs Hq. split.
  - intros a t' E. destruct (emits_run _ _ _ _ _ Hm E) as (n & -> & Hn). exists n. auto.
  - intros k t' E. destruct (emits_exits _ _ _ _ _ Hm E) as (n & -> & Hn). exists n. auto.
Qed.

Lemma guarded_calm {A} old (m : io A) di t :
  emits calm m -> tracks di t -> guarded old m t (fun _ => tracks di).
Proof.
  intros Hm Ht. apply (guarded_emits _ _ _ calm); [done | intros; by apply calm_signals|].
  intros new Hn. apply tracks_app; [done|]. eapply (only_no_fork 0), list.Forall_impl; [exact Hn | apply calm_only].
Qed.

Lemma ifdown_calm config : emits calm (tinc_invoke_ifdown config).
Proof. unfold tinc_invoke_ifdown, sys_system. emits_tac; done. Qed.

Lemma stop_only di delay : emits (only (di_pid di)) (daemon_stop di delay).
Proof. unfold daemon_stop, sys_kill, sys_sleep. emits_tac; done. Qed.

(** Stopping: nothing, or signals to the tracked process. *)
Lemma daemon_stop_guarded old di delay t :
  tracks di t -> guarded old (daemon_stop di delay) t (fun _ => tracks di).
Proof.
  intros [Hp|Ho].
  - unfold daemon_stop. rewrite Hp. cbn [Z.eqb]. apply guarded_ret. by left.
  - apply (guarded_emits _ _ _ (only (di_pid di))); [apply stop_only | ..]; intros new Hn.
    + eapply only_signals; eauto.
    + right. apply own_app; [done | by eapply only_no_fork].
Qed.

Hypothesis fork_range : forall t, -1 <= os_fork t.

(** Starting: the process forked is the one tracked afterwards. *)
Lemma daemon_start_guarded old di t :
  guarded old (daemon_start di) t (fun r t' => fst r = true -> tracks (snd r) t').
Proof using fork_range.
  assert (emits no_kill (daemon_start di)) as Hn.
  { unfold daemon_start, sys_pipe, sys_fork, sys_setsid, sys_exec. emits_tac; done. }
  split; [|intros n t' E; destruct (emits_exits _ _ _ _ _ Hn E) as (new & -> & Hk); exists new; split; [done | by apply no_kill_signals]].
  intros [ok d] t' E. destruct (emits_run _ _ _ _ _ Hn E) as (new & Enew & Hk). exists new.
  split_and!; [done | | by apply no_kill_signals]. clear Hn Hk Enew. intros Hok. cbn in Hok. subst ok.
  unfold daemon_start in E. apply io_bind_inv in E as (fds & t1 & E1 & E).
  apply io_request_inv in E1 as [_ ->]. destruct fds as [fds|]; [|done].
  apply io_bind_inv in E as (pid & t2 & E2 & E). apply io_request_inv in E2 as [-> ->].
  destruct (Z.eqb_spec (os_fork (t ++ [EPipe])) 0) as [|Hz].
  { apply io_bind_inv in E as (? & ? & _ & E). cbn [di_path di_arguments] in E.
    destruct (di_path di), (di_arguments di); try done. }
  destruct (Z.eqb_spec (os_fork (t ++ [EPipe])) (-1)) as [|Hm]; [done|].
  apply io_ret_inv in E as [[= ->] ->]. right. cbn [snd di_pid]. pose proof (fork_range (t ++ [EPipe])). split; [lia|].
  exists (t ++ [EPipe]), []. split_and!; [done | by apply not_elem_of_nil | done].
Qed.

(** The command for a tincd of an earlier run. *)
Lemma terminate_old_guarded config di t :
  tracks di t -> guarded True (main_terminate_old_tincd config) t (fun _ => tracks di).
Proof.
  intros Ht. unfold main_terminate_old_tincd. eapply (guarded_bind _ _ _ _ (fun pid t' => tracks di t' /\ (pid = 0 \/ pid = 1))).
  - assert (emits calm (tinc_get_pid config)) as Hg.
    { unfold tinc_get_pid, fs_backticks_exec, fs_read_file, sys_popen, sys_read_file.
      destruct (string_init 256 128). emits_tac; done. }
    destruct (guarded_calm True _ _ _ Hg Ht) as [Hr He]. split; [|exact He].
    intros pid t' E. destruct (Hr _ _ E) as (new & ? & ? & ?). exists new. split_and!; [done.. | | done].
    by eapply tinc_get_pid_range.
  - intros pid t1 [Ht1 [-> | ->]]; [by apply guarded_ret|]. cbn [Z.eqb].
    apply (guarded_emits _ _ _ (only 1)).
    + unfold sys_kill, sys_sleep, main_unlink_pidfile, sys_unlink. emits_tac; done.
    + intros new Hn. eapply only_signals; [done | by right].
    + intros new Hn. apply tracks_app; [done | by eapply only_no_fork].
Qed.

(** A step that keeps the record right. *)
Definition safe (old : Prop) (m : daemon_info -> io daemon_info) : Prop :=
  forall di t, tracks di t -> guarded old (m di) t tracks.

Lemma start_safe old (m : daemon_info -> io daemon_info) di t :
  safe old m -> guarded old ('(ok, di) ← daemon_start di; if negb ok then io_exit 1 else m di) t tracks.
Proof using fork_range.
  intros Hm. eapply guarded_bind; [apply daemon_start_guarded|]. intros [[] d] t1 Hd; [|apply guarded_exit]. by apply Hm, Hd.
Qed.

Lemma handle_command_safe config foo :
  safe (foo = HANDLER_SIGNAL_OLD_TINCD) (fun di => handle_command config di foo).
Proof using fork_range.
  intros di t Ht. unfold handle_command.
  destruct (foo =? HANDLER_START_TINCD).
  { apply (start_safe _ (fun di => if cf_oneshot config then io_exit 0 else mret di)).
    intros d t1 Hd. destruct (cf_oneshot config); [apply guarded_exit | by apply guarded_ret]. }
  destruct (foo =? HANDLER_RESTART_TINCD).
  { eapply guarded_bind; [by apply daemon_stop_guarded|]. intros ? t1 Ht1.
    eapply guarded_bind; [apply (guarded_calm _ _ di); [apply ifdown_calm | done]|]. intros ? t2 Ht2. by apply guarded_ret. }
  destruct (foo =? HANDLER_STOP).
  { eapply guarded_bind; [apply (guarded_calm _ _ di); [by apply emits_request | done]|]. intros ? t1 Ht1.
    eapply guarded_bind; [apply (guarded_calm _ _ di); [apply ifdown_calm | done]|]. intros ? t2 Ht2.
    eapply guarded_bind; [by apply daemon_stop_guarded|]. intros ? t3 _. apply guarded_exit. }
  destruct (Z.eqb_spec foo HANDLER_SIGNAL_OLD_TINCD) as [->|]; [|by apply guarded_ret].
  eapply guarded_bind; [eapply guarded_weaken; [|by apply terminate_old_guarded]; done|].
  intros ? t1 Ht1. by apply guarded_ret.
Qed.

Lemma sigchild_safe config old : safe old (sigchild config).
Proof using fork_range.
  intros di t Ht. unfold sigchild.
  eapply guarded_bind; [apply (guarded_calm _ _ di); [by apply emits_request | done]|]. intros [pid status] t1 Ht1.
  destruct (_ || _); [by apply guarded_ret|]. destruct (_ =? _); [|by apply guarded_ret].
  eapply guarded_bind; [apply (guarded_calm _ _ di); [apply ifdown_calm | done]|]. intros ? t2 Ht2.
  destruct (_ && _); [apply guarded_exit|].
  eapply guarded_bind; [apply (guarded_calm _ _ di); [unfold sys_sleep; emits_tac; done | done]|]. intros ? t3 _.
  apply (start_safe _ (fun di => mret di)). intros d t4 Hd. by apply guarded_ret.
Qed.

Lemma sigterm_safe old : safe old sigterm.
Proof.
  intros di t Ht. unfold sigterm.
  eapply guarded_bind; [apply (guarded_calm _ _ di); [by apply emits_request | done]|]. intros ? t1 Ht1.
  eapply guarded_bind; [by apply daemon_stop_guarded|]. intros ? t2 _. apply guarded_exit.
Qed.

Lemma worker_step_safe config e :
  safe (e = WCommand (Some HANDLER_SIGNAL_OLD_TINCD)) (fun di => worker_step config di e).
Proof using fork_range.
  destruct e as [[foo|]| |]; cbn [worker_step]; [|apply sigterm_safe | apply sigchild_safe | apply sigterm_safe].
  intros di t Ht. eapply guarded_weaken; [|by apply handle_command_safe]. by intros ->.
Qed.

Lemma worker_run_safe config es :
  safe (WCommand (Some HANDLER_SIGNAL_OLD_TINCD) ∈ es) (fun di => worker_run config di es).
Proof using fork_range.
  induction es as [|e es IH]; intros di t Ht; cbn [worker_run]; [by apply guarded_ret|].
  eapply guarded_bind.
  - eapply guarded_weaken; [|by apply worker_step_safe]. intros ->. by left.
  - intros d t1 Hd. eapply guarded_weaken; [|by apply IH]. intros Hin. by right.
Qed.


End WorkerProps.

(** tincd is started, stopped for a new configuration, an older tincd is told to
    stop, and tincd is started again. *)
Definition worker_config : config := cset_tincd_pidfile update_config (Some (c_lit "/var/run/tinc.chaos.pid")).
Definition worker_env : Environment :=
  granting (fun _ => Some (c_lit "4711\n")) (fun _ => None) (fun _ => None) (fun _ => None).
Definition idle : daemon_info :=
  mkdaemon (Some (c_lit "/usr/sbin/tincd")) 3 (Args [Some (c_lit "/usr/sbin/tincd"); Some (c_lit "-n"); None]) (-1, -1) false (-1).
Definition worker_events : list worker_event :=
  map (fun c => WCommand (Some c)) [HANDLER_START_TINCD; HANDLER_RESTART_TINCD; HANDLER_SIGNAL_OLD_TINCD; HANDLER_START_TINCD].

(** The run goes on and the command to stop comes: the worker ends with status 0. *)
Definition stop_events : list worker_event := worker_events ++ [WCommand (Some HANDLER_STOP)].

Lemma splits_at {A} (l : list A) k n : drop n l = k -> exists before, l = before ++ k.
Proof. intros <-. exists (take n l). by rewrite take_drop. Qed.

