(* ===== verification/StartProps.v ===== *)
(** * Privileges are dropped before the network is used

    main starts as root.  Up to the point where it has given up its user and group
    for good it asks nothing of the network and tells the worker nothing. *)

From S2P Require Import Prelude CLib CString StrBuf StrFmt AddrMask PeerParser Config World Fs Tinc NumericHost.
From S2P Require Import ConfigInit Daemon Http Crypto Sample Request Worker Main.

(** Requests that neither use the network nor command the worker. *)
Definition offline (e : event) : Prop :=
  match e with EGetaddrinfo _ _ | EConnect _ _ | ESend _ | ERecv _ | EHandler _ => False | _ => True end.

Section Offline.
Context `{Allocator} `{Resolver} `{Environment} `{ConfigParser}.

Ltac off := emits_tac; done || auto with emits.

Lemma fs_mkdir_p_offline fuel path mode : emits offline (fs_mkdir_p fuel path mode).
Proof. revert path; induction fuel as [|fuel IH]; intros; cbn [fs_mkdir_p]; unfold sys_mkdir; off. Qed.

Lemma fs_read_file_offline s name : emits offline (fs_read_file s name).
Proof. unfold fs_read_file, sys_read_file. off. Qed.

Lemma tinc_get_version_offline c : emits offline (tinc_get_version c).
Proof. unfold tinc_get_version, fs_backticks_exec, sys_popen. off. Qed.
#[local] Hint Resolve fs_mkdir_p_offline fs_read_file_offline tinc_get_version_offline : emits.

Lemma init_settings_offline c : emits offline (init_settings c).
Proof. unfold init_settings, sys_stat, sys_getpwnam. off. Qed.

Lemma init_files_offline c : emits offline (init_files c).
Proof. unfold init_files, sys_stat. off. Qed.
#[local] Hint Resolve init_settings_offline init_files_offline : emits.

Lemma config_init_offline c : emits offline (config_init c).
Proof. unfold config_init, sys_read_file. off. Qed.

Lemma tun_offline : emits offline tun_check_or_create.
Proof. unfold tun_check_or_create, tun_create_dev, sys_access, sys_mkdir, sys_mknod. off. Qed.

Lemma daemonize_offline : emits offline daemonize.
Proof. unfold daemonize, sys_fork, sys_setsid, sys_chdir. off. Qed.

Lemma pidfile_offline name : emits offline (pidfile_create_pidfile name).
Proof.
  unfold pidfile_create_pidfile, sys_open_excl, sys_open_write, sys_unlink, sys_getpid, sys_write, sys_chmod. off.
Qed.

Lemma fire_up_offline : emits offline fire_up_tincd_handler.
Proof. unfold fire_up_tincd_handler, sys_pipe, sys_fork, sys_worker_ready. off. Qed.

Lemma check_root_offline : emits offline main_check_root.
Proof. unfold main_check_root, sys_getuid. off. Qed.

End Offline.

Section Start.
Context `{Allocator} `{Resolver} `{Environment} `{ConfigParser} `{OpenSSL} `{Zlib}.
Variable fuel rounds : nat.
Variable httpres : Z.
Variable t0 : trace.

(** [main] under each network, from the history [t] on: either it comes to serve with
    the ids of the configuration granted, and nothing but offline requests before, or
    it stays offline and the network plays no part in it. *)
Definition serves (m : Network -> io (option Z)) (t : trace) : Prop :=
  exists pid config agent gone,
    Forall offline gone /\
    os_setgid (t0 ++ gone) (cf_tincd_gid config) = true /\
    os_setuid (t0 ++ gone ++ [ESetgid (cf_tincd_gid config)]) (cf_tincd_uid config) = true /\
    forall N : Network, m N t =
      (r ← main_serve fuel agent httpres pid rounds config; mret (Some r))
        (t0 ++ gone ++ [ESetgid (cf_tincd_gid config); ESetuid (cf_tincd_uid config)]).

Definition stays_offline (m : Network -> io (option Z)) (t : trace) : Prop :=
  (forall N N', m N t = m N' t) /\
  (forall N r t', m N t = Ret (r, t') -> exists new, t' = t0 ++ new /\ Forall offline new).

Definition starts (m : Network -> io (option Z)) (t : trace) : Prop := serves m t \/ stays_offline m t.

(** The history so far. *)
Definition quiet_until (t : trace) : Prop := exists gone, t = t0 ++ gone /\ Forall offline gone.

Lemma quiet_more t new : quiet_until t -> Forall offline new -> quiet_until (t ++ new).
Proof using Type.
  intros (g & -> & Hg) Hn. exists (g ++ new). rewrite app_assoc. split; [done | by apply Forall_app].
Qed.

Lemma starts_bind {A} (m : io A) (f : Network -> A -> io (option Z)) t :
  emits offline m -> quiet_until t -> (forall a t1, quiet_until t1 -> starts (fun N => f N a) t1) ->
  starts (fun N => m ≫= f N) t.
Proof using Type.
  intros Hm Hq Hf. destruct (m t) as [[a t1]|n tn|] eqn:E.
  - destruct (emits_run _ _ _ _ _ Hm E) as (new & -> & Hn).
    assert (forall N, (m ≫= f N) t = f N a (t ++ new)) as Eq by (intros N; unfold mbind, io_bind; by rewrite E).
    destruct (Hf a _ (quiet_more _ _ Hq Hn)) as [(pid & c & ag & g & Hg & H1' & H2' & Es)|[Hs1 Hs2]].
    + left. exists pid, c, ag, g. split_and!; [done..|]. intros N. by rewrite Eq.
    + right. split; [intros N N'; by rewrite !Eq | intros N r t'; rewrite Eq; by apply Hs2].
  - right. split; intros; unfold mbind, io_bind in *; rewrite E in *; done.
  - right. split; intros; unfold mbind, io_bind in *; rewrite E in *; done.
Qed.

Lemma starts_ret r t : quiet_until t -> starts (fun _ => mret r) t.
Proof using Type. intros Hq. right. split; [done|]. intros N r' t' [_ ->]%io_ret_inv. exact Hq. Qed.

Lemma starts_exit n t : starts (fun _ => io_exit n) t.
Proof using Type. right. by split. Qed.

(** The two calls that give the privileges up. *)
Lemma starts_drop agent pid config t :
  quiet_until t ->
  starts (fun N => g ← sys_setgid (cf_tincd_gid config);
                   if negb g then io_exit 1
                   else u ← sys_setuid (cf_tincd_uid config);
                        if negb u then io_exit 1
                        else r ← main_serve fuel agent httpres pid rounds config; mret (Some r)) t.
Proof using Type.
  intros (gone & -> & Hg). destruct (os_setgid (t0 ++ gone) (cf_tincd_gid config)) eqn:Eg.
  2: { right. split; intros; unfold sys_setgid, request, mbind, io_bind in *; rewrite Eg in *; done. }
  destruct (os_setuid (t0 ++ gone ++ [ESetgid (cf_tincd_gid config)]) (cf_tincd_uid config)) eqn:Eu.
  - left. exists pid, config, agent, gone. split_and!; [done..|]. intros N.
    unfold sys_setgid, sys_setuid, request, mbind, io_bind. rewrite Eg. cbn [negb].
    rewrite <- app_assoc, Eu. cbn [negb]. by rewrite <- !app_assoc.
  - right. split; intros; unfold sys_setgid, sys_setuid, request, mbind, io_bind in *; rewrite Eg in *;
      cbn [negb] in *; rewrite <- app_assoc, Eu in *; done.
Qed.


End Start.
