(* ===== verification/Tests.v ===== *)
(** * The test programs: test_addrmask.c, string/test.c and httplib/test.c

    Each program is the composition of library calls it is, down to its messages,
    so that running it here runs the definitions of the library together. *)

From S2P Require Import Prelude CLib CString StrBuf StrSafe StrFmt Log AddrMask NumericHost AddrMaskProps World Http Sample.

(** [printf] and [puts], as the text they print. *)
Definition printf (format : text) (args : list arg) : outcome text :=
  match vfprintf format args with Some t => Ret t | None => Undef end.

Definition puts (s : text) : text := s ++ [10].

Section Tests.
Context `{Allocator} `{Resolver}.

(** ** test_addrmask.c *)

(** The steps for one address; the string is ended and printed. *)
Definition test_address (literal parse_failed : text) : outcome unit :=
  ip ← addrmask_parse literal;
  match ip with
  | None => _ ← log_err parse_failed []; Exit 1
  | Some ip =>
      _ ← log_info (c_lit "ip addr_family = %d, (v4=%d, v6=%d)\n") [AInt (addr_family ip); AInt AF_INET; AInt AF_INET6];
      let '(_, str) := string_init 128 128 in
      '(ret, str) ← addrmask_to_string str ip;
      if negb ret then _ ← log_err (c_lit "addrmask_to_string(&str, &ip) failed.\n") []; Exit 1
      else
        '(_, str) ← string_ensurez str;
        t ← cstr_of str;
        _ ← log_info (c_lit "addrmask_to_string(): %s\n") [AStr (Some t)];
        Ret tt
  end.

Definition test_addrmask : outcome unit :=
  _ ← log_info (c_lit "test_addrmask started.\n") [];
  _ ← test_address (c_lit "127.0.0.1/8") (c_lit "addrmask_parse(&ip, \q127.0.0.1/8\q) failed.\n");
  _ ← test_address (c_lit "fe80::227:13ff:feb5:160e/64") (c_lit "addrmask_parse(&ip, \qfe80::227:13ff:feb5:160e/64\q) failed.\n");
  _ ← log_info (c_lit "test_addrmask finished.\n") [];
  Exit 0.

(** ** string/test.c *)

Fixpoint concat_times (n : nat) (s : strbuf) (t : text) : outcome strbuf :=
  match n with O => Ret s | S n => '(_, s) ← string_concat s t; concat_times n s t end.

Fixpoint concat_args (s : strbuf) (argv : list text) : outcome strbuf :=
  match argv with [] => Ret s | a :: argv => '(_, s) ← string_concat s a; concat_args s argv end.

(** The body of the inner loop, for an initial size and an increment. *)
Definition test_growth (j k : Z) : outcome text :=
  l1 ← printf (c_lit "Testing with isize=%d growby=%d\n") [AInt j; AInt k];
  let '(_, args) := string_init j k in
  args ← concat_times 100 args (c_lit "test");
  l2 ← printf (c_lit "100x test == %d len, %d size, %d grow\n")
         [AInt (s32 (s_length args)); AInt (s32 (s_size args)); AInt (s32 (s_growby args))];
  Ret (l1 ++ l2).

Fixpoint test_growths (cases : list (Z * Z)) : outcome text :=
  match cases with [] => Ret [] | (j, k) :: cases => l ← test_growth j k; ls ← test_growths cases; Ret (l ++ ls) end.

(** for (j = 1; j <= 3; j++) for (k = 1; k <= 200; k += 50) *)
Definition growth_cases : list (Z * Z) :=
  [(1, 1); (1, 51); (1, 101); (1, 151); (2, 1); (2, 51); (2, 101); (2, 151); (3, 1); (3, 51); (3, 101); (3, 151)].

Definition string_test (argv : list text) : outcome text :=
  let '(_, args) := string_init 1 1 in
  '(_, args) ← string_concatb args (c_lit "foo") 3;
  '(_, args) ← string_concatb args (c_lit "b") 1;
  l1 ← printf (c_lit "%d\n") [AInt (s32 (s_length args))];
  args ← concat_args args argv;
  t ← cstr_of args;
  ls ← test_growths growth_cases;
  Ret (l1 ++ puts t ++ ls).

End Tests.

(** ** httplib/test.c *)

Section HttpTest.
Context `{Allocator} `{Network}.

(** What it prints; [argv] is without the name of the program, [ser] what the
    variable [ser] holds at the start. *)
Definition http_test (fuel : nat) (ser : Z) (argv : list text) : io text :=
  match argv with
  | [] => io_exit 1
  | url :: _ =>
      '(_, inp) ← lift (string_initfromstringz url);
      '(_, ua) ← lift (string_initfromstringz (c_lit "testclient"));
      '(res, buffer, ser) ← http_get fuel inp (string_lazyinit 8192) 123 ua ser;
      l1 ← lift (printf (c_lit "calling geturl: %d\n") [AInt res]);
      if res =? 0 then
        t ← lift (cstr_of buffer);
        l2 ← lift (if ser =? 200 then Ret [] else printf (c_lit "Err: %d\n") [AInt ser]);
        l3 ← lift (printf (c_lit "Res: %s\n") [AStr (Some t)]);
        mret (puts url ++ l1 ++ l2 ++ l3)
      else mret (puts url ++ l1)
  end.

End HttpTest.

(** ** Their runs *)

(** [numeric_host], which also knows the compressed form the test uses. *)
Definition test_host : Resolver := {|
  getaddrinfo := fun family host =>
    if (family =? AF_INET6) && bool_decide (host = c_lit "fe80::227:13ff:feb5:160e")
    then Some [254; 128; 0; 0; 0; 0; 0; 0; 2; 39; 19; 255; 254; 181; 22; 14]
    else @getaddrinfo numeric_host family host;
  inet_ntop := @inet_ntop numeric_host
|}.

(** The test of the addresses passes. *)
Lemma test_addrmask_passes : @test_addrmask roomy test_host = Exit 0.
Proof. by vm_compute. Qed.

(** The test of the buffers ends inside its buffers; here is what it prints first. *)
Lemma string_test_runs : exists out, @string_test roomy [c_lit "./test"; c_lit "x"] = Ret out /\
  ztake 14 out = c_lit "4\nfoob./testx\n".
Proof. eexists. split; [by vm_compute | by vm_compute]. Qed.

(** The test of the downloads prints the body of a good answer. *)
Definition answering : Network := Eval vm_compute in served (http_ok (c_lit "hello" ++ [0])).

Lemma http_test_runs : exists t,
  @http_test roomy answering 20 0 [c_lit "http://example.org/x"] [] =
    Ret (c_lit "http://example.org/x\ncalling geturl: 0\nRes: hello\n", t).
Proof. eexists. by vm_compute. Qed.
